(* ===== verification/_CoqProject ===== *)
-Q . S2P
Prelude.v
Str.v
Resource.v
Fabric.v
FabricInv.v
FabricOps.v
FabricSync.v
FabricSpec.v
Interleave.v
InterleaveSolo.v
InterleaveLive.v
InterleaveSafe.v
InterleaveLocks.v
InterleaveRaces.v
F64.v
Json.v
Utf8.v
Plan.v
PlanProps.v
PlanView.v
PlanHttp.v
PlanHttpProps.v
RpcAuth.v
Rpc.v
RpcProps.v
RpcClient.v
Connections.v
Config.v
Adapters.v
GpuLocal.v
Store.v
VhostRng.v
Entropy.v
Hypervisor.v
AdapterLocks.v
Sysfs.v
Vfio.v
GpuDiscover.v
Lemonade.v
Hwinfo.v
Wgpu.v
WgpuKernel.v
Regex.v
Patterns.v
PatternNames.v
Dataset.v
Cli.v
Session.v
Inventory.v
Planes.v
AgentFiles.v
Serve.v
Fleet.v
FleetProps.v
FleetPrint.v
PlanCli.v
Topology.v
Listing.v
Discovery.v
Command.v
Testing.v
PlanTests.v
RegistryTests.v
AdapterTests.v
VmmTests.v
HardwareTests.v
DeviceTests.v
AgentTests.v
DatasetTests.v
