(* ===== verification/Prelude.v ===== *)
(** * nauti-virtualizer: a verified model of the resource fabric

    The program is one Rust crate, [nauti-fabric] (library and the [nauti]
    binary), and one side tool, [dataset-validate]. A node registers resources
    in a [Fabric], callers lease them exclusively for a time, an adapter
    attaches what a lease holds, an agent serves the same calls over a framed
    RPC behind an authorization provider, and a planner picks the host for a
    role from a snapshot of the fleet. This library models that code
    definition by definition - each operation with its guards in the order of
    the source - and proves what the operations promise one another.

    Parts, files and sources (paths under src/nauti-fabric/src/)

    - Prelude: results, the state-and-panic computations [ST], machine
      integers, instants, ordered iteration of maps, shared automation.
      Str, Utf8, F64, Json: the methods of [str], UTF-8 decoding, binary64 and
      [serde_json::Value] as the source uses them.
    - Resource (lib.rs): the data model, the error texts, request matching, and
      the interface between registry and adapters: the record
      [ResourceAdapter] of operations over a world, with the class
      [AdapterLaws] that every adapter file proves an instance of.
    - Fabric (lib.rs): every method of [Fabric] over the maps behind its locks,
      with mutex poisoning and the clock readings of a call. FabricInv: the
      invariant and that each call keeps it. FabricOps, FabricSync: what each
      call does on each branch. FabricSpec: the abstract lease service and the
      refinement.
    - Interleave (lib.rs): the same methods as processes - lock operations and
      the locked sections between them, the sections being the pieces of
      Fabric - and pools of client threads that interleave them.
      InterleaveSolo, InterleaveLive: a call that is not interrupted is the
      method; progress and termination. InterleaveSafe, InterleaveLocks: what
      holds in every schedule. InterleaveRaces: two schedules the code allows
      and its documentation does not. A pool is a list of processes with any
      type of results; a list of client programs is one kind of pool.
    - Plan, PlanProps (plan.rs): the fleet view, both planners, the head's
      order of checks. PlanView: reading the view and the latency matrix from
      JSON. PlanHttp, PlanHttpProps: the client of a remote head - URL, request,
      response, chunked bodies, status table.
    - RpcAuth, Rpc, RpcProps (rpc_auth.rs, rpc.rs): providers, frames, dispatch
      to the registry, the loop over one connection. RpcClient (rpc.rs): the
      client, one exchange with that loop, and every way it can end when the
      connection is lost in the middle. Connections (rpc.rs over lib.rs):
      that loop as a process of Interleave, and pools of connections on one
      registry. Config (config.rs): the agent's configuration and the provider
      it selects.
    - Adapters, Lemonade (adapters.rs), GpuLocal (gpu/adapter.rs), Store (store.rs),
      Hypervisor (vmm/cloud_hypervisor.rs), Vfio (vmm/vfio.rs), Hwinfo
      (hwinfo.rs), Wgpu (gpu/wgpu_remote.rs), Inventory (memory.rs, peer.rs,
      the host inventory of lib.rs): the adapters and what they act on. An
      adapter's own state sits in the world behind a [Lens] (file Adapters).
      AdapterLocks: attaching in the adapters with state, in the steps between
      which they drop their own lock.
      WgpuKernel (gpu/wgpu_kernel.rs, gpu/add.wgsl): the kernel behind a job,
      from the buffers to the invocations of the shader.
    - Sysfs, GpuDiscover (gpu/discover.rs, gpu/rocm.rs): the file system the
      discovery reads, the DRM walk and its enrichment. Topology (topology.rs,
      gpu/mod.rs): the hwloc capture and the NVML listing. Discovery (lib.rs):
      what [discover_local] and [refresh_local] assemble from all of these.
    - VhostRng, Entropy (vhost/rng.rs, vhost/entropy.rs): the rate-limited
      virtio-rng device and the remote entropy protocol.
    - The commands (bin/nauti.rs). Command: the tree of subcommands, the
      defaults of their options and the dispatch. Cli: launching a VM through the registry, the
      find query, the round-trip report. Session: the registry an agent serves,
      the lease proofs and the verbs of [nauti fabric]. Planes: the adapters a
      command registers. AgentFiles: the key and address files. Serve: the start
      of an agent. Fleet, FleetProps, FleetPrint: probing the announced agents,
      the totals, the view, its file and the table. PlanCli: [nauti plan]. Listing: the commands that print what the host has.
    - Regex, Patterns, PatternNames, Dataset (src/tools/dataset-validate/src/):
      regular expressions, with the searches of the [regex] crate as a class of
      laws and an executable matcher as its instance; the two patterns of the
      validator; the names one of them flags; the corpus validator.
    - Testing and the files that end in Tests: the [#[test]] functions of the
      crate and of the validator as boolean functions over the model, with
      their fixtures and mocks. PlanTests (plan.rs), RegistryTests (lib.rs),
      AdapterTests (adapters.rs, store.rs, gpu/adapter.rs, memory.rs, peer.rs,
      tests/lemonade_detail.rs), VmmTests (vmm/), HardwareTests (hwinfo.rs,
      topology.rs, gpu/), DeviceTests (vhost/), AgentTests (rpc_auth.rs,
      config.rs, bin/nauti.rs), DatasetTests (the validator).

    How code is represented

    A method that mutates shared state is a function from the state to an
    outcome and the state left behind; an [Err] returns early, a panic keeps
    what was done and poisons the lock it holds. A [BTreeMap] is a [gmap]
    iterated in key order by [bt_iter]; where the order of a [HashMap] can be
    seen it is an argument of the definition, except in [find_available] and
    [stale_nodes], which list in key order what the theorems speak of as a set. Integers are [Z] with their
    wrapping, saturating and checked operations written out; [f64] and [f32]
    are the standard library's binary floats; strings are their UTF-8 bytes.
    [Instant] is a number of nanoseconds whose addition fails outside the range
    of the platform.

    Code that is not the repository's is an argument: JSON and TOML parsers and
    serde's derived decoders, sockets and processes, the file system ([Fs]),
    sysinfo, NVML, wgpu, the vhost and virtio libraries, the searches of the
    [regex] crate; also the float parser and printer and Unicode case folding of
    Rust's standard library. What a theorem needs of an argument - that writing
    and reading a value round-trips, that a launcher leaves the adapter's table
    alone, that a read returns no more than asked, that a sleep lasts as long
    as asked - is a hypothesis of that theorem, and its witness instantiates
    the argument with a concrete function.

    What the theorems show

    - Registry: every reachable registry is well formed; a live lease excludes
      everybody who does not present its identifier, through any sequence of
      calls; leasing, attaching, releasing, renewing, refreshing, evicting and
      querying are characterised branch by branch; the registry refines an
      abstract table of holders. An overflowing time-to-live poisons every later
      call.
    - Concurrent callers: no schedule of any clients deadlocks or runs forever;
      a call no one interrupts is the method; in every schedule the registry is
      well formed, identifiers of leases are given once, a live lease excludes
      the others, and an adapter attaches only under the stored lease. Two limits
      are theorems too: an unregister that overlaps a lease leaves a lease
      without a resource, and a release that is overtaken detaches the new
      holder. That a call of an adapter is one section of a schedule is
      justified for the adapters that drop their lock inside one: run step by
      step, with detaches and capability reports in its gaps, an attach cannot be
      told from the same calls one after the other.
    - Planner: a placement is eligible and best by the documented score, a
      refusal means that nothing was eligible, the head's checks come in their
      order, an unmeasured link is never read as measured, and the client
      inverts the wire format and never turns a refusal into a plan.
    - Agent: frames round-trip, a session is answered in order through the
      provider, and what the time-to-live provider bounds and does not bound. A
      call over the wire ends in exactly one of the listed ways, wherever the
      connection is lost, and never in an answer the agent did not give; where
      request and response travel it is the call on the agent's registry, and
      the verbs of [nauti fabric] and the two-process proof follow. With any number of connections in any
      schedule: a connection acts on the registry only as accepted requests of
      its own stream ask, every connection can be served to its end and is
      answered in order, and a lease stays with its holder against every other
      connection that does not present it. The key of an agent is created once, an
      agent that is started again keeps its identity, the address it announces
      names it, and what it announces is what the fleet finds.
    - Fleet: the totals are the sums over the nodes that answered; the matrix the
      planner reads from a view is the table of medians measured, and a latency
      in an offline plan is one of them; the command fails exactly when nobody
      can serve the role. Every default of the command line is a value its
      consumer accepts.
    - Adapters and devices: when each attachment succeeds, what it records and
      what its release undoes, and for a VM every way it fails; the argument
      vector of a VM as the options it gives; reconciliation; VFIO and RDMA
      attachments decided by the files at that moment - a GPU without
      passthrough is refused, never reserved instead, and nothing is opened; discovery sorted and never overruled by enrichment; a refresh
      after a discovery finds nothing new; jobs only over Tailscale addresses,
      and the GPU kernel the equal of the reference sum in any order of its
      invocations; a Lemonade report that says no more than was answered.
    - Devices in user space: over the whole life of a device no rate-limit
      window is overdrawn; the entropy server answers exactly what was asked and
      refuses the rest.
    - Validator: a clean report means exactly that every rule holds; which words
      of a text are identifiers and which texts hold a secret, as sets of words
      without regular expressions; and which names of secrets are seen before a
      value, bare and in quotes, so which of the usual forms are missed.
    - Tests: the suite of each file passes, evaluated on the model; so what the
      authors of the code state of it on concrete inputs - texts, orders, error
      tokens, argument vectors, times - holds of these definitions. A test that
      looks at its machine is evaluated on machines written down there.

    Fuel and bounds

    Loops over input carry fuel that the input bounds, and a theorem says that
    it is enough: [dechunk] gets one more than the length of the body,
    [accept] and [serve_conn] one more than the bytes that arrive, because every
    turn consumes some ([accept_fuel], and [connections_answered]). The prefix loop of [read_hex] gets the length of the
    text; the eight digits of a [u32] are the fuel of [hex_go]. The identifiers of
    leases are distinct for fewer than 2^64 calls, the range of the counter.
    The order of the round-trip percentiles is shown for up to 1024 samples.

    Not modelled

    clap's splitting of the command line into options, the iroh endpoint behind
    dialling, streams and keys, the tokio runtime, wgpu below its calls, guest
    memory of rust-vmm (and the test that allocates some), the
    serializers and printers of serde and [Debug] (arguments where a result
    depends on them), the log lines; scripts, prompts and documents. In
    Interleave a call of an adapter is one section, by AdapterLocks; a panic
    inside an adapter is not modelled, as no adapter of the repository can
    panic: the only panics written there are on its own poisoned lock, which
    nothing poisons; [reconcile], which the registry never calls, is not run in
    the gaps of an attach. Of a response whose write fails, the bytes that had
    been sent are not kept, and the wait for the end of a connection after its
    stream was finished is only a return. When a task of a connection is given its next bytes is the
    schedule's choice: a stream is the bytes that will have arrived. *)

From stdpp Require Export base tactics option list gmap strings pretty sorting fin_maps.
From stdpp Require Import relations.

#[global] Open Scope Z_scope.

(** ** Rust results and the [?] operator *)

(** [Result<A, E>]. *)
Inductive result (E A : Type) : Type :=
  | Ok (a : A)
  | Err (e : E).
Arguments Ok {E A} a.
Arguments Err {E A} e.

#[export] Instance result_eq_dec `{EqDecision E, EqDecision A} :
  EqDecision (result E A).
Proof. solve_decision. Defined.

#[export] Instance result_ret {E} : MRet (result E) := fun A a => Ok a.
#[export] Instance result_bind {E} : MBind (result E) :=
  fun A B f r => match r with Ok a => f a | Err e => Err e end.
#[export] Instance result_fmap {E} : FMap (result E) :=
  fun A B f r => match r with Ok a => Ok (f a) | Err e => Err e end.

(** [Option::ok_or]. *)
Definition ok_or {E A} (o : option A) (e : E) : result E A :=
  match o with Some a => Ok a | None => Err e end.

(** [Result::map_err]. *)
Definition map_err {E F A} (f : E -> F) (r : result E A) : result F A :=
  match r with Ok a => Ok a | Err e => Err (f e) end.

Definition is_ok {E A} (r : result E A) : bool :=
  match r with Ok _ => true | Err _ => false end.

(** ** Computations that thread a state and can panic

    A Rust function that mutates shared state and may panic is a function from
    the state to an outcome and the state it leaves behind: a panic does not
    roll anything back. *)

Inductive outcome (A : Type) : Type :=
  | Done (a : A)
  | Panicked.
Arguments Done {A} a.
Arguments Panicked {A}.

#[export] Instance outcome_eq_dec `{EqDecision A} : EqDecision (outcome A).
Proof. solve_decision. Defined.

Definition ST (S A : Type) : Type := S -> outcome A * S.

#[export] Instance st_ret {S} : MRet (ST S) := fun A a s => (Done a, s).
#[export] Instance st_bind {S} : MBind (ST S) :=
  fun A B f m s =>
    match m s with
    | (Done a, s') => f a s'
    | (Panicked, s') => (Panicked, s')
    end.

Definition st_get {S} : ST S S := fun s => (Done s, s).
Definition st_modify {S} (f : S -> S) : ST S () := fun s => (Done tt, f s).
Definition st_panic {S A} : ST S A := fun s => (Panicked, s).

(** The [?] operator inside a state computation: an [Err] returns early. *)
Definition st_try {S E A B} (m : ST S (result E A)) (f : A -> ST S (result E B)) :
    ST S (result E B) :=
  m ≫= fun r => match r with Ok a => f a | Err e => mret (Err e) end.

Declare Scope nauti_scope.
Delimit Scope nauti_scope with nauti.
#[global] Open Scope nauti_scope.
Notation "'let?' x ':=' m 'in' k" := (st_try m (fun x => k))
  (at level 10, x name, m at level 100, k at level 200) : nauti_scope.

(** A property of the state that a computation keeps, whatever its outcome. *)
Definition st_pres {S A} (P : S -> Prop) (m : ST S A) : Prop :=
  forall s, P s -> P (m s).2.

(** [for x in l { f(x) }]. *)
Fixpoint st_iter {S A} (f : A -> ST S ()) (l : list A) : ST S () :=
  match l with
  | [] => mret tt
  | a :: l => f a ≫= fun _ => st_iter f l
  end.

Lemma st_pres_ret {S A} (P : S -> Prop) (a : A) : st_pres P (mret a).
Proof. by intros s. Qed.

Lemma st_pres_bind {S A B} (P : S -> Prop) (m : ST S A) (f : A -> ST S B) :
  st_pres P m -> (forall a, st_pres P (f a)) -> st_pres P (m ≫= f).
Proof.
  intros Hm Hf s Hs. unfold mbind, st_bind. specialize (Hm s Hs).
  destruct (m s) as [[a|] s']; [by apply Hf|done].
Qed.

Lemma st_pres_iter {S A} (P : S -> Prop) (f : A -> ST S ()) l :
  (forall a, st_pres P (f a)) -> st_pres P (st_iter f l).
Proof.
  intros Hf. induction l as [|a l IH]; simpl; [apply st_pres_ret|].
  by apply st_pres_bind.
Qed.

(** Run a sequence of computations, ignoring the results; a panic in one call
    is contained (the callers of the fabric are independent tasks). *)
Fixpoint st_seq {S A} (ms : list (ST S A)) (s : S) : S :=
  match ms with
  | [] => s
  | m :: ms => st_seq ms (m s).2
  end.

(** ** Machine integers *)

Definition u16_max : Z := 2 ^ 16 - 1.
Definition u32_max : Z := 2 ^ 32 - 1.
Definition u64_max : Z := 2 ^ 64 - 1.
Definition i64_max : Z := 2 ^ 63 - 1.
Definition i64_min : Z := - 2 ^ 63.

Definition u64_wrap (z : Z) : Z := z `mod` 2 ^ 64.

Definition in_u64 (z : Z) : Prop := 0 <= z <= u64_max.

(** ** Instants and durations

    [Instant] and [Duration] are counted in nanoseconds. On Linux an [Instant]
    keeps its seconds in an [i64]; [Instant + Duration] and [Instant - Duration]
    panic outside that range, which [None] stands for. *)

Abbreviation instant := Z (only parsing).
Abbreviation duration := Z (only parsing).

Definition NANOS : Z := 10 ^ 9.
Definition from_secs (s : Z) : duration := s * NANOS.
Definition from_millis (ms : Z) : duration := ms * 10 ^ 6.

Definition instant_ok (t : instant) : bool :=
  bool_decide (i64_min * NANOS <= t /\ t < (i64_max + 1) * NANOS).

Definition instant_add (t : instant) (d : duration) : option instant :=
  if instant_ok (t + d) then Some (t + d) else None.
Definition instant_sub (t : instant) (d : duration) : option instant :=
  if instant_ok (t - d) then Some (t - d) else None.

(** ** Ordered iteration

    A [BTreeMap<String, V>] is a [gmap]; where the code iterates one, the order
    of the keys is the order of the map. *)

Definition key_le {V} (a b : string * V) : Prop := String.le a.1 b.1.
#[export] Instance key_le_dec {V} : RelDecision (@key_le V).
Proof. intros a b. unfold key_le. apply _. Defined.
#[export] Instance key_le_total {V} : Total (@key_le V).
Proof. intros a b. apply (total String.le). Qed.
#[export] Instance key_le_trans {V} : Transitive (@key_le V).
Proof. intros a b c. unfold key_le. apply (transitivity (R := String.le)). Qed.

Definition bt_iter {V} (m : gmap string V) : list (string * V) :=
  merge_sort key_le (map_to_list m).

Definition bt_elements (s : gset string) : list string :=
  merge_sort String.le (elements s).

Lemma elem_of_bt_iter {V} (m : gmap string V) k v :
  (k, v) ∈ bt_iter m <-> m !! k = Some v.
Proof. unfold bt_iter. by rewrite merge_sort_Permutation, elem_of_map_to_list. Qed.

Lemma bt_iter_sorted {V} (m : gmap string V) : StronglySorted key_le (bt_iter m).
Proof. apply (StronglySorted_merge_sort _). Qed.

Lemma bt_iter_perm {V} (m : gmap string V) : bt_iter m ≡ₚ map_to_list m.
Proof. apply merge_sort_Permutation. Qed.

Lemma bt_iter_NoDup_keys {V} (m : gmap string V) : NoDup (bt_iter m).*1.
Proof. rewrite bt_iter_perm. apply NoDup_fst_map_to_list. Qed.

Lemma elem_of_bt_elements (s : gset string) k : k ∈ bt_elements s <-> k ∈ s.
Proof. unfold bt_elements. by rewrite merge_sort_Permutation, elem_of_elements. Qed.

Lemma bt_elements_sorted (s : gset string) : StronglySorted String.le (bt_elements s).
Proof. apply (StronglySorted_merge_sort _). Qed.

Lemma bt_elements_NoDup (s : gset string) : NoDup (bt_elements s).
Proof. unfold bt_elements. rewrite merge_sort_Permutation. apply NoDup_elements. Qed.

Lemma bt_elements_empty (s : gset string) : s = ∅ -> bt_elements s = [].
Proof. intros ->. reflexivity. Qed.

Lemma filter_true {A} (P : A -> Prop) `{!forall x, Decision (P x)} (l : list A) :
  (forall x, x ∈ l -> P x) -> filter P l = l.
Proof.
  induction l as [|x l IH]; intros Hl; [done|]. rewrite filter_cons.
  rewrite decide_True by (apply Hl; by left). f_equal. apply IH. intros y Hy. apply Hl. by right.
Qed.

Lemma filter_false {A} (P : A -> Prop) `{!forall x, Decision (P x)} (l : list A) :
  (forall x, x ∈ l -> ~ P x) -> filter P l = [].
Proof.
  induction l as [|x l IH]; intros Hl; [done|]. rewrite filter_cons.
  rewrite decide_False by (apply Hl; by left). apply IH. intros y Hy. apply Hl. by right.
Qed.

Lemma StronglySorted_filter {A} (R : relation A) (P : A -> Prop) `{!forall x, Decision (P x)} l :
  StronglySorted R l -> StronglySorted R (filter P l).
Proof.
  induction 1 as [|x l Hl IH HR]; [constructor|]. rewrite filter_cons.
  case_decide; [|done]. constructor; [done|].
  apply Forall_forall. intros y Hy. apply list_elem_of_filter in Hy as [_ Hy].
  rewrite Forall_forall in HR. by apply HR.
Qed.

(** A sorted list without duplicates is determined by its elements. *)
Lemma sorted_set_unique {A} (R : relation A) `{!AntiSymm (=) R} (l1 l2 : list A) :
  StronglySorted R l1 -> StronglySorted R l2 -> NoDup l1 -> NoDup l2 ->
  (forall x, x ∈ l1 <-> x ∈ l2) -> l1 = l2.
Proof. intros. apply (StronglySorted_unique R); [done..|]. by apply NoDup_Permutation. Qed.

Lemma bt_elements_filter (P : string -> Prop) `{!forall x, Decision (P x)} (s : gset string) :
  bt_elements (filter P s) = filter P (bt_elements s).
Proof.
  apply (sorted_set_unique String.le).
  - apply bt_elements_sorted.
  - apply StronglySorted_filter, bt_elements_sorted.
  - apply bt_elements_NoDup.
  - apply NoDup_filter, bt_elements_NoDup.
  - intros x. by rewrite list_elem_of_filter, !elem_of_bt_elements, elem_of_filter.
Qed.

(** ** Well-founded steps of the elements of a list *)

(** One element steps, the others stay. *)
Definition one_steps {A} (R : A -> A -> Prop) (l' l : list A) : Prop :=
  exists i x x', l !! i = Some x /\ R x' x /\ l' = <[i := x']> l.

Lemma one_steps_wf {A} (R : A -> A -> Prop) (l : list A) :
  (forall x, Acc R x) -> Acc (one_steps R) l.
Proof.
  intros HR. induction l as [|x l IHl].
  { constructor. by intros l' (i & x & x' & H & _). }
  revert l IHl. induction (HR x) as [x _ IHx]. intros l Hl. pose proof Hl as Hl0.
  induction Hl as [l Hl IHl']. constructor. intros l' ([|i] & y & y' & Hi & Hy & ->); simpl in *.
  - simplify_eq. by apply IHx.
  - assert (one_steps R (<[i := y']> l) l) as Hs by (by exists i, y, y'). apply IHl'; [done|by apply Hl].
Qed.

(** ** Automation shared by the components *)

Create HintDb nauti discriminated.
#[export] Hint Constants Opaque : nauti.
#[export] Hint Resolve bt_iter_sorted bt_elements_sorted bt_elements_NoDup
  bt_iter_NoDup_keys : nauti.

(** Case analysis on every [match]/[if] scrutinee of the goal or of the
    equation that defines a result. *)
Ltac split_matches :=
  repeat (case_match; simplify_eq/=; try done).

(** Unfold a computation down to the state transformer it denotes. *)
Ltac st_unfold :=
  unfold st_try, mbind, st_bind, mret, st_ret, st_get, st_modify, st_panic in *;
  simpl in *.
