(* ===== verification/Str.v ===== *)
(** * Strings

    A Rust [String]/[str] is a [string] holding its UTF-8 bytes. The functions
    below are the [str] methods the code uses, byte for byte: [char::is_whitespace]
    is the Unicode White_Space set in its UTF-8 encoding, the ordering of strings
    is the byte order ([String.le]), and integer parsing is [FromStr]/
    [from_str_radix] with their optional [+] and their overflow checks. *)

From stdpp Require Import base tactics option list strings pretty.
From Stdlib Require Import Ascii String.
From S2P Require Import Prelude.

#[local] Open Scope string_scope.
#[local] Open Scope Z_scope.

(** ** Bytes *)

Definition byte_of (n : nat) : ascii := ascii_of_nat n.
Definition str1 (a : ascii) : string := String a EmptyString.
Definition bytes (l : list nat) : string :=
  foldr (fun n s => String (byte_of n) s) EmptyString l.

Definition LF : ascii := byte_of 10.
Definition CR : ascii := byte_of 13.

(** ** Prefixes, suffixes, substrings *)

Definition starts_with (p s : string) : bool := String.prefix p s.

Fixpoint strip_prefix (p s : string) : option string :=
  match p, s with
  | EmptyString, _ => Some s
  | String a p', String b s' => if Ascii.eqb a b then strip_prefix p' s' else None
  | String _ _, EmptyString => None
  end.

Definition strip_suffix (p s : string) : option string :=
  String.rev <$> strip_prefix (String.rev p) (String.rev s).

Fixpoint contains (needle s : string) : bool :=
  starts_with needle s ||
  match s with EmptyString => false | String _ s' => contains needle s' end.

Fixpoint contains_char (c : ascii) (s : string) : bool :=
  match s with
  | EmptyString => false
  | String a s' => Ascii.eqb a c || contains_char c s'
  end.

(** ** Splitting *)

(** [str::split(c)]: always at least one piece. *)
Fixpoint split_on (c : ascii) (s : string) : list string :=
  match s with
  | EmptyString => [EmptyString]
  | String a s' =>
      if Ascii.eqb a c then EmptyString :: split_on c s'
      else match split_on c s' with
           | [] => [str1 a]
           | w :: ws => String a w :: ws
           end
  end.

Fixpoint split_once (c : ascii) (s : string) : option (string * string) :=
  match s with
  | EmptyString => None
  | String a s' =>
      if Ascii.eqb a c then Some (EmptyString, s')
      else match split_once c s' with
           | Some (l, r) => Some (String a l, r)
           | None => None
           end
  end.

Fixpoint rsplit_once (c : ascii) (s : string) : option (string * string) :=
  match s with
  | EmptyString => None
  | String a s' =>
      match rsplit_once c s' with
      | Some (l, r) => Some (String a l, r)
      | None => if Ascii.eqb a c then Some (EmptyString, s') else None
      end
  end.

Definition join (sep : string) (l : list string) : string := String.concat sep l.

(** ** White space *)

(** The UTF-8 encodings of the Unicode White_Space characters. *)
Definition ws_chars : list string :=
  bytes <$> [[9]; [10]; [11]; [12]; [13]; [32]; [194; 133]; [194; 160];
    [225; 154; 128]; [226; 128; 128]; [226; 128; 129]; [226; 128; 130];
    [226; 128; 131]; [226; 128; 132]; [226; 128; 133]; [226; 128; 134];
    [226; 128; 135]; [226; 128; 136]; [226; 128; 137]; [226; 128; 138];
    [226; 128; 168]; [226; 128; 169]; [226; 128; 175]; [226; 129; 159];
    [227; 128; 128]]%nat.

(** Length in bytes of the character of [cs] that [s] starts with, 0 if none. *)
Fixpoint char_len (cs : list string) (s : string) : nat :=
  match cs with
  | [] => 0
  | c :: cs => if starts_with c s then String.length c else char_len cs s
  end.

Definition ws_len : string -> nat := char_len ws_chars.
Definition ws_len_rev : string -> nat := char_len (String.rev <$> ws_chars).

Fixpoint trim_with (len : string -> nat) (skip : nat) (s : string) : string :=
  match s with
  | EmptyString => EmptyString
  | String _ s' =>
      match skip with
      | S k => trim_with len k s'
      | O => match len s with O => s | S k => trim_with len k s' end
      end
  end.

Definition trim_start (s : string) : string := trim_with ws_len 0 s.
Definition trim_end (s : string) : string :=
  String.rev (trim_with ws_len_rev 0 (String.rev s)).
Definition trim (s : string) : string := trim_end (trim_start s).

Definition flush (cur : string) : list string :=
  match cur with EmptyString => [] | _ => [cur] end.

Fixpoint words_go (cur : string) (skip : nat) (s : string) : list string :=
  match s with
  | EmptyString => flush cur
  | String a s' =>
      match skip with
      | S k => words_go cur k s'
      | O => match ws_len s with
             | O => words_go (cur +:+ str1 a) 0 s'
             | S k => app (flush cur) (words_go EmptyString k s')
             end
      end
  end.

Definition split_whitespace (s : string) : list string := words_go EmptyString 0 s.

(** [trim_matches] for a predicate on one-byte characters. *)
Fixpoint trim_bytes_start (p : ascii -> bool) (s : string) : string :=
  match s with
  | EmptyString => EmptyString
  | String a s' => if p a then trim_bytes_start p s' else s
  end.
Definition trim_bytes_end (p : ascii -> bool) (s : string) : string :=
  String.rev (trim_bytes_start p (String.rev s)).
Definition trim_matches (p : ascii -> bool) (s : string) : string :=
  trim_bytes_end p (trim_bytes_start p s).

(** ** Lines *)

Definition strip_cr (l : string) : string :=
  match strip_suffix (str1 CR) l with Some l' => l' | None => l end.

Fixpoint lines_go (cur s : string) : list string :=
  match s with
  | EmptyString => flush cur
  | String a s' =>
      if Ascii.eqb a LF then strip_cr cur :: lines_go EmptyString s'
      else lines_go (cur +:+ str1 a) s'
  end.

(** [str::lines]. *)
Definition lines (s : string) : list string := lines_go EmptyString s.

(** ** ASCII case *)

Definition lower_byte (a : ascii) : ascii :=
  let n := nat_of_ascii a in
  if bool_decide (65 <= n /\ n <= 90)%nat then byte_of (n + 32) else a.

Fixpoint to_ascii_lowercase (s : string) : string :=
  match s with
  | EmptyString => EmptyString
  | String a s' => String (lower_byte a) (to_ascii_lowercase s')
  end.

Definition eq_ignore_ascii_case (a b : string) : bool :=
  String.eqb (to_ascii_lowercase a) (to_ascii_lowercase b).

(** ** Integers *)

Definition dec_digit (a : ascii) : option Z :=
  let n := Z.of_nat (nat_of_ascii a) in
  if bool_decide (48 <= n <= 57) then Some (n - 48) else None.

Definition hex_digit (a : ascii) : option Z :=
  let n := Z.of_nat (nat_of_ascii a) in
  if bool_decide (48 <= n <= 57) then Some (n - 48)
  else if bool_decide (97 <= n <= 102) then Some (n - 87)
  else if bool_decide (65 <= n <= 70) then Some (n - 55) else None.

Fixpoint digits_go (digit : ascii -> option Z) (radix max acc : Z) (s : string) : option Z :=
  match s with
  | EmptyString => Some acc
  | String a s' =>
      match digit a with
      | Some d =>
          let acc' := acc * radix + d in
          if bool_decide (acc' <= max) then digits_go digit radix max acc' s' else None
      | None => None
      end
  end.

(** [from_str_radix] of an unsigned type: an optional [+], at least one digit. *)
Definition parse_unsigned (digit : ascii -> option Z) (radix max : Z) (s : string) : option Z :=
  let body := match strip_prefix "+" s with Some r => r | None => s end in
  match body with
  | EmptyString => None
  | _ => digits_go digit radix max 0 body
  end.

Definition parse_u16 : string -> option Z := parse_unsigned dec_digit 10 u16_max.
Definition parse_u32 : string -> option Z := parse_unsigned dec_digit 10 u32_max.
Definition parse_u64 : string -> option Z := parse_unsigned dec_digit 10 u64_max.
Definition parse_hex_u32 : string -> option Z := parse_unsigned hex_digit 16 u32_max.
Definition parse_hex_usize : string -> option Z := parse_unsigned hex_digit 16 u64_max.

(** [i64::from_str]. *)
Definition parse_i64 (s : string) : option Z :=
  match strip_prefix "-" s with
  | Some EmptyString => None
  | Some r => Z.opp <$> digits_go dec_digit 10 (- i64_min) 0 r
  | None => parse_unsigned dec_digit 10 i64_max s
  end.

(** [to_string] of an integer. *)
Definition show (z : Z) : string := pretty z.

Definition hex_char (d : Z) : ascii :=
  byte_of (Z.to_nat (if bool_decide (d < 10) then d + 48 else d + 87)).

Fixpoint hex_go (fuel : nat) (z : Z) (acc : string) : string :=
  match fuel with
  | O => acc
  | S f =>
      let acc' := String (hex_char (z `mod` 16)) acc in
      if bool_decide (z < 16) then acc' else hex_go f (z / 16) acc'
  end.

(** [{:04x}] of a [u32]: at most eight digits, padded to four. *)
Definition show_hex04 (z : Z) : string :=
  let s := hex_go 8 z EmptyString in
  foldr (fun _ acc => String (byte_of 48) acc) s (seq 0 (4 - String.length s)).

Definition show_bool (b : bool) : string := if b then "true" else "false".

(** ** [{:?}] of a string

    Exact on ASCII; a byte of a multi-byte character is passed through, which is
    what Rust prints for the printable characters. *)
Definition debug_byte (a : ascii) : string :=
  let n := nat_of_ascii a in
  if bool_decide (n = 34)%nat then bytes [92; 34]%nat
  else if bool_decide (n = 92)%nat then bytes [92; 92]%nat
  else if bool_decide (n = 0)%nat then bytes [92; 48]%nat
  else if bool_decide (n = 9)%nat then bytes [92; 116]%nat
  else if bool_decide (n = 10)%nat then bytes [92; 110]%nat
  else if bool_decide (n = 13)%nat then bytes [92; 114]%nat
  else if bool_decide (n < 32 \/ n = 127)%nat then
    bytes [92; 117; 123]%nat +:+ hex_go 2 (Z.of_nat n) EmptyString +:+ "}"
  else str1 a.

Fixpoint debug_bytes (s : string) : string :=
  match s with
  | EmptyString => EmptyString
  | String a s' => debug_byte a +:+ debug_bytes s'
  end.

Definition quote : string := bytes [34]%nat.
Definition debug_str (s : string) : string := quote +:+ debug_bytes s +:+ quote.

(** ** Lemmas *)

Lemma str_app_nil_l (s : string) : EmptyString +:+ s = s.
Proof. reflexivity. Qed.

Lemma str_app_cons a (p s : string) : String a p +:+ s = String a (p +:+ s).
Proof. reflexivity. Qed.

Lemma str_app_nil_r (s : string) : s +:+ EmptyString = s.
Proof. induction s as [|a s IH]; [done|]. by rewrite str_app_cons, IH. Qed.

Lemma str_app_assoc (a b c : string) : (a +:+ b) +:+ c = a +:+ (b +:+ c).
Proof. induction a as [|x a IH]; [done|]. by rewrite !str_app_cons, IH. Qed.

Lemma str_length_app (a b : string) :
  String.length (a +:+ b) = (String.length a + String.length b)%nat.
Proof. induction a as [|x a IH]; [done|]. rewrite str_app_cons. simpl. by rewrite IH. Qed.

Create Rewrite HintDb str.
#[export] Hint Rewrite str_app_nil_l str_app_cons str_app_nil_r str_app_assoc
  str_length_app : str.

Lemma strip_prefix_Some p s r : strip_prefix p s = Some r <-> s = p +:+ r.
Proof.
  revert s. induction p as [|a p IH]; intros s; simpl.
  { rewrite str_app_nil_l. naive_solver. }
  destruct s as [|b s]; rewrite str_app_cons; [done|].
  destruct (Ascii.eqb_spec a b) as [->|Hab]; [rewrite IH|]; naive_solver.
Qed.

Lemma starts_with_spec p s : starts_with p s = true <-> exists r, s = p +:+ r.
Proof.
  revert s. induction p as [|a p IH]; intros [|b s]; cbn.
  - split; [by exists EmptyString|done].
  - split; [by exists (String b s)|done].
  - split; [done|]. intros [r ?]; done.
  - destruct (ascii_dec a b) as [->|Hne].
    + rewrite IH. split; intros [r Hr]; exists r; [by subst|].
      rewrite str_app_cons in Hr. by simplify_eq.
    + split; [done|]. intros [r Hr]. rewrite str_app_cons in Hr. by simplify_eq.
Qed.

Lemma split_on_nonempty c s : split_on c s <> [].
Proof.
  destruct s as [|a s]; simpl; [done|]. destruct (Ascii.eqb a c); [done|]. by case_match.
Qed.

Lemma split_once_Some c s l r :
  split_once c s = Some (l, r) <-> s = l +:+ String c r /\ contains_char c l = false.
Proof.
  revert l r. induction s as [|a s IH]; intros l r; simpl.
  { split; [done|]. intros [H _]. by destruct l. }
  destruct (Ascii.eqb_spec a c) as [->|Hac].
  - split; [intros; by simplify_eq|]. intros [H1 H2].
    destruct l as [|b l]; [by rewrite str_app_nil_l in H1; simplify_eq|].
    rewrite str_app_cons in H1. simplify_eq/=. by rewrite Ascii.eqb_refl in H2.
  - split.
    + destruct (split_once c s) as [[l' r']|] eqn:E; [|done]. intros ?; simplify_eq.
      destruct (proj1 (IH l' r) eq_refl) as [-> Hc]. simpl. rewrite Hc.
      by destruct (Ascii.eqb_spec a c).
    + intros [H1 H2]. destruct l as [|b l]; [by rewrite str_app_nil_l in H1; simplify_eq|].
      rewrite str_app_cons in H1. simplify_eq/=. apply orb_false_iff in H2 as [_ H2].
      by rewrite (proj2 (IH l r) (conj eq_refl H2)).
Qed.

(** ** Printing and parsing integers *)

Lemma dec_digit_char d : (d < 10)%N -> dec_digit (pretty_N_char d) = Some (Z.of_N d).
Proof.
  intros Hd.
  assert (d = 0 \/ d = 1 \/ d = 2 \/ d = 3 \/ d = 4 \/ d = 5 \/ d = 6 \/ d = 7 \/ d = 8 \/ d = 9)%N
    as Hcases by lia.
  destruct_or? Hcases; subst; reflexivity.
Qed.

Lemma digits_go_pretty max x s :
  Z.of_N x <= max ->
  digits_go dec_digit 10 max 0 (pretty_N_go x s) = digits_go dec_digit 10 max (Z.of_N x) s.
Proof.
  revert s. induction (N.lt_wf_0 x) as [x _ IH]; intros s Hx.
  destruct (decide (x = 0)%N) as [->|Hne]; [by rewrite pretty_N_go_0|].
  rewrite pretty_N_go_step by lia.
  assert (x `mod` 10 < 10)%N by (apply N.mod_lt; lia).
  assert (x `div` 10 < x)%N by (apply N.div_lt; lia).
  rewrite IH by lia. cbn [digits_go]. rewrite dec_digit_char by done.
  replace (Z.of_N (x `div` 10) * 10 + Z.of_N (x `mod` 10)) with (Z.of_N x).
  - by rewrite bool_decide_eq_true_2.
  - rewrite (N.div_mod x 10) at 1 by lia. lia.
Qed.

Lemma show_pos_shape p s : exists c s', pretty_N_go (Npos p) s = String c s' /\ is_Some (dec_digit c).
Proof.
  revert s. remember (Npos p) as x eqn:Hx. assert (x <> 0)%N as Hne by (by subst). clear p Hx.
  induction (N.lt_wf_0 x) as [x _ IH]; intros s.
  rewrite pretty_N_go_step by lia.
  destruct (decide (x `div` 10 = 0)%N) as [E|E].
  - rewrite E, pretty_N_go_0. eexists _, s. split; [done|].
    rewrite dec_digit_char by (apply N.mod_lt; lia). eauto.
  - apply IH; [apply N.div_lt; lia|done].
Qed.

Lemma show_shape z : 0 <= z -> exists c s', show z = String c s' /\ is_Some (dec_digit c).
Proof.
  intros Hz. unfold show. destruct z as [|p|p]; [by eexists _, _|apply (show_pos_shape p EmptyString)|lia].
Qed.

Lemma digits_go_show max z : 0 <= z <= max -> digits_go dec_digit 10 max 0 (show z) = Some z.
Proof.
  intros Hz. unfold show. destruct z as [|p|p]; [|apply (digits_go_pretty max (Npos p) EmptyString); lia|lia].
  transitivity (if bool_decide (0 <= max) then Some 0 else None); [reflexivity|].
  by rewrite bool_decide_eq_true_2 by lia.
Qed.

(** [to_string] followed by [parse] is the identity on the type's range. *)
Lemma parse_show max z : 0 <= z <= max -> parse_unsigned dec_digit 10 max (show z) = Some z.
Proof.
  intros Hz. unfold parse_unsigned.
  destruct (show_shape z) as (c & s' & Heq & Hc); [lia|].
  assert (strip_prefix "+" (show z) = None) as Hplus.
  { rewrite Heq. cbn [strip_prefix]. destruct (Ascii.eqb_spec "+" c) as [<-|]; [|done]. destruct Hc as [d Hd]. vm_compute in Hd. discriminate Hd. }
  rewrite Hplus. rewrite <-(digits_go_show max z) by done. by rewrite Heq.
Qed.

Lemma show_length_pos z : 0 <= z -> show z <> EmptyString.
Proof. intros Hz. by destruct (show_shape z) as (c & s' & -> & _). Qed.

Definition is_dec (a : ascii) : bool := bool_decide (is_Some (dec_digit a)).

Fixpoint all_bytes (p : ascii -> bool) (s : string) : bool :=
  match s with EmptyString => true | String a s' => p a && all_bytes p s' end.

Lemma all_bytes_app p a b : all_bytes p (a +:+ b) = all_bytes p a && all_bytes p b.
Proof.
  induction a as [|c a IH]; [done|]. rewrite str_app_cons. simpl. by rewrite IH, andb_assoc.
Qed.

Lemma digits_go_all digit radix max acc s z :
  digits_go digit radix max acc s = Some z ->
  all_bytes (fun a => bool_decide (is_Some (digit a))) s = true.
Proof.
  revert acc. induction s as [|a s IH]; intros acc; simpl; [done|].
  destruct (digit a) as [d|] eqn:E; [|done]. case_bool_decide; [|done].
  intros Hz. rewrite (IH _ Hz). by rewrite bool_decide_eq_true_2.
Qed.

Lemma show_all_dec z : 0 <= z -> all_bytes is_dec (show z) = true.
Proof. intros Hz. eapply digits_go_all, (digits_go_show z). lia. Qed.

Lemma all_bytes_impl (p q : ascii -> bool) s :
  (forall a, p a = true -> q a = true) -> all_bytes p s = true -> all_bytes q s = true.
Proof.
  intros Hpq. induction s as [|a s IH]; simpl; [done|].
  rewrite !andb_true_iff. intros [??]. auto.
Qed.

Lemma contains_char_all c s : contains_char c s = negb (all_bytes (fun a => negb (Ascii.eqb a c)) s).
Proof.
  induction s as [|a s IH]; simpl; [done|]. rewrite IH. by destruct (Ascii.eqb a c).
Qed.

(** Hexadecimal, as chunk sizes are written. *)
Lemma hex_digit_char d : 0 <= d < 16 -> hex_digit (hex_char d) = Some d.
Proof.
  intros Hd.
  assert (d = 0 \/ d = 1 \/ d = 2 \/ d = 3 \/ d = 4 \/ d = 5 \/ d = 6 \/ d = 7 \/ d = 8 \/ d = 9
    \/ d = 10 \/ d = 11 \/ d = 12 \/ d = 13 \/ d = 14 \/ d = 15) as Hcases by lia.
  destruct_or? Hcases; subst; reflexivity.
Qed.

Lemma digits_go_hex max f z s :
  0 <= z < 16 ^ Z.of_nat f -> z <= max -> f <> 0%nat ->
  digits_go hex_digit 16 max 0 (hex_go f z s) = digits_go hex_digit 16 max z s.
Proof.
  revert z s. induction f as [|f IH]; intros z s Hz Hmax Hf; [done|]. cbn [hex_go].
  assert (0 <= z `mod` 16 < 16) by (apply Z.mod_pos_bound; lia).
  case_bool_decide as Hlt.
  - rewrite Z.mod_small by lia. cbn [digits_go]. rewrite hex_digit_char by lia.
    by rewrite Z.mul_0_l, Z.add_0_l, bool_decide_eq_true_2.
  - rewrite Nat2Z.inj_succ, Z.pow_succ_r in Hz by lia.
    assert (0 <= z / 16 < 16 ^ Z.of_nat f) as Hdiv.
    { split; [apply Z.div_pos; lia|]. apply Z.div_lt_upper_bound; lia. }
    assert (z / 16 <= max) by (apply Z.le_trans with z; [apply Z.div_le_upper_bound; lia|done]).
    destruct f as [|f]; [simpl in Hdiv; assert (1 <= z / 16) by (apply Z.div_le_lower_bound; lia); lia|].
    rewrite IH by done. cbn [digits_go]. rewrite hex_digit_char by lia.
    rewrite bool_decide_eq_true_2; [f_equal|]; pose proof (Z.div_mod z 16); lia.
Qed.

(** ** Reversal, trimming and words of plain text *)

Lemma rev_app_spec a b : String.rev_app a b = String.rev a +:+ b.
Proof.
  unfold String.rev. revert b. induction a as [|x a IH]; intros b; simpl; [done|].
  rewrite IH, (IH (String x EmptyString)). by rewrite str_app_assoc.
Qed.

Lemma rev_cons x a : String.rev (String x a) = String.rev a +:+ str1 x.
Proof. unfold String.rev at 1. simpl. by rewrite rev_app_spec. Qed.

Lemma rev_str_app a b : String.rev (a +:+ b) = String.rev b +:+ String.rev a.
Proof.
  induction a as [|x a IH]; [by rewrite str_app_nil_r|].
  by rewrite str_app_cons, !rev_cons, IH, str_app_assoc.
Qed.

Lemma rev_str_involutive a : String.rev (String.rev a) = a.
Proof.
  induction a as [|x a IH]; [done|]. by rewrite rev_cons, rev_str_app, IH.
Qed.

Lemma all_bytes_rev p a : all_bytes p (String.rev a) = all_bytes p a.
Proof.
  induction a as [|x a IH]; [done|]. rewrite rev_cons, all_bytes_app, IH. simpl.
  by rewrite andb_true_r, andb_comm.
Qed.

(** Printable ASCII without and with the space. *)
Definition graphic (a : ascii) : bool :=
  bool_decide (33 <= nat_of_ascii a /\ nat_of_ascii a <= 126)%nat.
Definition printable (a : ascii) : bool :=
  bool_decide (32 <= nat_of_ascii a /\ nat_of_ascii a <= 126)%nat.

Lemma graphic_printable a : graphic a = true -> printable a = true.
Proof. unfold graphic, printable. rewrite !bool_decide_eq_true. lia. Qed.

Lemma char_len_graphic cs a s :
  forallb (fun c => match c with String b _ => negb (graphic b) | EmptyString => false end) cs = true ->
  graphic a = true -> char_len cs (String a s) = O.
Proof.
  intros Hcs Ha. induction cs as [|[|b c] cs IH]; simpl in *; [done..|].
  apply andb_true_iff in Hcs as [Hb Hcs].
  destruct (ascii_dec b a) as [->|]; [by rewrite Ha in Hb|]. by apply IH.
Qed.

Lemma ws_len_graphic a s : graphic a = true -> ws_len (String a s) = O.
Proof. apply char_len_graphic. by vm_compute. Qed.
Lemma ws_len_rev_graphic a s : graphic a = true -> ws_len_rev (String a s) = O.
Proof. apply char_len_graphic. by vm_compute. Qed.

Lemma trim_start_graphic s : all_bytes graphic s = true -> trim_start s = s.
Proof.
  destruct s as [|a s]; [done|]. simpl. rewrite andb_true_iff. intros [Ha _].
  unfold trim_start. cbn [trim_with]. by rewrite ws_len_graphic.
Qed.

Lemma trim_end_graphic s : all_bytes graphic s = true -> trim_end s = s.
Proof.
  rewrite <-all_bytes_rev. unfold trim_end. intros Hs.
  rewrite <-(rev_str_involutive s) at 2. f_equal.
  destruct (String.rev s) as [|a r]; [done|]. simpl in Hs. apply andb_true_iff in Hs as [Ha _].
  cbn [trim_with]. by rewrite ws_len_rev_graphic.
Qed.

Lemma trim_graphic s : all_bytes graphic s = true -> trim s = s.
Proof. intros Hs. unfold trim. by rewrite trim_start_graphic, trim_end_graphic. Qed.

Lemma ws_len_space s : ws_len (String " " s) = 1%nat.
Proof. by destruct s. Qed.

Lemma trim_space s : trim (String " " s) = trim s.
Proof. unfold trim, trim_start. cbn [trim_with]. by rewrite ws_len_space. Qed.

Lemma words_go_graphic cur w s :
  all_bytes graphic w = true -> words_go cur 0 (w +:+ s) = words_go (cur +:+ w) 0 s.
Proof.
  revert cur. induction w as [|a w IH]; intros cur; [by rewrite str_app_nil_r|].
  cbn [all_bytes]. rewrite andb_true_iff. intros [Ha Hw]. rewrite str_app_cons. cbn [words_go].
  rewrite ws_len_graphic by done. rewrite IH by done. by rewrite str_app_assoc.
Qed.

Lemma words_go_space cur s : words_go cur 0 (String " " s) = app (flush cur) (words_go EmptyString 0 s).
Proof. cbn [words_go]. by rewrite ws_len_space. Qed.

Lemma split_whitespace_cons w s :
  all_bytes graphic w = true -> w <> EmptyString ->
  split_whitespace (w +:+ String " " s) = w :: split_whitespace s.
Proof.
  intros Hw Hne. unfold split_whitespace. rewrite words_go_graphic by done.
  rewrite words_go_space. by destruct w.
Qed.

Lemma split_on_absent c s : contains_char c s = false -> split_on c s = [s].
Proof.
  induction s as [|a s IH]; simpl; [done|]. rewrite orb_false_iff. intros [-> Hs].
  by rewrite IH.
Qed.

Lemma split_on_cons c w s :
  contains_char c w = false -> split_on c (w +:+ String c s) = w :: split_on c s.
Proof.
  induction w as [|a w IH]; cbn [contains_char].
  - intros _. rewrite str_app_nil_l. cbn [split_on]. by rewrite Ascii.eqb_refl.
  - rewrite orb_false_iff. intros [Ha Hw]. rewrite str_app_cons. cbn [split_on].
    by rewrite Ha, IH.
Qed.

Lemma contains_char_app c a b : contains_char c (a +:+ b) = contains_char c a || contains_char c b.
Proof. induction a as [|x a IH]; [done|]. rewrite str_app_cons. simpl. by rewrite IH, orb_assoc. Qed.

Lemma contains_char_not p c s : all_bytes p s = true -> p c = false -> contains_char c s = false.
Proof.
  intros Hs Hc. induction s as [|a s IH]; simpl in *; [done|].
  apply andb_true_iff in Hs as [Ha Hs]. rewrite IH by done.
  destruct (Ascii.eqb_spec a c); [congruence|done].
Qed.

Lemma strip_cr_line l : strip_cr (l +:+ str1 CR) = l.
Proof.
  unfold strip_cr, strip_suffix. rewrite rev_str_app.
  assert (strip_prefix (String.rev (str1 CR)) (String.rev (str1 CR) +:+ String.rev l)
          = Some (String.rev l)) as -> by by apply strip_prefix_Some.
  simpl. by rewrite rev_str_involutive.
Qed.

Lemma lines_go_line cur l s :
  contains_char LF l = false ->
  lines_go cur (l +:+ String LF s) = strip_cr (cur +:+ l) :: lines_go EmptyString s.
Proof.
  revert cur. induction l as [|a l IH]; intros cur Hl.
  - by rewrite str_app_nil_r.
  - simpl in Hl. apply orb_false_iff in Hl as [Ha Hl]. rewrite str_app_cons. cbn [lines_go].
    rewrite Ha, IH by done. by rewrite str_app_assoc.
Qed.

Lemma rsplit_once_last c h p :
  contains_char c p = false -> rsplit_once c (h +:+ String c p) = Some (h, p).
Proof.
  intros Hp.
  assert (rsplit_once c p = None) as Hn.
  { induction p as [|a p IH]; simpl in *; [done|]. apply orb_false_iff in Hp as [Ha Hp].
    by rewrite IH, Ha. }
  induction h as [|a h IH].
  - rewrite str_app_nil_l. cbn [rsplit_once]. by rewrite Hn, Ascii.eqb_refl.
  - rewrite str_app_cons. cbn [rsplit_once]. by rewrite IH.
Qed.

Lemma rsplit_once_absent c s : contains_char c s = false -> rsplit_once c s = None.
Proof.
  induction s as [|a s IH]; simpl; [done|]. rewrite orb_false_iff. intros [-> Hs]. by rewrite IH.
Qed.

(** A parsed unsigned integer is in the type's range. *)
Lemma digits_go_bounds digit radix max acc s z :
  (forall a d, digit a = Some d -> 0 <= d) -> 0 <= radix -> 0 <= acc <= max ->
  digits_go digit radix max acc s = Some z -> 0 <= z <= max.
Proof.
  intros Hd Hr. revert acc. induction s as [|a s IH]; intros acc Hacc; simpl.
  { by intros [= <-]. }
  destruct (digit a) as [d|] eqn:E; [|done]. case_bool_decide; [|done].
  apply Hd in E. apply IH. nia.
Qed.

Lemma dec_digit_nonneg a d : dec_digit a = Some d -> 0 <= d.
Proof. unfold dec_digit. case_bool_decide; [|done]. intros [= <-]. lia. Qed.
Lemma hex_digit_nonneg a d : hex_digit a = Some d -> 0 <= d.
Proof.
  unfold hex_digit. repeat (case_bool_decide; [intros [= <-]; lia|]). done.
Qed.

Lemma parse_unsigned_bounds digit radix max s z :
  (forall a d, digit a = Some d -> 0 <= d) -> 0 <= radix -> 0 <= max ->
  parse_unsigned digit radix max s = Some z -> 0 <= z <= max.
Proof.
  intros Hd Hr Hm. unfold parse_unsigned.
  set (body := match strip_prefix "+" s with Some r => r | None => s end).
  destruct body; [done|]. by apply digits_go_bounds.
Qed.
