(* ===== verification/Resource.v ===== *)
(** * The resource model (nauti-fabric/src/lib.rs)

    The data every component speaks about - resources, leases, attachments,
    capability reports, requests, errors - and the interface [ResourceAdapter]
    that the registry calls and the adapters implement. *)

From stdpp Require Import base tactics option list gmap strings pretty fin_maps.
From S2P Require Import Prelude Str.

#[local] Open Scope Z_scope.

(** ** Data *)

Inductive ResourceKind : Type :=
  | Cpu | Gpu | Memory | Storage | Network | Device.

Inductive ResourceState : Type :=
  | Available
  | Unavailable.

#[export] Instance ResourceKind_eq_dec : EqDecision ResourceKind.
Proof. solve_decision. Defined.
#[export] Instance ResourceState_eq_dec : EqDecision ResourceState.
Proof. solve_decision. Defined.

Record Resource : Type := mkResource {
  r_id : string;
  r_kind : ResourceKind;
  r_capacity : Z;
  r_unit : string;
  r_node : string;
  r_state : ResourceState;
  r_exclusive : bool;
  r_attributes : gmap string string;
}.

#[export] Instance Resource_eq_dec : EqDecision Resource.
Proof. solve_decision. Defined.

(** [std::thread::available_parallelism] as the host reports it. *)
Definition local_cpu (node : string) (available_parallelism : option Z) : Resource :=
  {| r_id := "local.cpu.logical"; r_kind := Cpu;
     r_capacity := match available_parallelism with Some p => p | None => 1 end;
     r_unit := "logical-cpu"; r_node := node; r_state := Available; r_exclusive := false;
     r_attributes := {[ "topology.scope" := "host" ]} |}.

Definition local_memory (node : string) (bytes : Z) : Resource :=
  {| r_id := "local.memory"; r_kind := Memory; r_capacity := bytes;
     r_unit := "bytes"; r_node := node; r_state := Available; r_exclusive := false;
     r_attributes := {[ "topology.scope" := "host" ]} |}.

Record Lease : Type := mkLease {
  l_id : Z;
  l_resource_id : string;
  l_owner : string;
}.

#[export] Instance Lease_eq_dec : EqDecision Lease.
Proof. solve_decision. Defined.

Record Attachment : Type := mkAttachment {
  at_resource_id : string;
  at_lease_id : Z;
  at_adapter : string;
  at_details : gmap string string;
}.

#[export] Instance Attachment_eq_dec : EqDecision Attachment.
Proof. solve_decision. Defined.

Record AdapterReport : Type := mkAdapterReport {
  ar_name : string;
  ar_scope : string;
  ar_healthy : bool;
  ar_detail : gmap string string;
}.

#[export] Instance AdapterReport_eq_dec : EqDecision AdapterReport.
Proof. solve_decision. Defined.

(** ** Errors *)

Inductive FabricError : Type :=
  | ResourceNotFound
  | ResourceUnavailable
  | ResourceAlreadyLeased
  | LeaseNotFound
  | AdapterNotFound
  | IncompatibleResourceKind (adapter : string) (expected actual : ResourceKind)
  | IncompatibleResourceLocality (adapter expected actual : string)
  | MissingResourceAttribute (key : string)
  | AdapterBackendUnavailable (adapter reason : string)
  | GuestMemory (reason : string).

#[export] Instance FabricError_eq_dec : EqDecision FabricError.
Proof. solve_decision. Defined.

(** [{:?}] of a [ResourceKind]. *)
Definition debug_kind (k : ResourceKind) : string :=
  match k with
  | Cpu => "Cpu" | Gpu => "Gpu" | Memory => "Memory"
  | Storage => "Storage" | Network => "Network" | Device => "Device"
  end.

(** The [Display] text of an error, which is what crosses the wire. *)
Definition fabric_error_display (e : FabricError) : string :=
  match e with
  | ResourceNotFound => "resource does not exist"
  | ResourceUnavailable => "resource is unavailable"
  | ResourceAlreadyLeased => "resource already has an active exclusive lease"
  | LeaseNotFound => "lease does not exist or is not owned by this caller"
  | AdapterNotFound => "adapter does not exist"
  | IncompatibleResourceKind a ex ac =>
      "adapter " +:+ a +:+ " requires " +:+ debug_kind ex +:+ ", but resource is " +:+ debug_kind ac
  | IncompatibleResourceLocality a ex ac =>
      "adapter " +:+ a +:+ " requires a " +:+ ex +:+ " resource, but resource is " +:+ ac
  | MissingResourceAttribute k =>
      "resource does not contain required adapter attribute: " +:+ k
  | AdapterBackendUnavailable a reason =>
      "adapter " +:+ a +:+ " backend is unavailable: " +:+ reason
  | GuestMemory reason => "guest memory allocation failed: " +:+ reason
  end.

(** ** Requests *)

Record ResourceRequest : Type := mkResourceRequest {
  rq_kind : option ResourceKind;
  rq_minimum_capacity : option Z;
  rq_node : option string;
  rq_required_attributes : gmap string string;
  rq_exclusive : bool;
}.

(** [Option::is_none_or]. *)
Definition is_none_or {A} (o : option A) (p : A -> bool) : bool :=
  match o with None => true | Some a => p a end.

Definition matches (rq : ResourceRequest) (r : Resource) : bool :=
  bool_decide (r_state r = Available)
  && is_none_or (rq_kind rq) (fun kind => bool_decide (kind = r_kind r))
  && is_none_or (rq_minimum_capacity rq) (fun capacity => bool_decide (r_capacity r >= capacity))
  && is_none_or (rq_node rq) (fun node => bool_decide (node = r_node r))
  && (negb (rq_exclusive rq) || r_exclusive r)
  && forallb (fun '(key, value) => bool_decide (r_attributes r !! key = Some value))
       (bt_iter (rq_required_attributes rq)).

(** The declarative reading of [matches]. *)
Definition satisfies (rq : ResourceRequest) (r : Resource) : Prop :=
  r_state r = Available
  /\ (forall kind, rq_kind rq = Some kind -> r_kind r = kind)
  /\ (forall capacity, rq_minimum_capacity rq = Some capacity -> capacity <= r_capacity r)
  /\ (forall node, rq_node rq = Some node -> r_node r = node)
  /\ (rq_exclusive rq = true -> r_exclusive r = true)
  /\ rq_required_attributes rq ⊆ r_attributes r.

Lemma is_none_or_true {A} (o : option A) (p : A -> bool) :
  is_none_or o p = true <-> (forall a, o = Some a -> p a = true).
Proof. destruct o; simpl; naive_solver. Qed.

Lemma forallb_bt_iter {V} (m : gmap string V) (p : string * V -> bool) :
  forallb p (bt_iter m) = true <-> (forall k v, m !! k = Some v -> p (k, v) = true).
Proof.
  rewrite forallb_forall. split.
  - intros H k v Hk. apply H, list_elem_of_In. by apply elem_of_bt_iter.
  - intros H [k v] Hin. apply H, elem_of_bt_iter. by apply list_elem_of_In.
Qed.

Lemma matches_satisfies rq r : matches rq r = true <-> satisfies rq r.
Proof.
  unfold matches, satisfies.
  rewrite !andb_true_iff, !is_none_or_true, forallb_bt_iter, bool_decide_eq_true.
  rewrite orb_true_iff, negb_true_iff.
  assert ((forall k v, rq_required_attributes rq !! k = Some v ->
             bool_decide (r_attributes r !! k = Some v) = true)
          <-> rq_required_attributes rq ⊆ r_attributes r) as ->.
  { rewrite map_subseteq_spec. split; intros H k v Hk.
    - by eapply bool_decide_eq_true_1, H.
    - by apply bool_decide_eq_true_2, H. }
  split.
  - intros [[[[[Hs Hk] Hc] Hn] He] Ha]. repeat split; try done.
    + intros k Hk'. apply Hk in Hk'. by apply bool_decide_eq_true in Hk'.
    + intros c Hc'. apply Hc in Hc'. apply bool_decide_eq_true in Hc'. lia.
    + intros n Hn'. apply Hn in Hn'. by apply bool_decide_eq_true in Hn'.
    + destruct He; congruence.
  - intros (Hs & Hk & Hc & Hn & He & Ha). repeat split; try done.
    + intros k Hk'. apply bool_decide_eq_true. symmetry. by apply Hk.
    + intros c Hc'. apply bool_decide_eq_true. apply Hc in Hc'. lia.
    + intros n Hn'. apply bool_decide_eq_true. symmetry. by apply Hn.
    + destruct (rq_exclusive rq); [right; by apply He|by left].
Qed.

(** ** The adapter interface

    [Arc<dyn ResourceAdapter>] is a record of operations over [W], the state that
    lives behind the adapters and outside the registry: their own mutexes and the
    host they act on. *)

Record ResourceAdapter (W : Type) : Type := mkAdapter {
  ad_name : string;
  ad_attach : Resource -> Lease -> W -> result FabricError Attachment * W;
  ad_detach : Resource -> Lease -> W -> result FabricError () * W;
  ad_capability_report : W -> AdapterReport;
}.
Arguments mkAdapter {W}.
Arguments ad_name {W}.
Arguments ad_attach {W}.
Arguments ad_detach {W}.
Arguments ad_capability_report {W}.

(** The trait's default [detach]: a no-op. *)
Definition default_detach {W} (_ : Resource) (_ : Lease) (w : W) : result FabricError () * W :=
  (Ok tt, w).

(** The trait's default [capability_report]. *)
Definition default_capability_report {W} (name : string) (_ : W) : AdapterReport :=
  {| ar_name := name; ar_scope := "unspecified"; ar_healthy := true; ar_detail := ∅ |}.

(** What an adapter promises to the registry and its callers. *)
Class AdapterLaws {W} (ad : ResourceAdapter W) : Prop := {
  attach_names_lease : forall r l w a w',
    ad_attach ad r l w = (Ok a, w') ->
    at_resource_id a = r_id r /\ at_lease_id a = l_id l /\ at_adapter a = ad_name ad;
  report_names_adapter : forall w, ar_name (ad_capability_report ad w) = ad_name ad;
}.

(** ** [LocalProofAdapter] *)

Definition local_proof_attach {W} (r : Resource) (l : Lease) (w : W) :
    result FabricError Attachment * W :=
  if bool_decide (r_id r <> l_resource_id l) then (Err ResourceNotFound, w)
  else (Ok {| at_resource_id := r_id r; at_lease_id := l_id l;
              at_adapter := "local-proof"; at_details := ∅ |}, w).

Definition LocalProofAdapter {W} : ResourceAdapter W :=
  {| ad_name := "local-proof"; ad_attach := local_proof_attach;
     ad_detach := default_detach;
     ad_capability_report := default_capability_report "local-proof" |}.

#[export] Instance LocalProofAdapter_laws {W} : AdapterLaws (@LocalProofAdapter W).
Proof.
  split; [|done]. intros r l w a w'. simpl. unfold local_proof_attach.
  case_bool_decide; naive_solver.
Qed.
