(* ===== verification/Fabric.v ===== *)
(** * The resource registry (nauti-fabric/src/lib.rs, [Fabric])

    The registry is a record of the maps its locks guard. Every method is a
    computation over that record; a method that takes a lock twice is the
    composition of the pieces between the locks; [Interleave] interleaves those
    of several callers. [Instant::now()] is an
    argument: [Clock] gives the reading each visited lease is compared with and
    the reading taken after them. *)

From stdpp Require Import base tactics option list gmap strings pretty sorting fin_maps relations.
From S2P Require Import Prelude Str Resource.

#[local] Open Scope Z_scope.

(** ** State *)

Record ActiveLease : Type := mkActiveLease {
  al_lease : Lease;
  al_expires_at : instant;
}.

Record RefreshReport : Type := mkRefreshReport {
  rr_added : list string;
  rr_removed : list string;
  rr_blocked_by_lease : list string;
}.

(** [leases_poisoned] is the poison flag of the [leases] mutex: [lock().expect]
    panics once a thread has panicked while holding it. [world] is the state
    behind the registered adapters. *)
Record Fabric (W : Type) : Type := mkFabric {
  resources : gmap string Resource;
  leases : gmap string ActiveLease;
  leases_poisoned : bool;
  adapters : gmap string (ResourceAdapter W);
  attachments : gmap string string;
  heartbeats : gmap string instant;
  next_lease_id : Z;
  world : W;
}.
Arguments mkFabric {W}.
Arguments resources {W}.
Arguments leases {W}.
Arguments leases_poisoned {W}.
Arguments adapters {W}.
Arguments attachments {W}.
Arguments heartbeats {W}.
Arguments next_lease_id {W}.
Arguments world {W}.

(** The clock readings of one call: [visit k] is the [Instant::now()] that the
    lease of resource [k] is compared with, [now] the one taken after. *)
Record Clock : Type := mkClock {
  visit : string -> instant;
  now : instant;
}.

Definition clock_at (t : instant) : Clock := {| visit := fun _ => t; now := t |}.

(** The readings of one call lie in the interval of the call. *)
Definition clock_ok (t0 : instant) (c : Clock) : Prop :=
  (forall k, t0 <= visit c k <= now c) /\ t0 <= now c.

Section fabric.
Context {W : Type}.
Implicit Types (fab : Fabric W).

(** [Fabric::default()]. *)
Definition default (w : W) : Fabric W :=
  {| resources := ∅; leases := ∅; leases_poisoned := false; adapters := ∅;
     attachments := ∅; heartbeats := ∅; next_lease_id := 0; world := w |}.

Definition with_resources f fab : Fabric W :=
  mkFabric (f (resources fab)) (leases fab) (leases_poisoned fab) (adapters fab)
    (attachments fab) (heartbeats fab) (next_lease_id fab) (world fab).
Definition with_leases f fab : Fabric W :=
  mkFabric (resources fab) (f (leases fab)) (leases_poisoned fab) (adapters fab)
    (attachments fab) (heartbeats fab) (next_lease_id fab) (world fab).
Definition with_poison b fab : Fabric W :=
  mkFabric (resources fab) (leases fab) b (adapters fab)
    (attachments fab) (heartbeats fab) (next_lease_id fab) (world fab).
Definition with_adapters f fab : Fabric W :=
  mkFabric (resources fab) (leases fab) (leases_poisoned fab) (f (adapters fab))
    (attachments fab) (heartbeats fab) (next_lease_id fab) (world fab).
Definition with_attachments f fab : Fabric W :=
  mkFabric (resources fab) (leases fab) (leases_poisoned fab) (adapters fab)
    (f (attachments fab)) (heartbeats fab) (next_lease_id fab) (world fab).
Definition with_heartbeats f fab : Fabric W :=
  mkFabric (resources fab) (leases fab) (leases_poisoned fab) (adapters fab)
    (attachments fab) (f (heartbeats fab)) (next_lease_id fab) (world fab).
Definition with_next_lease_id n fab : Fabric W :=
  mkFabric (resources fab) (leases fab) (leases_poisoned fab) (adapters fab)
    (attachments fab) (heartbeats fab) n (world fab).
Definition with_world w fab : Fabric W :=
  mkFabric (resources fab) (leases fab) (leases_poisoned fab) (adapters fab)
    (attachments fab) (heartbeats fab) (next_lease_id fab) w.

(** [self.leases.lock().expect(...)]. *)
Definition lock_leases : ST (Fabric W) () :=
  fun fab => if leases_poisoned fab then (Panicked, fab) else (Done tt, fab).

(** A panic while the guard of [leases] is alive. *)
Definition panic_holding_leases {A} : ST (Fabric W) A :=
  fun fab => (Panicked, with_poison true fab).

(** ** Registry *)

Definition register (r : Resource) : ST (Fabric W) () :=
  st_modify (with_resources (insert (r_id r) r)).

Definition register_all (rs : list Resource) : ST (Fabric W) () := st_iter register rs.

(** [discover_local] with the resources discovery found. *)
Definition discover_local (discovered : list Resource) : ST (Fabric W) (list Resource) :=
  _ ← register_all discovered; mret discovered.

Definition resource (id : string) fab : option Resource := resources fab !! id.

Definition r_id_le (a b : Resource) : Prop := String.le (r_id a) (r_id b).
#[global] Instance r_id_le_dec : RelDecision r_id_le.
Proof. intros a b. unfold r_id_le. apply _. Defined.

(** [resources()]: the values, sorted by id. *)
Definition resources_sorted fab : list Resource :=
  merge_sort r_id_le (map_to_list (resources fab)).*2.

(** The lock of [leases] is dropped between the two halves of [unregister]. *)
Definition unregister_check (id : string) : ST (Fabric W) (result FabricError ()) :=
  _ ← lock_leases;
  fab ← st_get;
  if decide (is_Some (leases fab !! id)) then mret (Err ResourceAlreadyLeased)
  else mret (Ok tt).

Definition unregister_remove (id : string) : ST (Fabric W) (result FabricError bool) :=
  fab ← st_get;
  let removed := bool_decide (is_Some (resources fab !! id)) in
  _ ← st_modify (with_resources (delete id));
  mret (Ok removed).

Definition unregister (id : string) : ST (Fabric W) (result FabricError bool) :=
  let? _ := unregister_check id in unregister_remove id.

(** The removal loop of [refresh_local]. *)
Fixpoint refresh_remove (ids removed blocked : list string) :
    ST (Fabric W) (list string * list string) :=
  match ids with
  | [] => mret (removed, blocked)
  | id :: ids =>
      res ← unregister id;
      match res with
      | Ok true => refresh_remove ids (app removed [id]) blocked
      | Ok false => refresh_remove ids removed blocked
      | Err ResourceAlreadyLeased => refresh_remove ids removed (app blocked [id])
      | Err _ => refresh_remove ids removed blocked
      end
  end.

Definition ids_of (rs : list Resource) : gset string := list_to_set (r_id <$> rs).

Definition refresh_local (new_resources : list Resource) : ST (Fabric W) RefreshReport :=
  fab ← st_get;
  let new_ids := ids_of new_resources in
  let current_ids := dom (resources fab) in
  let added := bt_elements (new_ids ∖ current_ids) in
  let gone := bt_elements (current_ids ∖ new_ids) in
  _ ← st_iter (fun r => if decide (r_id r ∈ added) then register r else mret tt) new_resources;
  rb ← refresh_remove gone [] [];
  mret {| rr_added := added; rr_removed := rb.1; rr_blocked_by_lease := rb.2 |}.

(** ** Adapters *)

Definition register_adapter (ad : ResourceAdapter W) : ST (Fabric W) () :=
  st_modify (with_adapters (insert (ad_name ad) ad)).

Definition ar_name_le (a b : AdapterReport) : Prop := String.le (ar_name a) (ar_name b).
#[global] Instance ar_name_le_dec : RelDecision ar_name_le.
Proof. intros a b. unfold ar_name_le. apply _. Defined.

Definition adapter_reports fab : list AdapterReport :=
  merge_sort ar_name_le
    ((fun ad => ad_capability_report ad (world fab)) <$> (map_to_list (adapters fab)).*2).

(** ** Leases *)

(** [leases.retain(|_, active| active.expires_at > Instant::now())]. *)
Definition retain_active (c : Clock) (ls : gmap string ActiveLease) : gmap string ActiveLease :=
  filter (fun kv => visit c kv.1 < al_expires_at kv.2) ls.

Definition lease_check (id : string) : ST (Fabric W) (result FabricError ()) :=
  fab ← st_get;
  match resource id fab with
  | None => mret (Err ResourceNotFound)
  | Some r =>
      if decide (r_state r <> Available) then mret (Err ResourceUnavailable)
      else if negb (r_exclusive r) then mret (Err ResourceUnavailable)
      else mret (Ok tt)
  end.

Definition lease_grant (c : Clock) (id owner : string) (ttl : duration) :
    ST (Fabric W) (result FabricError Lease) :=
  _ ← lock_leases;
  _ ← st_modify (with_leases (retain_active c));
  fab ← st_get;
  if decide (is_Some (leases fab !! id)) then mret (Err ResourceAlreadyLeased)
  else
    let lease := {| l_id := u64_wrap (next_lease_id fab + 1);
                    l_resource_id := id; l_owner := owner |} in
    _ ← st_modify (with_next_lease_id (u64_wrap (next_lease_id fab + 1)));
    match instant_add (now c) ttl with
    | None => panic_holding_leases
    | Some e =>
        _ ← st_modify (with_leases (insert id {| al_lease := lease; al_expires_at := e |}));
        mret (Ok lease)
    end.

Definition lease_exclusive (c : Clock) (id owner : string) (ttl : duration) :
    ST (Fabric W) (result FabricError Lease) :=
  let? _ := lease_check id in lease_grant c id owner ttl.

(** The source iterates a [HashMap]; its order is no part of what is promised. *)
Definition find_available (rq : ResourceRequest) : ST (Fabric W) (list Resource) :=
  _ ← lock_leases;
  fab ← st_get;
  mret (filter (fun r => matches rq r = true
                         /\ (r_exclusive r = false \/ leases fab !! r_id r = None))
          (map_to_list (resources fab)).*2).

(** Does the presented lease hold the resource at [t]? *)
Definition authorized (l : Lease) (t : instant) fab : bool :=
  match leases fab !! l_resource_id l with
  | Some a => bool_decide (l_id (al_lease a) = l_id l) && bool_decide (t < al_expires_at a)
  | None => false
  end.

Definition attach (c : Clock) (adapter_name : string) (l : Lease) :
    ST (Fabric W) (result FabricError Attachment) :=
  fab ← st_get;
  match resource (l_resource_id l) fab with
  | None => mret (Err ResourceNotFound)
  | Some r =>
      _ ← lock_leases;
      if negb (authorized l (now c) fab) then mret (Err LeaseNotFound)
      else match adapters fab !! adapter_name with
           | None => mret (Err AdapterNotFound)
           | Some ad =>
               let '(res, w) := ad_attach ad r l (world fab) in
               _ ← st_modify (with_world w);
               match res with
               | Err e => mret (Err e)
               | Ok att =>
                   _ ← st_modify (with_attachments (insert (l_resource_id l) adapter_name));
                   mret (Ok att)
               end
           end
  end.

(** The guard both locked sections of [release] start with. *)
Definition holds_lease (l : Lease) fab : bool :=
  match leases fab !! l_resource_id l with
  | Some a => bool_decide (l_id (al_lease a) = l_id l)
  | None => false
  end.

Definition release_check (l : Lease) : ST (Fabric W) (result FabricError ()) :=
  _ ← lock_leases;
  fab ← st_get;
  if holds_lease l fab then mret (Ok tt) else mret (Err LeaseNotFound).

Definition release_detach (l : Lease) : ST (Fabric W) (result FabricError ()) :=
  fab ← st_get;
  let adapter_name := attachments fab !! l_resource_id l in
  _ ← st_modify (with_attachments (delete (l_resource_id l)));
  match adapter_name with
  | None => mret (Ok tt)
  | Some n =>
      match resource (l_resource_id l) fab with
      | None => mret (Ok tt)
      | Some r =>
          match adapters fab !! n with
          | None => mret (Ok tt)
          | Some ad =>
              let '(res, w) := ad_detach ad r l (world fab) in
              _ ← st_modify (with_world w);
              mret res
          end
      end
  end.

Definition release_remove (l : Lease) : ST (Fabric W) (result FabricError ()) :=
  _ ← lock_leases;
  fab ← st_get;
  if holds_lease l fab then
    _ ← st_modify (with_leases (delete (l_resource_id l)));
    mret (Ok tt)
  else mret (Err LeaseNotFound).

Definition release (l : Lease) : ST (Fabric W) (result FabricError ()) :=
  let? _ := release_check l in
  let? _ := release_detach l in
  release_remove l.

Definition renew_lease (c : Clock) (l : Lease) (ttl : duration) :
    ST (Fabric W) (result FabricError Lease) :=
  _ ← lock_leases;
  _ ← st_modify (with_leases (retain_active c));
  fab ← st_get;
  match leases fab !! l_resource_id l with
  | Some a =>
      if decide (l_id (al_lease a) = l_id l) then
        match instant_add (now c) ttl with
        | None => panic_holding_leases
        | Some e =>
            _ ← st_modify (with_leases
                  (insert (l_resource_id l) {| al_lease := al_lease a; al_expires_at := e |}));
            mret (Ok (al_lease a))
        end
      else mret (Err LeaseNotFound)
  | None => mret (Err LeaseNotFound)
  end.

(** ** Liveness *)

Definition heartbeat (c : Clock) (node : string) : ST (Fabric W) () :=
  st_modify (with_heartbeats (insert node (now c))).

(** In some order, as in [find_available]. *)
Definition stale_nodes (cutoff : instant) fab : list string :=
  (map_to_list (filter (fun kv => kv.2 < cutoff) (heartbeats fab))).*1.

Definition owned_by (nodes : list string) fab : list string :=
  (map_to_list (filter (fun kv => r_node kv.2 ∈ nodes) (resources fab))).*1.

Definition evict_stale_nodes (c : Clock) (older_than : duration) : ST (Fabric W) (list string) :=
  match instant_sub (now c) older_than with
  | None => st_panic
  | Some cutoff =>
      fab ← st_get;
      let stale := stale_nodes cutoff fab in
      _ ← st_modify (with_heartbeats (fun hb => foldr delete hb stale));
      match stale with
      | [] => mret stale
      | _ =>
          fab' ← st_get;
          _ ← st_iter (fun id => _ ← unregister id; mret tt) (owned_by stale fab');
          mret stale
      end
  end.

(** ** The public interface as calls *)

Inductive Call : Type :=
  | CRegister (r : Resource)
  | CDiscover (discovered : list Resource)
  | CUnregister (id : string)
  | CRefresh (new_resources : list Resource)
  | CRegisterAdapter (ad : ResourceAdapter W)
  | CLease (id owner : string) (ttl : duration)
  | CAttach (adapter_name : string) (l : Lease)
  | CRelease (l : Lease)
  | CRenew (l : Lease) (ttl : duration)
  | CHeartbeat (node : string)
  | CEvict (older_than : duration).

Definition run_call (c : Clock) (call : Call) : ST (Fabric W) () :=
  match call with
  | CRegister r => register r
  | CDiscover rs => _ ← discover_local rs; mret tt
  | CUnregister id => _ ← unregister id; mret tt
  | CRefresh rs => _ ← refresh_local rs; mret tt
  | CRegisterAdapter ad => register_adapter ad
  | CLease id owner ttl => _ ← lease_exclusive c id owner ttl; mret tt
  | CAttach n l => _ ← attach c n l; mret tt
  | CRelease l => _ ← release l; mret tt
  | CRenew l ttl => _ ← renew_lease c l ttl; mret tt
  | CHeartbeat n => heartbeat c n
  | CEvict d => _ ← evict_stale_nodes c d; mret tt
  end.

Definition run_calls (calls : list (Clock * Call)) : Fabric W -> Fabric W :=
  st_seq ((fun cc => run_call cc.1 cc.2) <$> calls).
End fabric.

Arguments Call : clear implicits.
