(* ===== verification/FabricInv.v ===== *)
(** * Well-formed registries

    The invariant of the registry and that every call keeps it, whatever its
    outcome (a panic included). The lease counter is a wrapping [u64]; the
    invariant carries a bound on it, so that the identifiers of the leases a run
    grants are distinct as long as the run makes fewer than 2^64 calls. *)

From stdpp Require Import base tactics option list gmap strings pretty sorting fin_maps relations.
From S2P Require Import Prelude Str Resource Fabric.

#[local] Open Scope Z_scope.

(** The lease table refers to registered resources, under their own keys, with
    identifiers that are in use once. *)
Record leases_ok (rs : gmap string Resource) (ls : gmap string ActiveLease) (n : Z) : Prop := {
  lo_key : forall k a, ls !! k = Some a -> l_resource_id (al_lease a) = k;
  lo_registered : forall k a, ls !! k = Some a -> is_Some (rs !! k);
  lo_issued : forall k a, ls !! k = Some a -> 1 <= l_id (al_lease a) <= n;
  lo_distinct : forall k1 k2 a1 a2, ls !! k1 = Some a1 -> ls !! k2 = Some a2 ->
    l_id (al_lease a1) = l_id (al_lease a2) -> k1 = k2;
}.

Definition keyed_by_id (rs : gmap string Resource) : Prop :=
  forall k r, rs !! k = Some r -> r_id r = k.

Record fabric_inv {W} (n : Z) (fab : Fabric W) : Prop := {
  inv_resources : keyed_by_id (resources fab);
  inv_leases : leases_ok (resources fab) (leases fab) (next_lease_id fab);
  inv_adapters : forall k ad, adapters fab !! k = Some ad -> ad_name ad = k;
  inv_counter : 0 <= next_lease_id fab <= n;
}.

(** ** The lease table *)

Section leases_ok.
Implicit Types (rs : gmap string Resource) (ls : gmap string ActiveLease).

Lemma leases_ok_subseteq rs ls ls' n :
  ls' ⊆ ls -> leases_ok rs ls n -> leases_ok rs ls' n.
Proof.
  intros Hsub [Hk Hr Hi Hd]. rewrite map_subseteq_spec in Hsub.
  split; intros; eauto.
Qed.

Lemma leases_ok_resources rs rs' ls n :
  (forall k, is_Some (ls !! k) -> is_Some (rs !! k) -> is_Some (rs' !! k)) ->
  leases_ok rs ls n -> leases_ok rs' ls n.
Proof. intros H [Hk Hr Hi Hd]. split; eauto. Qed.

Lemma leases_ok_mono rs ls n m : n <= m -> leases_ok rs ls n -> leases_ok rs ls m.
Proof.
  intros Hnm [Hk Hr Hi Hd]. split; eauto. intros k a Ha. apply Hi in Ha. lia.
Qed.

Lemma leases_ok_grant rs ls n id owner e :
  0 <= n -> is_Some (rs !! id) -> leases_ok rs ls n ->
  leases_ok rs (<[id := {| al_lease := mkLease (n + 1) id owner; al_expires_at := e |}]> ls) (n + 1).
Proof.
  intros Hn Hid [Hk Hr Hi Hd]. split.
  - intros k a. rewrite lookup_insert_Some. intros [[<- <-]|[_ H]]; eauto.
  - intros k a. rewrite lookup_insert_Some. intros [[<- <-]|[_ H]]; eauto.
  - intros k a. rewrite lookup_insert_Some. intros [[<- <-]|[_ H]]; simpl; [lia|].
    apply Hi in H. lia.
  - intros k1 k2 a1 a2. rewrite !lookup_insert_Some.
    intros [[<- <-]|[? H1]] [[<- <-]|[? H2]]; simpl; intros Heq; eauto.
    + apply Hi in H2. lia.
    + apply Hi in H1. lia.
Qed.

Lemma leases_ok_renew rs ls n id a e :
  ls !! id = Some a -> leases_ok rs ls n ->
  leases_ok rs (<[id := {| al_lease := al_lease a; al_expires_at := e |}]> ls) n.
Proof.
  intros Ha [Hk Hr Hi Hd].
  assert (forall k b, <[id := {| al_lease := al_lease a; al_expires_at := e |}]> ls !! k = Some b ->
            exists b', ls !! k = Some b' /\ al_lease b = al_lease b') as Hback.
  { intros k b. rewrite lookup_insert_Some. intros [[<- <-]|[_ H]]; eauto. }
  split.
  - intros k b Hb. destruct (Hback _ _ Hb) as (b' & Hb' & ->). eauto.
  - intros k b Hb. destruct (Hback _ _ Hb) as (b' & Hb' & _). eauto.
  - intros k b Hb. destruct (Hback _ _ Hb) as (b' & Hb' & ->). eauto.
  - intros k1 k2 b1 b2 H1 H2. destruct (Hback _ _ H1) as (? & ? & ->).
    destruct (Hback _ _ H2) as (? & ? & ->). eauto.
Qed.

Lemma retain_active_subseteq c ls : retain_active c ls ⊆ ls.
Proof. apply map_filter_subseteq. Qed.

Lemma retain_active_empty c : retain_active c ∅ = ∅.
Proof. apply map_filter_empty. Qed.

Lemma retain_active_Some c ls k a :
  retain_active c ls !! k = Some a <-> ls !! k = Some a /\ visit c k < al_expires_at a.
Proof. unfold retain_active. by rewrite map_lookup_filter_Some. Qed.

Lemma retain_active_None c ls k :
  retain_active c ls !! k = None <->
  (forall a, ls !! k = Some a -> al_expires_at a <= visit c k).
Proof.
  unfold retain_active. rewrite map_lookup_filter_None. split.
  - intros [Hn|H] a Ha; [congruence|]. specialize (H a Ha). simpl in H. lia.
  - intros H. destruct (ls !! k) as [a|] eqn:E; [right|by left].
    intros b Hb. simplify_eq. specialize (H b eq_refl). simpl. lia.
Qed.

End leases_ok.

#[export] Hint Resolve leases_ok_mono leases_ok_subseteq retain_active_subseteq
  map_filter_subseteq delete_subseteq : nauti.

(** ** Every operation keeps the invariant *)

Section preservation.
Context {W : Type}.
Implicit Types (fab : Fabric W).

Lemma fabric_inv_mono n m fab : n <= m -> fabric_inv n fab -> fabric_inv m fab.
Proof. intros Hnm [Hr Hl Ha Hn]. split; try done. lia. Qed.

Lemma default_inv (w : W) : fabric_inv 0 (default w).
Proof.
  split; simpl; try lia.
  - intros k r. by rewrite lookup_empty.
  - by split; intros *; rewrite ?lookup_empty.
  - intros k ad. by rewrite lookup_empty.
Qed.

Lemma register_inv n r : st_pres (fabric_inv n) (@register W r).
Proof.
  intros fab [Hr Hl Ha Hn]. split; simpl; try done.
  - intros k r'. rewrite lookup_insert_Some. intros [[<- <-]|[_ H]]; eauto.
  - eapply leases_ok_resources; [|done]. intros k _ Hk.
    destruct (decide (r_id r = k)) as [<-|].
    + rewrite lookup_insert_eq. eauto.
    + by rewrite lookup_insert_ne.
Qed.

Lemma register_all_inv n rs : st_pres (fabric_inv n) (@register_all W rs).
Proof. apply st_pres_iter. intros r. apply register_inv. Qed.

Lemma with_leases_inv n f fab :
  f (leases fab) ⊆ leases fab -> fabric_inv n fab -> fabric_inv n (with_leases f fab).
Proof. intros Hf [Hr Hl Ha Hn]. split; simpl; eauto using leases_ok_subseteq. Qed.

(** The states [unregister] can leave behind. *)
Lemma unregister_cases id fab :
  (leases_poisoned fab = true /\ unregister id fab = (Panicked, fab)) \/
  (leases_poisoned fab = false /\ is_Some (leases fab !! id) /\
     unregister id fab = (Done (Err ResourceAlreadyLeased), fab)) \/
  (leases_poisoned fab = false /\ leases fab !! id = None /\
     unregister id fab = (Done (Ok (bool_decide (is_Some (resources fab !! id)))),
                          with_resources (delete id) fab)).
Proof.
  unfold unregister, unregister_check, unregister_remove, lock_leases. st_unfold.
  destruct (leases_poisoned fab); [by left|right].
  destruct (decide (is_Some (leases fab !! id))) as [Hs|Hs]; [left; done|right].
  by rewrite <-eq_None_not_Some in Hs.
Qed.

Lemma unregister_inv n id : st_pres (fabric_inv n) (@unregister W id).
Proof.
  intros fab Hinv.
  destruct (unregister_cases id fab) as [[_ ->]|[(_ & _ & ->)|(_ & Hnone & ->)]]; simpl; [done..|].
  destruct Hinv as [Hr Hl Ha Hn]. split; simpl; try done.
  - intros k r. rewrite lookup_delete_Some. intros [_ H]; eauto.
  - eapply leases_ok_resources; [|done]. intros k [a Hk] Hs.
    rewrite lookup_delete_ne; [done|]. intros ->. congruence.
Qed.

Lemma refresh_remove_inv n ids removed blocked :
  st_pres (fabric_inv n) (@refresh_remove W ids removed blocked).
Proof.
  revert removed blocked. induction ids as [|id ids IH]; intros removed blocked; simpl.
  { apply st_pres_ret. }
  apply st_pres_bind; [apply unregister_inv|].
  intros [[|]|[]]; apply IH.
Qed.

Lemma refresh_local_inv n rs : st_pres (fabric_inv n) (@refresh_local W rs).
Proof.
  unfold refresh_local. intros fab Hinv. st_unfold.
  match goal with |- context [st_iter ?f ?l fab] => set (it := st_iter f l) end.
  assert (st_pres (fabric_inv n) it) as Hit.
  { apply st_pres_iter. intros r. case_decide; [apply register_inv|apply st_pres_ret]. }
  specialize (Hit _ Hinv). destruct (it fab) as [[[]|] fab1]; [|done].
  match goal with |- context [refresh_remove ?g ?x ?y fab1] =>
    pose proof (refresh_remove_inv n g x y fab1 Hit) as Hrm;
    by destruct (refresh_remove g x y fab1) as [[]] end.
Qed.

Lemma lease_grant_inv n c id owner ttl fab :
  n + 1 < 2 ^ 64 -> is_Some (resources fab !! id) -> fabric_inv n fab ->
  fabric_inv (n + 1) (lease_grant c id owner ttl fab).2.
Proof.
  intros Hb Hid Hinv. unfold lease_grant, lock_leases, panic_holding_leases. st_unfold.
  assert (fabric_inv n (with_leases (retain_active c) fab)) as Hinv'
    by eauto using with_leases_inv, retain_active_subseteq.
  destruct (leases_poisoned fab); simpl; [eapply fabric_inv_mono; [|done]; lia|].
  case_decide; simpl; [eapply fabric_inv_mono; [|done]; lia|].
  destruct Hinv' as [Hr Hl Ha Hn]. simpl in *.
  assert (u64_wrap (next_lease_id fab + 1) = next_lease_id fab + 1) as Hw.
  { unfold u64_wrap. apply Z.mod_small. lia. }
  rewrite Hw. case_match; split; simpl; try done; try lia.
  - apply leases_ok_grant; [lia|done..].
  - eapply leases_ok_mono; [|done]. lia.
Qed.

Lemma lease_exclusive_inv n c id owner ttl fab :
  n + 1 < 2 ^ 64 -> fabric_inv n fab ->
  fabric_inv (n + 1) (lease_exclusive c id owner ttl fab).2.
Proof.
  intros Hb Hinv.
  assert (fabric_inv (n + 1) fab) by (eapply fabric_inv_mono; [|done]; lia).
  unfold lease_exclusive, st_try, lease_check, resource. st_unfold.
  destruct (resources fab !! id) as [r|] eqn:E; simpl; [|done].
  repeat (case_decide || case_match); simplify_eq/=; try done;
    apply lease_grant_inv; rewrite ?E; eauto.
Qed.

Lemma renew_lease_inv n c l ttl : st_pres (fabric_inv n) (@renew_lease W c l ttl).
Proof.
  intros fab Hinv. unfold renew_lease, lock_leases, panic_holding_leases. st_unfold.
  assert (fabric_inv n (with_leases (retain_active c) fab)) as Hinv'
    by eauto using with_leases_inv, retain_active_subseteq.
  destruct (leases_poisoned fab); simpl; [done|].
  destruct (retain_active c (leases fab) !! l_resource_id l) as [a|] eqn:E; simpl; [|done].
  case_decide; simpl; [|done].
  destruct Hinv' as [Hr Hl Ha Hn]. simpl in *.
  case_match; split; simpl; try done. by apply leases_ok_renew.
Qed.

(** The states [release] can leave behind: [release_detach] only changes the
    attachment table and the adapters' world. *)
Lemma release_detach_state l fab :
  exists att w r, release_detach l fab = (Done r, with_world w (with_attachments att fab)).
Proof.
  unfold release_detach. st_unfold.
  assert (forall att r, exists att' w (r' : result FabricError ()),
    (Done r, with_attachments att fab) = (Done r', with_world w (with_attachments att' fab))) as Hid.
  { intros att r. exists att, (world fab), r. by destruct fab. }
  destruct (attachments fab !! l_resource_id l) as [nm|]; [|apply Hid].
  destruct (resource (l_resource_id l) fab) as [r|]; [|apply Hid].
  destruct (adapters fab !! nm) as [ad|]; [|apply Hid].
  destruct (ad_detach ad r l (world fab)) as [res w]. by eexists _, w, res.
Qed.

Lemma release_inv n l : st_pres (fabric_inv n) (@release W l).
Proof.
  intros fab Hinv. unfold release, release_check, release_remove, lock_leases, st_try. st_unfold.
  destruct (leases_poisoned fab) eqn:Hp; simpl; [done|].
  destruct (holds_lease l fab); simpl; [|done].
  destruct (release_detach_state l fab) as (att & w & r & ->).
  assert (fabric_inv n (with_world w (with_attachments att fab))) as Hinv'
    by by destruct Hinv as [Hr Hl Ha Hn].
  destruct r as [[]|e]; simpl; [|done]. rewrite Hp. simpl.
  case_match; simpl; [|done].
  apply with_leases_inv; [apply delete_subseteq|done].
Qed.

Lemma attach_inv n c nm l : st_pres (fabric_inv n) (@attach W c nm l).
Proof.
  intros fab Hinv. unfold attach, lock_leases. st_unfold.
  repeat (case_match; simplify_eq/=); try done; by destruct Hinv as [Hr Hl Ha Hn].
Qed.

Lemma register_adapter_inv n ad : st_pres (fabric_inv n) (@register_adapter W ad).
Proof.
  intros fab [Hr Hl Ha Hn]. split; simpl; try done.
  intros k ad'. rewrite lookup_insert_Some. intros [[<- <-]|[_ H]]; eauto.
Qed.

Lemma evict_stale_nodes_inv n c d : st_pres (fabric_inv n) (@evict_stale_nodes W c d).
Proof.
  intros fab Hinv. unfold evict_stale_nodes. st_unfold.
  destruct (instant_sub (now c) d) as [cutoff|]; simpl; [|done].
  set (fab1 := with_heartbeats _ fab).
  assert (fabric_inv n fab1) as Hinv1 by by destruct Hinv.
  destruct (stale_nodes cutoff fab) as [|x xs]; simpl; [done|].
  match goal with |- context [st_iter ?f ?l fab1] => set (it := st_iter f l) end.
  assert (st_pres (fabric_inv n) it) as Hit.
  { apply st_pres_iter. intros id. apply st_pres_bind; [apply unregister_inv|].
    intros _. apply st_pres_ret. }
  specialize (Hit _ Hinv1). by destruct (it fab1) as [[[]|] fab2].
Qed.

Lemma st_pres_void {S A} (P : S -> Prop) (m : ST S A) :
  st_pres P m -> st_pres P (_ ← m; mret tt).
Proof. intros Hm. apply st_pres_bind; [done|]. intros _. apply st_pres_ret. Qed.

Lemma run_call_inv n c call fab :
  n + 1 < 2 ^ 64 -> fabric_inv n fab -> fabric_inv (n + 1) (run_call c call fab).2.
Proof.
  intros Hb Hinv.
  assert (fabric_inv (n + 1) fab) as Hinv' by (eapply fabric_inv_mono; [|done]; lia).
  destruct call; simpl.
  - by apply register_inv.
  - apply st_pres_void; [|done]. unfold discover_local.
    apply st_pres_bind; [apply register_all_inv|intros; apply st_pres_ret].
  - by apply st_pres_void; [apply unregister_inv|].
  - by apply st_pres_void; [apply refresh_local_inv|].
  - by apply register_adapter_inv.
  - st_unfold. pose proof (lease_exclusive_inv n c id owner ttl fab Hb Hinv) as H.
    by destruct (lease_exclusive c id owner ttl fab) as [[]].
  - by apply st_pres_void; [apply attach_inv|].
  - by apply st_pres_void; [apply release_inv|].
  - by apply st_pres_void; [apply renew_lease_inv|].
  - by destruct Hinv'.
  - by apply st_pres_void; [apply evict_stale_nodes_inv|].
Qed.

Lemma run_calls_inv calls n fab :
  n + Z.of_nat (length calls) < 2 ^ 64 -> fabric_inv n fab ->
  fabric_inv (n + Z.of_nat (length calls)) (run_calls calls fab).
Proof.
  unfold run_calls. revert n fab. induction calls as [|[c call] calls IH]; intros n fab Hb Hinv; simpl.
  { eapply fabric_inv_mono; [|done]. lia. }
  simpl length in *. rewrite Nat2Z.inj_succ in *.
  replace (n + Z.succ (Z.of_nat (length calls))) with (n + 1 + Z.of_nat (length calls)) by lia.
  apply IH; [lia|]. apply run_call_inv; [lia|done].
Qed.

(** C1. Starting from [Fabric::default()], any sequence of fewer than 2^64 calls
    of the public interface, whatever their arguments, clock readings and
    outcomes (errors and panics included), leaves a well-formed registry: every
    resource and every adapter is stored under its own name, every lease is
    stored under the resource it names, that resource is registered, and no two
    leases share an identifier. *)
Theorem fabric_reachable_inv (w : W) (calls : list (Clock * Call W)) :
  Z.of_nat (length calls) < 2 ^ 64 ->
  fabric_inv (Z.of_nat (length calls)) (run_calls calls (default w)).
Proof. intros Hb. by apply (run_calls_inv calls 0), default_inv. Qed.

End preservation.

Definition demo_gpu (id node : string) : Resource :=
  {| r_id := id; r_kind := Gpu; r_capacity := 1; r_unit := "device"; r_node := node;
     r_state := Available; r_exclusive := true;
     r_attributes := {[ "topology.scope" := "host" ]} |}.

Definition demo_calls : list (Clock * Call ()) :=
  [ (clock_at 0, CRegisterAdapter LocalProofAdapter);
    (clock_at 1, CRegister (demo_gpu "gpu.0" "n"));
    (clock_at 2, CLease "gpu.0" "alice" (from_secs 10));
    (clock_at 3, CLease "gpu.0" "bob" (from_secs 10));
    (clock_at 4, CUnregister "gpu.0");
    (clock_at 5, CLease "gpu.0" "carol" (from_secs u64_max));
    (clock_at (from_secs 11), CLease "gpu.0" "carol" (from_secs 1)) ].

Lemma fabric_reachable_inv_witness :
  Z.of_nat (length demo_calls) < 2 ^ 64
  /\ fabric_inv (Z.of_nat (length demo_calls)) (run_calls demo_calls (default tt))
  /\ (l_owner ∘ al_lease) <$> leases (run_calls demo_calls (default tt)) !! "gpu.0" = Some "carol".
Proof.
  split; [vm_compute; reflexivity|]. split; [|vm_compute; reflexivity].
  apply (fabric_reachable_inv tt demo_calls). vm_compute. reflexivity.
Defined.

(** A registry with one adapter, two devices on different nodes and a heartbeat,
    for the concrete instances of the theorems. *)
Definition demo_setup : list (Clock * Call ()) :=
  [ (clock_at 0, CRegisterAdapter LocalProofAdapter);
    (clock_at 1, CRegister (demo_gpu "gpu.0" "n"));
    (clock_at 1, CRegister (demo_gpu "gpu.1" "m"));
    (clock_at 1, CHeartbeat "n") ].
Definition demo_fab : Fabric () := run_calls demo_setup (default tt).
Definition demo_lease : Lease := mkLease 1 "gpu.0" "alice".
Definition demo_active : ActiveLease := mkActiveLease demo_lease (2 + from_secs 10).
Definition demo_leased : Fabric () :=
  run_calls [(clock_at 2, CLease "gpu.0" "alice" (from_secs 10))] demo_fab.

Lemma demo_fab_inv : fabric_inv 4 demo_fab.
Proof. apply (run_calls_inv demo_setup 0); [vm_compute; reflexivity|apply default_inv]. Qed.

Lemma demo_leased_inv : fabric_inv 5 demo_leased.
Proof. apply (run_calls_inv [_] 4); [vm_compute; reflexivity|apply demo_fab_inv]. Qed.
