(* ===== verification/FabricOps.v ===== *)
(** * What each registry operation does

    Leases, attachments, releases, renewals, the refresh diff, eviction and
    queries: every branch of the result and the state it leaves. *)

From stdpp Require Import base tactics option list gmap strings pretty sorting fin_maps relations.
From S2P Require Import Prelude Str Resource Fabric FabricInv.

#[local] Open Scope Z_scope.

Section lease_ops.
Context {W : Type}.
Implicit Types (fab : Fabric W).

(** The lease of [id] that a visit at its clock reading keeps. *)
Definition live_lease (c : Clock) (id : string) fab : option ActiveLease :=
  retain_active c (leases fab) !! id.

(** Can [id] be leased for [ttl] at all? *)
Definition leasable (c : Clock) (id : string) (ttl : duration) fab : Prop :=
  (exists r, resources fab !! id = Some r /\ r_state r = Available /\ r_exclusive r = true)
  /\ leases_poisoned fab = false
  /\ live_lease c id fab = None
  /\ is_Some (instant_add (now c) ttl).

Definition granted (c : Clock) (id owner : string) (ttl : duration) fab : Lease :=
  {| l_id := u64_wrap (next_lease_id fab + 1); l_resource_id := id; l_owner := owner |}.

(** The state after a grant: the expired leases are pruned, the counter moves,
    and the new lease is stored until [now + ttl]. *)
Definition after_grant (c : Clock) (id owner : string) (ttl : duration) fab : Fabric W :=
  with_leases (fun _ => <[id := {| al_lease := granted c id owner ttl fab;
                                   al_expires_at := now c + ttl |}]> (retain_active c (leases fab)))
    (with_next_lease_id (u64_wrap (next_lease_id fab + 1)) fab).

Lemma instant_add_Some t d e : instant_add t d = Some e -> e = t + d.
Proof. unfold instant_add. case_match; naive_solver. Qed.

Lemma lease_grant_ok c id owner ttl fab :
  leases_poisoned fab = false -> live_lease c id fab = None ->
  is_Some (instant_add (now c) ttl) ->
  lease_grant c id owner ttl fab =
    (Done (Ok (granted c id owner ttl fab)), after_grant c id owner ttl fab).
Proof.
  intros Hp Hl [e He]. unfold lease_grant, lock_leases, live_lease in *. st_unfold.
  rewrite Hp. simpl. rewrite Hl. rewrite decide_False by (by intros []).
  pose proof (instant_add_Some _ _ _ He) as ->. by rewrite He.
Qed.

Lemma lease_check_ok id fab r :
  resources fab !! id = Some r -> r_state r = Available -> r_exclusive r = true ->
  lease_check id fab = (Done (Ok tt), fab).
Proof.
  intros Hr Ha He. unfold lease_check, resource. st_unfold. rewrite Hr.
  rewrite decide_False by (rewrite Ha; naive_solver). by rewrite He.
Qed.

Lemma lease_exclusive_ok c id owner ttl fab :
  leasable c id ttl fab ->
  lease_exclusive c id owner ttl fab =
    (Done (Ok (granted c id owner ttl fab)), after_grant c id owner ttl fab).
Proof.
  intros ((r & Hr & Ha & He) & Hp & Hl & Hd).
  unfold lease_exclusive, st_try. unfold mbind, st_bind.
  rewrite (lease_check_ok id fab r) by done. by apply lease_grant_ok.
Qed.

(** Every way [lease_exclusive] does not grant. *)
Definition lease_refused (c : Clock) (id : string) (ttl : duration) fab
    (o : outcome (result FabricError Lease)) (fab' : Fabric W) : Prop :=
  (o = Done (Err ResourceNotFound) /\ resources fab !! id = None /\ fab' = fab)
  \/ (exists r, resources fab !! id = Some r
       /\ (r_state r = Unavailable \/ r_exclusive r = false)
       /\ o = Done (Err ResourceUnavailable) /\ fab' = fab)
  \/ (o = Panicked /\ leases_poisoned fab = true /\ fab' = fab)
  \/ (o = Done (Err ResourceAlreadyLeased) /\ is_Some (live_lease c id fab)
       /\ fab' = with_leases (retain_active c) fab)
  \/ (o = Panicked /\ instant_add (now c) ttl = None /\ leases_poisoned fab' = true
       /\ leases fab' = retain_active c (leases fab)).

Lemma lease_exclusive_cases c id owner ttl fab :
  (leasable c id ttl fab /\
     lease_exclusive c id owner ttl fab =
       (Done (Ok (granted c id owner ttl fab)), after_grant c id owner ttl fab))
  \/ (~ leasable c id ttl fab /\
       lease_refused c id ttl fab (lease_exclusive c id owner ttl fab).1
         (lease_exclusive c id owner ttl fab).2).
Proof.
  unfold lease_refused.
  destruct (resources fab !! id) as [r|] eqn:Hr; last first.
  { right. split; [by intros ((? & ? & _) & _); congruence|]. left.
    unfold lease_exclusive, lease_check, resource. st_unfold. by rewrite Hr. }
  destruct (decide (r_state r = Available /\ r_exclusive r = true)) as [[Ha He]|Hn]; last first.
  { right. split; [by intros ((? & ? & ?) & _); simplify_eq|]. right. left. exists r.
    split; [done|].
    assert (r_state r = Unavailable \/ r_exclusive r = false) as Hd.
    { destruct (r_state r), (r_exclusive r); naive_solver. }
    split; [done|]. unfold lease_exclusive, lease_check, resource. st_unfold. rewrite Hr.
    case_decide; [done|]. destruct (r_exclusive r); naive_solver. }
  assert (lease_exclusive c id owner ttl fab = lease_grant c id owner ttl fab) as Heq.
  { unfold lease_exclusive, st_try. unfold mbind, st_bind. by rewrite (lease_check_ok id fab r). }
  destruct (leases_poisoned fab) eqn:Hp.
  { right. split; [by intros (_ & ? & _); congruence|]. rewrite Heq. do 2 right. left.
    unfold lease_grant, lock_leases. st_unfold. by rewrite Hp. }
  destruct (live_lease c id fab) as [a|] eqn:Hl.
  { right. split; [by intros (_ & _ & ? & _); congruence|]. rewrite Heq. do 3 right. left.
    unfold lease_grant, lock_leases, live_lease in *. st_unfold. rewrite Hp. simpl.
    rewrite Hl. by rewrite decide_True by eauto. }
  destruct (instant_add (now c) ttl) as [e|] eqn:Hd.
  { left. assert (leasable c id ttl fab) as H by (repeat split; eauto).
    split; [done|]. by apply lease_exclusive_ok. }
  right. split; [by intros (_ & _ & _ & []); congruence|]. rewrite Heq. do 4 right.
  unfold lease_grant, lock_leases, panic_holding_leases, live_lease in *. st_unfold.
  rewrite Hp. simpl. rewrite Hl. rewrite decide_False by (by intros []). by rewrite Hd.
Qed.

(** C11. [lease_exclusive] grants exactly when the resource is registered,
    available and exclusive, no live lease holds it, the lock is usable and the
    deadline is representable; the granted lease then names the caller's
    resource and owner, carries an identifier no stored lease has, and is the
    resource's lease until [now + ttl], every other live lease being untouched.
    In every other case the precise error (or panic) is returned and no lease is
    created. *)
Theorem lease_exclusive_spec n c id owner ttl fab :
  fabric_inv n fab -> n + 1 < 2 ^ 64 ->
  ((exists l, (lease_exclusive c id owner ttl fab).1 = Done (Ok l)) <-> leasable c id ttl fab)
  /\ (forall l fab', lease_exclusive c id owner ttl fab = (Done (Ok l), fab') ->
       l_resource_id l = id /\ l_owner l = owner
       /\ (forall k a, leases fab !! k = Some a -> l_id (al_lease a) < l_id l)
       /\ leases fab' !! id = Some {| al_lease := l; al_expires_at := now c + ttl |}
       /\ (forall k, k <> id -> leases fab' !! k = live_lease c k fab)
       /\ resources fab' = resources fab)
  /\ (~ leasable c id ttl fab ->
       lease_refused c id ttl fab (lease_exclusive c id owner ttl fab).1
         (lease_exclusive c id owner ttl fab).2).
Proof.
  intros Hinv Hb. pose proof (inv_counter _ _ Hinv) as Hc.
  assert (u64_wrap (next_lease_id fab + 1) = next_lease_id fab + 1) as Hw
    by (apply Z.mod_small; lia).
  destruct (lease_exclusive_cases c id owner ttl fab) as [[Hl Heq]|[Hl Hr]].
  - rewrite Heq. split; [naive_solver|]. split; [|naive_solver].
    intros l fab' [= <- <-]. cbn. split_and!; try done.
    + intros k a Ha. apply (lo_issued _ _ _ (inv_leases _ _ Hinv)) in Ha. lia.
    + by rewrite lookup_insert_eq.
    + intros k Hk. by rewrite lookup_insert_ne.
  - destruct (lease_exclusive c id owner ttl fab) as [o fab']. simpl in *.
    assert (forall l, o <> Done (Ok l)) as Hno.
    { intros l ->. destruct Hr as [(?&_)|[(?&_&_&?&_)|[(?&_)|[(?&_)|(?&_)]]]]; congruence. }
    split; [|split; [|done]].
    + split; [intros [l ?]; by destruct (Hno l)|done].
    + intros l fab1 [= -> ->]. by destruct (Hno l).
Qed.

Lemma renew_lease_ok c l ttl fab a :
  leases_poisoned fab = false -> live_lease c (l_resource_id l) fab = Some a ->
  l_id (al_lease a) = l_id l -> is_Some (instant_add (now c) ttl) ->
  renew_lease c l ttl fab =
    (Done (Ok (al_lease a)),
     with_leases (fun ls => <[l_resource_id l := {| al_lease := al_lease a;
                                                    al_expires_at := now c + ttl |}]>
                              (retain_active c ls)) fab).
Proof.
  intros Hp Ha Hid [e He]. unfold renew_lease, lock_leases, live_lease in *. st_unfold.
  rewrite Hp. simpl. rewrite Ha. simpl. rewrite decide_True by done.
  pose proof (instant_add_Some _ _ _ He) as ->. by rewrite He.
Qed.

(** The call of the adapter that [release] makes: the adapter recorded for the
    resource, when both are still registered. *)
Definition detach_attached (l : Lease) fab : result FabricError () * W :=
  match attachments fab !! l_resource_id l ≫= (adapters fab !!.), resource (l_resource_id l) fab with
  | Some ad, Some r => ad_detach ad r l (world fab)
  | _, _ => (Ok tt, world fab)
  end.

Lemma release_detach_eq l fab :
  release_detach l fab =
    (Done (detach_attached l fab).1,
     with_world (detach_attached l fab).2 (with_attachments (delete (l_resource_id l)) fab)).
Proof.
  unfold release_detach, detach_attached. st_unfold.
  destruct (attachments fab !! l_resource_id l) as [nm|]; simpl; [|by destruct fab].
  unfold resource. destruct (resources fab !! l_resource_id l) as [r|]; simpl;
    [|by destruct (adapters fab !! nm); destruct fab].
  destruct (adapters fab !! nm) as [ad|]; simpl; [|by destruct fab].
  by destruct (ad_detach ad r l (world fab)) as [[[]|] w].
Qed.

Lemma holds_lease_world l w f fab :
  holds_lease l (with_world w (with_attachments f fab)) = holds_lease l fab.
Proof. done. Qed.

(** C13. On a usable lock, [release] refuses a lease that is not the stored one
    and changes nothing. Otherwise it forgets the attachment and calls [detach]
    of the adapter that attached the resource, exactly once; if the adapter
    agrees the lease is removed, and if it fails the error is returned and the
    lease stays - but the attachment is gone, so releasing again succeeds
    without any call of the adapter. *)
Theorem release_spec l fab :
  leases_poisoned fab = false ->
  (holds_lease l fab = false -> release l fab = (Done (Err LeaseNotFound), fab))
  /\ (forall res w, holds_lease l fab = true -> detach_attached l fab = (res, w) ->
       let forgotten := with_world w (with_attachments (delete (l_resource_id l)) fab) in
       match res with
       | Ok _ => release l fab =
           (Done (Ok tt), with_leases (delete (l_resource_id l)) forgotten)
       | Err e => release l fab = (Done (Err e), forgotten)
           /\ release l forgotten = (Done (Ok tt), with_leases (delete (l_resource_id l)) forgotten)
       end).
Proof.
  intros Hp.
  assert (forall f, leases_poisoned f = false -> holds_lease l f = true ->
    release l f = (let '(res, w) := detach_attached l f in
      let f' := with_world w (with_attachments (delete (l_resource_id l)) f) in
      match res with
      | Ok _ => (Done (Ok tt), with_leases (delete (l_resource_id l)) f')
      | Err e => (Done (Err e), f') end)) as Heq.
  { intros f Hf Hl. unfold release, release_check, release_remove, lock_leases, st_try. st_unfold.
    rewrite Hf. simpl. rewrite Hl, release_detach_eq.
    destruct (detach_attached l f) as [[[]|e] w]; simpl; [|done].
    by rewrite Hf, holds_lease_world, Hl. }
  split.
  - intros Hl. unfold release, release_check, lock_leases, st_try. st_unfold. by rewrite Hp, Hl.
  - intros res w Hl Hd. simpl. pose proof (Heq fab Hp Hl) as H1. rewrite Hd in H1. simpl in H1.
    destruct res as [[]|e]; [done|]. split; [done|].
    rewrite Heq by done. unfold detach_attached. simpl. rewrite lookup_delete_eq. simpl.
    unfold with_leases, with_world, with_attachments. simpl. by rewrite delete_delete_eq.
Qed.

(** [attach] reaches an adapter only for the lease that is stored for the
    resource and not yet expired, and only if the resource and the adapter are
    registered; the attachment it returns then names this resource, this lease
    and this adapter, and the adapter is remembered for the resource. Without
    that authority it returns [LeaseNotFound] and touches nothing. *)
Theorem attach_spec c nm l fab :
  (forall ad, adapters fab !! nm = Some ad -> AdapterLaws ad) -> leases_poisoned fab = false ->
  (forall att fab', attach c nm l fab = (Done (Ok att), fab') ->
     exists r a ad w, resources fab !! l_resource_id l = Some r
       /\ leases fab !! l_resource_id l = Some a /\ l_id (al_lease a) = l_id l
       /\ now c < al_expires_at a /\ adapters fab !! nm = Some ad
       /\ ad_attach ad r l (world fab) = (Ok att, w)
       /\ fab' = with_attachments (insert (l_resource_id l) nm) (with_world w fab)
       /\ at_lease_id att = l_id l /\ at_adapter att = ad_name ad /\ at_resource_id att = r_id r)
  /\ (is_Some (resources fab !! l_resource_id l) -> authorized l (now c) fab = false ->
       attach c nm l fab = (Done (Err LeaseNotFound), fab))
  /\ (forall r ad, resources fab !! l_resource_id l = Some r -> authorized l (now c) fab = true ->
       adapters fab !! nm = Some ad ->
       (exists att, (attach c nm l fab).1 = Done (Ok att))
       <-> (exists att w, ad_attach ad r l (world fab) = (Ok att, w))).
Proof.
  intros Hlaws Hp. unfold attach, lock_leases, resource. st_unfold.
  split; [|split].
  - intros att fab'. destruct (resources fab !! l_resource_id l) as [r|]; simpl; [|done].
    rewrite Hp. unfold authorized. destruct (leases fab !! l_resource_id l) as [a|]; simpl; [|done].
    do 2 (case_bool_decide; simpl; [|done]).
    destruct (adapters fab !! nm) as [ad|] eqn:Had; simpl; [|done].
    destruct (ad_attach ad r l (world fab)) as [[att'|] w] eqn:Hatt; simpl; [|done].
    intros [= -> <-].
    destruct (attach_names_lease (AdapterLaws := Hlaws _ eq_refl) _ _ _ _ _ Hatt) as (? & ? & ?).
    by exists r, a, ad, w.
  - intros [r ->] Ha. by rewrite Hp, Ha.
  - intros r ad -> Ha Had. rewrite Hp, Ha. simpl. rewrite Had. destruct (ad_attach ad r l (world fab)) as [[att|] w]; simpl;
      naive_solver.
Qed.

(** ** A live lease cannot be taken away *)

(** The calls that may end or move the lease [l]: a release or a renewal that
    presents its identifier. *)
Definition presents (l : Lease) (call : Call W) : Prop :=
  match call with
  | CRelease l' | CRenew l' _ => l_resource_id l' = l_resource_id l /\ l_id l' = l_id l
  | _ => False
  end.

Definition held (a : ActiveLease) fab : Prop :=
  leases fab !! l_resource_id (al_lease a) = Some a
  /\ is_Some (resources fab !! l_resource_id (al_lease a)).

Lemma retain_held c a fab :
  visit c (l_resource_id (al_lease a)) < al_expires_at a -> held a fab ->
  retain_active c (leases fab) !! l_resource_id (al_lease a) = Some a.
Proof. intros Hv [Ha _]. by apply retain_active_Some. Qed.

Lemma unregister_held a id : st_pres (held a) (@unregister W id).
Proof.
  intros fab [Ha Hr].
  destruct (unregister_cases id fab) as [[_ ->]|[(_ & _ & ->)|(_ & Hn & ->)]]; simpl; [done..|].
  split; simpl; [done|]. rewrite lookup_delete_ne; [done|]. intros ->. congruence.
Qed.

Lemma register_held a r : st_pres (held a) (@register W r).
Proof.
  intros fab [Ha Hr]. split; simpl; [done|]. apply lookup_insert_is_Some'. by right.
Qed.

Lemma refresh_local_held a rs : st_pres (held a) (@refresh_local W rs).
Proof.
  unfold refresh_local. intros fab Hh. st_unfold.
  match goal with |- context [st_iter ?f ?l fab] => set (it := st_iter f l) end.
  assert (st_pres (held a) it) as Hit.
  { apply st_pres_iter. intros r. case_decide; [apply register_held|apply st_pres_ret]. }
  specialize (Hit _ Hh). destruct (it fab) as [[[]|] fab1]; [|done].
  assert (forall ids x y, st_pres (held a) (@refresh_remove W ids x y)) as Hrm.
  { induction ids as [|id ids IH]; intros x y; simpl; [apply st_pres_ret|].
    apply st_pres_bind; [apply unregister_held|]. intros [[|]|[]]; apply IH. }
  match goal with |- context [refresh_remove ?g ?x ?y fab1] =>
    specialize (Hrm g x y fab1 Hit); by destruct (refresh_remove g x y fab1) as [[]] end.
Qed.

Lemma evict_held a c d : st_pres (held a) (@evict_stale_nodes W c d).
Proof.
  intros fab Hh. unfold evict_stale_nodes. st_unfold.
  destruct (instant_sub (now c) d) as [cutoff|]; simpl; [|done].
  set (fab1 := with_heartbeats _ fab). assert (held a fab1) as Hh1 by done.
  destruct (stale_nodes cutoff fab) as [|x xs]; simpl; [done|].
  match goal with |- context [st_iter ?f ?l fab1] => set (it := st_iter f l) end.
  assert (st_pres (held a) it) as Hit.
  { apply st_pres_iter. intros id. apply st_pres_void, unregister_held. }
  specialize (Hit _ Hh1). by destruct (it fab1) as [[[]|] fab2].
Qed.

Lemma lease_exclusive_held a c id owner ttl fab :
  visit c (l_resource_id (al_lease a)) < al_expires_at a -> held a fab ->
  held a (lease_exclusive c id owner ttl fab).2.
Proof.
  intros Hv Hh. pose proof (retain_held c a fab Hv Hh) as Hret. destruct Hh as [Ha Hr].
  destruct (lease_exclusive_cases c id owner ttl fab) as [[(_ & _ & Hl & _) ->]|[_ Href]].
  - split; simpl; [|done]. rewrite lookup_insert_ne; [done|].
    intros ->. unfold live_lease in Hl. congruence.
  - destruct (lease_exclusive c id owner ttl fab) as [o fab'] eqn:E. simpl in *.
    assert (resources fab' = resources fab) as Hres.
    { revert E. unfold lease_exclusive, lease_grant, lease_check, lock_leases, panic_holding_leases, st_try.
      st_unfold. intros E. repeat (case_match; simplify_eq/=; try done). }
    destruct Href as [(_&_&->)|[(r&_&_&_&->)|[(_&_&->)|[(_&_&->)|(_&_&_&Hls)]]]]; try done.
    split; [by rewrite Hls|by rewrite Hres].
Qed.

Lemma renew_held a c l ttl fab :
  visit c (l_resource_id (al_lease a)) < al_expires_at a ->
  ~ (l_resource_id l = l_resource_id (al_lease a) /\ l_id l = l_id (al_lease a)) ->
  held a fab -> held a (renew_lease c l ttl fab).2.
Proof.
  intros Hv Hne Hh. pose proof (retain_held c a fab Hv Hh) as Hret.
  unfold renew_lease, lock_leases, panic_holding_leases. st_unfold.
  destruct (leases_poisoned fab); simpl; [done|].
  destruct (retain_active c (leases fab) !! l_resource_id l) as [b|] eqn:E; simpl;
    [|split; [done|apply Hh]].
  case_decide; simpl; [|split; [done|apply Hh]].
  destruct (instant_add (now c) ttl); simpl; [|split; [done|apply Hh]].
  split; [|apply Hh]. simpl. rewrite lookup_insert_ne; [done|].
  intros Heq. rewrite Heq in E. simplify_eq. naive_solver.
Qed.

Lemma release_held a l fab :
  ~ (l_resource_id l = l_resource_id (al_lease a) /\ l_id l = l_id (al_lease a)) ->
  held a fab -> held a (release l fab).2.
Proof.
  intros Hne Hh. unfold release, release_check, release_remove, lock_leases, st_try. st_unfold.
  destruct (leases_poisoned fab) eqn:Hp; simpl; [done|].
  destruct (holds_lease l fab) eqn:Hhl; simpl; [|done].
  rewrite release_detach_eq. destruct (detach_attached l fab) as [[[]|e] w]; simpl; [|done].
  rewrite Hp, holds_lease_world, Hhl. simpl. split; simpl; [|apply Hh].
  rewrite lookup_delete_ne; [apply Hh|]. intros Heq. apply Hne. split; [done|].
  unfold holds_lease in Hhl. rewrite Heq, (proj1 Hh) in Hhl.
  by apply bool_decide_eq_true in Hhl.
Qed.

Lemma run_call_held a c call fab :
  visit c (l_resource_id (al_lease a)) < al_expires_at a -> ~ presents (al_lease a) call ->
  held a fab -> held a (run_call c call fab).2.
Proof.
  intros Hv Hp Hh.
  assert (forall A (m : ST (Fabric W) A), held a (m fab).2 -> held a ((_ ← m; mret tt) fab).2) as Hvoid.
  { intros A m H. st_unfold. by destruct (m fab) as [[]]. }
  destruct call; simpl in *; try apply Hvoid.
  - by apply register_held.
  - unfold discover_local. apply st_pres_bind with (P := held a); [|intros; apply st_pres_ret|done].
    apply st_pres_iter. intros r. apply register_held.
  - by apply unregister_held.
  - by apply refresh_local_held.
  - done.
  - by apply lease_exclusive_held.
  - unfold attach, lock_leases. st_unfold. repeat (case_match; simplify_eq/=); done.
  - by apply release_held.
  - by apply renew_held.
  - done.
  - by apply evict_held.
Qed.

Lemma run_calls_held a calls fab :
  (forall c call, (c, call) ∈ calls ->
     visit c (l_resource_id (al_lease a)) < al_expires_at a /\ ~ presents (al_lease a) call) ->
  held a fab -> held a (run_calls calls fab).
Proof.
  unfold run_calls. revert fab. induction calls as [|[c call] calls IH]; intros fab Hall Hh; simpl; [done|].
  destruct (Hall c call) as [Hv Hp]; [by left|].
  apply IH; [|by apply run_call_held]. intros c' call' Hin. apply Hall. by right.
Qed.

(** Exclusivity. While a lease has not expired, no sequence of calls - by
    any caller, in any order, including unregistering, refreshing, evicting,
    leasing again, and releasing or renewing with other leases - that does not
    present this lease's identifier ends it or unregisters its resource; and
    at any moment before its deadline a second [lease_exclusive] of the
    resource is not granted and another lease cannot attach to it. *)
Theorem live_lease_exclusive a calls fab :
  held a fab ->
  (forall c call, (c, call) ∈ calls ->
     visit c (l_resource_id (al_lease a)) < al_expires_at a /\ ~ presents (al_lease a) call) ->
  let fab' := run_calls calls fab in
  let id := l_resource_id (al_lease a) in
  held a fab'
  /\ (forall c owner ttl, visit c id < al_expires_at a ->
       forall l, (lease_exclusive c id owner ttl fab').1 <> Done (Ok l))
  /\ (forall c nm l, l_resource_id l = id -> l_id l <> l_id (al_lease a) ->
       forall att, (attach c nm l fab').1 <> Done (Ok att)).
Proof.
  intros Hh Hall fab' id. assert (held a fab') as Hh' by by apply run_calls_held.
  split; [done|]. split.
  - intros c owner ttl Hv l Heq. pose proof (retain_held c a fab' Hv Hh') as Hret.
    destruct (lease_exclusive_cases c id owner ttl fab') as [[(_ & _ & Hl & _) _]|[_ Href]].
    + unfold live_lease, id in Hl. congruence.
    + destruct (lease_exclusive c id owner ttl fab') as [o f]. simpl in *. subst o.
      destruct Href as [(?&_)|[(?&_&_&?&_)|[(?&_)|[(?&_)|(?&_)]]]]; congruence.
  - intros c nm l Hid Hne att. unfold attach, lock_leases, resource, authorized. st_unfold.
    rewrite Hid. destruct Hh' as [Ha [r Hr]]. fold id in Ha, Hr. rewrite Hr, Ha.
    destruct (leases_poisoned fab'); simpl; [done|].
    rewrite bool_decide_eq_false_2 by done. done.
Qed.

End lease_ops.

(** ** Concrete instances *)

Lemma demo_leasable c owner_ttl :
  c = clock_at 2 -> owner_ttl = from_secs 10 -> leasable c "gpu.0" owner_ttl demo_fab.
Proof.
  intros -> ->. split_and!.
  - exists (demo_gpu "gpu.0" "n"). by vm_compute.
  - by vm_compute.
  - by vm_compute.
  - eexists. by vm_compute.
Qed.

Lemma demo_held : held demo_active demo_leased.
Proof. split; [by vm_compute|]. eexists. by vm_compute. Qed.

Lemma lease_exclusive_spec_witness :
  exists l, (lease_exclusive (clock_at 2) "gpu.0" "alice" (from_secs 10) demo_fab).1 = Done (Ok l).
Proof.
  apply (proj1 (lease_exclusive_spec 4 (clock_at 2) "gpu.0" "alice" (from_secs 10) demo_fab
                  demo_fab_inv ltac:(vm_compute; reflexivity))).
  by apply demo_leasable.
Defined.

Lemma release_spec_witness :
  leases_poisoned demo_leased = false
  /\ release demo_lease demo_leased =
       (Done (Ok tt), with_leases (delete "gpu.0")
          (with_world tt (with_attachments (delete "gpu.0") demo_leased))).
Proof.
  split; [by vm_compute|].
  pose proof (proj2 (release_spec demo_lease demo_leased ltac:(vm_compute; reflexivity)) (Ok tt) tt) as H.
  apply H; vm_compute; reflexivity.
Defined.

Lemma attach_spec_witness :
  leases_poisoned demo_leased = false
  /\ exists att, (attach (clock_at 3) "local-proof" demo_lease demo_leased).1 = Done (Ok att).
Proof.
  split; [by vm_compute|].
  assert (adapters demo_leased !! "local-proof" = Some LocalProofAdapter) as Had by by vm_compute.
  assert (forall ad, adapters demo_leased !! "local-proof" = Some ad -> AdapterLaws ad) as Hlaws.
  { intros ad. rewrite Had. intros [= <-]. apply _. }
  assert (leases_poisoned demo_leased = false) as Hp by by vm_compute.
  pose proof (attach_spec (clock_at 3) "local-proof" demo_lease demo_leased Hlaws Hp) as (_ & _ & H).
  apply (H (demo_gpu "gpu.0" "n") LocalProofAdapter); [by vm_compute|by vm_compute|exact Had|].
  eexists _, tt. by vm_compute.
Defined.

Lemma live_lease_exclusive_witness :
  let calls := [ (clock_at 3, CUnregister "gpu.0");
                 (clock_at 4, CRelease (mkLease 7 "gpu.0" "bob"));
                 (clock_at 5, CEvict 1);
                 (clock_at 6, CRefresh []) ] in
  held demo_active (run_calls calls demo_leased)
  /\ forall l, (lease_exclusive (clock_at 7) "gpu.0" "bob" 1 (run_calls calls demo_leased)).1
               <> Done (Ok l).
Proof.
  intros calls.
  assert (forall c call, (c, call) ∈ calls ->
     visit c "gpu.0" < al_expires_at demo_active /\ ~ presents (al_lease demo_active) call) as Hall.
  { intros c call Hin. unfold calls in Hin. rewrite !elem_of_cons, elem_of_nil in Hin.
    destruct_or? Hin; try done; injection Hin as -> ->; simpl;
      (split; [by vm_compute|]); naive_solver. }
  pose proof (live_lease_exclusive demo_active calls demo_leased demo_held Hall) as (H1 & H2 & _).
  split; [exact H1|]. apply (H2 (clock_at 7) "bob" 1). by vm_compute.
Defined.
