(* ===== verification/FabricSync.v ===== *)
(** * Bulk updates and queries of the registry

    [refresh_local], [evict_stale_nodes], [find_available], [resources]: which
    resources they add, remove, keep and report. *)

From stdpp Require Import base tactics option list gmap strings pretty sorting fin_maps relations.
From S2P Require Import Prelude Str Resource Fabric FabricInv.

#[local] Open Scope Z_scope.

Section sync.
Context {W : Type}.
Implicit Types (fab : Fabric W).

(** ** Removing every unleased resource of a list *)

Definition purge (ids : list string) fab : Fabric W :=
  with_resources (filter (fun kv => ~ (kv.1 ∈ ids /\ leases fab !! kv.1 = None))) fab.

Lemma with_resources_eq f g fab :
  f (resources fab) = g (resources fab) -> with_resources f fab = with_resources g fab.
Proof. unfold with_resources. by intros ->. Qed.

Lemma purge_lookup ids fab k :
  resources (purge ids fab) !! k =
    if decide (k ∈ ids /\ leases fab !! k = None) then None else resources fab !! k.
Proof.
  simpl. case_decide as H.
  - apply map_lookup_filter_None. right. intros r _. simpl. naive_solver.
  - destruct (resources fab !! k) as [r|] eqn:E.
    + by apply map_lookup_filter_Some.
    + apply map_lookup_filter_None. by left.
Qed.

Lemma purge_nil fab : purge [] fab = fab.
Proof.
  unfold purge. transitivity (with_resources id fab); [|by destruct fab].
  apply with_resources_eq. simpl. apply map_filter_id. intros k r _ [H _].
  by apply elem_of_nil in H.
Qed.

Lemma purge_cons id ids fab : purge ids (purge [id] fab) = purge (id :: ids) fab.
Proof.
  unfold purge. simpl. unfold with_resources. simpl. f_equal. apply map_eq. intros k.
  pose proof (purge_lookup [id] fab k) as H1. simpl in H1.
  apply option_eq. intros r. rewrite !map_lookup_filter_Some. simpl.
  rewrite list_elem_of_singleton, elem_of_cons. naive_solver.
Qed.

Lemma unregister_purge id fab :
  leases_poisoned fab = false ->
  unregister id fab =
    (Done (if decide (is_Some (leases fab !! id)) then Err ResourceAlreadyLeased
           else Ok (bool_decide (is_Some (resources fab !! id)))), purge [id] fab).
Proof.
  intros Hp. destruct (unregister_cases id fab) as [[? _]|[(_ & Hs & ->)|(_ & Hn & ->)]].
  - congruence.
  - rewrite decide_True by done. f_equal. unfold purge.
    transitivity (with_resources Datatypes.id fab); [by destruct fab|].
    apply with_resources_eq. symmetry. apply map_filter_id. intros k r _. simpl.
    rewrite list_elem_of_singleton. intros [-> H]. destruct Hs. congruence.
  - rewrite decide_False by (rewrite Hn; by intros []). f_equal. apply with_resources_eq.
    apply map_eq. intros k. apply option_eq. intros r.
    rewrite map_lookup_filter_Some, lookup_delete_Some. simpl.
    rewrite list_elem_of_singleton. naive_solver.
Qed.

Lemma unregister_iter ids fab :
  leases_poisoned fab = false ->
  st_iter (fun id => _ ← unregister id; mret tt) ids fab = (Done tt, purge ids fab).
Proof.
  revert fab. induction ids as [|id ids IH]; intros fab Hp; simpl; [by rewrite purge_nil|].
  st_unfold. rewrite unregister_purge by done. by rewrite IH, purge_cons.
Qed.

Definition leased fab (id : string) : Prop := is_Some (leases fab !! id).
#[local] Instance leased_dec fab id : Decision (leased fab id).
Proof. unfold leased. apply _. Defined.

Lemma refresh_remove_eq ids removed blocked fab :
  leases_poisoned fab = false -> NoDup ids ->
  (forall id, id ∈ ids -> is_Some (resources fab !! id)) ->
  refresh_remove ids removed blocked fab =
    (Done (app removed (filter (fun id => ~ leased fab id) ids),
           app blocked (filter (fun id => leased fab id) ids)), purge ids fab).
Proof.
  intros Hp Hnd. revert removed blocked fab Hp. induction Hnd as [|id ids Hid Hnd IH];
    intros removed blocked fab Hp Hreg; simpl.
  { by rewrite !app_nil_r, purge_nil. }
  st_unfold. rewrite unregister_purge by done.
  assert (forall k, k ∈ ids -> is_Some (resources (purge [id] fab) !! k)) as Hreg'.
  { intros k Hk. rewrite purge_lookup, decide_False; [apply Hreg; by right|].
    rewrite list_elem_of_singleton. intros [-> _]. done. }
  case_decide as Hl.
  - rewrite filter_cons_False by (intros Hnl; by apply Hnl). rewrite filter_cons_True by done.
    rewrite IH, purge_cons by done. by rewrite <-app_assoc.
  - rewrite bool_decide_eq_true_2 by (apply Hreg; by left).
    rewrite filter_cons_True by done. rewrite filter_cons_False by done.
    rewrite IH, purge_cons by done. by rewrite <-app_assoc.
Qed.

(** ** Adding the new resources *)

Definition insert_all (rs : list Resource) (m : gmap string Resource) : gmap string Resource :=
  foldl (fun m r => <[r_id r := r]> m) m rs.

Lemma register_iter (P : Resource -> Prop) `{!forall r, Decision (P r)} rs fab :
  st_iter (fun r => if decide (P r) then register r else mret tt) rs fab =
    (Done tt, with_resources (insert_all (filter P rs)) fab).
Proof.
  revert fab. induction rs as [|r rs IH]; intros fab; simpl; [by destruct fab|].
  st_unfold. rewrite filter_cons. case_decide; simpl; by rewrite IH.
Qed.

Lemma insert_all_lookup rs m k :
  (k ∉ r_id <$> rs -> insert_all rs m !! k = m !! k)
  /\ (k ∈ r_id <$> rs -> exists r, insert_all rs m !! k = Some r /\ r ∈ rs /\ r_id r = k).
Proof.
  revert m. induction rs as [|r rs IH]; intros m; simpl.
  { split; [done|]. intros H. by apply elem_of_nil in H. }
  rewrite elem_of_cons. destruct (IH (<[r_id r := r]> m)) as [IH1 IH2]. split.
  - intros Hk. rewrite IH1 by naive_solver. rewrite lookup_insert_ne; [done|]. naive_solver.
  - intros Hk. destruct (decide (k ∈ r_id <$> rs)) as [Hin|Hout].
    + destruct (IH2 Hin) as (r' & ? & ? & ?). exists r'. split_and!; [done|by right|done].
    + rewrite IH1 by done. destruct Hk as [->|]; [|done]. exists r. rewrite lookup_insert_eq.
      split_and!; [done|by left|done].
Qed.

Lemma elem_of_ids_of rs k : k ∈ ids_of rs <-> exists r, r ∈ rs /\ r_id r = k.
Proof.
  unfold ids_of. rewrite elem_of_list_to_set, list_elem_of_fmap. naive_solver.
Qed.

(** [refresh_local] in one step: the report and the state. *)
Lemma refresh_local_eq rs fab :
  leases_poisoned fab = false ->
  let added := bt_elements (ids_of rs ∖ dom (resources fab)) in
  let gone := bt_elements (dom (resources fab) ∖ ids_of rs) in
  refresh_local rs fab =
    (Done {| rr_added := added;
             rr_removed := filter (fun id => ~ leased fab id) gone;
             rr_blocked_by_lease := filter (fun id => leased fab id) gone |},
     purge gone (with_resources (insert_all (filter (fun r => r_id r ∈ added) rs)) fab)).
Proof.
  intros Hp added gone. unfold refresh_local. st_unfold. fold added gone.
  rewrite (register_iter (fun r => r_id r ∈ added)).
  rewrite refresh_remove_eq; [done|done|apply bt_elements_NoDup|].
  intros id Hid. simpl.
  destruct (insert_all_lookup (filter (fun r => r_id r ∈ added) rs) (resources fab) id) as [H1 H2].
  destruct (decide (id ∈ r_id <$> filter (fun r => r_id r ∈ added) rs)) as [Hin|Hout].
  - destruct (H2 Hin) as (? & -> & _). eauto.
  - rewrite H1 by done. apply elem_of_bt_elements in Hid. apply elem_of_dom. set_solver.
Qed.

(** What a refresh with the discovery [rs] must do to the registry and report. *)
Record refreshed (rs : list Resource) fab (rep : RefreshReport) (fab' : Fabric W) : Prop := {
  rf_added : forall k, k ∈ rr_added rep <-> k ∈ ids_of rs /\ resources fab !! k = None;
  rf_removed : forall k, k ∈ rr_removed rep <->
    is_Some (resources fab !! k) /\ k ∉ ids_of rs /\ leases fab !! k = None;
  rf_blocked : forall k, k ∈ rr_blocked_by_lease rep <->
    is_Some (resources fab !! k) /\ k ∉ ids_of rs /\ is_Some (leases fab !! k);
  rf_sorted : StronglySorted String.le (rr_added rep)
    /\ StronglySorted String.le (rr_removed rep)
    /\ StronglySorted String.le (rr_blocked_by_lease rep);
  rf_in : forall k, k ∈ rr_added rep ->
    exists r, resources fab' !! k = Some r /\ r ∈ rs /\ r_id r = k;
  rf_out : forall k, k ∈ rr_removed rep -> resources fab' !! k = None;
  rf_same : forall k, k ∉ rr_added rep -> k ∉ rr_removed rep ->
    resources fab' !! k = resources fab !! k;
  rf_frame : fab' = with_resources (fun _ => resources fab') fab;
}.

Lemma refresh_local_refreshed rs fab :
  leases_poisoned fab = false ->
  exists rep fab', refresh_local rs fab = (Done rep, fab') /\ refreshed rs fab rep fab'.
Proof.
  intros Hp. rewrite refresh_local_eq by done. do 2 eexists. split; [reflexivity|].
  set (added := bt_elements (ids_of rs ∖ dom (resources fab))).
  set (gone := bt_elements (dom (resources fab) ∖ ids_of rs)).
  set (fab1 := with_resources (insert_all (filter (fun r => r_id r ∈ added) rs)) fab).
  assert (forall k, k ∈ added <-> k ∈ ids_of rs /\ resources fab !! k = None) as Hadd.
  { intros k. unfold added. rewrite elem_of_bt_elements, elem_of_difference, not_elem_of_dom. done. }
  assert (forall k, k ∈ gone <-> is_Some (resources fab !! k) /\ k ∉ ids_of rs) as Hgone.
  { intros k. unfold gone. rewrite elem_of_bt_elements, elem_of_difference, elem_of_dom. done. }
  assert (forall k, k ∈ r_id <$> filter (fun r => r_id r ∈ added) rs <-> k ∈ added) as Hnew.
  { intros k. rewrite list_elem_of_fmap. setoid_rewrite list_elem_of_filter.
    split; [by intros (r & -> & Ha & _)|]. intros Ha. pose proof Ha as [Hin _]%Hadd.
    apply elem_of_ids_of in Hin as (r & ? & <-). by exists r. }
  assert (forall k, k ∈ gone -> k ∉ added) as Hdis.
  { intros k Hg Ha. apply Hgone in Hg as [[] ?]. apply Hadd in Ha. naive_solver. }
  assert (forall k, leases fab !! k = None <-> ~ leased fab k) as Hnl.
  { intros k. apply eq_None_not_Some. }
  split; cbn [rr_added rr_removed rr_blocked_by_lease]; fold added gone fab1; try done.
  - intros k. rewrite list_elem_of_filter, Hgone, Hnl. naive_solver.
  - intros k. rewrite list_elem_of_filter, Hgone. unfold leased. naive_solver.
  - split_and!; [|apply StronglySorted_filter..]; apply bt_elements_sorted.
  - intros k Hk. rewrite purge_lookup.
    rewrite decide_False by (intros [Hg _]; by eapply Hdis).
    destruct (insert_all_lookup (filter (fun r => r_id r ∈ added) rs) (resources fab) k) as [_ H2].
    destruct H2 as (r & Hr & Hin & Hid); [by apply Hnew|]. exists r.
    by apply list_elem_of_filter in Hin as [_ ?].
  - intros k Hk. apply list_elem_of_filter in Hk as [Hl Hg]. rewrite purge_lookup.
    by rewrite decide_True by (split; [done|by apply Hnl]).
  - intros k Hna Hnr. rewrite purge_lookup. rewrite decide_False.
    + apply insert_all_lookup. by rewrite Hnew.
    + intros [Hg Hl]. apply Hnr, list_elem_of_filter. split; [by apply Hnl|done].
Qed.

(** C14. [refresh_local] makes the registry agree with the discovery up to
    leases: ids only the discovery has are added (with a discovered resource),
    ids only the registry has are removed unless leased, and every other
    resource is left exactly as it was. The report's three lists are those ids,
    in increasing order; leases, attachments and heartbeats do not change. *)
Theorem refresh_local_spec rs fab :
  leases_poisoned fab = false ->
  (refresh_local rs fab).1 <> Panicked
  /\ (forall rep fab', refresh_local rs fab = (Done rep, fab') -> refreshed rs fab rep fab').
Proof.
  intros Hp. destruct (refresh_local_refreshed rs fab Hp) as (rep & fab' & -> & Hr).
  split; [done|]. by intros ? ? [= <- <-].
Qed.

(** Refreshing again with the same discovery is a no-op: nothing is added
    or removed, the state does not change, and the report repeats exactly the
    resources that are still blocked by a lease. *)
Theorem refresh_local_idempotent rs fab rep fab' :
  refresh_local rs fab = (Done rep, fab') -> leases_poisoned fab = false ->
  refresh_local rs fab' =
    (Done {| rr_added := []; rr_removed := [];
             rr_blocked_by_lease := rr_blocked_by_lease rep |}, fab').
Proof.
  intros Heq Hp.
  destruct (refresh_local_refreshed rs fab Hp) as (rep1 & fab1 & Heq1 & Href).
  rewrite Heq in Heq1. injection Heq1 as <- <-.
  destruct Href as [Hadd Hrem Hblk _ Hin Hout Hsame Hfab].
  assert (leases_poisoned fab' = false) as Hp' by by rewrite Hfab.
  assert (leases fab' = leases fab) as Hls by by rewrite Hfab.
  assert (forall k, is_Some (resources fab' !! k) <->
            k ∈ ids_of rs \/ (is_Some (resources fab !! k) /\ is_Some (leases fab !! k))) as Hdom.
  { intros k. destruct (decide (k ∈ rr_added rep)) as [Ha|Ha].
    { destruct (Hin _ Ha) as (r & -> & _). apply Hadd in Ha. naive_solver. }
    destruct (decide (k ∈ rr_removed rep)) as [Hr|Hr].
    { rewrite (Hout _ Hr). apply Hrem in Hr as (? & ? & Hl). rewrite Hl. split; [by intros []|].
      intros [?|[_ []]]; done. }
    rewrite (Hsame _ Ha Hr). rewrite Hadd in Ha. rewrite Hrem in Hr.
    destruct (resources fab !! k), (leases fab !! k), (decide (k ∈ ids_of rs)); naive_solver. }
  assert (ids_of rs ∖ dom (resources fab') = ∅) as Hnone.
  { apply set_eq. intros k. rewrite elem_of_difference, elem_of_dom, Hdom. set_solver. }
  assert (dom (resources fab') ∖ ids_of rs =
          filter (fun id => leased fab id) (dom (resources fab) ∖ ids_of rs)) as Hg.
  { apply set_eq. intros k.
    rewrite elem_of_filter, !elem_of_difference, !elem_of_dom, Hdom. unfold leased. naive_solver. }
  rewrite refresh_local_eq by done. rewrite Hnone, (bt_elements_empty ∅) by done.
  set (gone' := bt_elements (dom (resources fab') ∖ ids_of rs)).
  assert (forall k, k ∈ gone' -> leased fab' k) as Hall.
  { intros k. unfold gone'. rewrite elem_of_bt_elements, Hg, elem_of_filter. unfold leased.
    rewrite Hls. by intros [? _]. }
  rewrite refresh_local_eq in Heq by done. injection Heq as <- _. simpl. f_equal.
  - do 2 f_equal.
    + apply filter_false. intros k Hk Hn. by apply Hn, Hall.
    + rewrite filter_true by done. unfold gone'. by rewrite Hg, bt_elements_filter.
  - assert (filter (fun r => r_id r ∈ []) rs = []) as ->.
    { apply filter_false. intros r _ H. by apply elem_of_nil in H. }
    assert (with_resources (insert_all []) fab' = fab') as -> by by destruct fab'.
    unfold purge. transitivity (with_resources id fab'); [|by destruct fab'].
    apply with_resources_eq. simpl. apply map_filter_id. intros k r _ [Hk Hn]. simpl in *.
    apply Hall in Hk as []. congruence.
Qed.

(** ** Eviction *)

Lemma foldr_delete_lookup {V} (ks : list string) (m : gmap string V) k :
  foldr delete m ks !! k = if decide (k ∈ ks) then None else m !! k.
Proof.
  induction ks as [|k' ks IH]; cbn [foldr].
  { by rewrite decide_False by apply not_elem_of_nil. }
  destruct (decide (k = k')) as [->|Hne].
  - rewrite lookup_delete_eq. by rewrite decide_True by by left.
  - rewrite lookup_delete_ne, IH by done. apply decide_ext. rewrite elem_of_cons. naive_solver.
Qed.

Lemma elem_of_stale_nodes cutoff fab node :
  node ∈ stale_nodes cutoff fab <-> exists seen, heartbeats fab !! node = Some seen /\ seen < cutoff.
Proof.
  unfold stale_nodes. rewrite list_elem_of_fmap. split.
  - intros ([k v] & -> & H). apply elem_of_map_to_list, map_lookup_filter_Some in H. by exists v.
  - intros (seen & H & Hlt). exists (node, seen). split; [done|].
    by apply elem_of_map_to_list, map_lookup_filter_Some.
Qed.

Lemma elem_of_owned_by nodes fab id :
  id ∈ owned_by nodes fab <-> exists r, resources fab !! id = Some r /\ r_node r ∈ nodes.
Proof.
  unfold owned_by. rewrite list_elem_of_fmap. split.
  - intros ([k v] & -> & H). apply elem_of_map_to_list, map_lookup_filter_Some in H. by exists v.
  - intros (r & H & Hn). exists (id, r). split; [done|].
    by apply elem_of_map_to_list, map_lookup_filter_Some.
Qed.

(** C15. [evict_stale_nodes] returns exactly the nodes last seen before
    [now - older_than]; it forgets their heartbeats and no others, removes
    exactly their resources that are not leased, and leaves every other
    resource, every lease and every attachment alone. *)
Theorem evict_stale_nodes_spec c older_than cutoff fab :
  instant_sub (now c) older_than = Some cutoff -> leases_poisoned fab = false ->
  exists stale fab', evict_stale_nodes c older_than fab = (Done stale, fab')
    /\ (forall node, node ∈ stale <->
          exists seen, heartbeats fab !! node = Some seen /\ seen < cutoff)
    /\ (forall node, heartbeats fab' !! node =
          if decide (node ∈ stale) then None else heartbeats fab !! node)
    /\ (forall id, resources fab' !! id =
          match resources fab !! id with
          | Some r => if decide (r_node r ∈ stale /\ leases fab !! id = None) then None else Some r
          | None => None
          end)
    /\ leases fab' = leases fab /\ attachments fab' = attachments fab.
Proof.
  intros Hc Hp. unfold evict_stale_nodes. st_unfold. rewrite Hc. simpl.
  set (stale := stale_nodes cutoff fab).
  set (fab1 := with_heartbeats (fun hb => foldr delete hb stale) fab).
  assert (forall id, resources (purge (owned_by stale fab1) fab1) !! id =
    match resources fab !! id with
    | Some r => if decide (r_node r ∈ stale /\ leases fab !! id = None) then None else Some r
    | None => None end) as Hres.
  { intros id. rewrite purge_lookup. change (resources fab1) with (resources fab).
    destruct (resources fab !! id) as [r|] eqn:Hr; [|by case_decide].
    apply decide_ext. rewrite elem_of_owned_by. change (resources fab1) with (resources fab).
    rewrite Hr. naive_solver. }
  exists stale, (purge (owned_by stale fab1) fab1).
  split_and!; try done.
  - destruct stale as [|x xs] eqn:Hs; [|by rewrite unregister_iter].
    f_equal. unfold purge. transitivity (with_resources id fab1); [by destruct fab1|].
    apply with_resources_eq. symmetry. apply map_filter_id. intros k r _ [Hk _]. simpl in Hk.
    apply elem_of_owned_by in Hk as (? & _ & H). by apply elem_of_nil in H.
  - intros node. apply elem_of_stale_nodes.
  - intros node. apply foldr_delete_lookup.
Qed.

(** ** Queries *)

Lemma elem_of_map_values (m : gmap string Resource) r :
  keyed_by_id m -> r ∈ (map_to_list m).*2 <-> m !! r_id r = Some r.
Proof.
  intros Hkey. rewrite list_elem_of_fmap. split.
  - intros ([k v] & -> & H). apply elem_of_map_to_list in H. simpl; by rewrite (Hkey _ _ H).
  - intros H. exists (r_id r, r). split; [done|]. by apply elem_of_map_to_list.
Qed.

Lemma map_values_NoDup (m : gmap string Resource) :
  keyed_by_id m -> NoDup (r_id <$> (map_to_list m).*2).
Proof.
  intros Hkey.
  assert (r_id <$> (map_to_list m).*2 = (map_to_list m).*1) as ->; [|apply NoDup_fst_map_to_list].
  rewrite <-list_fmap_compose. apply list_fmap_ext. intros i [k v] Hi. simpl.
  apply list_elem_of_lookup_2, elem_of_map_to_list in Hi. by apply Hkey.
Qed.

(** [find_available] returns, without repetition, exactly the registered
    resources that satisfy the request - available, of the kind, with the
    capacity, on the node, exclusive if asked, with every required attribute -
    and that, when exclusive, have no entry in the lease table. The lease table
    is not pruned first: an expired lease still hides its resource. *)
Theorem find_available_spec n rq fab :
  fabric_inv n fab -> leases_poisoned fab = false ->
  exists l, find_available rq fab = (Done l, fab)
    /\ NoDup l
    /\ (forall r, r ∈ l <-> resources fab !! r_id r = Some r /\ satisfies rq r
          /\ (r_exclusive r = true -> leases fab !! r_id r = None)).
Proof.
  intros Hinv Hp. pose proof (inv_resources _ _ Hinv) as Hkey.
  unfold find_available, lock_leases. st_unfold. rewrite Hp. eexists. split; [done|]. split.
  - apply NoDup_filter. eapply NoDup_fmap_1, map_values_NoDup, Hkey.
  - intros r. rewrite list_elem_of_filter, elem_of_map_values, matches_satisfies by done.
    destruct (r_exclusive r); naive_solver.
Qed.

#[local] Instance r_id_le_total : Total r_id_le.
Proof. intros a b. apply (total String.le). Qed.
#[local] Instance r_id_le_trans : Transitive r_id_le.
Proof. intros a b c. unfold r_id_le. apply (transitivity (R := String.le)). Qed.

Lemma resources_sorted_order fab : StronglySorted String.le (r_id <$> resources_sorted fab).
Proof.
  unfold resources_sorted.
  apply (StronglySorted_fmap _ r_id_le String.le); [by intros a b|apply (StronglySorted_merge_sort _)].
Qed.

(** [resources()] lists every registered resource once, in the order of
    the identifiers, and [resource(id)] finds exactly those. *)
Theorem resources_sorted_spec n fab :
  fabric_inv n fab ->
  StronglySorted String.le (r_id <$> resources_sorted fab)
  /\ NoDup (r_id <$> resources_sorted fab)
  /\ (forall r, r ∈ resources_sorted fab <-> resource (r_id r) fab = Some r).
Proof.
  intros Hinv. pose proof (inv_resources _ _ Hinv) as Hkey. split; [apply resources_sorted_order|].
  unfold resources_sorted, resource. split.
  - rewrite merge_sort_Permutation. by apply map_values_NoDup.
  - intros r. rewrite merge_sort_Permutation. by apply elem_of_map_values.
Qed.

End sync.

(** ** Concrete instances *)

(** [gpu.0] is leased and [gpu.1] has disappeared, [gpu.2] is new. *)
Definition demo_discovery : list Resource := [demo_gpu "gpu.2" "n"].

Lemma refresh_local_spec_witness :
  leases_poisoned demo_leased = false
  /\ refreshed demo_discovery demo_leased
       {| rr_added := ["gpu.2"]; rr_removed := ["gpu.1"]; rr_blocked_by_lease := ["gpu.0"] |}
       (refresh_local demo_discovery demo_leased).2.
Proof.
  split; [by vm_compute|].
  apply (proj2 (refresh_local_spec demo_discovery demo_leased ltac:(vm_compute; reflexivity))).
  vm_compute. reflexivity.
Defined.

Lemma refresh_local_idempotent_witness :
  let fab' := (refresh_local demo_discovery demo_leased).2 in
  leases_poisoned demo_leased = false
  /\ refresh_local demo_discovery fab' =
       (Done {| rr_added := []; rr_removed := []; rr_blocked_by_lease := ["gpu.0"] |}, fab').
Proof.
  split; [by vm_compute|].
  apply (refresh_local_idempotent demo_discovery demo_leased
    {| rr_added := ["gpu.2"]; rr_removed := ["gpu.1"]; rr_blocked_by_lease := ["gpu.0"] |});
    vm_compute; reflexivity.
Defined.

Lemma evict_stale_nodes_spec_witness :
  instant_sub (now (clock_at 20)) 5 = Some 15
  /\ exists stale fab', evict_stale_nodes (clock_at 20) 5 demo_leased = (Done stale, fab')
     /\ "n" ∈ stale /\ resources fab' !! "gpu.0" = Some (demo_gpu "gpu.0" "n").
Proof.
  split; [by vm_compute|].
  destruct (evict_stale_nodes_spec (clock_at 20) 5 15 demo_leased ltac:(vm_compute; reflexivity)
    ltac:(vm_compute; reflexivity)) as (stale & fab' & Heq & Hst & _ & Hres & _).
  exists stale, fab'. split; [exact Heq|]. split.
  - apply Hst. exists 1. split; [vm_compute; reflexivity|lia].
  - rewrite Hres.
    assert (resources demo_leased !! "gpu.0" = Some (demo_gpu "gpu.0" "n")) as -> by by vm_compute.
    rewrite decide_False; [done|]. intros [_ H]. vm_compute in H. discriminate H.
Defined.

Definition demo_request : ResourceRequest :=
  {| rq_kind := Some Gpu; rq_minimum_capacity := Some 1; rq_node := None;
     rq_required_attributes := {[ "topology.scope" := "host" ]}; rq_exclusive := true |}.

Lemma find_available_spec_witness :
  leases_poisoned demo_leased = false
  /\ exists l, find_available demo_request demo_leased = (Done l, demo_leased)
     /\ demo_gpu "gpu.1" "m" ∈ l /\ demo_gpu "gpu.0" "n" ∉ l.
Proof.
  split; [by vm_compute|].
  destruct (find_available_spec 5 demo_request demo_leased demo_leased_inv
              ltac:(vm_compute; reflexivity)) as (l & Heq & _ & Hin).
  exists l. split; [exact Heq|]. rewrite !Hin. split.
  - split; [by vm_compute|]. split; [apply matches_satisfies; by vm_compute|by vm_compute].
  - intros (_ & _ & H). specialize (H eq_refl). vm_compute in H. discriminate H.
Defined.

Lemma resources_sorted_spec_witness :
  fabric_inv 4 demo_fab
  /\ StronglySorted String.le (r_id <$> resources_sorted demo_fab)
  /\ r_id <$> resources_sorted demo_fab = ["gpu.0"; "gpu.1"].
Proof.
  split; [exact demo_fab_inv|]. split; [|by vm_compute].
  apply (resources_sorted_spec 4 demo_fab demo_fab_inv).
Defined.
