(* ===== verification/FabricSpec.v ===== *)
(** * The lease table as a specification, and a poisoned lock

    An abstract lease service - a table of holders and a counter - with the
    steps it allows for each call, and the theorem that the registry refines it.
    Then what a panic inside the locked section does to every later call. *)

From stdpp Require Import base tactics option list gmap strings pretty sorting fin_maps relations.
From S2P Require Import Prelude Str Resource Fabric FabricInv FabricOps FabricSync.

#[local] Open Scope Z_scope.

(** ** The abstract lease service *)

Record LeaseTable : Type := mkLeaseTable {
  holders : gmap string ActiveLease;
  issued : Z;
}.

Definition table_of {W} (fab : Fabric W) : LeaseTable :=
  {| holders := leases fab; issued := next_lease_id fab |}.

Section spec.
Context {W : Type}.
Implicit Types (fab : Fabric W) (h : gmap string ActiveLease).

(** What one call may do to the table. A holder disappears only because its
    deadline has passed at a visit of a lease or renew call, or because a
    release presented its identifier; it appears only by a grant to a resource
    that has none, under the next identifier; its deadline moves only by a
    renewal that presented its identifier. An identifier can also be lost. *)
Inductive lease_step (c : Clock) : Call W -> LeaseTable -> LeaseTable -> Prop :=
  | step_expire call h n k a :
      (exists id owner ttl, call = CLease id owner ttl) \/ (exists l ttl, call = CRenew l ttl) ->
      h !! k = Some a -> al_expires_at a <= visit c k ->
      lease_step c call (mkLeaseTable h n) (mkLeaseTable (delete k h) n)
  | step_grant h n id owner ttl :
      h !! id = None ->
      lease_step c (CLease id owner ttl) (mkLeaseTable h n)
        (mkLeaseTable (<[id := {| al_lease := mkLease (n + 1) id owner;
                                  al_expires_at := now c + ttl |}]> h) (n + 1))
  | step_lose h n id owner ttl :
      lease_step c (CLease id owner ttl) (mkLeaseTable h n) (mkLeaseTable h (n + 1))
  | step_renew h n l ttl a :
      h !! l_resource_id l = Some a -> l_id (al_lease a) = l_id l ->
      lease_step c (CRenew l ttl) (mkLeaseTable h n)
        (mkLeaseTable (<[l_resource_id l := {| al_lease := al_lease a;
                                               al_expires_at := now c + ttl |}]> h) n)
  | step_drop h n l a :
      h !! l_resource_id l = Some a -> l_id (al_lease a) = l_id l ->
      lease_step c (CRelease l) (mkLeaseTable h n) (mkLeaseTable (delete (l_resource_id l) h) n).

Lemma expire_steps c call h n ks :
  (exists id owner ttl, call = CLease id owner ttl) \/ (exists l ttl, call = CRenew l ttl) ->
  (forall k a, k ∈ ks -> h !! k = Some a -> al_expires_at a <= visit c k) ->
  rtc (lease_step c call) (mkLeaseTable h n) (mkLeaseTable (foldr delete h ks) n).
Proof.
  intros Hcall. induction ks as [|k ks IH]; intros Hks; cbn [foldr]; [reflexivity|].
  etransitivity; [apply IH; intros k' a Hk'; apply Hks; by right|].
  destruct (foldr delete h ks !! k) as [a|] eqn:E.
  - apply rtc_once. apply (step_expire c call _ n k a); [done|done|].
    rewrite foldr_delete_lookup in E. case_decide; [done|]. apply Hks; [by left|done].
  - by rewrite delete_id.
Qed.

Definition expired_keys (c : Clock) h : list string :=
  (map_to_list (filter (fun kv => ~ visit c kv.1 < al_expires_at kv.2) h)).*1.

Lemma elem_of_expired_keys c h k :
  k ∈ expired_keys c h <-> exists a, h !! k = Some a /\ al_expires_at a <= visit c k.
Proof.
  unfold expired_keys. rewrite list_elem_of_fmap. split.
  - intros ([k' a] & -> & H). apply elem_of_map_to_list, map_lookup_filter_Some in H as [H Hn].
    exists a. simpl in *. split; [done|lia].
  - intros (a & H & Hle). exists (k, a). split; [done|].
    apply elem_of_map_to_list, map_lookup_filter_Some. simpl. split; [done|lia].
Qed.

Lemma retain_active_foldr c h : retain_active c h = foldr delete h (expired_keys c h).
Proof.
  apply map_eq. intros k. rewrite foldr_delete_lookup. apply option_eq. intros a.
  rewrite retain_active_Some. case_decide as Hk; rewrite elem_of_expired_keys in Hk.
  - split; [|done]. intros [Ha Hlt]. destruct Hk as (b & ? & ?). simplify_eq. lia.
  - split; [by intros [? _]|]. intros Ha. split; [done|].
    destruct (decide (visit c k < al_expires_at a)); [done|]. destruct Hk. exists a.
    split; [done|lia].
Qed.

Lemma retain_steps c call h n :
  (exists id owner ttl, call = CLease id owner ttl) \/ (exists l ttl, call = CRenew l ttl) ->
  rtc (lease_step c call) (mkLeaseTable h n) (mkLeaseTable (retain_active c h) n).
Proof.
  intros Hcall. rewrite retain_active_foldr. apply expire_steps; [done|].
  intros k a Hk Ha. apply elem_of_expired_keys in Hk as (b & ? & ?). by simplify_eq.
Qed.

(** Operations that never touch the lease table. *)
Lemma table_of_unregister id fab : table_of (unregister id fab).2 = table_of fab.
Proof.
  by destruct (unregister_cases id fab) as [[_ ->]|[(_ & _ & ->)|(_ & _ & ->)]].
Qed.

Definition keeps_table {A} (m : ST (Fabric W) A) : Prop :=
  forall t, st_pres (fun fab => table_of fab = t) m.

Lemma keeps_unregister id : keeps_table (unregister id).
Proof. intros t fab <-. apply table_of_unregister. Qed.

Lemma keeps_register r : keeps_table (register r).
Proof. by intros t fab <-. Qed.

Lemma keeps_refresh_local rs : keeps_table (refresh_local rs).
Proof.
  intros t. apply st_pres_bind; [by intros fab|]. intros fab. cbv zeta.
  apply st_pres_bind.
  { apply st_pres_iter. intros r. case_decide; [apply keeps_register|apply st_pres_ret]. }
  intros _. apply st_pres_bind; [|intros; apply st_pres_ret].
  generalize ([] : list string) at 1. generalize ([] : list string).
  generalize (bt_elements (dom (resources fab) ∖ ids_of rs)).
  intros ids. induction ids as [|id ids IH]; intros x y; simpl; [apply st_pres_ret|].
  apply st_pres_bind; [apply keeps_unregister|]. intros [[|]|[]]; apply IH.
Qed.

Lemma keeps_evict c d : keeps_table (evict_stale_nodes c d).
Proof.
  intros t. unfold evict_stale_nodes. destruct (instant_sub (now c) d) as [cutoff|];
    [|by intros fab].
  apply st_pres_bind; [by intros fab|]. intros fab. cbv zeta.
  apply st_pres_bind; [by intros ?|]. intros _.
  destruct (stale_nodes cutoff fab) as [|x xs]; [apply st_pres_ret|].
  apply st_pres_bind; [by intros ?|]. intros fab'.
  apply st_pres_bind; [|intros; apply st_pres_ret].
  apply st_pres_iter. intros id. apply st_pres_void, keeps_unregister.
Qed.

Lemma keeps_attach c nm l : keeps_table (attach c nm l).
Proof.
  intros t fab <-. unfold attach, lock_leases. st_unfold.
  by repeat (case_match; simplify_eq/=).
Qed.

Lemma keeps_table_steps {A} (m : ST (Fabric W) A) c call fab :
  keeps_table m -> rtc (lease_step c call) (table_of fab) (table_of ((_ ← m; mret tt) fab).2).
Proof.
  intros Hm. pose proof (st_pres_void _ _ (Hm (table_of fab)) fab eq_refl) as H. simpl in H.
  by rewrite H.
Qed.

Lemma lease_exclusive_steps c id owner ttl fab :
  0 <= next_lease_id fab -> next_lease_id fab + 1 < 2 ^ 64 ->
  rtc (lease_step c (CLease id owner ttl)) (table_of fab)
    (table_of (lease_exclusive c id owner ttl fab).2).
Proof.
  intros H0 Hb.
  assert (u64_wrap (next_lease_id fab + 1) = next_lease_id fab + 1) as Hw
    by (apply Z.mod_small; lia).
  assert (rtc (lease_step c (CLease id owner ttl)) (table_of fab)
    (mkLeaseTable (retain_active c (leases fab)) (next_lease_id fab))) as Hret.
  { apply retain_steps. left. by exists id, owner, ttl. }
  unfold lease_exclusive, st_try, lease_check, lease_grant, lock_leases, panic_holding_leases.
  st_unfold. destruct (resource id fab) as [r|]; simpl; [|reflexivity].
  case_decide; simpl; [reflexivity|]. destruct (r_exclusive r); simpl; [|reflexivity].
  destruct (leases_poisoned fab); simpl; [reflexivity|].
  case_decide as Hl; simpl; [exact Hret|].
  rewrite <-eq_None_not_Some in Hl. rewrite Hw.
  destruct (instant_add (now c) ttl) as [e|] eqn:He; simpl.
  - apply instant_add_Some in He as ->. eapply rtc_r; [exact Hret|]. by apply step_grant.
  - eapply rtc_r; [exact Hret|]. apply step_lose.
Qed.

Lemma renew_lease_steps c l ttl fab :
  rtc (lease_step c (CRenew l ttl)) (table_of fab) (table_of (renew_lease c l ttl fab).2).
Proof.
  assert (rtc (lease_step c (CRenew l ttl)) (table_of fab)
    (mkLeaseTable (retain_active c (leases fab)) (next_lease_id fab))) as Hret.
  { apply retain_steps. right. by exists l, ttl. }
  unfold renew_lease, lock_leases, panic_holding_leases. st_unfold.
  destruct (leases_poisoned fab); simpl; [reflexivity|].
  destruct (retain_active c (leases fab) !! l_resource_id l) as [a|] eqn:Ha; simpl; [|exact Hret].
  case_decide; simpl; [|exact Hret].
  destruct (instant_add (now c) ttl) as [e|] eqn:He; simpl; [|exact Hret].
  apply instant_add_Some in He as ->. eapply rtc_r; [exact Hret|]. by apply step_renew.
Qed.

Lemma release_steps c l fab :
  rtc (lease_step c (CRelease l)) (table_of fab) (table_of (release l fab).2).
Proof.
  unfold release, release_check, release_remove, lock_leases, st_try. st_unfold.
  destruct (leases_poisoned fab) eqn:Hp; simpl; [reflexivity|].
  destruct (holds_lease l fab) eqn:Hl; simpl; [|reflexivity].
  rewrite release_detach_eq. destruct (detach_attached l fab) as [[[]|e] w]; simpl; [|reflexivity].
  rewrite Hp, holds_lease_world, Hl. simpl.
  unfold holds_lease in Hl. destruct (leases fab !! l_resource_id l) as [a|] eqn:Ha; [|done].
  apply bool_decide_eq_true in Hl. apply rtc_once. by apply (step_drop c _ _ l a).
Qed.

(** C12. Refinement. Whatever a call of the public interface does - with any
    arguments, clock readings and outcome - its effect on the registry's leases
    is a sequence of steps the abstract lease service allows for that call:
    calls other than lease, renew and release never touch the table, a lease
    ends only by its deadline or by a release presenting its identifier, and a
    resource is granted only when it has no holder, under a fresh identifier. *)
Theorem run_call_refines n c call fab :
  fabric_inv n fab -> n + 1 < 2 ^ 64 ->
  rtc (lease_step c call) (table_of fab) (table_of (run_call c call fab).2).
Proof.
  intros Hinv Hb. pose proof (inv_counter _ _ Hinv) as Hc.
  destruct call; simpl.
  - reflexivity.
  - apply keeps_table_steps. intros t.
    apply st_pres_bind; [|intros; apply st_pres_ret]. apply st_pres_iter.
    intros r. apply keeps_register.
  - apply keeps_table_steps, keeps_unregister.
  - apply keeps_table_steps, keeps_refresh_local.
  - reflexivity.
  - pose proof (lease_exclusive_steps c id owner ttl fab) as H. st_unfold.
    destruct (lease_exclusive c id owner ttl fab) as [[]]; apply H; lia.
  - apply keeps_table_steps, keeps_attach.
  - pose proof (release_steps c l fab) as H. st_unfold. by destruct (release l fab) as [[]].
  - pose proof (renew_lease_steps c l ttl fab) as H. st_unfold.
    by destruct (renew_lease c l ttl fab) as [[]].
  - reflexivity.
  - apply keeps_table_steps, keeps_evict.
Qed.

(** ** A panic in the locked section *)

Definition keeps_poison {A} (m : ST (Fabric W) A) : Prop :=
  st_pres (fun fab => leases_poisoned fab = true) m.

Lemma poison_locked {A B} (k : A -> () -> ST (Fabric W) B) a fab :
  leases_poisoned fab = true -> (lock_leases ≫= k a) fab = (Panicked, fab).
Proof. intros Hp. unfold lock_leases. st_unfold. by rewrite Hp. Qed.

Lemma unregister_poisoned id fab :
  leases_poisoned fab = true -> unregister id fab = (Panicked, fab).
Proof.
  intros Hp. destruct (unregister_cases id fab) as [[_ ->]|[(? & _)|(? & _)]]; [done|congruence..].
Qed.

Lemma release_poisoned l fab : leases_poisoned fab = true -> release l fab = (Panicked, fab).
Proof. intros Hp. unfold release, release_check, lock_leases, st_try. st_unfold. by rewrite Hp. Qed.

Lemma renew_poisoned c l ttl fab :
  leases_poisoned fab = true -> renew_lease c l ttl fab = (Panicked, fab).
Proof. intros Hp. unfold renew_lease, lock_leases. st_unfold. by rewrite Hp. Qed.

Lemma lease_poisoned c id owner ttl fab :
  leases_poisoned fab = true ->
  (lease_exclusive c id owner ttl fab).2 = fab
  /\ forall l, (lease_exclusive c id owner ttl fab).1 <> Done (Ok l).
Proof.
  intros Hp. unfold lease_exclusive, st_try, lease_check, lease_grant, lock_leases. st_unfold.
  destruct (resource id fab) as [r|]; simpl; [|done].
  case_decide; simpl; [done|]. destruct (r_exclusive r); simpl; [|done]. by rewrite Hp.
Qed.

Lemma attach_poisoned c nm l fab :
  leases_poisoned fab = true ->
  (attach c nm l fab).2 = fab /\ forall att, (attach c nm l fab).1 <> Done (Ok att).
Proof.
  intros Hp. unfold attach, lock_leases. st_unfold.
  destruct (resource (l_resource_id l) fab); simpl; [by rewrite Hp|done].
Qed.

Lemma find_available_poisoned rq fab :
  leases_poisoned fab = true -> find_available rq fab = (Panicked, fab).
Proof. intros Hp. unfold find_available, lock_leases. st_unfold. by rewrite Hp. Qed.

Lemma keeps_poison_unregister id : keeps_poison (unregister id).
Proof. intros fab Hp. by rewrite unregister_poisoned. Qed.

Lemma keeps_poison_refresh rs : keeps_poison (refresh_local rs).
Proof.
  apply st_pres_bind; [by intros fab|]. intros fab. cbv zeta. apply st_pres_bind.
  { apply st_pres_iter. intros r. case_decide; [by intros ?|apply st_pres_ret]. }
  intros _. apply st_pres_bind; [|intros; apply st_pres_ret].
  intros f Hf. destruct (bt_elements _) as [|id ids]; simpl; [done|].
  st_unfold. by rewrite unregister_poisoned.
Qed.

Lemma keeps_poison_evict c d : keeps_poison (evict_stale_nodes c d).
Proof.
  unfold evict_stale_nodes. destruct (instant_sub (now c) d) as [cutoff|]; [|by intros fab].
  apply st_pres_bind; [by intros fab|]. intros fab. cbv zeta.
  apply st_pres_bind; [by intros ?|]. intros _.
  destruct (stale_nodes cutoff fab) as [|x xs]; [apply st_pres_ret|].
  apply st_pres_bind; [by intros ?|]. intros fab'.
  apply st_pres_bind; [|intros; apply st_pres_ret].
  apply st_pres_iter. intros id. apply st_pres_void, keeps_poison_unregister.
Qed.

Lemma keeps_poison_call c call : keeps_poison (run_call c call).
Proof.
  destruct call; simpl; try apply st_pres_void; try by intros fab Hp.
  - apply st_pres_bind; [|intros; apply st_pres_ret]. apply st_pres_iter. by intros ? ?.
  - apply keeps_poison_unregister.
  - apply keeps_poison_refresh.
  - intros fab Hp. by rewrite (proj1 (lease_poisoned c id owner ttl fab Hp)).
  - intros fab Hp. by rewrite (proj1 (attach_poisoned c adapter_name l fab Hp)).
  - intros fab Hp. by rewrite release_poisoned.
  - intros fab Hp. by rewrite renew_poisoned.
  - apply keeps_poison_evict.
Qed.

Lemma run_calls_poisoned calls fab :
  leases_poisoned fab = true -> leases_poisoned (run_calls calls fab) = true.
Proof.
  unfold run_calls. revert fab. induction calls as [|[c call] calls IH]; intros fab Hp; simpl; [done|].
  apply IH. by apply keeps_poison_call.
Qed.

(** C16. A lifetime whose deadline [Instant::now() + ttl] is not representable
    makes [lease_exclusive] of a free resource panic while it holds the lease
    table, and that one call ends the service: after it, whatever is called, no
    lease is granted, nothing attaches, and every unregister, release, renewal
    and query of the leases panics. *)
Theorem ttl_overflow_poisons c id owner ttl r fab :
  resources fab !! id = Some r -> r_state r = Available -> r_exclusive r = true ->
  leases_poisoned fab = false -> live_lease c id fab = None ->
  instant_add (now c) ttl = None ->
  (lease_exclusive c id owner ttl fab).1 = Panicked
  /\ forall calls, let fab' := run_calls calls (lease_exclusive c id owner ttl fab).2 in
     (forall c' id' owner' ttl' l, (lease_exclusive c' id' owner' ttl' fab').1 <> Done (Ok l))
     /\ (forall c' nm l att, (attach c' nm l fab').1 <> Done (Ok att))
     /\ (forall id', unregister id' fab' = (Panicked, fab'))
     /\ (forall l, release l fab' = (Panicked, fab'))
     /\ (forall c' l ttl', renew_lease c' l ttl' fab' = (Panicked, fab'))
     /\ (forall rq, find_available rq fab' = (Panicked, fab')).
Proof.
  intros Hr Ha He Hp Hl Hd.
  assert ((lease_exclusive c id owner ttl fab).1 = Panicked
          /\ leases_poisoned (lease_exclusive c id owner ttl fab).2 = true) as [H1 H2].
  { unfold lease_exclusive, st_try. unfold mbind, st_bind.
    rewrite (lease_check_ok id fab r) by done.
    unfold lease_grant, lock_leases, panic_holding_leases, live_lease in *. st_unfold.
    rewrite Hp. simpl. rewrite Hl. rewrite decide_False by (by intros []). by rewrite Hd. }
  split; [done|]. intros calls fab'.
  assert (leases_poisoned fab' = true) as Hpo by by apply run_calls_poisoned.
  split_and!; intros.
  - by apply lease_poisoned.
  - by apply attach_poisoned.
  - by apply unregister_poisoned.
  - by apply release_poisoned.
  - by apply renew_poisoned.
  - by apply find_available_poisoned.
Qed.

End spec.

(** ** Concrete instances *)

Lemma run_call_refines_witness :
  4 + 1 < 2 ^ 64
  /\ rtc (lease_step (W := ()) (clock_at 2) (CLease "gpu.0" "alice" (from_secs 10)))
       (table_of demo_fab) (table_of demo_leased).
Proof.
  split; [by vm_compute|].
  apply (run_call_refines 4 (clock_at 2) (CLease "gpu.0" "alice" (from_secs 10)) demo_fab
           demo_fab_inv). by vm_compute.
Defined.

Lemma ttl_overflow_poisons_witness :
  instant_add (now (clock_at 2)) (from_secs u64_max) = None
  /\ (lease_exclusive (clock_at 2) "gpu.0" "eve" (from_secs u64_max) demo_fab).1 = Panicked.
Proof.
  split; [by vm_compute|].
  apply (ttl_overflow_poisons (clock_at 2) "gpu.0" "eve" (from_secs u64_max)
           (demo_gpu "gpu.0" "n") demo_fab); by vm_compute.
Defined.
