(* ===== verification/Interleave.v ===== *)
(** * The registry under concurrent callers (nauti-fabric/src/lib.rs, [Fabric])

    A [Fabric] is shared by every connection of an agent. Here each method is
    the sequence of lock operations and locked sections its source performs,
    and a pool of client threads interleaves them at that grain: a thread may be
    suspended between any two of them. The sections are the pieces of [Fabric];
    [solo_run] shows that a call that nobody interrupts is the method of that
    file. A call of an adapter is one section: what an adapter locks inside is
    not interleaved. *)

From stdpp Require Import base tactics option list gmap strings pretty sorting fin_maps relations.
From S2P Require Import Prelude Str Resource Fabric.

#[local] Open Scope Z_scope.

(** ** Locks *)

Inductive Lock : Type := LLeases | LResources | LAdapters | LAttachments | LHeartbeats.
Inductive Mode : Type := Shared | Exclusive.

#[export] Instance Lock_eq_dec : EqDecision Lock.
Proof. solve_decision. Defined.
#[export] Instance Mode_eq_dec : EqDecision Mode.
Proof. solve_decision. Defined.

(** The order the source documents: [leases] before every other lock. *)
Definition lock_rank (lk : Lock) : nat := match lk with LLeases => 0 | _ => 1 end.

Abbreviation Held := (list (Lock * Mode)) (only parsing).

(** ** Sections *)

(** What a thread does with the locks it holds, up to its next lock operation;
    the index is what the section hands to the rest of the call. *)
Inductive Sec (W : Type) : Type -> Type :=
  | SRegister (r : Resource) : Sec W ()
  | SResource (id : string) : Sec W (option Resource)
  | SResourceIds : Sec W (gset string)
  | SResources : Sec W (list Resource)
  | SMatching (rq : ResourceRequest) : Sec W (list Resource)
  | SOwnedBy (nodes : list string) : Sec W (list string)
  | SUnregisterCheck (id : string) : Sec W (result FabricError ())
  | SUnregisterRemove (id : string) : Sec W (result FabricError bool)
  | SRegisterAdapter (ad : ResourceAdapter W) : Sec W ()
  | SAdapter (name : string) : Sec W (option (ResourceAdapter W))
  | SReports : Sec W (list AdapterReport)
  | SLocked : Sec W ()
  | SGrant (id owner : string) (ttl : duration) : Sec W (result FabricError Lease)
  | SRenew (l : Lease) (ttl : duration) : Sec W (result FabricError Lease)
  | SAuthorized (l : Lease) : Sec W bool
  | SAttach (ad : ResourceAdapter W) (r : Resource) (l : Lease) : Sec W (result FabricError Attachment)
  | SRecord (id name : string) : Sec W ()
  | SReleaseCheck (l : Lease) : Sec W (result FabricError ())
  | STake (id : string) : Sec W (option string)
  | SDetach (ad : ResourceAdapter W) (r : Resource) (l : Lease) : Sec W (result FabricError ())
  | SReleaseRemove (l : Lease) : Sec W (result FabricError ())
  | SHeartbeat (node : string) : Sec W ()
  | SCutoff (older_than : duration) : Sec W instant
  | SStale (cutoff : instant) : Sec W (list string).
Arguments SRegister {W}. Arguments SResource {W}. Arguments SResourceIds {W}.
Arguments SResources {W}. Arguments SMatching {W}. Arguments SOwnedBy {W}.
Arguments SUnregisterCheck {W}. Arguments SUnregisterRemove {W}. Arguments SRegisterAdapter {W}.
Arguments SAdapter {W}. Arguments SReports {W}. Arguments SLocked {W}. Arguments SGrant {W}.
Arguments SRenew {W}. Arguments SAuthorized {W}. Arguments SAttach {W}. Arguments SRecord {W}.
Arguments SReleaseCheck {W}. Arguments STake {W}. Arguments SDetach {W}.
Arguments SReleaseRemove {W}. Arguments SHeartbeat {W}. Arguments SCutoff {W}. Arguments SStale {W}.

Section sections.
Context {W : Type}.

(** A section that only reads. *)
Definition st_read {B} (f : Fabric W -> B) : ST (Fabric W) B := fun fab => (Done (f fab), fab).

(** The query of [find_available] on the tables it has locked. *)
Definition matching (rq : ResourceRequest) (fab : Fabric W) : list Resource :=
  filter (fun r => matches rq r = true
                   /\ (r_exclusive r = false \/ leases fab !! r_id r = None))
    (map_to_list (resources fab)).*2.

Definition call_attach (ad : ResourceAdapter W) (r : Resource) (l : Lease) :
    ST (Fabric W) (result FabricError Attachment) :=
  fun fab => let '(res, w) := ad_attach ad r l (world fab) in (Done res, with_world w fab).
Definition call_detach (ad : ResourceAdapter W) (r : Resource) (l : Lease) :
    ST (Fabric W) (result FabricError ()) :=
  fun fab => let '(res, w) := ad_detach ad r l (world fab) in (Done res, with_world w fab).

Definition take_attachment (id : string) : ST (Fabric W) (option string) :=
  fun fab => (Done (attachments fab !! id), with_attachments (delete id) fab).

Definition take_stale (cutoff : instant) : ST (Fabric W) (list string) :=
  fun fab => let stale := stale_nodes cutoff fab in
             (Done stale, with_heartbeats (fun hb => foldr delete hb stale) fab).

Definition cutoff_of (c : Clock) (older_than : duration) : ST (Fabric W) instant :=
  match instant_sub (now c) older_than with Some t => mret t | None => st_panic end.

Definition run_sec {B} (s : Sec W B) (c : Clock) : ST (Fabric W) B :=
  match s in Sec _ B return ST (Fabric W) B with
  | SRegister r => register r
  | SResource id => st_read (resource id)
  | SResourceIds => st_read (fun fab => dom (resources fab))
  | SResources => st_read resources_sorted
  | SMatching rq => st_read (matching rq)
  | SOwnedBy nodes => st_read (owned_by nodes)
  | SUnregisterCheck id => unregister_check id
  | SUnregisterRemove id => unregister_remove id
  | SRegisterAdapter ad => register_adapter ad
  | SAdapter name => st_read (fun fab => adapters fab !! name)
  | SReports => st_read adapter_reports
  | SLocked => lock_leases
  | SGrant id owner ttl => lease_grant c id owner ttl
  | SRenew l ttl => renew_lease c l ttl
  | SAuthorized l => _ ← lock_leases; st_read (authorized l (now c))
  | SAttach ad r l => call_attach ad r l
  | SRecord id name => st_modify (with_attachments (insert id name))
  | SReleaseCheck l => release_check l
  | STake id => take_attachment id
  | SDetach ad r l => call_detach ad r l
  | SReleaseRemove l => release_remove l
  | SHeartbeat node => heartbeat c node
  | SCutoff d => cutoff_of c d
  | SStale cutoff => take_stale cutoff
  end.

End sections.

(** ** Calls as sequences of lock operations and sections *)

Inductive Proc (W A : Type) : Type :=
  | Ret (a : A)
  | Acquire (lk : Lock) (m : Mode) (k : Proc W A)
  | Unlock (lk : Lock) (k : Proc W A)
  | Act {B : Type} (s : Sec W B) (k : B -> Proc W A).
Arguments Ret {W A}. Arguments Acquire {W A}. Arguments Unlock {W A}. Arguments Act {W A B}.

Fixpoint proc_bind {W A B} (p : Proc W A) (f : A -> Proc W B) : Proc W B :=
  match p with
  | Ret a => f a
  | Acquire lk m k => Acquire lk m (proc_bind k f)
  | Unlock lk k => Unlock lk (proc_bind k f)
  | Act s k => Act s (fun b => proc_bind (k b) f)
  end.

#[export] Instance proc_mret {W} : MRet (Proc W) := fun A a => Ret a.
#[export] Instance proc_mbind {W} : MBind (Proc W) := fun A B f p => proc_bind p f.

(** [for x in l { f(x) }]. *)
Fixpoint proc_iter {W A} (f : A -> Proc W ()) (l : list A) : Proc W () :=
  match l with
  | [] => mret tt
  | a :: l => f a ≫= fun _ => proc_iter f l
  end.

Section procs.
Context {W : Type}.

(** One section under one lock. *)
Definition with_lock {B} (lk : Lock) (m : Mode) (s : Sec W B) : Proc W B :=
  Acquire lk m (Act s (fun b => Unlock lk (Ret b))).

Definition register_proc (r : Resource) : Proc W () := with_lock LResources Exclusive (SRegister r).

Definition resource_proc (id : string) : Proc W (option Resource) :=
  with_lock LResources Shared (SResource id).

Definition unregister_proc (id : string) : Proc W (result FabricError bool) :=
  checked ← with_lock LLeases Exclusive (SUnregisterCheck id);
  match checked with
  | Err e => mret (Err e)
  | Ok _ => with_lock LResources Exclusive (SUnregisterRemove id)
  end.

Fixpoint refresh_remove_proc (ids removed blocked : list string) : Proc W (list string * list string) :=
  match ids with
  | [] => mret (removed, blocked)
  | id :: ids =>
      res ← unregister_proc id;
      match res with
      | Ok true => refresh_remove_proc ids (app removed [id]) blocked
      | Ok false => refresh_remove_proc ids removed blocked
      | Err ResourceAlreadyLeased => refresh_remove_proc ids removed (app blocked [id])
      | Err _ => refresh_remove_proc ids removed blocked
      end
  end.

Definition refresh_local_proc (new_resources : list Resource) : Proc W RefreshReport :=
  let new_ids := ids_of new_resources in
  current_ids ← with_lock LResources Shared SResourceIds;
  let added := bt_elements (new_ids ∖ current_ids) in
  let gone := bt_elements (current_ids ∖ new_ids) in
  _ ← proc_iter (fun r => if decide (r_id r ∈ added) then register_proc r else mret tt) new_resources;
  rb ← refresh_remove_proc gone [] [];
  mret {| rr_added := added; rr_removed := rb.1; rr_blocked_by_lease := rb.2 |}.

Definition lease_exclusive_proc (id owner : string) (ttl : duration) : Proc W (result FabricError Lease) :=
  found ← resource_proc id;
  match found with
  | None => mret (Err ResourceNotFound)
  | Some r =>
      if decide (r_state r <> Available) then mret (Err ResourceUnavailable)
      else if negb (r_exclusive r) then mret (Err ResourceUnavailable)
      else with_lock LLeases Exclusive (SGrant id owner ttl)
  end.

(** The lease table stays locked while the resources are read. *)
Definition find_available_proc (rq : ResourceRequest) : Proc W (list Resource) :=
  Acquire LLeases Exclusive (Act SLocked (fun _ =>
  Acquire LResources Shared (Act (SMatching rq) (fun found =>
  Unlock LResources (Unlock LLeases (Ret found)))))).

(** The lease table stays locked across the adapter's [attach]. *)
Definition attach_proc (adapter_name : string) (l : Lease) : Proc W (result FabricError Attachment) :=
  found ← resource_proc (l_resource_id l);
  match found with
  | None => mret (Err ResourceNotFound)
  | Some r =>
      Acquire LLeases Exclusive (Act (SAuthorized l) (fun authorized =>
      if negb authorized then Unlock LLeases (Ret (Err LeaseNotFound))
      else
        Acquire LAdapters Shared (Act (SAdapter adapter_name) (fun found =>
        Unlock LAdapters
          match found with
          | None => Unlock LLeases (Ret (Err AdapterNotFound))
          | Some ad => Act (SAttach ad r l) (fun res =>
              match res with
              | Err e => Unlock LLeases (Ret (Err e))
              | Ok att =>
                  Acquire LAttachments Exclusive (Act (SRecord (l_resource_id l) adapter_name) (fun _ =>
                  Unlock LAttachments (Unlock LLeases (Ret (Ok att)))))
              end)
          end))))
  end.

(** The adapters stay read-locked across the adapter's [detach]. *)
Definition detach_proc (name : string) (r : Resource) (l : Lease) : Proc W (result FabricError ()) :=
  Acquire LAdapters Shared (Act (SAdapter name) (fun found =>
  match found with
  | None => Unlock LAdapters (Ret (Ok tt))
  | Some ad => Act (SDetach ad r l) (fun res => Unlock LAdapters (Ret res))
  end)).

Definition release_detach_proc (l : Lease) : Proc W (result FabricError ()) :=
  recorded ← with_lock LAttachments Exclusive (STake (l_resource_id l));
  match recorded with
  | None => mret (Ok tt)
  | Some name =>
      found ← resource_proc (l_resource_id l);
      match found with
      | None => mret (Ok tt)
      | Some r => detach_proc name r l
      end
  end.

Definition release_proc (l : Lease) : Proc W (result FabricError ()) :=
  checked ← with_lock LLeases Exclusive (SReleaseCheck l);
  match checked with
  | Err e => mret (Err e)
  | Ok _ =>
      detached ← release_detach_proc l;
      match detached with
      | Err e => mret (Err e)
      | Ok _ => with_lock LLeases Exclusive (SReleaseRemove l)
      end
  end.

(** The time is read, and the subtraction can panic, before any lock. *)
Definition evict_stale_nodes_proc (older_than : duration) : Proc W (list string) :=
  cutoff ← Act (SCutoff older_than) Ret;
  stale ← with_lock LHeartbeats Exclusive (SStale cutoff);
  match stale with
  | [] => mret stale
  | _ =>
      owned ← with_lock LResources Shared (SOwnedBy stale);
      _ ← proc_iter (fun id => _ ← unregister_proc id; mret tt) owned;
      mret stale
  end.

(** ** The public interface *)

Inductive Op : Type :=
  | OCall (call : Call W)
  | OFind (rq : ResourceRequest)
  | OResource (id : string)
  | OResources
  | OReports.

Inductive CallResult : Type :=
  | RUnit
  | RDiscovered (rs : list Resource)
  | RUnregistered (r : result FabricError bool)
  | RRefreshed (report : RefreshReport)
  | RLeased (r : result FabricError Lease)
  | RAttached (r : result FabricError Attachment)
  | RReleased (r : result FabricError ())
  | REvicted (nodes : list string)
  | RResources (rs : list Resource)
  | RResource (r : option Resource)
  | RReports (rs : list AdapterReport).

Definition proc_of (op : Op) : Proc W CallResult :=
  match op with
  | OCall (CRegister r) => _ ← register_proc r; mret RUnit
  | OCall (CDiscover rs) => _ ← proc_iter register_proc rs; mret (RDiscovered rs)
  | OCall (CUnregister id) => r ← unregister_proc id; mret (RUnregistered r)
  | OCall (CRefresh rs) => r ← refresh_local_proc rs; mret (RRefreshed r)
  | OCall (CRegisterAdapter ad) => _ ← with_lock LAdapters Exclusive (SRegisterAdapter ad); mret RUnit
  | OCall (CLease id owner ttl) => r ← lease_exclusive_proc id owner ttl; mret (RLeased r)
  | OCall (CAttach n l) => r ← attach_proc n l; mret (RAttached r)
  | OCall (CRelease l) => r ← release_proc l; mret (RReleased r)
  | OCall (CRenew l ttl) => r ← with_lock LLeases Exclusive (SRenew l ttl); mret (RLeased r)
  | OCall (CHeartbeat n) => _ ← with_lock LHeartbeats Exclusive (SHeartbeat n); mret RUnit
  | OCall (CEvict d) => r ← evict_stale_nodes_proc d; mret (REvicted r)
  | OFind rq => r ← find_available_proc rq; mret (RResources r)
  | OResource id => r ← resource_proc id; mret (RResource r)
  | OResources => r ← with_lock LResources Shared SResources; mret (RResources r)
  | OReports => r ← with_lock LAdapters Shared SReports; mret (RReports r)
  end.

(** The same call as the method of [Fabric]. *)
Definition run_op (c : Clock) (op : Op) : ST (Fabric W) CallResult :=
  match op with
  | OCall (CRegister r) => _ ← register r; mret RUnit
  | OCall (CDiscover rs) => r ← discover_local rs; mret (RDiscovered r)
  | OCall (CUnregister id) => r ← unregister id; mret (RUnregistered r)
  | OCall (CRefresh rs) => r ← refresh_local rs; mret (RRefreshed r)
  | OCall (CRegisterAdapter ad) => _ ← register_adapter ad; mret RUnit
  | OCall (CLease id owner ttl) => r ← lease_exclusive c id owner ttl; mret (RLeased r)
  | OCall (CAttach n l) => r ← attach c n l; mret (RAttached r)
  | OCall (CRelease l) => r ← release l; mret (RReleased r)
  | OCall (CRenew l ttl) => r ← renew_lease c l ttl; mret (RLeased r)
  | OCall (CHeartbeat n) => _ ← heartbeat c n; mret RUnit
  | OCall (CEvict d) => r ← evict_stale_nodes c d; mret (REvicted r)
  | OFind rq => r ← find_available rq; mret (RResources r)
  | OResource id => r ← st_read (resource id); mret (RResource r)
  | OResources => r ← st_read resources_sorted; mret (RResources r)
  | OReports => r ← st_read adapter_reports; mret (RReports r)
  end.

(** A client decides on its next call from the results of the calls before. *)
Inductive Client : Type :=
  | Stop (results : list CallResult)
  | Invoke (op : Op) (k : CallResult -> Client).

Fixpoint client_proc (cl : Client) : Proc W (list CallResult) :=
  match cl with
  | Stop rs => Ret rs
  | Invoke op k => proc_of op ≫= fun r => client_proc (k r)
  end.

End procs.

Arguments Op : clear implicits.
Arguments Client : clear implicits.

(** ** Threads and their interleavings *)

Section pool.
Context {W R : Type}.

Inductive Thread : Type :=
  | Running (held : Held) (p : Proc W R)
  | Finished (o : outcome R).

Record Config : Type := mkConfig {
  cf_threads : list Thread;
  cf_fabric : Fabric W;
  cf_time : instant;
}.

Definition start_procs (ps : list (Proc W R)) (fab : Fabric W) (t : instant) : Config :=
  {| cf_threads := Running [] <$> ps; cf_fabric := fab; cf_time := t |}.

Definition held_of (th : Thread) : Held := match th with Running h _ => h | Finished _ => [] end.
Definition waits_for (th : Thread) : option (Lock * Mode) :=
  match th with Running _ (Acquire lk m _) => Some (lk, m) | _ => None end.

Definition is_held (lk : Lock) (ts : list Thread) : Prop :=
  exists th m, th ∈ ts /\ (lk, m) ∈ held_of th.
Definition held_exclusive (lk : Lock) (ts : list Thread) : Prop :=
  exists th, th ∈ ts /\ (lk, Exclusive) ∈ held_of th.

(** May a waiting thread get the lock? The platform decides whether a reader
    overtakes a waiting writer ([writer_first]). *)
Definition grantable (writer_first : bool) (lk : Lock) (m : Mode) (ts : list Thread) : Prop :=
  match m with
  | Exclusive => ~ is_held lk ts
  | Shared => ~ held_exclusive lk ts
      /\ (writer_first = true -> ~ exists th, th ∈ ts /\ waits_for th = Some (lk, Exclusive))
  end.

Definition drop_lock (lk : Lock) (h : Held) : Held := filter (fun x => x.1 <> lk) h.

(** What happened in a step: a section, with its result, or a lock operation. *)
Inductive Label : Type :=
  | LSec (i : nat) {B : Type} (s : Sec W B) (c : Clock) (o : outcome B)
  | LTau (i : nat).

Definition set_thread (i : nat) (th : Thread) (cfg : Config) : Config :=
  mkConfig (<[i := th]> (cf_threads cfg)) (cf_fabric cfg) (cf_time cfg).

(** A panic unwinds the thread and drops its guards; the sections record the
    poisoning. *)
Inductive cstep (writer_first : bool) : Label -> Config -> Config -> Prop :=
  | step_acquire i held lk m k cfg :
      cf_threads cfg !! i = Some (Running held (Acquire lk m k)) ->
      grantable writer_first lk m (cf_threads cfg) ->
      cstep writer_first (LTau i) cfg (set_thread i (Running ((lk, m) :: held) k) cfg)
  | step_unlock i held lk k cfg :
      cf_threads cfg !! i = Some (Running held (Unlock lk k)) ->
      cstep writer_first (LTau i) cfg (set_thread i (Running (drop_lock lk held) k) cfg)
  | step_act i held B (s : Sec W B) k c b fab cfg :
      cf_threads cfg !! i = Some (Running held (Act s k)) ->
      clock_ok (cf_time cfg) c -> run_sec s c (cf_fabric cfg) = (Done b, fab) ->
      cstep writer_first (LSec i s c (Done b)) cfg
        (mkConfig (<[i := Running held (k b)]> (cf_threads cfg)) fab (now c))
  | step_panic i held B (s : Sec W B) k c fab cfg :
      cf_threads cfg !! i = Some (Running held (Act s k)) ->
      clock_ok (cf_time cfg) c -> run_sec s c (cf_fabric cfg) = (Panicked, fab) ->
      cstep writer_first (LSec i s c Panicked) cfg
        (mkConfig (<[i := Finished Panicked]> (cf_threads cfg)) fab (now c))
  | step_ret i held rs cfg :
      cf_threads cfg !! i = Some (Running held (Ret rs)) ->
      cstep writer_first (LTau i) cfg (set_thread i (Finished (Done rs)) cfg).

(** A run with the labels of its steps. *)
Inductive csteps (writer_first : bool) : list Label -> Config -> Config -> Prop :=
  | csteps_nil cfg : csteps writer_first [] cfg cfg
  | csteps_cons l ls cfg1 cfg2 cfg3 :
      cstep writer_first l cfg1 cfg2 -> csteps writer_first ls cfg2 cfg3 ->
      csteps writer_first (l :: ls) cfg1 cfg3.

End pool.

Arguments Thread : clear implicits.
Arguments Config : clear implicits.
Arguments Label : clear implicits.
#[export] Hint Constructors csteps : nauti.

(** A pool of clients. *)
Definition start {W} (clients : list (Client W)) (fab : Fabric W) (t : instant) :
    Config W (list CallResult) := start_procs (client_proc <$> clients) fab t.
