(* ===== verification/InterleaveSolo.v ===== *)
(** * A call nobody interrupts is the method

    The processes of [Interleave] against the methods of [Fabric]: run without
    interference a process computes what the method computes, and a pool can
    always schedule a call that way. *)

From stdpp Require Import base tactics option list gmap strings pretty sorting fin_maps relations.
From S2P Require Import Prelude Str Resource Fabric FabricInv FabricOps Interleave.

#[local] Open Scope Z_scope.

(** Expose the state a section is run in. *)
Ltac solo_unfold := repeat (progress (cbn -[String.eqb];
  unfold mbind, st_bind, mret, st_ret, st_get, st_modify, st_panic, st_read, lock_leases, st_try in *)).

Section solo.
Context {W : Type}.
Implicit Types (fab : Fabric W).

(** A process alone, every section at the same clock. *)
Fixpoint solo {A} (c : Clock) (p : Proc W A) : ST (Fabric W) A :=
  match p with
  | Ret a => mret a
  | Acquire _ _ k => solo c k
  | Unlock _ k => solo c k
  | Act s k => run_sec s c ≫= fun b => solo c (k b)
  end.

Lemma solo_bind {A B} c (p : Proc W A) (f : A -> Proc W B) fab :
  solo c (p ≫= f) fab = (solo c p ≫= fun a => solo c (f a)) fab.
Proof.
  revert fab. induction p as [a|lk m k IH|lk k IH|B' s k IH]; intros fab; simpl; [done|apply IH..|].
  st_unfold. destruct (run_sec s c fab) as [[b|] fab']; [apply IH|done].
Qed.

Lemma bind_ext {A B} (m m' : ST (Fabric W) A) (f f' : A -> ST (Fabric W) B) fab :
  m fab = m' fab -> (forall a s, f a s = f' a s) -> (m ≫= f) fab = (m' ≫= f') fab.
Proof. intros Hm Hf. st_unfold. rewrite Hm. destruct (m' fab) as [[a|] s]; [apply Hf|done]. Qed.

Lemma solo_bind_as {A B} c (p : Proc W A) (f : A -> Proc W B)
    (m : ST (Fabric W) A) (f' : A -> ST (Fabric W) B) fab :
  solo c p fab = m fab -> (forall a s, solo c (f a) s = f' a s) ->
  solo c (p ≫= f) fab = (m ≫= f') fab.
Proof. intros Hp Hf. rewrite solo_bind. by apply bind_ext. Qed.

Lemma solo_with_lock {B} c lk m (s : Sec W B) fab : solo c (with_lock lk m s) fab = run_sec s c fab.
Proof. simpl. st_unfold. by destruct (run_sec s c fab) as [[b|] fab']. Qed.

Lemma solo_iter {A} c (f : A -> Proc W ()) (g : A -> ST (Fabric W) ()) l fab :
  (forall a s, solo c (f a) s = g a s) -> solo c (proc_iter f l) fab = st_iter g l fab.
Proof.
  intros Hf. revert fab. induction l as [|a l IH]; intros fab; simpl; [done|].
  apply solo_bind_as; [apply Hf|intros _; apply IH].
Qed.

Lemma solo_unregister c id fab : solo c (unregister_proc id) fab = unregister id fab.
Proof.
  unfold unregister_proc, unregister, st_try.
  apply solo_bind_as; [apply solo_with_lock|]. intros [[]|e] s; [apply solo_with_lock|done].
Qed.

Lemma solo_refresh_remove c ids removed blocked fab :
  solo c (refresh_remove_proc ids removed blocked) fab = refresh_remove ids removed blocked fab.
Proof.
  revert removed blocked fab. induction ids as [|id ids IH]; intros removed blocked fab;
    cbn [refresh_remove_proc refresh_remove]; [done|].
  apply solo_bind_as; [apply solo_unregister|]. intros [[|]|[]] s; apply IH.
Qed.

Lemma solo_refresh c rs fab : solo c (refresh_local_proc rs) fab = refresh_local rs fab.
Proof.
  unfold refresh_local_proc, refresh_local. cbv zeta. rewrite solo_bind. unfold mbind at 1, st_bind at 1.
  rewrite solo_with_lock. cbn [run_sec st_read]. unfold mbind at 3, st_bind at 3, st_get.
  apply solo_bind_as.
  { apply solo_iter. intros r s. case_decide; [apply solo_with_lock|done]. }
  intros _ s. apply solo_bind_as; [apply solo_refresh_remove|done].
Qed.

Lemma solo_lease c id owner ttl fab :
  solo c (lease_exclusive_proc id owner ttl) fab = lease_exclusive c id owner ttl fab.
Proof.
  unfold lease_exclusive_proc, lease_exclusive, lease_check, st_try. rewrite solo_bind. st_unfold.
  destruct (resource id fab) as [r|]; [|done].
  case_decide; [done|]. destruct (r_exclusive r); [|done]. apply solo_with_lock.
Qed.

Lemma solo_find c rq fab : solo c (find_available_proc rq) fab = find_available rq fab.
Proof.
  unfold find_available_proc, find_available. solo_unfold. by destruct (leases_poisoned fab).
Qed.

Lemma solo_attach c n l fab : solo c (attach_proc n l) fab = attach c n l fab.
Proof.
  unfold attach_proc, attach. rewrite solo_bind. solo_unfold.
  destruct (resource (l_resource_id l) fab) as [r|]; solo_unfold; [|done].
  destruct (leases_poisoned fab); solo_unfold; [done|].
  destruct (authorized l (now c) fab); solo_unfold; [|done].
  destruct (adapters fab !! n) as [ad|]; solo_unfold; [|done]. unfold call_attach.
  by destruct (ad_attach ad r l (world fab)) as [[att|e] w].
Qed.

Lemma solo_release_detach c l fab : solo c (release_detach_proc l) fab = release_detach l fab.
Proof.
  unfold release_detach_proc, release_detach. rewrite solo_bind. solo_unfold.
  destruct (attachments fab !! l_resource_id l) as [n|]; solo_unfold; [|done].
  unfold resource. solo_unfold.
  destruct (resources fab !! l_resource_id l) as [r|]; solo_unfold; [|done].
  unfold detach_proc. solo_unfold.
  destruct (adapters fab !! n) as [ad|]; solo_unfold; [|done]. unfold call_detach. solo_unfold.
  by destruct (ad_detach ad r l (world fab)) as [res w].
Qed.

Lemma solo_release c l fab : solo c (release_proc l) fab = release l fab.
Proof.
  unfold release_proc, release, st_try.
  apply solo_bind_as; [apply solo_with_lock|]. intros [[]|e] s; [|done].
  apply solo_bind_as; [apply solo_release_detach|]. intros [[]|e] s'; [apply solo_with_lock|done].
Qed.

Lemma solo_evict c d fab : solo c (evict_stale_nodes_proc d) fab = evict_stale_nodes c d fab.
Proof.
  unfold evict_stale_nodes_proc, evict_stale_nodes. rewrite solo_bind. cbn [solo run_sec]. unfold cutoff_of.
  destruct (instant_sub (now c) d) as [cutoff|]; [|done].
  match goal with |- (_ ≫= ?g) fab = ?r => change (g cutoff fab = r) end. cbv beta.
  rewrite solo_bind. set (fab1 := with_heartbeats (fun hb => foldr delete hb (stale_nodes cutoff fab)) fab).
  match goal with |- (_ ≫= ?g) fab = ?r => change (g (stale_nodes cutoff fab) fab1 = r) end. cbv beta.
  match goal with |- _ = ?r => change r with
    ((match stale_nodes cutoff fab with
      | [] => mret (stale_nodes cutoff fab)
      | _ => fab' ← st_get;
             _ ← st_iter (fun id => _ ← unregister id; mret tt) (owned_by (stale_nodes cutoff fab) fab');
             mret (stale_nodes cutoff fab)
      end) fab1) end.
  destruct (stale_nodes cutoff fab) as [|x xs]; [done|].
  rewrite solo_bind.
  match goal with |- (_ ≫= ?g) fab1 = ?r => change (g (owned_by (x :: xs) fab1) fab1 = r) end. cbv beta.
  apply (solo_bind_as c _ _ (st_iter (fun id => _ ← unregister id; mret tt) (owned_by (x :: xs) fab1))); [|done]. apply solo_iter. intros id s'.
  apply solo_bind_as; [apply solo_unregister|done].
Qed.

(** Alone, the process of a call computes the method's result and state. *)
Lemma solo_run c op fab : solo c (proc_of op) fab = run_op c op fab.
Proof.
  destruct op as [[]| | | |]; cbn [proc_of run_op];
    try (apply solo_bind_as; [first [apply solo_with_lock|apply solo_unregister|apply solo_refresh
      |apply solo_lease|apply solo_attach|apply solo_release|apply solo_evict|apply solo_find]|done]).
  unfold discover_local.
  transitivity ((_ ← register_all discovered; mret (RDiscovered discovered)) fab).
  - apply solo_bind_as; [|done]. apply solo_iter. intros r s. apply solo_with_lock.
  - st_unfold. by destruct (register_all discovered fab) as [[]].
Qed.

End solo.
