(* ===== verification/InterleaveLive.v ===== *)
(** * No deadlock, and every call returns

    Every method takes its locks in the order of [lock_rank]. From that: no
    pool of clients is ever stuck, whichever thread a lock is granted to first,
    and no schedule runs forever. *)

From stdpp Require Import base tactics option list gmap strings pretty sorting fin_maps relations.
From S2P Require Import Prelude Str Resource Fabric FabricInv FabricOps Interleave InterleaveSolo.

#[local] Open Scope Z_scope.

Section order.
Context {W R : Type}.

(** ** The lock order *)

(** With [held] locks, the process only asks for locks of a higher rank, and
    returns without any. *)
Fixpoint ordered {A} (held : Held) (p : Proc W A) : Prop :=
  match p with
  | Ret _ => held = []
  | Acquire lk m k =>
      (forall x, x ∈ held -> (lock_rank x.1 < lock_rank lk)%nat) /\ ordered ((lk, m) :: held) k
  | Unlock lk k => ordered (drop_lock lk held) k
  | Act s k => forall b, ordered held (k b)
  end.

Lemma ordered_bind {A B} held (p : Proc W A) (f : A -> Proc W B) :
  ordered held p -> (forall a, ordered [] (f a)) -> ordered held (p ≫= f).
Proof.
  intros Hp Hf. revert held Hp.
  induction p as [a|lk m k IH|lk k IH|B' s k IH]; intros held; simpl; [by intros ->|naive_solver..].
Qed.

Lemma ordered_mret {A} (a : A) : ordered [] (mret a : Proc W A).
Proof. done. Qed.

Lemma ordered_with_lock {B} lk m (s : Sec W B) : ordered [] (with_lock lk m s).
Proof.
  unfold with_lock. cbn [ordered]. split; [by intros x ?%elem_of_nil|]. intros _. unfold drop_lock.
  rewrite filter_cons. by rewrite decide_False by naive_solver.
Qed.

Lemma ordered_iter {A} (f : A -> Proc W ()) l :
  (forall a, ordered [] (f a)) -> ordered [] (proc_iter f l).
Proof. intros Hf. induction l; simpl; [done|]. apply ordered_bind; [apply Hf|done]. Qed.

Hint Resolve ordered_bind ordered_with_lock ordered_iter ordered_mret : core.

Ltac ordered_step := apply ordered_bind; [first [apply ordered_with_lock|solve [auto]|done]|].

Lemma ordered_unregister id : ordered [] (unregister_proc id).
Proof. ordered_step. intros [[]|e]; [apply ordered_with_lock|apply ordered_mret]. Qed.

Hint Resolve ordered_unregister : core.

Lemma ordered_refresh rs : ordered [] (refresh_local_proc rs).
Proof.
  ordered_step. intros ids. apply ordered_bind.
  { apply ordered_iter. intros r. case_decide; [apply ordered_with_lock|apply ordered_mret]. }
  intros _. apply ordered_bind; [|done].
  generalize (bt_elements (ids ∖ ids_of rs)). intros l.
  enough (forall x y, ordered [] (refresh_remove_proc (W := W) l x y)) as H by apply H.
  induction l as [|id l IH]; intros x y; [done|].
  cbn [refresh_remove_proc]. ordered_step. intros [[|]|[]]; apply IH.
Qed.

Lemma ordered_find rq : ordered [] (find_available_proc rq).
Proof.
  cbn. split; [by intros x ?%elem_of_nil|]. intros _.
  split; [intros x ->%list_elem_of_singleton; simpl; lia|]. intros _. reflexivity.
Qed.

Lemma ordered_attach n l : ordered [] (attach_proc n l).
Proof.
  ordered_step. intros [r|]; [|apply ordered_mret]. cbn.
  split; [by intros x ?%elem_of_nil|]. intros [|]; cbn; [|reflexivity].
  split; [intros x ->%list_elem_of_singleton; simpl; lia|]. intros [ad|]; cbn; [|reflexivity].
  intros [att|e]; cbn; [|reflexivity].
  split; [intros x ->%list_elem_of_singleton; simpl; lia|]. intros _. reflexivity.
Qed.

Lemma ordered_release_detach l : ordered [] (release_detach_proc l).
Proof.
  ordered_step. intros [n|]; [|apply ordered_mret].
  ordered_step. intros [r|]; [|apply ordered_mret]. cbn.
  split; [by intros x ?%elem_of_nil|]. intros [ad|]; [intros res|]; reflexivity.
Qed.

Lemma ordered_release l : ordered [] (release_proc l).
Proof.
  ordered_step. intros [[]|e]; [|apply ordered_mret].
  apply ordered_bind; [apply ordered_release_detach|].
  intros [[]|e]; [apply ordered_with_lock|apply ordered_mret].
Qed.

Lemma ordered_lease id owner ttl : ordered [] (lease_exclusive_proc id owner ttl).
Proof.
  ordered_step. intros [r|]; [|apply ordered_mret]. case_decide; [apply ordered_mret|].
  destruct (r_exclusive r); [apply ordered_with_lock|apply ordered_mret].
Qed.

Lemma ordered_evict d : ordered [] (evict_stale_nodes_proc d).
Proof.
  ordered_step. intros cutoff. ordered_step. intros [|x xs]; [apply ordered_mret|].
  ordered_step. intros owned. apply ordered_bind; [|done].
  apply ordered_iter. intros id. ordered_step. intros _. apply ordered_mret.
Qed.

Hint Resolve ordered_refresh ordered_find ordered_attach ordered_release ordered_lease ordered_evict : core.

(** Every method of the registry keeps the lock order. *)
Lemma ordered_proc_of (op : Op W) : ordered [] (proc_of op).
Proof.
  destruct op as [[]| | | |]; cbn [proc_of]; (apply ordered_bind; [|intros ?; apply ordered_mret]);
    first [solve [auto]|apply ordered_with_lock|apply ordered_iter; intros ?; apply ordered_with_lock].
Qed.

Lemma ordered_client (cl : Client W) : ordered [] (client_proc cl).
Proof.
  induction cl as [rs|op k IH]; simpl; [done|]. by apply ordered_bind; [apply ordered_proc_of|].
Qed.

Definition thread_ordered (th : Thread W R) : Prop :=
  match th with Running h p => ordered h p | Finished _ => True end.
Definition pool_ordered (cfg : Config W R) : Prop :=
  forall i th, cf_threads cfg !! i = Some th -> thread_ordered th.

Lemma start_procs_ordered (ps : list (Proc W R)) fab t :
  Forall (ordered []) ps -> pool_ordered (start_procs ps fab t).
Proof.
  intros Hps i th. simpl. rewrite list_lookup_fmap. intros (p & Hp & ->)%fmap_Some.
  by eapply (Forall_lookup_1 _ _ _ _ Hps).
Qed.

Lemma pool_ordered_insert i th cfg fab t :
  pool_ordered cfg -> thread_ordered th -> pool_ordered (mkConfig (<[i := th]> (cf_threads cfg)) fab t).
Proof.
  intros Hp Hth j th'. simpl. intros [(-> & -> & _)|[_ H]]%list_lookup_insert_Some; [done|by eapply Hp].
Qed.

Lemma cstep_ordered wf l cfg cfg' : pool_ordered cfg -> cstep wf l cfg cfg' -> pool_ordered cfg'.
Proof.
  intros Hp Hs. destruct Hs as [? ? ? ? ? ? Hi|? ? ? ? ? Hi|? ? ? ? ? ? ? ? ? Hi|? ? ? ? ? ? ? ? Hi|? ? ? ? Hi];
    apply pool_ordered_insert; try done; specialize (Hp _ _ Hi); simpl in Hp; naive_solver.
Qed.

Lemma csteps_ordered wf ls cfg cfg' : pool_ordered cfg -> csteps wf ls cfg cfg' -> pool_ordered cfg'.
Proof. intros Hp Hs. induction Hs; [done|]. eauto using cstep_ordered. Qed.

(** ** A call that nobody interrupts *)

Lemma clock_at_ok (t : instant) : clock_ok t (clock_at t).
Proof. split; simpl; lia. Qed.

Definition others_idle (i : nat) (ts : list (Thread W R)) : Prop :=
  forall j th, j <> i -> ts !! j = Some th -> held_of th = [].

Lemma alone_grantable i lk m h p ts :
  ts !! i = Some (Running h p) -> others_idle i ts ->
  (forall x, x ∈ h -> (lock_rank x.1 < lock_rank lk)%nat) -> grantable (W := W) false lk m ts.
Proof.
  intros Hi Hothers Hrank.
  assert (~ is_held lk ts) as Hn.
  { intros (th & m' & [j Hj]%list_elem_of_lookup & Hx). destruct (decide (j = i)) as [->|Hne].
    - simplify_eq. specialize (Hrank _ Hx). simpl in Hrank. lia.
    - rewrite (Hothers j th Hne Hj) in Hx. by apply elem_of_nil in Hx. }
  destruct m; [|done]. split; [|done]. intros (th & Hin & Hx). apply Hn. by exists th, Exclusive.
Qed.

Lemma others_idle_insert i th ts : others_idle i ts -> others_idle i (<[i := th]> ts).
Proof. intros Ho j th' Hne Hj. rewrite list_lookup_insert_ne in Hj by done. by eapply Ho. Qed.

(** What a process becomes inside a thread: [ext] adds what comes after it. *)
Record extends {A} (ext : Proc W A -> Proc W R) : Prop := {
  ext_acquire lk m k : ext (Acquire lk m k) = Acquire lk m (ext k);
  ext_unlock lk k : ext (Unlock lk k) = Unlock lk (ext k);
  ext_act B (s : Sec W B) k : ext (Act s k) = Act s (fun b => ext (k b));
}.

(** What a thread is after its process had outcome [o]. *)
Definition after_run {A} (ext : Proc W A -> Proc W R) (o : outcome A) : Thread W R :=
  match o with Done a => Running [] (ext (Ret a)) | Panicked => Finished Panicked end.

Lemma alone_runs {A} (p : Proc W A) (ext : Proc W A -> Proc W R) i h cfg :
  extends ext -> ordered h p -> cf_threads cfg !! i = Some (Running h (ext p)) ->
  others_idle i (cf_threads cfg) ->
  let '(o, fab) := solo (clock_at (cf_time cfg)) p (cf_fabric cfg) in
  exists ls, csteps false ls cfg
    (mkConfig (<[i := after_run ext o]> (cf_threads cfg)) fab (cf_time cfg)).
Proof.
  intros [Ea Eu Es]. destruct cfg as [ts fab t]. cbn [cf_threads cf_fabric cf_time]. revert h ts fab.
  induction p as [a|lk m k IH|lk k IH|B s k IH]; intros h ts fab Ho Hi Hidle; cbn [solo].
  - simpl in Ho. subst h. exists []. cbn. rewrite list_insert_id by done. constructor.
  - rewrite Ea in Hi. destruct Ho as [Hr Ho]. set (th := Running ((lk, m) :: h) (ext k)).
    specialize (IH _ (<[i := th]> ts) fab Ho). rewrite list_lookup_insert_eq in IH by by eapply lookup_lt_Some.
    specialize (IH eq_refl (others_idle_insert _ _ _ Hidle)).
    destruct (solo (clock_at t) k fab) as [o fab']. destruct IH as [ls IH]. rewrite list_insert_insert_eq in IH.
    eexists (_ :: ls). econstructor; [|exact IH].
    apply (step_acquire false i h lk m (ext k) (mkConfig ts fab t)); [done|by eapply alone_grantable].
  - rewrite Eu in Hi. simpl in Ho. set (th := Running (drop_lock lk h) (ext k)).
    specialize (IH _ (<[i := th]> ts) fab Ho). rewrite list_lookup_insert_eq in IH by by eapply lookup_lt_Some.
    specialize (IH eq_refl (others_idle_insert _ _ _ Hidle)).
    destruct (solo (clock_at t) k fab) as [o fab']. destruct IH as [ls IH]. rewrite list_insert_insert_eq in IH.
    eexists (_ :: ls). econstructor; [|exact IH].
    apply (step_unlock false i h lk (ext k) (mkConfig ts fab t)); done.
  - rewrite Es in Hi. unfold mbind, st_bind. destruct (run_sec s (clock_at t) fab) as [[b|] fab1] eqn:E.
    + set (th := Running h (ext (k b))).
      specialize (IH b h (<[i := th]> ts) fab1 (Ho b)).
      rewrite list_lookup_insert_eq in IH by by eapply lookup_lt_Some.
      specialize (IH eq_refl (others_idle_insert _ _ _ Hidle)).
      destruct (solo (clock_at t) (k b) fab1) as [o fab']. destruct IH as [ls IH].
      rewrite list_insert_insert_eq in IH. eexists (_ :: ls). econstructor; [|exact IH].
      apply (step_act false i h B s (fun b => ext (k b)) (clock_at t) b fab1 (mkConfig ts fab t));
        [done|apply clock_at_ok|done].
    + eexists [_]. econstructor; [|constructor].
      apply (step_panic false i h B s (fun b => ext (k b)) (clock_at t) fab1 (mkConfig ts fab t));
        [done|apply clock_at_ok|done].
Qed.

Lemma extends_id : extends (fun p : Proc W R => p).
Proof. done. Qed.

Lemma extends_bind {A} (f : A -> Proc W R) : extends (fun p => p ≫= f).
Proof. done. Qed.

(** What a thread is after its call had outcome [o]. *)
Definition after_call {A} (f : A -> Proc W R) (o : outcome A) : Thread W R :=
  match o with Done a => Running [] (f a) | Panicked => Finished Panicked end.

Lemma alone_steps {A} (p : Proc W A) (f : A -> Proc W R) i h cfg :
  ordered h p -> cf_threads cfg !! i = Some (Running h (p ≫= f)) -> others_idle i (cf_threads cfg) ->
  let '(o, fab) := solo (clock_at (cf_time cfg)) p (cf_fabric cfg) in
  exists ls, csteps false ls cfg
    (mkConfig (<[i := after_call f o]> (cf_threads cfg)) fab (cf_time cfg)).
Proof.
  intros Ho Hi Hidle. pose proof (alone_runs p (fun p => p ≫= f) i h cfg (extends_bind f) Ho Hi Hidle) as H.
  by destruct (solo (clock_at (cf_time cfg)) p (cf_fabric cfg)) as [[a|] fab].
Qed.

(** ** A thread can always step *)

Definition is_finished (th : Thread W R) : Prop := match th with Finished _ => True | _ => False end.
Definition all_finished (cfg : Config W R) : Prop :=
  forall i th, cf_threads cfg !! i = Some th -> is_finished th.

(** Is the thread at a lock operation that may have to wait? *)
Definition waiting (th : Thread W R) : Prop := is_Some (waits_for th).
#[local] Instance waiting_dec th : Decision (waiting th).
Proof. unfold waiting. apply _. Defined.

#[local] Instance is_finished_dec th : Decision (is_finished th).
Proof. destruct th; apply _. Defined.

Lemma is_held_alt lk (ts : list (Thread W R)) :
  Exists (fun th => lk ∈ (held_of th).*1) ts <-> is_held lk ts.
Proof.
  unfold is_held. rewrite Exists_exists. split.
  - intros (th & Hin & ((lk' & m) & -> & Hx)%list_elem_of_fmap). by exists th, m.
  - intros (th & m & Hin & Hx). exists th. split; [done|]. apply list_elem_of_fmap. by exists (lk, m).
Qed.
#[local] Instance is_held_dec lk (ts : list (Thread W R)) : Decision (is_held lk ts).
Proof.
  destruct (decide (Exists (fun th => lk ∈ (held_of th).*1) ts)) as [H|H];
    [left|right]; by rewrite <-is_held_alt.
Defined.

(** A thread that does not wait steps whatever the others do. *)
Lemma not_waiting_steps wf cfg i h p :
  cf_threads cfg !! i = Some (Running h p) -> waits_for (W := W) (R := R) (Running h p) = None ->
  exists l cfg', cstep wf l cfg cfg'.
Proof.
  intros Hi Hw. destruct p as [rs|lk m k|lk k|B s k]; [|done|..].
  - eexists _, _. by eapply step_ret.
  - eexists _, _. by eapply step_unlock.
  - destruct (run_sec s (clock_at (cf_time cfg)) (cf_fabric cfg)) as [[b|] fab] eqn:E.
    + eexists _, _. eapply step_act; [done|apply clock_at_ok|done].
    + eexists _, _. eapply step_panic; [done|apply clock_at_ok|done].
Qed.

(** Some thread waits for a lock nobody holds. *)
Lemma highest_waiter cfg :
  pool_ordered cfg -> ~ all_finished cfg ->
  (forall i th, cf_threads cfg !! i = Some th -> is_finished th \/ waiting th) ->
  exists i h lk m k, cf_threads cfg !! i = Some (Running h (Acquire lk m k))
    /\ ~ is_held lk (cf_threads cfg).
Proof.
  intros Ho Hnf Hall.
  assert (forall i th, cf_threads cfg !! i = Some th -> ~ is_finished th ->
    exists h lk m k, th = Running h (Acquire lk m k)
      /\ forall x, x ∈ h -> (lock_rank x.1 < lock_rank lk)%nat) as Hshape.
  { intros i th Hi Hth. destruct (Hall i th Hi) as [?|[[lk m] Hw]]; [done|].
    specialize (Ho _ _ Hi). destruct th as [h [rs|lk' m' k|lk' k|B s k]|o]; simplify_eq/=.
    exists h, lk, m, k. split; [done|]. apply Ho. }
  assert (forall th x, th ∈ cf_threads cfg -> x ∈ held_of th -> ~ is_finished th) as Hrun.
  { intros [h p|o] x _ Hx; simpl in *; [by intros []|by apply elem_of_nil in Hx]. }
  (* a waiter for a lock of rank 1 waits for a free lock: its holder would wait above it *)
  assert (forall i h lk m k, cf_threads cfg !! i = Some (Running h (Acquire lk m k)) ->
    lock_rank lk = 1%nat -> ~ is_held lk (cf_threads cfg)) as Htop.
  { intros i h lk m k Hi Hr (th & m' & Hin & Hx). pose proof (Hrun th (lk, m') Hin Hx) as Hf.
    apply list_elem_of_lookup in Hin as [j Hj].
    destruct (Hshape j th Hj Hf) as (h' & lk' & m'' & k' & -> & Hrank).
    specialize (Hrank _ Hx). simpl in Hrank. destruct lk, lk'; simpl in *; lia. }
  assert (exists i th, cf_threads cfg !! i = Some th /\ ~ is_finished th) as (i & th & Hi & Hf).
  { destruct (decide (Exists (fun th => ~ is_finished th) (cf_threads cfg))) as [He|He].
    - apply Exists_exists in He as (th & Hin & ?). apply list_elem_of_lookup in Hin as [i ?]. eauto.
    - exfalso. apply Hnf. intros i th Hi. destruct (decide (is_finished th)) as [|Hn]; [done|].
      destruct He. apply Exists_exists. exists th. split; [by eapply list_elem_of_lookup_2|done]. }
  destruct (Hshape i th Hi Hf) as (h & lk & m & k & -> & _).
  destruct (decide (lock_rank lk = 1%nat)) as [Hr|Hr]; [by exists i, h, lk, m, k; eauto|].
  destruct (decide (is_held lk (cf_threads cfg))) as [(th' & m' & Hin & Hx)|Hn];
    [|by exists i, h, lk, m, k].
  pose proof (Hrun th' (lk, m') Hin Hx) as Hf'. apply list_elem_of_lookup in Hin as [j Hj].
  destruct (Hshape j th' Hj Hf') as (h' & lk' & m'' & k' & -> & Hrank).
  specialize (Hrank _ Hx). simpl in Hrank. exists j, h', lk', m'', k'. split; [done|].
  apply (Htop j h' lk' m'' k' Hj). destruct lk, lk'; simpl in *; lia.
Qed.

(** No deadlock, even where a reader waits behind a waiting writer. *)
Lemma progress cfg : pool_ordered cfg -> ~ all_finished cfg -> exists l cfg', cstep true l cfg cfg'.
Proof.
  intros Ho Hnf. set (ts := cf_threads cfg).
  destruct (decide (Exists (fun th => ~ is_finished th /\ ~ waiting th) ts)) as [He|He].
  { apply Exists_exists in He as ([h p|o] & Hin & Hf & Hw); [|done].
    apply list_elem_of_lookup in Hin as [i Hi]. eapply not_waiting_steps; [done|].
    destruct (waits_for (Running h p)) eqn:E; [|done]. destruct Hw. unfold waiting. rewrite E. eauto. }
  destruct (highest_waiter cfg Ho Hnf) as (i & h & lk & m & k & Hi & Hfree).
  { intros i th Hi. destruct (decide (is_finished th)) as [|Hf]; [by left|right].
    destruct (decide (waiting th)) as [|Hw]; [done|]. destruct He. apply Exists_exists. exists th.
    split; [by eapply list_elem_of_lookup_2|done]. }
  destruct m; [|eexists _, _; by eapply step_acquire].
  destruct (decide (Exists (fun th => waits_for th = Some (lk, Exclusive)) ts)) as [Hx|Hx].
  - apply Exists_exists in Hx as (th & [j Hj]%list_elem_of_lookup & Hw).
    destruct th as [h' [rs|lk' m' k'|lk' k'|B s k']|o]; simplify_eq/=.
    eexists _, _. by eapply step_acquire.
  - eexists _, _. eapply step_acquire; [done|]. split.
    + intros (th & Hin & Hx'). apply Hfree. by exists th, Exclusive.
    + intros _ (th & Hin & Hw). apply Hx, Exists_exists. by exists th.
Qed.

(** ** Every schedule ends *)

(** What a thread can become in one step of its own. *)
Definition thread_steps (th' th : Thread W R) : Prop :=
  match th with
  | Finished _ => False
  | Running _ (Ret _) => exists o, th' = Finished o
  | Running _ (Acquire _ _ k) => exists h, th' = Running h k
  | Running _ (Unlock _ k) => exists h, th' = Running h k
  | Running _ (Act s k) => (exists b h, th' = Running h (k b)) \/ th' = Finished Panicked
  end.

Lemma thread_steps_wf th : Acc thread_steps th.
Proof.
  assert (forall o, Acc thread_steps (Finished o)) as Hf by by constructor.
  destruct th as [h p|o]; [|done]. revert h.
  induction p as [rs|lk m k IH|lk k IH|B s k IH]; intros h; constructor; simpl; naive_solver.
Qed.

Lemma cstep_one_steps wf l cfg cfg' :
  cstep wf l cfg cfg' -> one_steps thread_steps (cf_threads cfg') (cf_threads cfg).
Proof. destruct 1; simpl; eexists _, _, _; (split; [done|]); simpl; eauto. Qed.

Definition cstep_back (cfg' cfg : Config W R) : Prop := exists l, cstep false l cfg cfg'.

Lemma cstep_wf cfg : Acc cstep_back cfg.
Proof.
  pose proof (one_steps_wf thread_steps (cf_threads cfg) thread_steps_wf) as H.
  remember (cf_threads cfg) as ts eqn:E. revert cfg E.
  induction H as [ts _ IH]. intros cfg ->. constructor. intros cfg' [l Hl].
  by eapply IH, eq_refl; eapply cstep_one_steps.
Qed.

Lemma grantable_weaken lk m (ts : list (Thread W R)) : grantable true lk m ts -> grantable false lk m ts.
Proof. destruct m; simpl; [|done]. by intros [H _]. Qed.

Lemma cstep_weaken l (cfg cfg' : Config W R) : cstep true l cfg cfg' -> cstep false l cfg cfg'.
Proof. destruct 1; econstructor; eauto using grantable_weaken. Qed.

Lemma csteps_trans wf ls1 ls2 cfg1 cfg2 cfg3 :
  csteps (W := W) (R := R) wf ls1 cfg1 cfg2 -> csteps wf ls2 cfg2 cfg3 -> csteps wf (app ls1 ls2) cfg1 cfg3.
Proof. induction 1; simpl; eauto with nauti. Qed.

#[local] Instance all_finished_dec cfg : Decision (all_finished cfg).
Proof.
  destruct (decide (Forall is_finished (cf_threads cfg))) as [H|H]; [left|right].
  - intros i th Hi. by eapply Forall_lookup_1.
  - intros Hf. apply H, Forall_lookup_2. apply Hf.
Defined.

Lemma completes cfg : pool_ordered cfg -> exists ls final, csteps true ls cfg final /\ all_finished final.
Proof.
  induction (cstep_wf cfg) as [cfg _ IH]. intros Ho.
  destruct (decide (all_finished cfg)) as [Hf|Hf]; [by exists [], cfg; split; [constructor|]|].
  destruct (progress cfg Ho Hf) as (l & cfg' & Hs).
  destruct (IH cfg') as (ls & final & Hss & Hfin); [by exists l; apply cstep_weaken|by eapply cstep_ordered|].
  exists (l :: ls), final. eauto with nauti.
Qed.

End order.

(** ** Pools of clients *)

Section clients.
Context {W : Type}.

Lemma start_ordered (clients : list (Client W)) fab t : pool_ordered (start clients fab t).
Proof. apply start_procs_ordered, Forall_fmap, Forall_forall. intros cl _. apply ordered_client. Qed.

(** C5. The lock-level processes are the methods. Run without interference, the
    process of every operation computes exactly the result, state or panic of
    the method in [Fabric]; and in any pool where the other threads hold no
    lock - between two calls, or not started - a thread about to make a call
    has a schedule in which the whole call takes effect as that method at one
    instant, the other threads staying where they are. *)
Theorem uninterrupted_call c (op : Op W) fab :
  solo c (proc_of op) fab = run_op c op fab
  /\ forall cfg i k,
     cf_threads cfg !! i = Some (Running [] (client_proc (Invoke op k))) ->
     others_idle i (cf_threads cfg) ->
     let '(o, fab') := run_op (clock_at (cf_time cfg)) op (cf_fabric cfg) in
     exists ls, csteps false ls cfg
       (mkConfig (<[i := after_call (fun r => client_proc (k r)) o]> (cf_threads cfg)) fab' (cf_time cfg)).
Proof.
  split; [apply solo_run|]. intros cfg i k Hi Hidle. rewrite <-solo_run.
  by apply (alone_steps (proc_of op) (fun r => client_proc (k r)) i []); [apply ordered_proc_of|..].
Qed.

(** C4. No deadlock and no livelock. Whatever programs the clients of one
    registry run, and however the threads have been scheduled so far - readers
    passing waiting writers or not - the pool can always be continued until
    every thread has returned or panicked, even if from then on waiting writers
    go first; and no schedule is infinite: the relation of one step is
    well-founded. *)
Theorem calls_complete (clients : list (Client W)) fab t ls cfg :
  csteps false ls (start clients fab t) cfg ->
  (exists ls' final, csteps true ls' cfg final /\ all_finished final)
  /\ Acc cstep_back cfg.
Proof.
  intros Hs. split; [|apply cstep_wf]. apply completes.
  eapply csteps_ordered; [apply start_ordered|done].
Qed.

End clients.

(** ** Concrete instances *)

(** Two clients on one device: one unregisters it, one leases and releases it. *)
Definition demo_clients : list (Client ()) :=
  [ Invoke (OCall (CUnregister "gpu.0")) (fun r => Stop [r]);
    Invoke (OCall (CLease "gpu.0" "alice" (from_secs 10))) (fun r =>
      match r with RLeased (Ok l) => Invoke (OCall (CRelease l)) (fun r' => Stop [r; r']) | _ => Stop [r] end) ].

Lemma calls_complete_witness :
  exists ls final, csteps true ls (start demo_clients demo_fab 2) final /\ all_finished final.
Proof. apply (calls_complete demo_clients demo_fab 2 []). apply csteps_nil. Defined.
