(* ===== verification/InterleaveSafe.v ===== *)
(** * What interleaving cannot break, and what it can

    Over every schedule of every pool of clients: a live lease stays until it
    expires or its identifier is presented, and no other lease of the resource
    is granted; lease identifiers are never reused; an adapter is asked to
    attach only while the presented lease is the stored one. Two schedules show
    what the gaps between locked sections do allow. *)

From stdpp Require Import base tactics option list gmap strings pretty sorting fin_maps relations.
From S2P Require Import Prelude Str Resource Fabric FabricInv FabricOps Interleave InterleaveSolo InterleaveLive.

#[local] Open Scope Z_scope.

Section safety.
Context {W R : Type}.
Implicit Types (fab : Fabric W) (cfg : Config W R).

(** ** Sections and the lease table *)

(** The sections that change the lease table. *)
Definition touches_leases {B} (s : Sec W B) : bool :=
  match s with SGrant _ _ _ | SRenew _ _ | SReleaseRemove _ => true | _ => false end.

Lemma sec_leases {B} (s : Sec W B) c fab :
  touches_leases s = false -> leases (run_sec s c fab).2 = leases fab.
Proof.
  destruct s; try done; intros _; cbn [run_sec];
    unfold st_read, register, unregister_check, unregister_remove, register_adapter, call_attach,
      call_detach, release_check, take_attachment, heartbeat, cutoff_of, take_stale; unfold lock_leases;
    st_unfold; repeat (case_match; simplify_eq/=); done.
Qed.

Lemma sec_counter {B} (s : Sec W B) c fab :
  0 <= next_lease_id fab -> next_lease_id fab + 1 < 2 ^ 64 ->
  next_lease_id fab <= next_lease_id (run_sec s c fab).2 <= next_lease_id fab + 1.
Proof.
  intros H0 Hb. assert (u64_wrap (next_lease_id fab + 1) = next_lease_id fab + 1) as Hw
    by (apply Z.mod_small; lia).
  destruct s; cbn [run_sec];
    unfold st_read, register, unregister_check, unregister_remove, register_adapter, call_attach,
      call_detach, release_check, release_remove, take_attachment, heartbeat, cutoff_of, take_stale,
      lease_grant, renew_lease, panic_holding_leases; unfold lock_leases;
    st_unfold; repeat (case_match; simplify_eq/=); rewrite ?Hw; lia.
Qed.

(** ** A live lease *)

Definition same_lease (l l' : Lease) : Prop :=
  l_resource_id l' = l_resource_id l /\ l_id l' = l_id l.

(** The step ends or moves the lease because its identifier was presented. *)
Definition presents_sec (l : Lease) {B} (s : Sec W B) : Prop :=
  match s with SRenew l' _ | SReleaseRemove l' => same_lease l l' | _ => False end.
Definition presented (l : Lease) (lab : Label W) : Prop :=
  match lab with LSec _ s _ _ => presents_sec l s | LTau _ => False end.

(** The lease a step granted, and the lease it accepted for an attachment. *)
Definition granted_sec {B} (s : Sec W B) : outcome B -> option Lease :=
  match s in Sec _ B return outcome B -> option Lease with
  | SGrant _ _ _ => fun o => match o with Done (Ok l) => Some l | _ => None end
  | _ => fun _ => None
  end.
Definition granted_by (lab : Label W) : option Lease :=
  match lab with LSec _ s _ o => granted_sec s o | LTau _ => None end.
Definition accepted_sec {B} (s : Sec W B) : outcome B -> option Lease :=
  match s in Sec _ B return outcome B -> option Lease with
  | SAuthorized l => fun o => match o with Done true => Some l | _ => None end
  | _ => fun _ => None
  end.
Definition accepted_by (lab : Label W) : option Lease :=
  match lab with LSec _ s _ o => accepted_sec s o | LTau _ => None end.

Lemma sec_keeps_lease {B} a (s : Sec W B) c fab :
  let id := l_resource_id (al_lease a) in
  leases fab !! id = Some a -> visit c id < al_expires_at a -> ~ presents_sec (al_lease a) s ->
  leases (run_sec s c fab).2 !! id = Some a
  /\ (forall l, granted_sec s (run_sec s c fab).1 = Some l -> l_resource_id l <> id)
  /\ (forall l, accepted_sec s (run_sec s c fab).1 = Some l -> l_resource_id l = id ->
       l_id l = l_id (al_lease a)).
Proof.
  intros id Ha Hv Hp.
  assert (retain_active c (leases fab) !! id = Some a) as Hret by by apply retain_active_Some.
  split; [|split].
  - destruct (touches_leases s) eqn:Ht; [|by rewrite sec_leases].
    destruct s; try done; cbn [run_sec presents_sec] in *.
    + unfold lease_grant, lock_leases, panic_holding_leases. st_unfold.
      destruct (leases_poisoned fab); [done|]. case_decide as Hn; [done|]. simpl.
      destruct (instant_add (now c) ttl); simpl; [|done]. rewrite lookup_insert_ne; [done|].
      intros ->. by rewrite Hret in Hn; destruct Hn; eauto.
    + unfold renew_lease, lock_leases, panic_holding_leases. st_unfold.
      destruct (leases_poisoned fab); [done|]. simpl.
      destruct (retain_active c (leases fab) !! l_resource_id l) as [b|] eqn:E; [|done].
      case_decide; [|done]. destruct (instant_add (now c) ttl); simpl; [|done].
      rewrite lookup_insert_ne; [done|]. intros Heq. apply Hp. split; [done|].
      fold id in Heq. rewrite Heq in E. by simplify_eq.
    + unfold release_remove, lock_leases. st_unfold. destruct (leases_poisoned fab); [done|]. simpl.
      destruct (holds_lease l fab) eqn:Hl; simpl; [|done]. rewrite lookup_delete_ne; [done|].
      intros Heq. apply Hp. split; [done|]. unfold holds_lease in Hl. fold id in Heq.
      rewrite Heq, Ha in Hl. by apply bool_decide_eq_true in Hl.
  - intros l. destruct s; try done; cbn [run_sec granted_sec].
    unfold lease_grant, lock_leases, panic_holding_leases. st_unfold.
    destruct (leases_poisoned fab); [done|]. case_decide as Hn; [done|]. simpl.
    destruct (instant_add (now c) ttl); simpl; [|done]. intros [= <-]. simpl. intros ->.
    rewrite Hret in Hn. destruct Hn. eauto.
  - intros l. destruct s; try done; cbn [run_sec accepted_sec].
    unfold lock_leases, st_read, authorized. st_unfold. destruct (leases_poisoned fab); [done|]. simpl.
    destruct (leases fab !! l_resource_id l0) as [b|] eqn:E; [|done].
    destruct (bool_decide (l_id (al_lease b) = l_id l0)) eqn:Hid; [|done].
    destruct (bool_decide (now c < al_expires_at b)); simpl; [|done]. intros Hl Heq. injection Hl as <-. rewrite Heq in E. simplify_eq.
    by apply bool_decide_eq_true in Hid.
Qed.

Lemma cstep_time wf l cfg cfg' : cstep wf l cfg cfg' -> cf_time cfg <= cf_time cfg'.
Proof. destruct 1 as [| |? ? ? ? ? ? ? ? ? ? [_ ?]|? ? ? ? ? ? ? ? ? [_ ?]|]; simpl; lia. Qed.

Lemma csteps_time wf ls cfg cfg' : csteps wf ls cfg cfg' -> cf_time cfg <= cf_time cfg'.
Proof. induction 1; [done|]. etransitivity; [by eapply cstep_time|done]. Qed.

(** What one section does to the registry is what a step does. *)
Lemma cstep_sec wf l cfg cfg' :
  cstep wf l cfg cfg' ->
  match l with
  | LTau _ => cf_fabric cfg' = cf_fabric cfg
  | LSec _ s c o => clock_ok (cf_time cfg) c /\ cf_time cfg' = now c
                    /\ run_sec s c (cf_fabric cfg) = (o, cf_fabric cfg')
  end.
Proof. by destruct 1. Qed.

Lemma cstep_keeps_lease wf lab cfg cfg' a :
  let id := l_resource_id (al_lease a) in
  cstep wf lab cfg cfg' -> leases (cf_fabric cfg) !! id = Some a ->
  cf_time cfg' < al_expires_at a -> ~ presented (al_lease a) lab ->
  leases (cf_fabric cfg') !! id = Some a
  /\ (forall l, granted_by lab = Some l -> l_resource_id l <> id)
  /\ (forall l, accepted_by lab = Some l -> l_resource_id l = id -> l_id l = l_id (al_lease a)).
Proof.
  intros id Hs Ha Ht Hp. apply cstep_sec in Hs. destruct lab as [i B s c o|i]; simpl in *.
  - destruct Hs as ([Hc _] & Htime & Hrun). specialize (Hc id).
    assert (visit c id < al_expires_at a) as Hv by lia.
    pose proof (sec_keeps_lease a s c (cf_fabric cfg) Ha Hv Hp) as H. by rewrite Hrun in H.
  - by rewrite Hs.
Qed.

Lemma csteps_keeps_lease wf ls cfg cfg' a :
  let id := l_resource_id (al_lease a) in
  csteps wf ls cfg cfg' -> leases (cf_fabric cfg) !! id = Some a ->
  cf_time cfg' < al_expires_at a -> (forall lab, lab ∈ ls -> ~ presented (al_lease a) lab) ->
  leases (cf_fabric cfg') !! id = Some a
  /\ (forall lab l, lab ∈ ls -> granted_by lab = Some l -> l_resource_id l <> id)
  /\ (forall lab l, lab ∈ ls -> accepted_by lab = Some l -> l_resource_id l = id ->
       l_id l = l_id (al_lease a)).
Proof.
  intros id Hs Ha Ht Hp.
  induction Hs as [cfg|lab ls cfg1 cfg2 cfg3 H1 Hs IH].
  { split_and!; [done|..]; intros lab l Hin; by apply elem_of_nil in Hin. }
  pose proof (csteps_time _ _ _ _ Hs) as Htime.
  destruct (cstep_keeps_lease _ _ _ _ _ H1 Ha ltac:(lia) ltac:(apply Hp; by left)) as (Ha2 & Hg & Hacc).
  destruct (IH Ha2 Ht ltac:(intros; apply Hp; by right)) as (Ha3 & Hg' & Hacc').
  split_and!; [done|..]; intros lab' l [->|Hin]%elem_of_cons; eauto.
Qed.

(** C2. Exclusivity under every interleaving. From any moment at which a lease
    is stored, whatever the threads of the pool are in the middle of and
    however they are scheduled, as long as the deadline has not passed and no
    thread completes a release or a renewal that presents its identifier: the
    lease stays stored, nobody is granted a lease of its resource, and no
    attachment of the resource is accepted under another identifier. *)
Theorem held_lease_exclusive wf ls cfg cfg' a :
  let id := l_resource_id (al_lease a) in
  csteps wf ls cfg cfg' -> leases (cf_fabric cfg) !! id = Some a ->
  cf_time cfg' < al_expires_at a -> (forall lab, lab ∈ ls -> ~ presented (al_lease a) lab) ->
  leases (cf_fabric cfg') !! id = Some a
  /\ (forall lab l, lab ∈ ls -> granted_by lab = Some l -> l_resource_id l <> id)
  /\ (forall lab l, lab ∈ ls -> accepted_by lab = Some l -> l_resource_id l = id ->
       l_id l = l_id (al_lease a)).
Proof. apply csteps_keeps_lease. Qed.

(** ** Identifiers *)

Lemma sec_granted {B} (s : Sec W B) c fab l :
  0 <= next_lease_id fab -> next_lease_id fab + 1 < 2 ^ 64 ->
  granted_sec s (run_sec s c fab).1 = Some l ->
  l_id l = next_lease_id fab + 1 /\ next_lease_id (run_sec s c fab).2 = next_lease_id fab + 1.
Proof.
  intros H0 Hb. assert (u64_wrap (next_lease_id fab + 1) = next_lease_id fab + 1) as Hw
    by (apply Z.mod_small; lia).
  destruct s; try done; cbn [run_sec granted_sec].
  unfold lease_grant, lock_leases, panic_holding_leases. st_unfold.
  destruct (leases_poisoned fab); [done|]. case_decide; [done|]. simpl.
  destruct (instant_add (now c) ttl); simpl; [|done]. intros [= <-]. done.
Qed.

Lemma granted_ids wf ls cfg cfg' :
  csteps wf ls cfg cfg' -> 0 <= next_lease_id (cf_fabric cfg) ->
  next_lease_id (cf_fabric cfg) + Z.of_nat (length ls) < 2 ^ 64 ->
  NoDup (l_id <$> omap granted_by ls)
  /\ forall l, l ∈ omap granted_by ls -> next_lease_id (cf_fabric cfg) < l_id l.
Proof.
  induction 1 as [cfg|lab ls cfg1 cfg2 cfg3 H1 Hs IH]; intros H0 Hb.
  { split; [apply NoDup_nil_2|]. intros l Hl. by apply elem_of_nil in Hl. }
  simpl length in Hb. apply cstep_sec in H1.
  assert (next_lease_id (cf_fabric cfg1) <= next_lease_id (cf_fabric cfg2)
          <= next_lease_id (cf_fabric cfg1) + 1) as Hn.
  { destruct lab as [i B s c o|i]; [|rewrite H1; lia]. destruct H1 as (_ & _ & Hrun).
    pose proof (sec_counter s c (cf_fabric cfg1) H0 ltac:(lia)) as H. by rewrite Hrun in H. }
  destruct IH as [IHd IHl]; [lia..|]. cbn [omap list_omap].
  destruct (granted_by lab) as [l|] eqn:E; [|split; [done|]; intros l Hl; specialize (IHl l Hl); lia].
  assert (l_id l = next_lease_id (cf_fabric cfg1) + 1
          /\ next_lease_id (cf_fabric cfg2) = next_lease_id (cf_fabric cfg1) + 1) as [Hl Hn2].
  { destruct lab as [i B s c o|i]; [|done]. destruct H1 as (_ & _ & Hrun).
    pose proof (sec_granted s c (cf_fabric cfg1) l H0 ltac:(lia)) as H. rewrite Hrun in H. by apply H. }
  split.
  - rewrite fmap_cons. apply NoDup_cons. split; [|done]. intros (l' & Heq & Hin)%list_elem_of_fmap.
    specialize (IHl l' Hin). lia.
  - intros l' [->|Hin]%elem_of_cons; [lia|]. specialize (IHl l' Hin). lia.
Qed.

(** ** The tables *)

(** [leases_ok] without the registration of the leased resource: that is lost
    in the gap of [unregister]. *)
Definition table_ok (ls : gmap string ActiveLease) (n : Z) : Prop := exists rs, leases_ok rs ls n.

Record shared_inv (n : Z) fab : Prop := {
  si_resources : keyed_by_id (resources fab);
  si_leases : table_ok (leases fab) (next_lease_id fab);
  si_adapters : forall k ad, adapters fab !! k = Some ad -> ad_name ad = k;
  si_counter : 0 <= next_lease_id fab <= n;
}.

Lemma table_ok_grant ls n id owner e :
  0 <= n -> table_ok ls n ->
  table_ok (<[id := {| al_lease := mkLease (n + 1) id owner; al_expires_at := e |}]> ls) (n + 1).
Proof.
  intros Hn [rs H]. exists (<[id := demo_gpu id ""]> rs). apply leases_ok_grant; [done|..].
  - rewrite lookup_insert_eq. eauto.
  - eapply leases_ok_resources; [|done]. intros k _ Hk. apply lookup_insert_is_Some'. by right.
Qed.

Lemma table_ok_subseteq ls ls' n : ls' ⊆ ls -> table_ok ls n -> table_ok ls' n.
Proof. intros Hs [rs H]. exists rs. by eapply leases_ok_subseteq. Qed.

Lemma table_ok_mono ls n m : n <= m -> table_ok ls n -> table_ok ls m.
Proof. intros Hs [rs H]. exists rs. by eapply leases_ok_mono. Qed.

Lemma sec_table {B} (s : Sec W B) c fab :
  0 <= next_lease_id fab -> next_lease_id fab + 1 < 2 ^ 64 ->
  table_ok (leases fab) (next_lease_id fab) ->
  table_ok (leases (run_sec s c fab).2) (next_lease_id (run_sec s c fab).2).
Proof.
  intros H0 Hb Hok. pose proof (sec_counter s c fab H0 Hb) as Hn.
  assert (u64_wrap (next_lease_id fab + 1) = next_lease_id fab + 1) as Hw
    by (apply Z.mod_small; lia).
  assert (table_ok (retain_active c (leases fab)) (next_lease_id fab)) as Hret
    by (eapply table_ok_subseteq; [apply retain_active_subseteq|done]).
  destruct (touches_leases s) eqn:Ht; [|rewrite sec_leases by done; eapply table_ok_mono; [|done]; lia].
  destruct s; try done; cbn [run_sec].
  - unfold lease_grant, panic_holding_leases. unfold lock_leases. st_unfold.
    destruct (leases_poisoned fab); [done|]. case_decide; [done|]. simpl. rewrite Hw.
    destruct (instant_add (now c) ttl); simpl; [by apply table_ok_grant|].
    eapply table_ok_mono; [|done]. lia.
  - unfold renew_lease, panic_holding_leases. unfold lock_leases. st_unfold.
    destruct (leases_poisoned fab); [done|]. simpl.
    destruct (retain_active c (leases fab) !! l_resource_id l) as [a|] eqn:Ha; [|done].
    case_decide; [|done]. destruct (instant_add (now c) ttl); simpl; [|done].
    destruct Hret as [rs Hret]. exists rs. by apply leases_ok_renew.
  - unfold release_remove. unfold lock_leases. st_unfold. destruct (leases_poisoned fab); [done|]. simpl.
    destruct (holds_lease l fab); simpl; [|done]. eapply table_ok_subseteq; [apply delete_subseteq|done].
Qed.

Lemma sec_keyed {B} (s : Sec W B) c fab :
  keyed_by_id (resources fab) -> (forall k ad, adapters fab !! k = Some ad -> ad_name ad = k) ->
  keyed_by_id (resources (run_sec s c fab).2)
  /\ (forall k ad, adapters (run_sec s c fab).2 !! k = Some ad -> ad_name ad = k).
Proof.
  intros Hr Ha. destruct s; cbn [run_sec];
    unfold st_read, register, unregister_check, unregister_remove, register_adapter, call_attach,
      call_detach, release_check, release_remove, take_attachment, heartbeat, cutoff_of, take_stale,
      lease_grant, renew_lease, panic_holding_leases; unfold lock_leases;
    st_unfold; repeat (case_match; simplify_eq/=); try done; (split; [|try done]); try done.
  - intros k r'. rewrite lookup_insert_Some. intros [[<- <-]|[_ H]]; eauto.
  - intros k r'. rewrite lookup_delete_Some. intros [_ H]. eauto.
  - intros k ad'. rewrite lookup_insert_Some. intros [[<- <-]|[_ H]]; eauto.
Qed.

Lemma csteps_shared_inv wf ls cfg cfg' n :
  csteps wf ls cfg cfg' -> n + Z.of_nat (length ls) < 2 ^ 64 -> shared_inv n (cf_fabric cfg) ->
  shared_inv (n + Z.of_nat (length ls)) (cf_fabric cfg').
Proof.
  intros Hs. revert n. induction Hs as [cfg|lab ls cfg1 cfg2 cfg3 H1 Hs IH]; intros n Hb Hi; simpl length in *.
  { by replace (n + Z.of_nat 0) with n by lia. }
  replace (n + Z.of_nat (S (length ls))) with (n + 1 + Z.of_nat (length ls)) by lia.
  apply IH; [lia|]. destruct Hi as [Hr Hl Ha Hn]. apply cstep_sec in H1. destruct lab as [i B s c o|i].
  - destruct H1 as (_ & _ & Hrun).
    pose proof (sec_counter s c (cf_fabric cfg1) ltac:(lia) ltac:(lia)) as Hc.
    pose proof (sec_table s c (cf_fabric cfg1) ltac:(lia) ltac:(lia) Hl) as Ht.
    destruct (sec_keyed s c (cf_fabric cfg1) Hr Ha) as [Hr' Ha']. rewrite Hrun in *. simpl in *.
    split; try done. lia.
  - rewrite H1. split; try done. lia.
Qed.

Lemma default_shared_inv (w : W) : shared_inv 0 (default w).
Proof.
  destruct (default_inv w) as [Hr Hl Ha Hn]. split; try done. by exists (resources (default w)).
Qed.

(** C3. The registry under concurrent callers. However the threads of a pool
    interleave on a fresh registry, for fewer than 2^64 steps: every
    resource and adapter is stored under its own name; every lease is stored
    under the resource it names, with an identifier that was issued and that no
    other stored lease has; and over the whole history no two grants, to
    whichever thread, carry the same identifier. *)
Theorem interleaved_inv wf (ps : list (Proc W R)) (w : W) t ls cfg :
  csteps wf ls (start_procs ps (default w) t) cfg -> Z.of_nat (length ls) < 2 ^ 64 ->
  let fab := cf_fabric cfg in
  keyed_by_id (resources fab)
  /\ (forall k ad, adapters fab !! k = Some ad -> ad_name ad = k)
  /\ (forall k a, leases fab !! k = Some a ->
       l_resource_id (al_lease a) = k /\ 1 <= l_id (al_lease a) <= next_lease_id fab)
  /\ (forall k1 k2 a1 a2, leases fab !! k1 = Some a1 -> leases fab !! k2 = Some a2 ->
       l_id (al_lease a1) = l_id (al_lease a2) -> k1 = k2)
  /\ NoDup (l_id <$> omap granted_by ls).
Proof.
  intros Hs Hb fab.
  pose proof (csteps_shared_inv _ _ _ _ 0 Hs Hb (default_shared_inv w)) as [Hr [rs [Hk _ Hi Hd]] Ha _].
  split_and!; [done..| |done|].
  - intros k a H. split; [by apply Hk|by eapply Hi].
  - by eapply (granted_ids _ _ _ _ Hs).
Qed.

End safety.

(** ** Concrete instances *)

(** The next step of the only thread, at clock [c]. *)
Ltac alone_step c :=
  eapply csteps_cons; [first
    [ eapply (step_unlock _ 0); reflexivity
    | eapply (step_ret _ 0); reflexivity
    | eapply (step_act _ 0 _ _ _ _ c); [reflexivity|split; simpl; lia|reflexivity]
    | eapply (step_acquire _ 0); [reflexivity|eapply (alone_grantable 0);
        [reflexivity|intros [|j] th Hne Hj; done
        |intros x Hx; repeat (apply elem_of_cons in Hx as [->|Hx]; [simpl; lia|]); by apply elem_of_nil in Hx]]]|].

Lemma held_lease_exclusive_witness :
  exists ls cfg,
    csteps false ls (start [Invoke (OCall (CUnregister "gpu.0")) (fun r => Stop [r])] demo_leased 3) cfg
    /\ cf_time cfg < al_expires_at demo_active /\ ls <> []
    /\ leases (cf_fabric cfg) !! "gpu.0" = Some demo_active.
Proof.
  eexists _, _. split; [alone_step (clock_at 4); alone_step (clock_at 4); alone_step (clock_at 4);
    apply csteps_nil|].
  split; [vm_compute; reflexivity|]. split; [done|].
  eapply (held_lease_exclusive false _
    (start [Invoke (OCall (CUnregister "gpu.0")) (fun r => Stop [r])] demo_leased 3) _ demo_active).
  - alone_step (clock_at 4). alone_step (clock_at 4). alone_step (clock_at 4). apply csteps_nil.
  - vm_compute. reflexivity.
  - vm_compute. reflexivity.
  - intros lab Hin. rewrite !elem_of_cons, elem_of_nil in Hin.
    destruct_or? Hin; try done; rewrite Hin; simpl; tauto.
Defined.

Lemma interleaved_inv_witness :
  exists ls cfg,
    csteps false ls (start [Invoke (OCall (CRegister (demo_gpu "gpu.0" "n"))) (fun r => Stop [r])] (default tt) 0) cfg
    /\ Z.of_nat (length ls) < 2 ^ 64
    /\ resources (cf_fabric cfg) !! "gpu.0" = Some (demo_gpu "gpu.0" "n")
    /\ keyed_by_id (resources (cf_fabric cfg)).
Proof.
  eexists _, _. split; [do 4 alone_step (clock_at 1); apply csteps_nil|].
  split; [vm_compute; reflexivity|]. split; [vm_compute; reflexivity|].
  eapply (interleaved_inv false
    [client_proc (Invoke (OCall (CRegister (demo_gpu "gpu.0" "n"))) (fun r => Stop [r]))] tt 0).
  - do 4 alone_step (clock_at 1). apply csteps_nil.
  - vm_compute. reflexivity.
Defined.
