(* ===== verification/InterleaveRaces.v ===== *)
(** * Two schedules through the gaps

    [unregister] and [release] drop the lock of the lease table between their
    check and their effect. Each theorem gives the schedule and what is left
    when every thread has returned. *)

From stdpp Require Import base tactics option list gmap strings pretty sorting fin_maps relations.
From S2P Require Import Prelude Str Resource Fabric FabricInv FabricOps Interleave InterleaveSolo InterleaveLive.

#[local] Open Scope Z_scope.

Section races.
Context {W : Type}.
Implicit Types (fab : Fabric W) (cfg : Config W (list CallResult)).

(** One call, and its result. *)
Definition one_call (op : Op W) : Client W := Invoke op (fun r => Stop [r]).

(** A thread runs a piece of its call while the others hold no lock. *)
Lemma run_piece {A R} (p : Proc W A) (f : A -> Proc W R) i ts fab t a fab' :
  ordered [] p -> ts !! i = Some (Running [] (p ≫= f)) -> others_idle i ts ->
  solo (clock_at t) p fab = (Done a, fab') ->
  exists ls, csteps false ls (mkConfig ts fab t) (mkConfig (<[i := Running [] (f a)]> ts) fab' t).
Proof.
  intros Ho Hi Hidle Hp. pose proof (alone_steps p f i [] (mkConfig ts fab t) Ho Hi Hidle) as H.
  cbn [cf_time cf_fabric] in H. by rewrite Hp in H.
Qed.

Lemma run_ret {R} i (ts : list (Thread W R)) fab t h rs :
  ts !! i = Some (Running h (Ret rs)) ->
  csteps false [LTau i] (mkConfig ts fab t) (mkConfig (<[i := Finished (Done rs)]> ts) fab t).
Proof.
  intros Hi. econstructor; [|constructor]. by apply (step_ret false i h rs (mkConfig ts fab t)).
Qed.

(** In a pool of two, the other thread is between two sections. *)
Lemma idle_0 th (p : Proc W (list CallResult)) : others_idle 0 [th; Running [] p].
Proof. intros [|[|j]] th' Hne Hj; simplify_eq/=; [done..]. Qed.
Lemma idle_1 th (p : Proc W (list CallResult)) : others_idle 1 [Running [] p; th].
Proof. intros [|[|j]] th' Hne Hj; simplify_eq/=; [done..]. Qed.
Lemma idle_0_done th (o : outcome (list CallResult)) : others_idle (W := W) 0 [th; Finished o].
Proof. intros [|[|j]] th' Hne Hj; simplify_eq/=; [done..]. Qed.

Lemma solo_lock_ok {B} lk m (s : Sec W B) c fab b fab' :
  run_sec s c fab = (Done b, fab') -> solo c (with_lock lk m s) fab = (Done b, fab').
Proof. by rewrite solo_with_lock. Qed.

(** C17. The documentation of [unregister] says that the fabric does not orphan a
    lease. Called after the lease is granted, [unregister] is indeed rejected.
    But with one thread in [unregister] and one in [lease_exclusive] there is a
    schedule after which both calls have succeeded: the unregistered resource
    is gone, and its lease, live until its deadline, is left without it. *)
Theorem unregister_orphans_lease id owner ttl fab t :
  leasable (clock_at t) id ttl fab -> leases fab !! id = None ->
  (let fab1 := (lease_exclusive (clock_at t) id owner ttl fab).2 in
   unregister id fab1 = (Done (Err ResourceAlreadyLeased), fab1))
  /\ exists ls cfg l,
     csteps false ls (start [one_call (OCall (CUnregister id)); one_call (OCall (CLease id owner ttl))] fab t) cfg
     /\ cf_threads cfg = [Finished (Done [RUnregistered (Ok true)]); Finished (Done [RLeased (Ok l)])]
     /\ resources (cf_fabric cfg) !! id = None
     /\ leases (cf_fabric cfg) !! id = Some {| al_lease := l; al_expires_at := t + ttl |}.
Proof.
  intros Hl Hn. pose proof Hl as ((r & Hr & _ & _) & Hp & _ & _).
  pose proof (lease_exclusive_ok (clock_at t) id owner ttl fab Hl) as Hlease.
  set (l := granted (clock_at t) id owner ttl fab) in *. set (fab1 := after_grant (clock_at t) id owner ttl fab) in *. split.
  { rewrite Hlease. simpl. destruct (unregister_cases id fab1) as [[? _]|[(_&_&H)|(_&H&_)]]; [|done|].
    - simpl in *. congruence.
    - simpl in H. by rewrite lookup_insert_eq in H. }
  set (rest := fun checked : result FabricError () =>
    r ← (r ← (match checked with
              | Err e => mret (Err e)
              | Ok _ => with_lock LResources Exclusive (SUnregisterRemove id)
              end); mret (RUnregistered r)); Ret [r] : Proc W (list CallResult)).
  set (th1 := Running [] (client_proc (one_call (OCall (CLease id owner ttl)))) : Thread W (list CallResult)).
  destruct (run_piece (with_lock LLeases Exclusive (SUnregisterCheck id)) rest 0
    [Running [] (with_lock LLeases Exclusive (SUnregisterCheck id) ≫= rest); th1] fab t (Ok tt) fab)
    as [ls1 H1]; [apply ordered_with_lock|done|apply idle_0| |].
  { apply solo_lock_ok. cbn [run_sec]. unfold unregister_check, lock_leases. st_unfold. rewrite Hp. simpl.
    by rewrite Hn, decide_False by (by intros []). }
  destruct (run_piece (proc_of (OCall (CLease id owner ttl))) (fun r => Ret [r]) 1
    [Running [] (rest (Ok tt)); th1] fab t (RLeased (Ok l)) fab1)
    as [ls2 H2]; [apply ordered_proc_of|done|apply idle_1| |].
  { rewrite solo_run. cbn [run_op]. unfold mbind, st_bind. by rewrite Hlease. }
  destruct (run_piece (with_lock LResources Exclusive (SUnregisterRemove id)) (fun r => Ret [RUnregistered r]) 0
    [Running [] (rest (Ok tt)); Finished (Done [RLeased (Ok l)])] fab1 t (Ok true) (with_resources (delete id) fab1))
    as [ls3 H3]; [apply ordered_with_lock|done|apply idle_0_done| |].
  { apply solo_lock_ok. cbn [run_sec]. unfold unregister_remove. st_unfold.
    by rewrite bool_decide_eq_true_2 by (rewrite Hr; eauto). }
  eexists _, _, l. split; [|split_and!].
  - eapply csteps_trans; [exact H1|]. eapply csteps_trans; [exact H2|].
    eapply csteps_trans; [by apply (run_ret 1 _ fab1 t [])|]. eapply csteps_trans; [exact H3|].
    by apply (run_ret 0 _ _ t []).
  - done.
  - simpl. apply lookup_delete_eq.
  - simpl. apply lookup_insert_eq.
Qed.

(** A client that leases a resource and attaches it. *)
Definition lease_and_attach (id owner : string) (ttl : duration) (nm : string) : Client W :=
  Invoke (OCall (CLease id owner ttl)) (fun r1 =>
    match r1 with
    | RLeased (Ok l) => Invoke (OCall (CAttach nm l)) (fun r2 => Stop [r1; r2])
    | _ => Stop [r1]
    end).

(** [release] after its first check. *)
Definition release_rest (l : Lease) : Proc W (result FabricError ()) :=
  detached ← release_detach_proc l;
  match detached with
  | Err e => mret (Err e)
  | Ok _ => with_lock LLeases Exclusive (SReleaseRemove l)
  end.

Lemma attach_granted id owner ttl nm ad r att w1 fab t :
  leasable (clock_at t) id ttl fab -> 0 < ttl -> resources fab !! id = Some r ->
  adapters fab !! nm = Some ad ->
  ad_attach ad r (granted (clock_at t) id owner ttl fab) (world fab) = (Ok att, w1) ->
  let fab1 := after_grant (clock_at t) id owner ttl fab in
  attach (clock_at t) nm (granted (clock_at t) id owner ttl fab) fab1 =
    (Done (Ok att), with_attachments (insert id nm) (with_world w1 fab1)).
Proof.
  intros (_ & Hp & _) Httl Hr Had Hatt fab1. unfold attach, lock_leases, resource, authorized, fab1, after_grant.
  st_unfold. rewrite Hr. simpl. rewrite Hp. simpl. rewrite lookup_insert_eq. simpl.
  rewrite !bool_decide_eq_true_2 by (done || lia). simpl. by rewrite Had, Hatt.
Qed.

Lemma release_rest_stale a l nm ad r w1 w2 fab2 :
  let id := l_resource_id (al_lease a) in
  leases_poisoned fab2 = false -> attachments fab2 !! id = Some nm -> adapters fab2 !! nm = Some ad ->
  resources fab2 !! id = Some r -> world fab2 = w1 -> ad_detach ad r (al_lease a) w1 = (Ok tt, w2) ->
  al_lease <$> leases fab2 !! id = Some l -> l_id l <> l_id (al_lease a) ->
  forall c, solo c (release_rest (al_lease a)) fab2 =
    (Done (Err LeaseNotFound), with_world w2 (with_attachments (delete id) fab2)).
Proof.
  intros id Hp Hat Had Hr Hw Hd Hl Hne c. unfold release_rest. rewrite solo_bind. unfold mbind, st_bind.
  rewrite solo_release_detach, release_detach_eq. unfold detach_attached, resource. fold id.
  rewrite Hat. simpl. rewrite Had, Hr, Hw, Hd. cbn [fst snd]. rewrite solo_with_lock. cbn [run_sec].
  unfold release_remove, lock_leases, holds_lease. st_unfold. rewrite Hp. simpl. fold id.
  destruct (leases fab2 !! id) as [b|]; simplify_eq/=. by rewrite bool_decide_eq_false_2.
Qed.

(** A release that is overtaken. A thread releases a lease that has expired
    but not been pruned; between its check and its effect another thread leases
    the resource anew and attaches it. The release then takes the new holder's
    attachment, has the adapter detach the resource, and only afterwards fails
    with [LeaseNotFound]: the new lease is live, its holder was told that the
    resource is attached, and no attachment is recorded, so releasing the new
    lease will not call the adapter either. *)
Theorem stale_release_detaches n a owner ttl nm ad r att w1 w2 fab t :
  let id := l_resource_id (al_lease a) in
  let l := granted (clock_at t) id owner ttl fab in
  fabric_inv n fab -> n + 1 < 2 ^ 64 ->
  leases fab !! id = Some a -> resources fab !! id = Some r -> adapters fab !! nm = Some ad ->
  leasable (clock_at t) id ttl fab -> 0 < ttl ->
  ad_attach ad r l (world fab) = (Ok att, w1) -> ad_detach ad r (al_lease a) w1 = (Ok tt, w2) ->
  exists ls cfg,
    csteps false ls (start [one_call (OCall (CRelease (al_lease a))); lease_and_attach id owner ttl nm] fab t) cfg
    /\ cf_threads cfg = [Finished (Done [RReleased (Err LeaseNotFound)]);
                         Finished (Done [RLeased (Ok l); RAttached (Ok att)])]
    /\ leases (cf_fabric cfg) !! id = Some {| al_lease := l; al_expires_at := t + ttl |}
    /\ attachments (cf_fabric cfg) !! id = None
    /\ world (cf_fabric cfg) = w2
    /\ detach_attached l (cf_fabric cfg) = (Ok tt, w2).
Proof.
  intros id l Hinv Hb Ha Hr Had Hl Httl Hatt Hdet. pose proof Hl as (_ & Hp & _ & _).
  set (fab1 := after_grant (clock_at t) id owner ttl fab).
  set (fab2 := with_attachments (insert id nm) (with_world w1 fab1)).
  set (fab3 := with_world w2 (with_attachments (delete id) fab2)).
  assert (l_id l <> l_id (al_lease a)) as Hne.
  { pose proof (inv_counter _ _ Hinv). apply (lo_issued _ _ _ (inv_leases _ _ Hinv)) in Ha.
    assert (u64_wrap (next_lease_id fab + 1) = next_lease_id fab + 1) by (apply Z.mod_small; lia).
    simpl. lia. }
  set (rest := fun checked : result FabricError () =>
    r ← (r ← (match checked with Err e => mret (Err e) | Ok _ => release_rest (al_lease a) end);
         mret (RReleased r)); Ret [r] : Proc W (list CallResult)).
  set (th1 := Running [] (client_proc (lease_and_attach id owner ttl nm)) : Thread W (list CallResult)).
  destruct (run_piece (with_lock LLeases Exclusive (SReleaseCheck (al_lease a))) rest 0
    [Running [] (with_lock LLeases Exclusive (SReleaseCheck (al_lease a)) ≫= rest); th1] fab t (Ok tt) fab)
    as [ls1 H1]; [apply ordered_with_lock|done|apply idle_0| |].
  { apply solo_lock_ok. cbn [run_sec]. unfold release_check, lock_leases, holds_lease. st_unfold.
    rewrite Hp. simpl. fold id. by rewrite Ha, bool_decide_eq_true_2. }
  set (attaching := Invoke (OCall (CAttach nm l)) (fun r2 => Stop [RLeased (Ok l); r2]) : Client W).
  destruct (run_piece (proc_of (OCall (CLease id owner ttl)))
    (fun r1 => client_proc (match r1 with
      | RLeased (Ok l) => Invoke (OCall (CAttach nm l)) (fun r2 => Stop [r1; r2]) | _ => Stop [r1] end)) 1
    [Running [] (rest (Ok tt)); th1] fab t (RLeased (Ok l)) fab1)
    as [ls2 H2]; [apply ordered_proc_of|done|apply idle_1| |].
  { rewrite solo_run. cbn [run_op]. unfold mbind, st_bind. by rewrite lease_exclusive_ok. }
  destruct (run_piece (proc_of (OCall (CAttach nm l))) (fun r2 => Ret [RLeased (Ok l); r2]) 1
    [Running [] (rest (Ok tt)); Running [] (client_proc attaching)] fab1 t (RAttached (Ok att)) fab2)
    as [ls3 H3]; [apply ordered_proc_of|done|apply idle_1| |].
  { rewrite solo_run. cbn [run_op]. unfold mbind, st_bind.
    pose proof (attach_granted id owner ttl nm ad r att w1 fab t Hl Httl Hr Had Hatt) as Hat.
    cbv zeta in Hat. fold l fab1 in Hat. by rewrite Hat. }
  destruct (run_piece (r ← release_rest (al_lease a); mret (RReleased r)) (fun r => Ret [r]) 0
    [Running [] (rest (Ok tt)); Finished (Done [RLeased (Ok l); RAttached (Ok att)])] fab2 t
    (RReleased (Err LeaseNotFound)) fab3) as [ls4 H4]; [|done|apply idle_0_done| |].
  { apply ordered_bind; [|done]. apply ordered_bind; [apply ordered_release_detach|].
    intros [[]|e]; [apply ordered_with_lock|done]. }
  { rewrite solo_bind. unfold mbind, st_bind.
    erewrite (release_rest_stale a l nm ad r w1 w2 fab2); [done|done|..|exact Hdet| |exact Hne]; simpl; try done;
      by rewrite lookup_insert_eq. }
  eexists _, _. split; [|split_and!].
  - eapply csteps_trans; [exact H1|]. eapply csteps_trans; [exact H2|].
    eapply csteps_trans; [exact H3|]. eapply csteps_trans; [by apply (run_ret 1 _ fab2 t [])|].
    eapply csteps_trans; [exact H4|]. by apply (run_ret 0 _ _ t []).
  - done.
  - simpl. apply lookup_insert_eq.
  - simpl. apply lookup_delete_eq.
  - done.
  - unfold detach_attached. simpl. by rewrite lookup_delete_eq.
Qed.

End races.

(** ** Concrete instances *)

Lemma unregister_orphans_lease_witness :
  leases demo_fab !! "gpu.0" = None
  /\ exists ls cfg l,
     csteps false ls (start [one_call (OCall (CUnregister "gpu.0"));
                             one_call (OCall (CLease "gpu.0" "alice" (from_secs 10)))] demo_fab 2) cfg
     /\ resources (cf_fabric cfg) !! "gpu.0" = None
     /\ leases (cf_fabric cfg) !! "gpu.0" = Some {| al_lease := l; al_expires_at := 2 + from_secs 10 |}.
Proof.
  split; [by vm_compute|].
  destruct (unregister_orphans_lease "gpu.0" "alice" (from_secs 10) demo_fab 2)
    as (_ & ls & cfg & l & H1 & _ & H2 & H3); [by apply demo_leasable|by vm_compute|].
  by exists ls, cfg, l.
Defined.

(** Alice's lease has expired at second 20 and Bob wants the device. *)
Lemma stale_release_detaches_witness :
  leases demo_leased !! "gpu.0" = Some demo_active
  /\ exists ls cfg l,
     csteps false ls (start [one_call (OCall (CRelease demo_lease));
                             lease_and_attach "gpu.0" "bob" (from_secs 10) "local-proof"] demo_leased (from_secs 20)) cfg
     /\ leases (cf_fabric cfg) !! "gpu.0" = Some {| al_lease := l; al_expires_at := from_secs 20 + from_secs 10 |}
     /\ attachments (cf_fabric cfg) !! "gpu.0" = None.
Proof.
  split; [by vm_compute|].
  assert (leasable (clock_at (from_secs 20)) "gpu.0" (from_secs 10) demo_leased) as Hl.
  { split_and!; [exists (demo_gpu "gpu.0" "n")| | |eexists]; by vm_compute. }
  destruct (stale_release_detaches 5 demo_active "bob" (from_secs 10) "local-proof" LocalProofAdapter
    (demo_gpu "gpu.0" "n") (mkAttachment "gpu.0" 2 "local-proof" ∅) tt tt demo_leased (from_secs 20))
    as (ls & cfg & H1 & _ & H2 & H3 & _);
    [exact demo_leased_inv|by vm_compute|by vm_compute|by vm_compute|by vm_compute|exact Hl|done
    |by vm_compute|by vm_compute|].
  by exists ls, cfg, (granted (clock_at (from_secs 20)) "gpu.0" "bob" (from_secs 10) demo_leased).
Defined.
