(* ===== verification/F64.v ===== *)
(** * f64

    Rust's [f64] is IEEE binary64: Stdlib's [SpecFloat] at precision 53 and
    [emax] 1024, whose operations round to nearest even. The order lemmas are
    what the planner's arg-max loops need: on the values that are not NaN,
    [partial_cmp] is a total preorder, and a sum or product of finite values is
    never NaN. *)

From stdpp Require Import base tactics numbers option list.
From Stdlib Require Import SpecFloat.
From S2P Require Import Prelude.

#[local] Open Scope Z_scope.

Definition f64 : Type := spec_float.

Definition prec : Z := 53.
Definition emax : Z := 1024.

Definition f64_sub : f64 -> f64 -> f64 := SFsub prec emax.
Definition f64_mul : f64 -> f64 -> f64 := SFmul prec emax.
(** The integer [z], rounded to nearest: [z as f64]. *)
Definition f64_of_Z (z : Z) : f64 := binary_normalize prec emax z 0 false.

#[global] Arguments f64_sub : simpl never.
#[global] Arguments f64_mul : simpl never.
#[global] Arguments f64_of_Z : simpl never.

Definition partial_cmp : f64 -> f64 -> option comparison := SFcompare.
Definition f64_gt (a b : f64) : bool :=
  match partial_cmp a b with Some Gt => true | _ => false end.
Definition f64_le (a b : f64) : bool := SFleb a b.

#[export] Instance spec_float_eq_dec : EqDecision spec_float.
Proof. solve_decision. Defined.

Definition is_nan (f : f64) : bool := match f with S754_nan => true | _ => false end.
Definition is_finite (f : f64) : bool :=
  match f with S754_zero _ | S754_finite _ _ _ => true | _ => false end.

(** ** The order of the values that are not NaN *)

(** A value as its position: sign and magnitude class, exponent, mantissa. *)
Definition rank (f : f64) : Z * (Z * Z) :=
  match f with
  | S754_infinity true => (-2, (0, 0))
  | S754_finite true m e => (-1, (- e, - Zpos m))
  | S754_zero _ | S754_nan => (0, (0, 0))
  | S754_finite false m e => (1, (e, Zpos m))
  | S754_infinity false => (2, (0, 0))
  end.

Definition lex (c d : comparison) : comparison := match c with Eq => d | _ => c end.

Definition rank_cmp (a b : Z * (Z * Z)) : comparison :=
  lex (a.1 ?= b.1) (lex (a.2.1 ?= b.2.1) (a.2.2 ?= b.2.2)).

Lemma partial_cmp_rank a b :
  is_nan a = false -> is_nan b = false ->
  partial_cmp a b = Some (rank_cmp (rank a) (rank b)).
Proof.
  unfold rank_cmp, partial_cmp.
  destruct a as [sa|[]| |[] ma ea], b as [sb|[]| |[] mb eb]; try done; intros _ _; simpl;
    try (destruct sa; done); try (destruct sb; done).
  - rewrite (Z.compare_opp ea eb). rewrite (Z.compare_antisym ea eb).
    by destruct (ea ?= eb).
  - by destruct (ea ?= eb).
Qed.

Lemma rank_cmp_spec a b :
  match rank_cmp a b with
  | Lt => a.1 < b.1 \/ (a.1 = b.1 /\ (a.2.1 < b.2.1 \/ (a.2.1 = b.2.1 /\ a.2.2 < b.2.2)))
  | Eq => a = b
  | Gt => b.1 < a.1 \/ (a.1 = b.1 /\ (b.2.1 < a.2.1 \/ (a.2.1 = b.2.1 /\ b.2.2 < a.2.2)))
  end.
Proof.
  destruct a as [a1 [a2 a3]], b as [b1 [b2 b3]]. unfold rank_cmp, lex. simpl.
  destruct (Z.compare_spec a1 b1); [|lia..].
  destruct (Z.compare_spec a2 b2); [|lia..].
  destruct (Z.compare_spec a3 b3); [|lia..]. by subst.
Qed.

(** [a <= b] on ranks, as a proposition arithmetic can use. *)
Definition rank_le (a b : Z * (Z * Z)) : Prop :=
  a.1 < b.1 \/ (a.1 = b.1 /\ (a.2.1 < b.2.1 \/ (a.2.1 = b.2.1 /\ a.2.2 <= b.2.2))).

Lemma rank_cmp_le a b : rank_cmp a b <> Gt <-> rank_le a b.
Proof.
  pose proof (rank_cmp_spec a b) as H. unfold rank_le.
  destruct (rank_cmp a b); [subst|..]; (split; [intros ?|intros ? ?]); try done; lia.
Qed.

Lemma f64_gt_false a b :
  is_nan a = false -> is_nan b = false -> f64_gt a b = false <-> f64_le a b = true.
Proof.
  intros Ha Hb. unfold f64_gt, f64_le, SFleb. pose proof (partial_cmp_rank a b Ha Hb) as H.
  unfold partial_cmp in *. rewrite H. by destruct (rank_cmp _ _).
Qed.

Lemma f64_le_rank a b :
  is_nan a = false -> is_nan b = false -> f64_le a b = true <-> rank_le (rank a) (rank b).
Proof.
  intros Ha Hb. unfold f64_le, SFleb. pose proof (partial_cmp_rank a b Ha Hb) as H.
  unfold partial_cmp in H. rewrite H, <-rank_cmp_le. by destruct (rank_cmp _ _).
Qed.

Lemma f64_le_refl a : is_nan a = false -> f64_le a a = true.
Proof. intros Ha. apply f64_le_rank; [done..|]. unfold rank_le. lia. Qed.

Lemma f64_le_trans a b c :
  is_nan a = false -> is_nan b = false -> is_nan c = false ->
  f64_le a b = true -> f64_le b c = true -> f64_le a c = true.
Proof. intros Ha Hb Hc. rewrite !f64_le_rank by done. unfold rank_le. lia. Qed.

Lemma f64_gt_le a b :
  is_nan a = false -> is_nan b = false -> f64_gt a b = true -> f64_le b a = true.
Proof.
  intros Ha Hb. rewrite f64_le_rank by done. unfold f64_gt.
  rewrite partial_cmp_rank by done. pose proof (rank_cmp_spec (rank a) (rank b)) as H.
  destruct (rank_cmp _ _); try done. intros _. unfold rank_le. lia.
Qed.

(** ** Finite arithmetic is never NaN *)

Definition shr_nonneg (r : shr_record) : Prop := 0 <= shr_m r.

Lemma shr_1_nonneg r : shr_nonneg r -> shr_nonneg (shr_1 r).
Proof. unfold shr_nonneg. destruct r as [[|[p|p|]|p] b s]; simpl; lia. Qed.

Lemma iter_pos_inv {A} (P : A -> Prop) (f : A -> A) (p : positive) (x : A) :
  (forall y, P y -> P (f y)) -> P x -> P (SpecFloat.iter_pos f p x).
Proof.
  intros Hf. revert x. induction p as [p IH|p IH|]; intros x Hx; simpl; eauto.
Qed.

Lemma shr_record_of_loc_m m l : shr_m (shr_record_of_loc m l) = m.
Proof. by destruct l as [|[]]. Qed.

Lemma shr_nonneg_shr r e n : shr_nonneg r -> shr_nonneg (shr r e n).1.
Proof.
  intros Hr. unfold shr. destruct n; simpl; [done| |done].
  apply iter_pos_inv; [apply shr_1_nonneg|done].
Qed.

Lemma shr_fexp_nonneg m e l : 0 <= m -> shr_nonneg (shr_fexp prec emax m e l).1.
Proof.
  intros Hm. unfold shr_fexp. apply shr_nonneg_shr. unfold shr_nonneg.
  by rewrite shr_record_of_loc_m.
Qed.

Lemma round_nearest_even_nonneg m l : 0 <= m -> 0 <= round_nearest_even m l.
Proof. intros Hm. unfold round_nearest_even. destruct l as [|[]]; try case_match; lia. Qed.

Lemma binary_round_aux_not_nan s m e l :
  0 <= m -> is_nan (binary_round_aux prec emax s m e l) = false.
Proof.
  intros Hm. unfold binary_round_aux.
  pose proof (shr_fexp_nonneg m e l Hm) as H1.
  destruct (shr_fexp prec emax m e l) as [r1 e1]. simpl in H1.
  pose proof (shr_fexp_nonneg _ e1 loc_Exact
    (round_nearest_even_nonneg _ (loc_of_shr_record r1) H1)) as H2.
  destruct (shr_fexp prec emax _ e1 loc_Exact) as [r2 e2]. unfold shr_nonneg in H2. simpl in H2.
  destruct (shr_m r2); simpl; [done|by case_match|lia].
Qed.

Lemma binary_round_not_nan s m e : is_nan (binary_round prec emax s m e) = false.
Proof.
  unfold binary_round. destruct (shl_align _ _ _) as [m1 e1].
  apply binary_round_aux_not_nan. lia.
Qed.

Lemma binary_normalize_not_nan m e s : is_nan (binary_normalize prec emax m e s) = false.
Proof. unfold binary_normalize. destruct m; [done|apply binary_round_not_nan..]. Qed.

Lemma f64_of_Z_not_nan z : is_nan (f64_of_Z z) = false.
Proof. apply binary_normalize_not_nan. Qed.

Lemma f64_mul_not_nan a b :
  is_finite a = true -> is_finite b = true -> is_nan (f64_mul a b) = false.
Proof.
  destruct a, b; try done; intros _ _. unfold f64_mul, SFmul. apply binary_round_aux_not_nan. lia.
Qed.

Lemma f64_sub_not_nan a b :
  is_finite a = true -> is_nan b = false -> is_nan (f64_sub a b) = false.
Proof.
  destruct a as [sa|sa| |sa ma ea], b as [sb|sb| |sb mb eb]; try done; intros _ _;
    unfold f64_sub, SFsub; try done; try apply binary_normalize_not_nan.
  by destruct sa, sb.
Qed.

(** ** Casts to integers

    [as] from a float truncates towards zero, saturates, and takes NaN to 0. *)
Definition f64_trunc (f : f64) : Z :=
  match f with
  | S754_finite s m e =>
      let v := if bool_decide (0 <= e) then Zpos m * 2 ^ e else Zpos m / 2 ^ (- e) in
      if s then - v else v
  | _ => 0
  end.

Definition f64_as_unsigned (max : Z) (f : f64) : Z :=
  match f with
  | S754_infinity false => max
  | S754_infinity true | S754_nan => 0
  | _ => Z.max 0 (Z.min max (f64_trunc f))
  end.

Lemma f64_as_unsigned_bounds max f : 0 <= max -> 0 <= f64_as_unsigned max f <= max.
Proof. intros Hm. destruct f as [s|[]| |s m e]; cbn [f64_as_unsigned]; lia. Qed.
