(* ===== verification/Json.v ===== *)
(** * JSON values

    [serde_json::Value]: an object is a [BTreeMap], here its entries in key
    order; read by [index] and the accessors, built as [json!] builds it.
    Parsing and printing text, and the decoders [serde] derives for the structs,
    are code of that library: the components that use them take them as
    arguments. *)

From stdpp Require Import base tactics option list gmap strings.
From S2P Require Import Prelude F64.

#[local] Open Scope Z_scope.

(** [serde_json::Number]: an integer or a finite float. *)
Inductive Number : Type :=
  | NInt (z : Z)
  | NFloat (f : f64).

Inductive Json : Type :=
  | JNull
  | JBool (b : bool)
  | JNumber (n : Number)
  | JString (s : string)
  | JArray (l : list Json)
  | JObject (fields : list (string * Json)).

Definition as_object (v : Json) : option (list (string * Json)) :=
  match v with JObject m => Some m | _ => None end.
Definition as_array (v : Json) : option (list Json) :=
  match v with JArray l => Some l | _ => None end.
Definition as_str (v : Json) : option string :=
  match v with JString s => Some s | _ => None end.
Definition as_bool (v : Json) : option bool :=
  match v with JBool b => Some b | _ => None end.
Definition as_f64 (v : Json) : option f64 :=
  match v with
  | JNumber (NInt z) => Some (f64_of_Z z)
  | JNumber (NFloat f) => Some f
  | _ => None
  end.

(** [Map::get]. *)
Fixpoint map_get (k : string) (m : list (string * Json)) : option Json :=
  match m with
  | [] => None
  | (k', v) :: m => if String.eqb k k' then Some v else map_get k m
  end.

(** [value[k]]: [Null] when [value] is not an object or has no such key. *)
Definition index (v : Json) (k : string) : Json :=
  match as_object v ≫= map_get k with Some x => x | None => JNull end.

Lemma map_get_Some k m v : map_get k m = Some v -> (k, v) ∈ m.
Proof.
  induction m as [|[k' v'] m IH]; simpl; [done|].
  destruct (String.eqb_spec k k') as [->|]; intros ?; simplify_eq; [by left|right; by apply IH].
Qed.

(** ** Values as [json!] builds them *)

(** [json!({ ... })]: a [BTreeMap], so its entries end up in key order. *)
Definition json_obj (fields : list (string * Json)) : Json :=
  JObject (bt_iter (list_to_map fields : gmap string Json)).
Definition json_int (z : Z) : Json := JNumber (NInt z).
(** A float that is not finite has no JSON number. *)
Definition json_f64 (f : f64) : Json := if is_finite f then JNumber (NFloat f) else JNull.

Definition as_u64 (v : Json) : option Z :=
  match v with
  | JNumber (NInt z) => if bool_decide (0 <= z <= u64_max) then Some z else None
  | _ => None
  end.

(** [value == true] and [value == text]. *)
Definition json_is_true (v : Json) : bool := bool_decide (as_bool v = Some true).
Definition json_is_str (s : string) (v : Json) : bool := bool_decide (as_str v = Some s).

(** [value.as_array().into_iter().flatten()]. *)
Definition json_items (v : Json) : list Json := match as_array v with Some l => l | None => [] end.

Lemma map_get_None k m : map_get k m = None -> forall v, (k, v) ∉ m.
Proof.
  induction m as [|[k' v'] m IH]; simpl; intros H v Hin; [by apply elem_of_nil in Hin|].
  destruct (String.eqb_spec k k') as [->|Hne]; [done|].
  apply elem_of_cons in Hin as [Hin|Hin]; [congruence|by eapply IH].
Qed.

Lemma map_get_bt_iter k (m : gmap string Json) : map_get k (bt_iter m) = m !! k.
Proof.
  destruct (map_get k (bt_iter m)) as [v|] eqn:E.
  - apply map_get_Some, elem_of_bt_iter in E. done.
  - destruct (m !! k) as [v|] eqn:Ek; [|done]. apply elem_of_bt_iter in Ek.
    by apply map_get_None with (v := v) in E.
Qed.

Lemma list_to_map_get k (l : list (string * Json)) : (list_to_map l : gmap string Json) !! k = map_get k l.
Proof.
  induction l as [|[k' v] l IH]; simpl; [apply lookup_empty|].
  destruct (String.eqb_spec k k') as [->|Hne]; [by rewrite lookup_insert_eq|by rewrite lookup_insert_ne].
Qed.

(** A key of a built object reads as the value given for it. *)
Lemma index_obj l k : index (json_obj l) k = match map_get k l with Some v => v | None => JNull end.
Proof. unfold index, json_obj. simpl. by rewrite map_get_bt_iter, list_to_map_get. Qed.

Lemma as_u64_int z : in_u64 z -> as_u64 (json_int z) = Some z.
Proof. intros Hz. simpl. by rewrite bool_decide_eq_true_2. Qed.

Lemma as_f64_json f : as_f64 (json_f64 f) = if is_finite f then Some f else None.
Proof. unfold json_f64. by destruct (is_finite f). Qed.
