(* ===== verification/Utf8.v ===== *)
(** * UTF-8

    What Rust's [str::from_utf8], [String::from_utf8_lossy] and [chars] do with
    bytes: validation by the table of well-formed sequences, and the replacement
    of every maximal invalid part by U+FFFD. *)

From stdpp Require Import base tactics option list strings.
From Stdlib Require Import Ascii String.
From S2P Require Import Prelude Str.

#[local] Open Scope nat_scope.

Fixpoint str_drop (n : nat) (s : string) : string :=
  match n, s with
  | S k, String _ s' => str_drop k s'
  | _, _ => s
  end.

Fixpoint str_take (n : nat) (s : string) : string :=
  match n, s with
  | S k, String a s' => String a (str_take k s')
  | _, _ => EmptyString
  end.

Definition byte_at_in (i lo hi : nat) (s : string) : bool :=
  match str_drop i s with
  | String a _ => bool_decide (lo <= nat_of_ascii a /\ nat_of_ascii a <= hi)
  | EmptyString => false
  end.

(** The sequence at the head of [s]: is it well formed, and how many bytes does
    it (or the invalid part) span? *)
Definition utf8_step (s : string) : bool * nat :=
  let cont i := byte_at_in i 128 191 s in
  if byte_at_in 0 0 127 s then (true, 1)
  else if byte_at_in 0 194 223 s then (if cont 1 then (true, 2) else (false, 1))
  else if byte_at_in 0 224 239 s then
    let lo := if byte_at_in 0 224 224 s then 160 else 128 in
    let hi := if byte_at_in 0 237 237 s then 159 else 191 in
    if negb (byte_at_in 1 lo hi s) then (false, 1)
    else if cont 2 then (true, 3) else (false, 2)
  else if byte_at_in 0 240 244 s then
    let lo := if byte_at_in 0 240 240 s then 144 else 128 in
    let hi := if byte_at_in 0 244 244 s then 143 else 191 in
    if negb (byte_at_in 1 lo hi s) then (false, 1)
    else if negb (cont 2) then (false, 2)
    else if cont 3 then (true, 4) else (false, 3)
  else (false, 1).

Fixpoint utf8_valid_go (skip : nat) (s : string) : bool :=
  match s with
  | EmptyString => true
  | String _ s' =>
      match skip with
      | S k => utf8_valid_go k s'
      | O => let '(ok, n) := utf8_step s in ok && utf8_valid_go (pred n) s'
      end
  end.

(** [str::from_utf8(..).is_ok()]. *)
Definition utf8_valid (s : string) : bool := utf8_valid_go 0 s.

Definition replacement : string := bytes [239; 191; 189].

Fixpoint lossy_go (copy : bool) (skip : nat) (s : string) : string :=
  match s with
  | EmptyString => EmptyString
  | String a s' =>
      match skip with
      | S k => if copy then String a (lossy_go copy k s') else lossy_go copy k s'
      | O => let '(ok, n) := utf8_step s in
             if ok then String a (lossy_go true (pred n) s')
             else replacement +:+ lossy_go false (pred n) s'
      end
  end.

(** [String::from_utf8_lossy]. *)
Definition from_utf8_lossy (s : string) : string := lossy_go true 0 s.

(** The characters of a well-formed string start at its non-continuation bytes. *)
Definition is_continuation (a : ascii) : bool :=
  bool_decide (128 <= nat_of_ascii a /\ nat_of_ascii a <= 191).

Fixpoint char_count (s : string) : nat :=
  match s with
  | EmptyString => 0
  | String a s' => if is_continuation a then char_count s' else S (char_count s')
  end.

(** [chars().take(n).collect()]. *)
Fixpoint chars_take (n : nat) (s : string) : string :=
  match s with
  | EmptyString => EmptyString
  | String a s' =>
      if is_continuation a then String a (chars_take n s')
      else match n with O => EmptyString | S k => String a (chars_take k s') end
  end.

(** ** Lemmas *)

Lemma lossy_valid s : utf8_valid s = true -> from_utf8_lossy s = s.
Proof.
  unfold utf8_valid, from_utf8_lossy. generalize 0 as skip.
  induction s as [|a s IH]; intros skip; cbn [utf8_valid_go lossy_go]; [done|].
  destruct skip as [|k].
  - destruct (utf8_step (String a s)) as [[] n]; simpl; [|done]. intros H. by rewrite IH.
  - intros H. by rewrite IH.
Qed.

Definition is_ascii (a : ascii) : bool := bool_decide (nat_of_ascii a <= 127).

Lemma ascii_valid s : all_bytes is_ascii s = true -> utf8_valid s = true.
Proof.
  unfold utf8_valid. induction s as [|a s IH]; simpl; [done|].
  rewrite andb_true_iff. intros [Ha Hs].
  unfold utf8_step, byte_at_in. cbn [str_drop].
  rewrite bool_decide_eq_true_2; [by apply IH|].
  unfold is_ascii in Ha. apply bool_decide_eq_true in Ha. lia.
Qed.

Lemma str_take_app a b : str_take (String.length a) (a +:+ b) = a.
Proof. induction a as [|x a IH]; [by destruct b|]. rewrite str_app_cons. simpl. by rewrite IH. Qed.

Lemma str_drop_app a b : str_drop (String.length a) (a +:+ b) = b.
Proof. induction a as [|x a IH]; [by destruct b|]. rewrite str_app_cons. simpl. by rewrite IH. Qed.

Lemma str_take_length n s : String.length (str_take n s) = Nat.min n (String.length s).
Proof. revert s. induction n as [|n IH]; intros [|a s]; try done. simpl. by rewrite IH. Qed.

(** A cut after the first part cuts the second. *)
Lemma str_take_app_add a n b : str_take (String.length a + n) (a +:+ b) = a +:+ str_take n b.
Proof. induction a as [|x a IH]; [done|]. rewrite !str_app_cons. simpl. by rewrite IH. Qed.

Lemma str_take_all n s : String.length s <= n -> str_take n s = s.
Proof. revert s. induction n as [|n IH]; intros [|a s] H; simpl in *; try done; [lia|]. by rewrite IH by lia. Qed.

Lemma str_drop_length n s : String.length (str_drop n s) = String.length s - n.
Proof. revert s. induction n as [|n IH]; intros [|a s]; simpl; [done..|]. apply IH. Qed.

Lemma str_take_drop n s : str_take n s +:+ str_drop n s = s.
Proof.
  revert s. induction n as [|n IH]; intros [|a s]; simpl; try done.
  by rewrite str_app_cons, IH.
Qed.

Lemma str_drop_drop n m s : str_drop n (str_drop m s) = str_drop (m + n) s.
Proof. revert s. induction m as [|m IH]; intros [|a s]; simpl; try done. by destruct n. Qed.
