(* ===== verification/Plan.v ===== *)
(** * The fleet planner (nauti-fabric/src/plan.rs)

    The view of the fleet, the two planners, the head's decision order and the
    checks in front of it. Reading the view from JSON is [PlanView], the HTTP
    client is [PlanHttp]. Text of a float ([{}] and [{:.3}]) is an argument. *)

From stdpp Require Import base tactics option list gmap strings fin_maps.
From S2P Require Import Prelude Str F64 Json.

#[local] Open Scope Z_scope.

(** ** Data *)

Record SlotView : Type := mkSlotView {
  sv_slot : string;
  sv_model_id : string;
  sv_roles : list string;
  sv_healthy : bool;
  sv_free_mb : f64;
  sv_resource_id : option string;
}.

#[export] Instance SlotView_eq_dec : EqDecision SlotView.
Proof. solve_decision. Defined.

Record HostView : Type := mkHostView {
  hv_slots : list SlotView;
  hv_locked : bool;
}.

Record LatencyMatrix : Type := mkLatencyMatrix {
  rpc_median_ms : gmap string (gmap string (option f64));
}.

Record FleetView : Type := mkFleetView {
  fv_hosts : gmap string HostView;
  fv_latency : LatencyMatrix;
}.

Record PlanFragment : Type := mkPlanFragment {
  pf_node_id : string;
  pf_role : string;
  pf_host_key : string;
  pf_slot : string;
  pf_model_id : string;
  pf_reason : string;
  pf_resource_id : option string;
  pf_rtt_ms : option f64;
}.

Inductive PlanReject : Type :=
  | UnknownRole (role : string)
  | EscalateNowhere (constraint : option string)
  | MissingField (field : string)
  | HeadUnreachable (detail : string)
  | BadResponse (status : Z) (token detail : string)
  | UnknownPlanner (kind : string)
  | BadHeadUrl (detail : string).

Definition reason_token (r : PlanReject) : string :=
  match r with
  | UnknownRole _ => "bad-enum"
  | EscalateNowhere _ => "escalate-nowhere"
  | MissingField _ => "missing-field"
  | HeadUnreachable _ => "backend-down"
  | BadResponse _ token _ => token
  | UnknownPlanner _ => "bad-enum"
  | BadHeadUrl _ => "bad-enum"
  end.

Definition http_status (r : PlanReject) : option Z :=
  match r with
  | UnknownRole _ => Some 404
  | EscalateNowhere _ => Some 403
  | MissingField _ => Some 422
  | BadResponse status _ _ => Some status
  | _ => None
  end.

(** The snapshot goes to the head; the planners read the node and the role. *)
Record PlanRequest : Type := mkPlanRequest {
  pr_node_id : string;
  pr_role : string;
  pr_local_snapshot : Json;
}.

Definition new_request (node_id role : string) : PlanRequest :=
  {| pr_node_id := node_id; pr_role := role; pr_local_snapshot := JNull |}.

(** The fields of a fragment on the wire, and the planners by name. *)
Definition FRAGMENT_FIELDS : list string := ["node_id"; "role"; "host_key"; "slot"; "model_id"; "reason"].
Definition PLANNER_KINDS : list string := ["monolithic"; "federated"].

(** [RoleCatalogue]. *)
Definition RoleCatalogue : Type := list string.
Definition catalogue_contains (roles : RoleCatalogue) (role : string) : bool :=
  existsb (fun r => String.eqb r role) roles.

(** ** Scores *)

Definition LATENCY_MB_PER_MS : f64 := f64_of_Z 512.

Definition fleet_score (free_mb : f64) (rtt_ms : option f64) : f64 :=
  match rtt_ms with
  | Some ms => f64_sub free_mb (f64_mul LATENCY_MB_PER_MS ms)
  | None => free_mb
  end.

Definition serves (s : SlotView) (role : string) : bool :=
  if negb (sv_healthy s) then false
  else match sv_roles s with
       | [] => negb (String.eqb (sv_model_id s) "")
       | roles => existsb (fun r => String.eqb r role) roles
       end.

(** [LatencyMatrix::rtt_ms]. *)
Definition rtt_ms (m : LatencyMatrix) (from to : string) : option f64 :=
  row ← rpc_median_ms m !! from; r ← row !! to; r.

(** [Iterator::max_by] with [partial_cmp(..).unwrap_or(Equal)]: the later of two
    equal elements wins. *)
Definition max_by_f64 {A} (key : A -> f64) (l : list A) : option A :=
  match l with
  | [] => None
  | x :: l => Some (foldl (fun x y => if f64_gt (key x) (key y) then x else y) x l)
  end.

(** [FleetView::best_slot]. *)
Definition best_slot (view : FleetView) (host_key role : string) : option SlotView :=
  host ← fv_hosts view !! host_key;
  if hv_locked host then None
  else max_by_f64 sv_free_mb (filter (fun s => serves s role = true) (hv_slots host)).

Definition best_slot_scored (host : HostView) (role : string) (rtt : option f64) :
    option (f64 * SlotView) :=
  if hv_locked host then None
  else max_by_f64 fst
         ((fun s => (fleet_score (sv_free_mb s) rtt, s))
            <$> filter (fun s => serves s role = true) (hv_slots host)).

Definition fragment_for (ask : PlanRequest) (host_key : string) (slot : SlotView)
    (rtt : option f64) (reason : string) : PlanFragment :=
  {| pf_node_id := pr_node_id ask; pf_role := pr_role ask; pf_host_key := host_key;
     pf_slot := sv_slot slot; pf_model_id := sv_model_id slot; pf_reason := reason;
     pf_resource_id := sv_resource_id slot; pf_rtt_ms := rtt |}.

(** ** Planners *)

Section planners.
(** [{}] and [{:.3}] of an [f64]. *)
Context (show_f64 show_f64_3 : f64 -> string).

(** [dyn FleetPlanner]. *)
Record FleetPlanner : Type := mkFleetPlanner {
  planner_name : string;
  planner_plan : PlanRequest -> FleetView -> option PlanFragment;
}.

(** The loop of the monolithic planner: the best candidate so far. *)
Definition Best : Type := option (f64 * string * SlotView * option f64).

Definition monolithic_step (ask : PlanRequest) (view : FleetView) (best : Best)
    (h : string * HostView) : Best :=
  let '(host_key, host) := h in
  if String.eqb host_key (pr_node_id ask) then best
  else
    let rtt := rtt_ms (fv_latency view) (pr_node_id ask) host_key in
    match best_slot_scored host (pr_role ask) rtt with
    | None => best
    | Some (score, slot) =>
        let better := match best with
                      | None => true
                      | Some (prev, _, _, _) => f64_gt score prev
                      end in
        if better then Some (score, host_key, slot, rtt) else best
    end.

Definition monolithic_best (ask : PlanRequest) (view : FleetView) : Best :=
  foldl (monolithic_step ask view) None (bt_iter (fv_hosts view)).

Definition monolithic_plan (ask : PlanRequest) (view : FleetView) : option PlanFragment :=
  '(_, host_key, slot, rtt) ← monolithic_best ask view;
  let latency := match rtt with
                 | Some ms => "rtt " +:+ show_f64_3 ms +:+ " ms"
                 | None => "rtt not measured"
                 end in
  Some (fragment_for ask host_key slot rtt
          ("fleet-wide: " +:+ host_key +:+ " has a healthy " +:+ pr_role ask +:+ " slot ("
             +:+ show_f64 (sv_free_mb slot) +:+ " MiB free, " +:+ latency +:+ ")")).

Definition MonolithicMoEPlanner : FleetPlanner :=
  {| planner_name := "monolithic"; planner_plan := monolithic_plan |}.

Definition federated_plan (ask : PlanRequest) (view : FleetView) : option PlanFragment :=
  host ← fv_hosts view !! pr_node_id ask;
  '(_, slot) ← best_slot_scored host (pr_role ask) None;
  Some (fragment_for ask (pr_node_id ask) slot None
          ("local: " +:+ pr_node_id ask +:+ " holds a healthy " +:+ pr_role ask +:+ " slot")).

Definition FederatedPerNodePlanner : FleetPlanner :=
  {| planner_name := "federated"; planner_plan := federated_plan |}.

Definition get_planner (kind : string) : result PlanReject FleetPlanner :=
  if String.eqb kind "monolithic" then Ok MonolithicMoEPlanner
  else if String.eqb kind "federated" then Ok FederatedPerNodePlanner
  else Err (UnknownPlanner kind).

(** ** The head's order *)

Definition escalate_constraint (ask : PlanRequest) (view : FleetView) : option string :=
  if decide (fv_hosts view = ∅) then None
  else
    let hosts := bt_iter (fv_hosts view) in
    let locked := (filter (fun h => hv_locked h.2 = true) hosts).*1 in
    let unhealthy :=
      length (filter (fun s => sv_healthy s = false /\ pr_role ask ∈ sv_roles s)
                (concat (hv_slots <$> hosts.*2))) in
    let detail := "no healthy unlocked slot serves role " +:+ debug_str (pr_role ask)
      +:+ " across " +:+ show (Z.of_nat (size (fv_hosts view))) +:+ " host(s)" in
    let detail := match locked with
                  | [] => detail
                  | _ => detail +:+ "; locked: " +:+ join ", " (merge_sort String.le locked)
                  end in
    Some (if decide (0 < unhealthy)%nat
          then detail +:+ "; " +:+ show (Z.of_nat unhealthy) +:+ " serving slot(s) unhealthy"
          else detail).

Definition validate_ask (req : PlanRequest) (roles : RoleCatalogue) : result PlanReject () :=
  if String.eqb (trim (pr_node_id req)) "" then Err (MissingField "node_id")
  else if String.eqb (trim (pr_role req)) "" then Err (MissingField "role")
  else if negb (catalogue_contains roles (pr_role req)) then Err (UnknownRole (pr_role req))
  else Ok tt.

Definition plan_with (planner : FleetPlanner) (req : PlanRequest) (view : FleetView)
    (roles : RoleCatalogue) : result PlanReject PlanFragment :=
  _ ← validate_ask req roles;
  ok_or (planner_plan planner req view)
    (EscalateNowhere
       ((fun detail => planner_name planner +:+ ": " +:+ detail) <$> escalate_constraint req view)).

Definition head_plan (req : PlanRequest) (view : FleetView) (roles : RoleCatalogue) :
    result PlanReject PlanFragment :=
  _ ← validate_ask req roles;
  match best_slot view (pr_node_id req) (pr_role req) with
  | Some slot =>
      Ok (fragment_for req (pr_node_id req) slot None "local plan satisfies this role")
  | None =>
      match monolithic_plan req view with
      | Some fragment => Ok fragment
      | None => Err (EscalateNowhere (escalate_constraint req view))
      end
  end.

Definition plan_by_kind (kind : string) (req : PlanRequest) (view : FleetView)
    (roles : RoleCatalogue) : result PlanReject PlanFragment :=
  _ ← validate_ask req roles;
  if String.eqb kind "monolithic" then head_plan req view roles
  else if String.eqb kind "federated" then plan_with FederatedPerNodePlanner req view roles
  else Err (UnknownPlanner kind).

End planners.
