(* ===== verification/PlanProps.v ===== *)
(** * What the planners and the head promise

    Soundness, completeness and optimality of the placements, the head's order
    and the order of its checks. *)

From stdpp Require Import base tactics option list gmap strings fin_maps sorting.
From S2P Require Import Prelude Str F64 Json Plan.

#[local] Open Scope Z_scope.

(** ** [max_by] *)

Lemma max_by_f64_None {A} (key : A -> f64) l : max_by_f64 key l = None <-> l = [].
Proof. by destruct l. Qed.

Lemma max_by_f64_elem {A} (key : A -> f64) l x : max_by_f64 key l = Some x -> x ∈ l.
Proof.
  destruct l as [|y l]; simpl; [done|]. intros [= <-].
  revert y. induction l as [|z l IH]; intros y; simpl; [by left|].
  destruct (f64_gt (key y) (key z)).
  - specialize (IH y). rewrite elem_of_cons in IH |- *. destruct IH; [by left|]. right. by right.
  - right. apply IH.
Qed.

Lemma max_by_f64_max {A} (key : A -> f64) l x :
  (forall y, y ∈ l -> is_nan (key y) = false) -> max_by_f64 key l = Some x ->
  forall y, y ∈ l -> f64_le (key y) (key x) = true.
Proof.
  destruct l as [|y0 l]; simpl; [done|]. intros Hnan [= <-].
  assert (forall z, z ∈ l -> is_nan (key z) = false) as Hl by (intros; apply Hnan; by right).
  assert (is_nan (key y0) = false) as Hy0 by (apply Hnan; by left). clear Hnan.
  revert y0 Hy0. induction l as [|z l IH]; intros y0 Hy0 y Hy; simpl.
  { apply list_elem_of_singleton in Hy as ->. by apply f64_le_refl. }
  assert (is_nan (key z) = false) as Hz by (apply Hl; by left).
  assert (forall w, w ∈ l -> is_nan (key w) = false) as Hl' by (intros; apply Hl; by right).
  set (best := if f64_gt (key y0) (key z) then y0 else z).
  assert (is_nan (key best) = false) as Hb by (unfold best; by case_match).
  specialize (IH Hl' best Hb).
  assert (f64_le (key best) (key (foldl (fun x y => if f64_gt (key x) (key y) then x else y) best l)) = true)
    as Hbl by (apply IH; by left).
  set (top := foldl _ best l) in *.
  assert (top ∈ best :: l) as Htop by by apply (max_by_f64_elem key (best :: l)).
  assert (is_nan (key top) = false) as Ht.
  { apply elem_of_cons in Htop as [->|?]; [done|by apply Hl']. }
  rewrite !elem_of_cons in Hy. destruct Hy as [->|[->|Hy]].
  - apply f64_le_trans with (key best); try done. unfold best.
    destruct (f64_gt (key y0) (key z)) eqn:E; [by apply f64_le_refl|by apply f64_gt_false].
  - apply f64_le_trans with (key best); try done. unfold best.
    destruct (f64_gt (key y0) (key z)) eqn:E; [by apply f64_gt_le|by apply f64_le_refl].
  - apply IH. by right.
Qed.

(** ** Candidates *)

Definition can_serve (host : HostView) (role : string) (s : SlotView) : Prop :=
  hv_locked host = false /\ s ∈ hv_slots host /\ serves s role = true.

(** A placement the head may offer for the ask. *)
Definition candidate (ask : PlanRequest) (view : FleetView) (key : string) (s : SlotView) : Prop :=
  key <> pr_node_id ask
  /\ exists host, fv_hosts view !! key = Some host /\ can_serve host (pr_role ask) s.

Definition score_of (ask : PlanRequest) (view : FleetView) (key : string) (s : SlotView) : f64 :=
  fleet_score (sv_free_mb s) (rtt_ms (fv_latency view) (pr_node_id ask) key).

(** Every number of the view is finite, as numbers read from JSON are. *)
Definition view_finite (view : FleetView) : Prop :=
  (forall key host s, fv_hosts view !! key = Some host -> s ∈ hv_slots host ->
     is_finite (sv_free_mb s) = true)
  /\ (forall from to ms, rtt_ms (fv_latency view) from to = Some ms -> is_finite ms = true).

Lemma finite_not_nan f : is_finite f = true -> is_nan f = false.
Proof. by destruct f. Qed.

Lemma fleet_score_not_nan free rtt :
  is_finite free = true -> (forall ms, rtt = Some ms -> is_finite ms = true) ->
  is_nan (fleet_score free rtt) = false.
Proof.
  intros Hf Hr. destruct rtt as [ms|]; simpl; [|by apply finite_not_nan].
  apply f64_sub_not_nan; [done|]. apply f64_mul_not_nan; [by vm_compute|by apply Hr].
Qed.

Lemma best_slot_scored_None host role rtt :
  best_slot_scored host role rtt = None <-> (forall s, ~ can_serve host role s).
Proof.
  unfold best_slot_scored, can_serve. destruct (hv_locked host); [naive_solver|].
  rewrite max_by_f64_None. split.
  - intros Hnil s (_ & Hs & Hr). apply fmap_nil_inv in Hnil.
    assert (s ∈ filter (fun s => serves s role = true) (hv_slots host)) as H
      by by apply list_elem_of_filter.
    rewrite Hnil in H. by apply elem_of_nil in H.
  - intros H. rewrite filter_false; [done|]. intros s Hs Hr. by apply (H s).
Qed.

Lemma best_slot_scored_Some host role rtt score s :
  best_slot_scored host role rtt = Some (score, s) ->
  score = fleet_score (sv_free_mb s) rtt /\ can_serve host role s.
Proof.
  unfold best_slot_scored, can_serve. destruct (hv_locked host); [done|]. intros Hm.
  apply max_by_f64_elem, list_elem_of_fmap in Hm as (s' & [= -> ->] & Hs).
  by apply list_elem_of_filter in Hs as [? ?].
Qed.

Lemma best_slot_scored_max host role rtt score s s' :
  (forall s, s ∈ hv_slots host -> is_nan (fleet_score (sv_free_mb s) rtt) = false) ->
  best_slot_scored host role rtt = Some (score, s) -> can_serve host role s' ->
  f64_le (fleet_score (sv_free_mb s') rtt) score = true.
Proof.
  unfold best_slot_scored, can_serve. destruct (hv_locked host); [done|].
  intros Hnan Hm (_ & Hs' & Hr).
  refine (max_by_f64_max fst _ (score, s) _ Hm (fleet_score (sv_free_mb s') rtt, s') _).
  - intros y (s1 & -> & Hs1)%list_elem_of_fmap. apply list_elem_of_filter in Hs1 as [_ ?].
    by apply Hnan.
  - apply list_elem_of_fmap. exists s'. split; [done|]. by apply list_elem_of_filter.
Qed.

(** ** The monolithic loop *)

Section monolithic.
Context (ask : PlanRequest) (view : FleetView).

(** What the loop knows after the hosts [l]: the candidates among them. *)
Definition seen (l : list (string * HostView)) (key : string) (s : SlotView) : Prop :=
  key <> pr_node_id ask /\ exists host, (key, host) ∈ l /\ can_serve host (pr_role ask) s.

Definition loop_sound (l : list (string * HostView)) (best : Best) : Prop :=
  match best with
  | None => forall key s, ~ seen l key s
  | Some (score, key, s, rtt) =>
      seen l key s /\ score = score_of ask view key s
      /\ rtt = rtt_ms (fv_latency view) (pr_node_id ask) key
  end.

Lemma seen_snoc l key host key' s :
  seen (app l [(key, host)]) key' s <->
    seen l key' s \/ (key' = key /\ key <> pr_node_id ask /\ can_serve host (pr_role ask) s).
Proof.
  unfold seen. setoid_rewrite elem_of_app. setoid_rewrite list_elem_of_singleton. split.
  - intros (Hne & h & [Hin|[= -> ->]] & Hc); [left|right]; eauto.
  - intros [(Hne & h & Hin & Hc)|(-> & Hne & Hc)]; eauto 6.
Qed.

Lemma monolithic_loop_sound l : loop_sound l (foldl (monolithic_step ask view) None l).
Proof.
  induction l as [|[key host] l IH] using rev_ind.
  { intros key s (_ & host & Hin & _). by apply elem_of_nil in Hin. }
  rewrite foldl_snoc. set (best := foldl (monolithic_step ask view) None l) in *. unfold monolithic_step.
  destruct (String.eqb_spec key (pr_node_id ask)) as [Heq|Hne].
  { destruct best as [[[[score k] s] r]|]; simpl in *; setoid_rewrite seen_snoc; naive_solver. }
  destruct (best_slot_scored host (pr_role ask) _) as [[score slot]|] eqn:E; last first.
  { rewrite best_slot_scored_None in E.
    destruct best as [[[[score k] s] r]|]; simpl in *; setoid_rewrite seen_snoc; naive_solver. }
  apply best_slot_scored_Some in E as [-> Hc].
  destruct best as [[[[score k] s] r]|]; simpl in *;
    [case_match; simpl; rewrite seen_snoc|rewrite seen_snoc]; naive_solver.
Qed.

(** With finite numbers the stored candidate beats everything seen, and
    strictly beats every host visited before its own. *)
Definition loop_best (l : list (string * HostView)) (best : Best) : Prop :=
  match best with
  | None => True
  | Some (score, key, s, rtt) =>
      exists l1 host l2, l = app l1 ((key, host) :: l2)
      /\ (forall k' s', seen l k' s' -> f64_le (score_of ask view k' s') score = true)
      /\ (forall k' s', seen l1 k' s' -> f64_gt score (score_of ask view k' s') = true)
  end.

Hypothesis Hfin : view_finite view.

Lemma score_of_not_nan key host s :
  fv_hosts view !! key = Some host -> s ∈ hv_slots host ->
  is_nan (score_of ask view key s) = false.
Proof.
  intros Hh Hs. destruct Hfin as [H1 H2]. apply fleet_score_not_nan; [eauto|].
  intros ms Hms. eauto.
Qed.

Lemma f64_gt_le_gt a b c :
  is_nan a = false -> is_nan b = false -> is_nan c = false ->
  f64_gt a b = true -> f64_le c b = true -> f64_gt a c = true.
Proof.
  intros Ha Hb Hc Hgt Hle. destruct (f64_gt a c) eqn:E; [done|].
  apply f64_gt_false in E; [|done..].
  assert (f64_le a b = true) as H by by apply f64_le_trans with c.
  apply f64_gt_false in H; [congruence|done..].
Qed.

Lemma monolithic_loop_best l :
  (forall key host, (key, host) ∈ l -> fv_hosts view !! key = Some host) ->
  loop_best l (foldl (monolithic_step ask view) None l).
Proof.
  induction l as [|[key host] l IH] using rev_ind; intros Hl; [done|].
  assert (forall k h, (k, h) ∈ l -> fv_hosts view !! k = Some h) as Hl'.
  { intros k h Hin. apply Hl. apply elem_of_app. by left. }
  assert (fv_hosts view !! key = Some host) as Hkey.
  { apply Hl. apply elem_of_app. right. by apply list_elem_of_singleton. }
  assert (forall k s, seen l k s -> is_nan (score_of ask view k s) = false) as Hnan.
  { intros k s (_ & h & Hin & _ & Hs & _). eapply score_of_not_nan; [by apply Hl'|done]. }
  specialize (IH Hl'). pose proof (monolithic_loop_sound l) as Hsound.
  rewrite foldl_snoc. set (best := foldl (monolithic_step ask view) None l) in *. unfold monolithic_step.
  assert (forall b, loop_best l b ->
    (forall k' s' sc k s r, b = Some (sc, k, s, r) ->
       k' = key /\ key <> pr_node_id ask /\ can_serve host (pr_role ask) s' ->
       f64_le (score_of ask view k' s') sc = true) -> loop_best (app l [(key, host)]) b) as Hkeep.
  { intros [[[[sc k] s] r]|] Hb Hnew; [|done]. destruct Hb as (l1 & h & l2 & -> & Hle & Hgt).
    exists l1, h, (app l2 [(key, host)]). split_and!; [by rewrite <-app_assoc| |done].
    intros k' s'. rewrite seen_snoc. intros [?|?]; eauto. }
  destruct (String.eqb_spec key (pr_node_id ask)) as [Heq|Hne].
  { apply Hkeep; [done|]. naive_solver. }
  destruct (best_slot_scored host (pr_role ask) _) as [[score slot]|] eqn:E; last first.
  { apply Hkeep; [done|]. rewrite best_slot_scored_None in E. naive_solver. }
  pose proof (best_slot_scored_Some _ _ _ _ _ E) as [Hscore Hc].
  assert (forall s, can_serve host (pr_role ask) s ->
            is_nan (score_of ask view key s) = false) as Hnk.
  { intros s (_ & Hs & _). by apply score_of_not_nan with host. }
  assert (is_nan score = false) as Hns.
  { rewrite Hscore. by apply Hnk. }
  assert (forall s', can_serve host (pr_role ask) s' ->
            f64_le (score_of ask view key s') score = true) as Hmax.
  { intros s' Hs'. eapply best_slot_scored_max; [|exact E|done]. intros s1 Hs1.
    by apply (score_of_not_nan key host). }
  destruct best as [[[[prev k] s] r]|] eqn:Eb; simpl in IH, Hsound; last first.
  { exists l, host, []. split_and!; [done| |].
    - intros k' s'. rewrite seen_snoc. intros [?|(-> & _ & ?)]; [by edestruct Hsound|by apply Hmax].
    - intros k' s' H. by apply Hsound in H. }
  destruct Hsound as (Hseen & Hprev & _).
  assert (is_nan prev = false) as Hnp by (rewrite Hprev; by apply Hnan).
  destruct (f64_gt score prev) eqn:Hgt.
  - destruct IH as (l1 & h & l2 & Heq & Hle & _). exists l, host, []. split_and!; [done| |].
    + intros k' s'. rewrite seen_snoc. intros [Hs'|(-> & _ & ?)]; [|by apply Hmax].
      apply f64_le_trans with prev; eauto. by apply f64_gt_le.
    + intros k' s' Hs'. apply f64_gt_le_gt with prev; eauto.
  - apply Hkeep; [done|]. intros k' s' sc k1 s1 r1 [= <- <- <- <-] (-> & _ & Hs').
    apply f64_le_trans with score; [by apply Hnk|done|done|by apply Hmax|by apply f64_gt_false].
Qed.

End monolithic.

Lemma seen_bt_iter ask view key s :
  seen ask (bt_iter (fv_hosts view)) key s <-> candidate ask view key s.
Proof.
  unfold seen, candidate. setoid_rewrite elem_of_bt_iter. done.
Qed.

(** ** The planners *)

Section planners.
Context (show_f64 show_f64_3 : f64 -> string).

(** The fleet-wide planner is sound and complete: it answers [None]
    exactly when no unlocked host other than the asker has a healthy slot for
    the role, and every fragment names such a host and slot, copies the slot's
    model and resource, and carries the link's measured latency - or none. *)
Theorem monolithic_plan_sound ask view :
  (monolithic_plan show_f64 show_f64_3 ask view = None <-> forall key s, ~ candidate ask view key s)
  /\ (forall fr, monolithic_plan show_f64 show_f64_3 ask view = Some fr ->
       exists key s, candidate ask view key s /\ pf_host_key fr = key
         /\ pf_node_id fr = pr_node_id ask /\ pf_role fr = pr_role ask
         /\ pf_slot fr = sv_slot s /\ pf_model_id fr = sv_model_id s
         /\ pf_resource_id fr = sv_resource_id s
         /\ pf_rtt_ms fr = rtt_ms (fv_latency view) (pr_node_id ask) key).
Proof.
  pose proof (monolithic_loop_sound ask view (bt_iter (fv_hosts view))) as Hs.
  fold (monolithic_best ask view) in *.
  unfold monolithic_plan.
  destruct (monolithic_best ask view) as [[[[sc k] s] r]|]; simpl in *.
  - destruct Hs as (Hseen & _ & Hr). rewrite seen_bt_iter in Hseen. split.
    + split; [done|]. intros H. by apply H in Hseen.
    + intros fr [= <-]. by exists k, s.
  - split; [|done]. split; [|done]. intros _ key s. rewrite <-seen_bt_iter. apply Hs.
Qed.

(** C19. On a view of finite numbers the fleet-wide planner is optimal: no
    candidate scores higher than the one it picks - free memory less 512 MiB
    per measured millisecond, computed in binary64 - and among hosts with the
    same score the first in key order wins. *)
Theorem monolithic_plan_optimal ask view fr :
  view_finite view -> monolithic_plan show_f64 show_f64_3 ask view = Some fr ->
  exists key s, candidate ask view key s /\ pf_host_key fr = key /\ pf_slot fr = sv_slot s
    /\ (forall key' s', candidate ask view key' s' ->
          f64_le (score_of ask view key' s') (score_of ask view key s) = true)
    /\ (forall key' s', candidate ask view key' s' -> String.le key' key -> key' <> key ->
          f64_gt (score_of ask view key s) (score_of ask view key' s') = true).
Proof.
  intros Hfin.
  pose proof (monolithic_loop_sound ask view (bt_iter (fv_hosts view))) as Hs.
  pose proof (monolithic_loop_best ask view Hfin (bt_iter (fv_hosts view))) as Hb.
  fold (monolithic_best ask view) in *.
  unfold monolithic_plan.
  destruct (monolithic_best ask view) as [[[[sc k] s] r]|]; simpl in *; [|done].
  intros [= <-]. destruct Hs as (Hseen & Hsc & _).
  destruct Hb as (l1 & host & l2 & Hl & Hle & Hgt).
  { intros key h. by rewrite elem_of_bt_iter. }
  exists k, s. rewrite seen_bt_iter in Hseen. setoid_rewrite seen_bt_iter in Hle.
  subst sc. split_and!; try done.
  intros key' s' Hc Hlt Hne. apply Hgt. destruct Hc as (Hna & h & Hh & Hcan).
  split; [done|]. exists h. split; [|done].
  assert ((key', h) ∈ bt_iter (fv_hosts view)) as Hin by by apply elem_of_bt_iter.
  rewrite Hl in Hin. apply elem_of_app in Hin as [?|Hin]; [done|].
  apply elem_of_cons in Hin as [[= -> ->]|Hin]; [done|]. exfalso.
  pose proof (bt_iter_sorted (fv_hosts view)) as Hsort. rewrite Hl in Hsort.
  apply StronglySorted_app_1_r in Hsort. inversion Hsort as [|x xs _ Hall]; subst.
  rewrite Forall_forall in Hall. specialize (Hall _ Hin). unfold key_le in Hall. simpl in Hall.
  apply Hne. by apply (anti_symm String.le).
Qed.

Lemma best_slot_None view key role :
  best_slot view key role = None <->
  (forall host s, fv_hosts view !! key = Some host -> ~ can_serve host role s).
Proof.
  unfold best_slot, can_serve. destruct (fv_hosts view !! key) as [host|]; simpl; [|done].
  destruct (hv_locked host) eqn:Hlk.
  { split; [|done]. intros _ h s [= <-] (? & _). congruence. }
  rewrite max_by_f64_None. split.
  - intros Hnil h s [= <-] (_ & Hs & Hr).
    assert (s ∈ filter (fun s => serves s role = true) (hv_slots host)) as H
      by by apply list_elem_of_filter.
    rewrite Hnil in H. by apply elem_of_nil in H.
  - intros H. apply filter_false. intros s Hs Hr. by apply (H host s).
Qed.

Lemma best_slot_Some view key role s :
  best_slot view key role = Some s ->
  exists host, fv_hosts view !! key = Some host /\ can_serve host role s.
Proof.
  unfold best_slot, can_serve. destruct (fv_hosts view !! key) as [host|]; simpl; [|done].
  destruct (hv_locked host) eqn:Hl; [done|].
  intros (? & ?)%max_by_f64_elem%list_elem_of_filter. by exists host.
Qed.

(** Some host, the asker included, can take the role. *)
Definition satisfiable (ask : PlanRequest) (view : FleetView) : Prop :=
  exists key host s, fv_hosts view !! key = Some host /\ can_serve host (pr_role ask) s.

(** The verdict alone: a plan exactly if somebody can serve. *)
Lemma head_plan_verdict req view roles :
  validate_ask req roles = Ok tt ->
  match head_plan show_f64 show_f64_3 req view roles with
  | Ok _ => satisfiable req view
  | Err e => e = EscalateNowhere (escalate_constraint req view) /\ ~ satisfiable req view
  end.
Proof.
  intros Hv. unfold head_plan. rewrite Hv. simpl.
  destruct (best_slot view (pr_node_id req) (pr_role req)) as [s|] eqn:E.
  { apply best_slot_Some in E as (host & ? & ?). by exists (pr_node_id req), host, s. }
  rewrite best_slot_None in E.
  pose proof (monolithic_loop_sound req view (bt_iter (fv_hosts view))) as Hs.
  fold (monolithic_best req view) in Hs. unfold monolithic_plan.
  destruct (monolithic_best req view) as [[[[sc k] s] r]|]; simpl in *.
  - destruct Hs as (Hseen & _). rewrite seen_bt_iter in Hseen.
    destruct Hseen as (_ & host & Hh & Hc). by exists k, host, s.
  - split; [done|]. intros (key & host & s & Hh & Hc).
    destruct (decide (key = pr_node_id req)) as [->|Hne]; [by edestruct E|].
    apply (Hs key s). rewrite seen_bt_iter. split; [done|]. by exists host.
Qed.

(** C20. The head's decision order. For a valid ask: if the asking node can
    take the role itself the fragment names that node, whatever the rest of the
    fleet offers; otherwise, if any other host can, the fragment names such a
    host; and [403 escalate-nowhere] is returned exactly when nobody can - a
    fragment is never invented. *)
Theorem head_plan_spec req view roles :
  validate_ask req roles = Ok tt ->
  let local := exists host s, fv_hosts view !! pr_node_id req = Some host
                              /\ can_serve host (pr_role req) s in
  match head_plan show_f64 show_f64_3 req view roles with
  | Ok fr =>
      exists host s, fv_hosts view !! pf_host_key fr = Some host
        /\ can_serve host (pr_role req) s /\ pf_slot fr = sv_slot s
        /\ pf_model_id fr = sv_model_id s /\ pf_resource_id fr = sv_resource_id s
        /\ (pf_host_key fr = pr_node_id req <-> local)
        /\ (local -> pf_rtt_ms fr = None)
  | Err e => e = EscalateNowhere (escalate_constraint req view) /\ ~ satisfiable req view
  end.
Proof.
  intros Hv local. pose proof (head_plan_verdict req view roles Hv) as Hver. revert Hver.
  unfold head_plan. rewrite Hv. simpl.
  destruct (best_slot view (pr_node_id req) (pr_role req)) as [s|] eqn:E; intros Hver.
  - apply best_slot_Some in E as (host & Hh & Hc). exists host, s. simpl.
    assert local by by exists host, s. split_and!; try done.
  - rewrite best_slot_None in E.
    pose proof (monolithic_loop_sound req view (bt_iter (fv_hosts view))) as Hs.
    fold (monolithic_best req view) in Hs.
    revert Hver. unfold monolithic_plan.
    destruct (monolithic_best req view) as [[[[sc k] s] r]|]; simpl in *; intros Hver.
    + destruct Hs as (Hseen & _ & Hr). rewrite seen_bt_iter in Hseen.
      destruct Hseen as (Hne & host & Hh & Hc). exists host, s. split_and!; try done.
      * split; [done|]. intros (h & s' & ? & ?). by edestruct E.
      * intros (h & s' & ? & ?). by edestruct E.
    + exact Hver.
Qed.

Lemma catalogue_contains_spec roles role : catalogue_contains roles role = true <-> role ∈ roles.
Proof.
  unfold catalogue_contains. rewrite existsb_exists. setoid_rewrite String.eqb_eq.
  setoid_rewrite <-list_elem_of_In. naive_solver.
Qed.

(** Every entry point rejects the same asks in the same way, before
    anything is planned: a blank node first, then a blank role, then a role
    outside the catalogue; only a valid ask with an unknown planner kind is told
    about the kind. The two known kinds are the head's order and the asker's
    own node. *)
Theorem plan_by_kind_spec kind req view roles :
  (forall e, validate_ask req roles = Err e ->
     plan_by_kind show_f64 show_f64_3 kind req view roles = Err e
     /\ head_plan show_f64 show_f64_3 req view roles = Err e
     /\ (forall p, plan_with p req view roles = Err e)
     /\ ((trim (pr_node_id req) = EmptyString /\ e = MissingField "node_id")
         \/ (trim (pr_node_id req) <> EmptyString /\ trim (pr_role req) = EmptyString
             /\ e = MissingField "role")
         \/ (trim (pr_node_id req) <> EmptyString /\ trim (pr_role req) <> EmptyString
             /\ pr_role req ∉ roles /\ e = UnknownRole (pr_role req))))
  /\ (validate_ask req roles = Ok tt ->
       pr_role req ∈ roles
       /\ plan_by_kind show_f64 show_f64_3 "monolithic" req view roles
            = head_plan show_f64 show_f64_3 req view roles
       /\ (forall fr, plan_by_kind show_f64 show_f64_3 "federated" req view roles = Ok fr ->
             pf_host_key fr = pr_node_id req)
       /\ (kind <> "monolithic" -> kind <> "federated" ->
             plan_by_kind show_f64 show_f64_3 kind req view roles = Err (UnknownPlanner kind))).
Proof.
  split.
  - intros e He. unfold plan_by_kind, head_plan, plan_with. rewrite He. split_and!; try done.
    unfold validate_ask in He.
    destruct (String.eqb_spec (trim (pr_node_id req)) EmptyString); [left; naive_solver|right].
    destruct (String.eqb_spec (trim (pr_role req)) EmptyString); [left; naive_solver|right].
    pose proof (catalogue_contains_spec roles (pr_role req)) as Hc.
    destruct (catalogue_contains roles (pr_role req)); simpl in He; naive_solver.
  - intros Hv. unfold plan_by_kind. rewrite Hv. simpl. split_and!; try done.
    + unfold validate_ask in Hv. repeat (case_match; simplify_eq/=).
      apply catalogue_contains_spec. by apply negb_false_iff.
    + intros fr. unfold plan_with, federated_plan. simpl. rewrite Hv. simpl. unfold federated_plan.
      destruct (fv_hosts view !! pr_node_id req); simpl; [|done].
      destruct (best_slot_scored _ _ None) as [[? ?]|]; simpl; [|done]. by intros [= <-].
    + intros Hm Hf. destruct (String.eqb_spec kind "monolithic"); [done|].
      by destruct (String.eqb_spec kind "federated").
Qed.

End planners.

(** ** Concrete instances *)

Definition demo_slot (name : string) (free_mb : Z) (healthy : bool) : SlotView :=
  {| sv_slot := name; sv_model_id := "m"; sv_roles := ["coder"]; sv_healthy := healthy;
     sv_free_mb := f64_of_Z free_mb; sv_resource_id := None |}.

(** [near] has less memory than [far] but a link 4 ms faster; [sick] has the
    most memory and no healthy slot. *)
Definition demo_view : FleetView :=
  {| fv_hosts := {[ "near" := {| hv_slots := [demo_slot "n0" 4096 true]; hv_locked := false |};
                    "far" := {| hv_slots := [demo_slot "f0" 5120 true]; hv_locked := false |};
                    "sick" := {| hv_slots := [demo_slot "s0" 9000 false]; hv_locked := false |} ]};
     fv_latency := {| rpc_median_ms :=
       {[ "me" := {[ "near" := Some (f64_of_Z 1); "far" := Some (f64_of_Z 5) ]} ]} |} |}.

Definition demo_ask : PlanRequest := new_request "me" "coder".

Definition demo_show (f : f64) : string := "?".

Lemma demo_view_finite : view_finite demo_view.
Proof.
  split.
  - assert (map_Forall (fun _ host => Forall (fun s => is_finite (sv_free_mb s) = true) (hv_slots host))
              (fv_hosts demo_view)) as H by (refine (bool_decide_unpack _ _); by vm_compute).
    intros key host s Hh Hs. specialize (H key host Hh). rewrite Forall_forall in H. by apply H.
  - assert (map_Forall (fun _ row => map_Forall (fun _ o => from_option is_finite true o = true) row)
              (rpc_median_ms (fv_latency demo_view))) as H by (refine (bool_decide_unpack _ _); by vm_compute).
    intros from to ms. unfold rtt_ms.
    destruct (rpc_median_ms (fv_latency demo_view) !! from) as [row|] eqn:Hrow; simpl; [|done].
    destruct (row !! to) as [o|] eqn:Ho; simpl; [|done]. intros ->.
    exact (H _ _ Hrow _ _ Ho).
Qed.

Lemma monolithic_plan_optimal_witness :
  exists fr, monolithic_plan demo_show demo_show demo_ask demo_view = Some fr
  /\ exists key s, candidate demo_ask demo_view key s /\ key = "near"
     /\ forall key' s', candidate demo_ask demo_view key' s' ->
          f64_le (score_of demo_ask demo_view key' s') (score_of demo_ask demo_view key s) = true.
Proof.
  eexists. split; [vm_compute; reflexivity|].
  destruct (monolithic_plan_optimal demo_show demo_show demo_ask demo_view _ demo_view_finite
              ltac:(vm_compute; reflexivity)) as (key & s & H1 & H2 & _ & H3 & _).
  exists key, s. split; [exact H1|]. split; [symmetry; exact H2|exact H3].
Defined.

Lemma head_plan_spec_witness :
  validate_ask demo_ask ["coder"] = Ok tt
  /\ exists fr host, head_plan demo_show demo_show demo_ask demo_view ["coder"] = Ok fr
     /\ fv_hosts demo_view !! pf_host_key fr = Some host /\ pf_host_key fr <> "me".
Proof.
  split; [by vm_compute|].
  pose proof (head_plan_spec demo_show demo_show demo_ask demo_view ["coder"]
                ltac:(vm_compute; reflexivity)) as H. cbv zeta in H.
  destruct (head_plan demo_show demo_show demo_ask demo_view ["coder"]) as [fr|e] eqn:E;
    [|vm_compute in E; discriminate E].
  destruct H as (host & s & H1 & _). exists fr, host. split; [done|]. split; [exact H1|].
  vm_compute in E. injection E as <-. by vm_compute.
Defined.
