(* ===== verification/PlanView.v ===== *)
(** * Reading the fleet's view from JSON (plan.rs, [LatencyMatrix::from_json],
    [FleetView::from_snapshot_json], [RoleCatalogue::from_json])

    The decoders [serde] derives for [SlotView] and [LatencyMatrix] are
    arguments; everything the source itself does around them is here. *)

From stdpp Require Import base tactics option list gmap strings fin_maps.
From S2P Require Import Prelude Str F64 Json Plan PlanProps.

#[local] Open Scope Z_scope.

Section view.
(** [serde_json::from_value::<SlotView>] and [::<LatencyMatrix>]. *)
Context (decode_slot : Json -> option SlotView) (decode_matrix : Json -> option LatencyMatrix).

(** One node of a [nauti_fleet_view]: its name and its measured median. *)
Definition matrix_entry (node : Json) : option (string * option f64) :=
  to ← as_str (index node "node");
  Some (to, as_f64 (index (index node "rpc_rtt_ms") "median")).

Definition matrix_row (nodes : list Json) : gmap string (option f64) :=
  foldl (fun row node => match matrix_entry node with
                         | Some (to, median) => <[to := median]> row
                         | None => row
                         end) ∅ nodes.

(** The flattened [nauti_fleet_view]: one row, keyed by the view's [from]. *)
Definition matrix_from_view (value : Json) : LatencyMatrix :=
  let from := match as_str (index value "from") with Some f => f | None => EmptyString end in
  if String.eqb from "" then mkLatencyMatrix ∅
  else
    let row := matrix_row (match as_array (index value "nodes") with
                           | Some l => l | None => [] end) in
    if decide (row = ∅) then mkLatencyMatrix ∅ else mkLatencyMatrix {[ from := row ]}.

(** [LatencyMatrix::from_json]. *)
Definition matrix_from_json (value : Json) : LatencyMatrix :=
  match decode_matrix value with
  | Some m => if decide (rpc_median_ms m = ∅) then matrix_from_view value else m
  | None => matrix_from_view value
  end.

(** The items a host's slots are read from, with their fallback names. *)
Definition slot_items (host_value : Json) (host_info : list (string * Json)) :
    list (string * Json) :=
  let slots_value := match map_get "slots" host_info with
                     | Some v => v
                     | None => host_value
                     end in
  match slots_value with
  | JArray l => imap (fun i v => (show (Z.of_nat i), v)) l
  | JObject m => m
  | _ => []
  end.

Definition read_slot (item : string * Json) : option SlotView :=
  slot ← decode_slot item.2;
  Some (if String.eqb (sv_slot slot) "" then
          {| sv_slot := item.1; sv_model_id := sv_model_id slot; sv_roles := sv_roles slot;
             sv_healthy := sv_healthy slot; sv_free_mb := sv_free_mb slot;
             sv_resource_id := sv_resource_id slot |}
        else slot).

Definition read_host (host_value : Json) : option HostView :=
  host_info ← as_object host_value;
  Some {| hv_locked := match map_get "locked" host_info ≫= as_bool with
                       | Some b => b | None => false end;
          hv_slots := omap read_slot (slot_items host_value host_info) |}.

(** The host map: under [nodes], [hosts] or [fleet], or the whole object. *)
Definition host_map (value : Json) : option (list (string * Json)) :=
  match as_object (index value "nodes") with
  | Some m => Some m
  | None =>
      match as_object (index value "hosts") with
      | Some m => Some m
      | None =>
          match as_object (index value "fleet") with
          | Some m => Some m
          | None => as_object value
          end
      end
  end.

(** [FleetView::from_snapshot_json]. *)
Definition from_snapshot_json (value : Json) : FleetView :=
  match host_map value with
  | None => {| fv_hosts := ∅; fv_latency := mkLatencyMatrix ∅ |}
  | Some hosts =>
      {| fv_hosts := foldl (fun m h => match read_host h.2 with
                                       | Some hv => <[h.1 := hv]> m
                                       | None => m
                                       end) ∅ hosts;
         fv_latency := matrix_from_json value |}
  end.

(** [FleetView::with_latency]. *)
Definition with_latency (view : FleetView) (latency : LatencyMatrix) : FleetView :=
  {| fv_hosts := fv_hosts view; fv_latency := latency |}.

(** [RoleCatalogue::from_json]. *)
Definition catalogue_from_json (value : Json) : RoleCatalogue :=
  match value with
  | JArray l => filter (fun r => starts_with "_" r = false) (omap as_str l)
  | JObject m => filter (fun k => starts_with "_" k = false) m.*1
  | _ => []
  end.

(** [FleetView::load_snapshot] and [LatencyMatrix::load], with the file and the
    parser as arguments. *)
Definition load_with {A} (read : A -> result string string) (parse : string -> result string Json)
    (show_path : A -> string) (path : A) : result PlanReject Json :=
  raw ← map_err (fun e => HeadUnreachable ("cannot read " +:+ show_path path +:+ ": " +:+ e))
          (read path);
  map_err (fun e => BadResponse 0 "executor-error" (show_path path +:+ " is not JSON: " +:+ e))
    (parse raw).

Definition load_snapshot {A} read parse show_path (path : A) : result PlanReject FleetView :=
  from_snapshot_json <$> load_with read parse show_path path.
Definition load_matrix {A} read parse show_path (path : A) : result PlanReject LatencyMatrix :=
  matrix_from_json <$> load_with read parse show_path path.

(** ** A latency is measured or absent *)

(** The file states the number [f] for the pair. *)
Definition states_rtt (value : Json) (from to : string) (f : f64) : Prop :=
  (exists m, decode_matrix value = Some m /\ rtt_ms m from to = Some f)
  \/ (as_str (index value "from") = Some from
      /\ exists nodes node, as_array (index value "nodes") = Some nodes /\ node ∈ nodes
         /\ as_str (index node "node") = Some to
         /\ as_f64 (index (index node "rpc_rtt_ms") "median") = Some f).

Lemma matrix_row_lookup nodes to o :
  matrix_row nodes !! to = Some o ->
  exists node, node ∈ nodes /\ as_str (index node "node") = Some to
    /\ as_f64 (index (index node "rpc_rtt_ms") "median") = o.
Proof.
  unfold matrix_row. induction nodes as [|node nodes IH] using rev_ind; simpl.
  { by rewrite lookup_empty. }
  rewrite foldl_snoc. unfold matrix_entry at 1.
  assert (forall n', (exists n, n ∈ nodes /\ n = n') -> n' ∈ app nodes [node]) as Hin.
  { intros n' (n & Hn & <-). apply elem_of_app. by left. }
  destruct (as_str (index node "node")) as [to'|] eqn:E; simpl.
  - rewrite lookup_insert_Some. intros [[<- <-]|[_ H]].
    + exists node. split_and!; try done. apply elem_of_app. right. by apply list_elem_of_singleton.
    + destruct (IH H) as (n & Hn & ? & ?). exists n. split_and!; try done. apply Hin. by exists n.
  - intros H. destruct (IH H) as (n & Hn & ? & ?). exists n. split_and!; try done.
    apply Hin. by exists n.
Qed.

Lemma matrix_from_json_states value from to f :
  rtt_ms (matrix_from_json value) from to = Some f -> states_rtt value from to f.
Proof.
  assert (forall row nodes, matrix_row nodes = row ->
    as_array (index value "nodes") = Some nodes \/ nodes = [] ->
    forall key, as_str (index value "from") = Some key ->
    rtt_ms (mkLatencyMatrix {[ key := row ]}) from to = Some f -> states_rtt value from to f) as Hrow.
  { intros row nodes Hr Hn key Hkey. unfold rtt_ms. simpl.
    destruct (decide (key = from)) as [->|Hne]; [|by rewrite lookup_singleton_ne].
    rewrite lookup_singleton_eq. simpl. destruct (row !! to) as [o|] eqn:Ho; simpl; [|done].
    intros ->. subst row. apply matrix_row_lookup in Ho as (node & Hin & H1 & H2).
    destruct Hn as [Hn| ->]; [|by apply elem_of_nil in Hin]. right. split; [done|].
    by exists nodes, node. }
  assert (rtt_ms (mkLatencyMatrix ∅) from to = Some f -> False) as Hempty.
  { unfold rtt_ms. simpl. by rewrite lookup_empty. }
  assert (rtt_ms (matrix_from_view value) from to = Some f -> states_rtt value from to f) as Hview.
  { unfold matrix_from_view.
    destruct (as_str (index value "from")) as [key|] eqn:Ek; simpl; [|by intros ?%Hempty].
    destruct (String.eqb key "") eqn:Eq; [by intros ?%Hempty|].
    case_decide; [by intros ?%Hempty|].
    eapply Hrow; [reflexivity| |done]. destruct (as_array (index value "nodes")); eauto. }
  unfold matrix_from_json. destruct (decode_matrix value) as [m|] eqn:Em; [|exact Hview].
  case_decide; [exact Hview|]. intros Hm. left. by exists m.
Qed.

(** C21. No link latency is ever made up. Whatever JSON the head's view is read
    from, a latency in the view, and the latency of a fragment planned on it,
    is a number the file states for exactly that pair of nodes: a missing,
    [null] or non-numeric median stays "not measured". *)
Theorem rtt_never_fabricated show_f64 show_f64_3 value ask :
  (forall from to f, rtt_ms (fv_latency (from_snapshot_json value)) from to = Some f ->
     states_rtt value from to f)
  /\ (forall fr f, monolithic_plan show_f64 show_f64_3 ask (from_snapshot_json value) = Some fr ->
       pf_rtt_ms fr = Some f -> states_rtt value (pr_node_id ask) (pf_host_key fr) f).
Proof.
  assert (forall from to f, rtt_ms (fv_latency (from_snapshot_json value)) from to = Some f ->
     states_rtt value from to f) as Hview.
  { intros from to f. unfold from_snapshot_json. destruct (host_map value); simpl.
    - apply matrix_from_json_states.
    - unfold rtt_ms. simpl. by rewrite lookup_empty. }
  split; [done|]. intros fr f Hfr Hf.
  pose proof (monolithic_loop_sound ask (from_snapshot_json value)
                (bt_iter (fv_hosts (from_snapshot_json value)))) as Hs.
  fold (monolithic_best ask (from_snapshot_json value)) in Hs. unfold monolithic_plan in Hfr.
  destruct (monolithic_best ask (from_snapshot_json value)) as [[[[sc k] s] r]|]; simpl in *; [|done].
  destruct Hs as (_ & _ & Hr). injection Hfr as <-. simpl in *. subst r. by apply Hview.
Qed.

(** ** The hosts and slots of the view *)

Lemma read_host_slots host_value hv s :
  read_host host_value = Some hv -> s ∈ hv_slots hv ->
  exists info item, as_object host_value = Some info /\ item ∈ slot_items host_value info
    /\ read_slot item = Some s.
Proof.
  unfold read_host. destruct (as_object host_value) as [info|]; simpl; [|done].
  intros [= <-] Hs. simpl in Hs. apply list_elem_of_omap in Hs as (item & ? & ?).
  by exists info, item.
Qed.

Lemma from_snapshot_hosts value key hv :
  fv_hosts (from_snapshot_json value) !! key = Some hv ->
  exists hosts host_value, host_map value = Some hosts /\ (key, host_value) ∈ hosts
    /\ read_host host_value = Some hv.
Proof.
  unfold from_snapshot_json. destruct (host_map value) as [hosts|]; simpl; [|by rewrite lookup_empty].
  intros H. exists hosts. revert H. induction hosts as [|[k v] hosts IH] using rev_ind; simpl;
    [by rewrite lookup_empty|].
  rewrite foldl_snoc. simpl. intros H.
  assert (forall x, x ∈ hosts -> x ∈ app hosts [(k, v)]) as Hl by (intros; apply elem_of_app; by left).
  destruct (read_host v) as [hv'|] eqn:E.
  - apply lookup_insert_Some in H as [[-> ->]|[_ H]].
    + exists v. split_and!; try done. apply elem_of_app. right. by apply list_elem_of_singleton.
    + destruct (IH H) as (hv1 & ? & ? & ?). exists hv1. eauto.
  - destruct (IH H) as (hv1 & ? & ? & ?). exists hv1. eauto.
Qed.

End view.
