(* ===== verification/PlanHttp.v ===== *)
(** * The head's client (plan.rs, [parse_head_url] to [dechunk])

    URL splitting, the request, the response parser and the status table. The
    socket is an argument: [exchange authority request] is what connecting,
    writing, flushing and reading to the end gave. *)

From stdpp Require Import base tactics option list gmap strings fin_maps.
From Stdlib Require Import Ascii String.
From S2P Require Import Prelude Str F64 Json Utf8 Plan.

#[local] Open Scope Z_scope.

Definition PLAN_ENDPOINT_PATH : string := "/v1/plan".
Definition DEFAULT_HEAD_PORT : Z := 8080.

(** ** The authority of a head URL *)

Definition is_bracket (a : ascii) : bool := Ascii.eqb a "["%char || Ascii.eqb a "]"%char.

Definition parse_head_url (base : string) : result PlanReject (string * Z) :=
  let bad detail := BadHeadUrl detail in
  rest ← ok_or (strip_prefix "http://" base)
           (bad (debug_str base +:+ " is not an http:// authority (no TLS here)"));
  let authority := trim (match split_on "/"%char rest with w :: _ => w | [] => EmptyString end) in
  if String.eqb authority "" then Err (bad (debug_str base +:+ " has no host"))
  else
    '(host, port) ← (match rsplit_once ":"%char authority with
                     | Some (h, p) =>
                         port ← ok_or (parse_u16 p)
                                  (bad (debug_str base +:+ " has a non-numeric port " +:+ debug_str p));
                         Ok (h, port)
                     | None => Ok (authority, DEFAULT_HEAD_PORT)
                     end);
    if String.eqb (trim_matches is_bracket host) ""
    then Err (bad (debug_str base +:+ " has an empty host"))
    else Ok (host, port).

(** ** The response parser *)

Definition CRLF : string := bytes [13; 10]%nat.

(** [windows(n).position(..)] for a non-empty needle. *)
Fixpoint find_subslice (needle hay : string) : option nat :=
  if starts_with needle hay then Some O
  else match hay with
       | EmptyString => None
       | String _ hay' => S <$> find_subslice needle hay'
       end.

Definition find_header_end (raw : string) : option nat :=
  match find_subslice (CRLF +:+ CRLF) raw with
  | Some i => Some (i + 4)%nat
  | None => (fun i => i + 2)%nat <$> find_subslice (bytes [10; 10]%nat) raw
  end.

(** One turn of the chunk loop: the chunk's bytes and what follows it, or [None]
    for the end of the decode. *)
Definition dechunk_step (rest : string) : option (string * string) :=
  let line_end := match find_subslice CRLF rest with
                  | Some i => i | None => String.length rest end in
  let size_hex := from_utf8_lossy (str_take line_end rest) in
  let size_hex := trim (match split_on ";"%char size_hex with w :: _ => w | [] => EmptyString end) in
  match parse_hex_usize size_hex with
  | None => None
  | Some len =>
      if bool_decide (len = 0) then None
      else
        let start := (line_end + 2)%nat in
        let end_ := Z.of_nat start + len in
        if bool_decide (end_ <= u64_max /\ end_ <= Z.of_nat (String.length rest)) then
          let n := String.length rest in
          let e := Z.to_nat end_ in
          Some (str_take (Z.to_nat len) (str_drop start rest),
                str_drop (Nat.min (Nat.min e n + 2) n) rest)
        else None
  end.

(** The loop, with fuel; [None] when the fuel is spent. *)
Fixpoint dechunk_go (fuel : nat) (rest out : string) : option string :=
  match fuel with
  | O => None
  | S f =>
      match dechunk_step rest with
      | None => Some out
      | Some (chunk, rest') => dechunk_go f rest' (out +:+ chunk)
      end
  end.

(** Every turn consumes a byte at least ([dechunk_total]). *)
Definition dechunk (body : string) : option string :=
  from_utf8_lossy <$> dechunk_go (S (String.length body)) body EmptyString.

Definition insert_header (headers : gmap string string) (line : string) : gmap string string :=
  match split_once ":"%char line with
  | Some (k, v) => <[to_ascii_lowercase (trim k) := trim v]> headers
  | None => headers
  end.

Definition is_chunked (headers : gmap string string) : bool :=
  match headers !! "transfer-encoding" with
  | Some v => contains "chunked" (to_ascii_lowercase v)
  | None => false
  end.

Definition parse_http_response (raw : string) : option (Z * gmap string string * string) :=
  split ← find_header_end raw;
  head ← (if utf8_valid (str_take split raw) then Some (str_take split raw) else None);
  match lines head with
  | [] => None
  | status_line :: rest =>
      word ← split_whitespace status_line !! 1%nat;
      status ← parse_u16 word;
      let headers := foldl insert_header ∅ rest in
      let body_bytes := str_drop split raw in
      body ← (if is_chunked headers then dechunk body_bytes
              else Some (from_utf8_lossy body_bytes));
      Some (status, headers, body)
  end.

(** ** The request and the status table *)

Inductive NetError : Type :=
  | ConnectFailed (e : string)
  | WriteFailed (e : string)
  | FlushFailed (e : string)
  | ReadFailed (e : string).

Definition crlf_line (l : string) : string := l +:+ CRLF.

Definition http_request (authority path body : string) : string :=
  crlf_line ("POST " +:+ path +:+ " HTTP/1.1")
  +:+ crlf_line ("Host: " +:+ authority)
  +:+ crlf_line "Content-Type: application/json"
  +:+ crlf_line ("Content-Length: " +:+ show (Z.of_nat (String.length body)))
  +:+ crlf_line "Accept: application/json"
  +:+ crlf_line "Connection: close"
  +:+ crlf_line EmptyString
  +:+ body.

Definition ellipsis : string := bytes [226; 128; 166]%nat.

Definition truncate (s : string) (max : nat) : string :=
  let trimmed := trim s in
  if bool_decide (char_count trimmed <= max)%nat then trimmed
  else chars_take max trimmed +:+ ellipsis.

Section client.
(** The socket, [serde_json::to_string(&PlanRequest)],
    [serde_json::from_str::<PlanFragment>] and [serde_json::from_str::<Value>]. *)
Context (exchange : string -> string -> result NetError string).
Context (encode_request : PlanRequest -> result string string).
Context (decode_fragment : string -> result string PlanFragment).
Context (parse_json : string -> option Json).

Definition http_post (host : string) (port : Z) (path body : string) :
    result PlanReject (Z * gmap string string * string) :=
  let authority := host +:+ ":" +:+ show port in
  match exchange authority (http_request authority path body) with
  | Err (ConnectFailed e) => Err (HeadUnreachable ("connect " +:+ authority +:+ ": " +:+ e))
  | Err (WriteFailed e) => Err (HeadUnreachable ("write to " +:+ authority +:+ ": " +:+ e))
  | Err (FlushFailed e) => Err (HeadUnreachable ("flush to " +:+ authority +:+ ": " +:+ e))
  | Err (ReadFailed e) => Err (HeadUnreachable ("read from " +:+ authority +:+ ": " +:+ e))
  | Ok raw =>
      ok_or (parse_http_response raw)
        (HeadUnreachable (authority +:+ " closed with no complete HTTP response"))
  end.

Definition json_detail (body : string) : option string :=
  value ← parse_json body;
  as_str (index value "detail").

Definition ask_head (base_url : string) (req : PlanRequest) : result PlanReject PlanFragment :=
  '(host, port) ← parse_head_url base_url;
  body ← map_err (fun e => BadResponse 0 "executor-error" ("cannot encode PlanRequest: " +:+ e))
           (encode_request req);
  '(status, headers, resp) ← http_post host port PLAN_ENDPOINT_PATH body;
  if bool_decide (200 <= status <= 299) then
    map_err (fun e => BadResponse status "missing-field" ("body is not a PlanFragment: " +:+ e))
      (decode_fragment resp)
  else if bool_decide (status = 403) then
    Err (EscalateNowhere
           (match headers !! "x-escalate-constraint" with
            | Some s => if String.eqb (trim s) "" then json_detail resp else Some s
            | None => json_detail resp
            end))
  else if bool_decide (status = 404) then Err (UnknownRole (pr_role req))
  else Err (BadResponse status
              (if bool_decide (status >= 500) then "backend-down" else "executor-error")
              (truncate resp 200)).

End client.
