(* ===== verification/PlanHttpProps.v ===== *)
(** * What the head's client promises

    The chunk decoder terminates and inverts the chunked encoding, the response
    parser inverts the wire format, the URL parser inverts an authority, and the
    status table never turns a refusal into a fragment. *)

From stdpp Require Import base tactics option list gmap strings fin_maps.
From Stdlib Require Import Ascii String.
From S2P Require Import Prelude Str F64 Json Utf8 Plan PlanHttp.

#[local] Open Scope Z_scope.

(** ** Substrings *)

Lemma find_subslice_here needle s : find_subslice needle (needle +:+ s) = Some O.
Proof.
  assert (starts_with needle (needle +:+ s) = true) as H by (apply starts_with_spec; eauto).
  destruct (needle +:+ s) eqn:E; cbn [find_subslice]; by rewrite H.
Qed.

Lemma starts_with_ne c n a s : a <> c -> starts_with (String c n) (String a s) = false.
Proof.
  intros Hne. destruct (starts_with (String c n) (String a s)) eqn:E; [|done].
  apply starts_with_spec in E as [r Hr]. rewrite str_app_cons in Hr. congruence.
Qed.

Lemma find_subslice_skip c n t s :
  contains_char c t = false ->
  find_subslice (String c n) (t +:+ s) = Nat.add (String.length t) <$> find_subslice (String c n) s.
Proof.
  induction t as [|a t IH]; cbn [contains_char].
  - intros _. rewrite str_app_nil_l. by destruct (find_subslice (String c n) s).
  - rewrite orb_false_iff. intros [Ha Ht]. rewrite str_app_cons. cbn [find_subslice].
    apply Ascii.eqb_neq in Ha. rewrite starts_with_ne by done.
    rewrite IH by done. by destruct (find_subslice (String c n) s).
Qed.

(** ** The chunk decoder *)

Lemma dechunk_step_shrinks rest chunk rest' :
  dechunk_step rest = Some (chunk, rest') -> (String.length rest' < String.length rest)%nat.
Proof.
  unfold dechunk_step. destruct (parse_hex_usize _) as [len|] eqn:Hlen; [|done].
  apply parse_unsigned_bounds in Hlen; [|apply hex_digit_nonneg|done|done].
  case_bool_decide; [done|]. case_bool_decide as Hle; [|done]. intros [= <- <-].
  destruct Hle as [_ Hle]. rewrite str_drop_length.
  match goal with H : _ |- context [Nat.min (Nat.min ?e ?n + 2) ?n] =>
    assert (n <> 0)%nat by lia; lia end.
Qed.

Lemma dechunk_go_total fuel rest out :
  (String.length rest < fuel)%nat -> is_Some (dechunk_go fuel rest out).
Proof.
  revert rest out. induction fuel as [|fuel IH]; intros rest out Hf; [lia|]. cbn [dechunk_go].
  destruct (dechunk_step rest) as [[chunk rest']|] eqn:E; [|eauto].
  apply dechunk_step_shrinks in E. apply IH. lia.
Qed.

Lemma dechunk_go_fuel fuel fuel' rest out r :
  (fuel <= fuel')%nat -> dechunk_go fuel rest out = Some r -> dechunk_go fuel' rest out = Some r.
Proof.
  revert fuel' rest out. induction fuel as [|fuel IH]; intros [|fuel'] rest out Hle; try done; [lia|].
  cbn [dechunk_go]. destruct (dechunk_step rest) as [[chunk rest']|]; [|done]. apply IH. lia.
Qed.

(** The chunked encoding: the size in hexadecimal, the bytes, an empty chunk. *)
Definition hex (n : nat) : string := hex_go 16 (Z.of_nat n) EmptyString.
Definition chunk (c : string) : string := hex (String.length c) +:+ CRLF +:+ c +:+ CRLF.
Definition chunked (cs : list string) : string :=
  foldr (fun c s => chunk c +:+ s) ("0" +:+ CRLF +:+ CRLF) cs.

Lemma hex_parse n : Z.of_nat n <= u64_max -> digits_go hex_digit 16 u64_max 0 (hex n) = Some (Z.of_nat n).
Proof.
  intros Hn. unfold hex. rewrite digits_go_hex; [done| |done|done].
  unfold u64_max in Hn. change (16 ^ Z.of_nat 16) with (2 ^ 64). lia.
Qed.

Lemma hex_digit_graphic a : is_Some (hex_digit a) -> graphic a = true.
Proof.
  unfold hex_digit, graphic. intros H. apply bool_decide_eq_true.
  repeat (case_bool_decide; [lia|]). by destruct H.
Qed.

Lemma hex_graphic n : Z.of_nat n <= u64_max -> all_bytes graphic (hex n) = true.
Proof.
  intros Hn. eapply all_bytes_impl; [|eapply digits_go_all, (hex_parse n Hn)].
  intros a Ha. apply bool_decide_eq_true in Ha. by apply hex_digit_graphic.
Qed.

Lemma hex_not c n : Z.of_nat n <= u64_max -> hex_digit c = None -> contains_char c (hex n) = false.
Proof.
  intros Hn Hc. eapply contains_char_not; [eapply digits_go_all, (hex_parse n Hn)|].
  cbv beta. rewrite Hc. apply bool_decide_eq_false. by intros [].
Qed.

Lemma hex_cons n : exists a s, hex n = String a s /\ is_Some (hex_digit a).
Proof.
  unfold hex. cut (forall f z s, 0 <= z -> exists a s', hex_go (S f) z s = String a s' /\ is_Some (hex_digit a)).
  { intros H. apply H. lia. }
  induction f as [|f IH]; intros z s Hz; cbn [hex_go].
  - assert (0 <= z `mod` 16 < 16) by (apply Z.mod_pos_bound; lia).
    case_bool_decide; eexists _, _; (split; [done|]); rewrite hex_digit_char by done; eauto.
  - assert (0 <= z `mod` 16 < 16) by (apply Z.mod_pos_bound; lia).
    case_bool_decide; [|apply IH; apply Z.div_pos; lia].
    eexists _, _; (split; [done|]); rewrite hex_digit_char by done; eauto.
Qed.

Lemma parse_hex n : Z.of_nat n <= u64_max -> parse_hex_usize (hex n) = Some (Z.of_nat n).
Proof.
  intros Hn. unfold parse_hex_usize, parse_unsigned.
  destruct (hex_cons n) as (a & s & Heq & Ha).
  assert (strip_prefix "+" (hex n) = None) as ->.
  { rewrite Heq. cbn [strip_prefix]. destruct (Ascii.eqb_spec "+" a) as [<-|]; [|done].
    destruct Ha as [d Hd]. vm_compute in Hd. discriminate Hd. }
  rewrite <-(hex_parse n Hn). by rewrite Heq.
Qed.

(** The size line of a chunk. *)
Lemma dechunk_size n s :
  Z.of_nat n <= u64_max ->
  find_subslice CRLF (hex n +:+ CRLF +:+ s) = Some (String.length (hex n))
  /\ parse_hex_usize (trim (match split_on ";"%char (from_utf8_lossy
       (str_take (String.length (hex n)) (hex n +:+ CRLF +:+ s))) with
       w :: _ => w | [] => EmptyString end)) = Some (Z.of_nat n).
Proof.
  intros Hn. split.
  - unfold CRLF at 1. cbn [bytes foldr]. rewrite find_subslice_skip by by apply hex_not.
    change (String (byte_of 13) (String (byte_of 10) EmptyString)) with CRLF.
    rewrite find_subslice_here. simpl. by rewrite Nat.add_0_r.
  - rewrite str_take_app. rewrite lossy_valid.
    + rewrite split_on_absent by by apply hex_not.
      rewrite trim_graphic by by apply hex_graphic. by apply parse_hex.
    + apply ascii_valid. eapply all_bytes_impl; [|by apply hex_graphic].
      intros a. unfold graphic, is_ascii. rewrite !bool_decide_eq_true. lia.
Qed.

Lemma dechunk_step_chunk c s :
  c <> EmptyString -> Z.of_nat (String.length (chunk c +:+ s)) <= u64_max ->
  dechunk_step (chunk c +:+ s) = Some (c, s).
Proof.
  intros Hne Hlen. unfold chunk in *. rewrite !str_app_assoc in *.
  set (n := String.length c) in *.
  assert (n <> 0%nat) as Hn0 by (unfold n; by destruct c).
  assert (String.length (hex n +:+ CRLF +:+ c +:+ CRLF +:+ s)
          = String.length (hex n) + 2 + n + 2 + String.length s)%nat as Hl.
  { rewrite !str_length_app. fold n. change (String.length CRLF) with 2%nat. lia. }
  rewrite Hl in Hlen.
  assert (Z.of_nat n <= u64_max) as Hn by lia.
  destruct (dechunk_size n (c +:+ CRLF +:+ s) Hn) as [Hf Hp].
  unfold dechunk_step. rewrite Hf, Hp, Hl.
  rewrite bool_decide_eq_false_2 by lia. rewrite bool_decide_eq_true_2 by lia. f_equal. f_equal.
  - replace (String.length (hex n) + 2)%nat with (String.length (hex n +:+ CRLF))
      by (rewrite str_length_app; done).
    rewrite <-(str_app_assoc (hex n)), str_drop_app, Nat2Z.id. unfold n. apply str_take_app.
  - replace (Nat.min _ _) with (String.length (hex n +:+ CRLF +:+ c +:+ CRLF)).
    + replace (hex n +:+ CRLF +:+ c +:+ CRLF +:+ s) with ((hex n +:+ CRLF +:+ c +:+ CRLF) +:+ s)
        by by rewrite !str_app_assoc.
      apply str_drop_app.
    + rewrite !str_length_app. fold n. change (String.length CRLF) with 2%nat. lia.
Qed.

Lemma dechunk_step_end s : dechunk_step ("0" +:+ CRLF +:+ s) = None.
Proof.
  change "0"%string with (hex 0).
  destruct (dechunk_size 0 s) as [Hf Hp]; [done|].
  unfold dechunk_step. by rewrite Hf, Hp.
Qed.

Lemma dechunk_go_chunked cs fuel out :
  (length cs < fuel)%nat -> Forall (fun c => c <> EmptyString) cs ->
  Z.of_nat (String.length (chunked cs)) <= u64_max ->
  dechunk_go fuel (chunked cs) out = Some (foldl String.append out cs).
Proof.
  revert fuel out. induction cs as [|c cs IH]; intros [|fuel] out Hf Hne Hlen; simpl in Hf; try lia.
  - cbn [dechunk_go chunked foldr]. by rewrite dechunk_step_end.
  - inversion Hne as [|? ? Hc Hcs]; subst. cbn [dechunk_go chunked foldr] in *.
    rewrite dechunk_step_chunk by done. apply IH; [lia|done|].
    unfold chunked. rewrite str_length_app in Hlen. lia.
Qed.

Lemma chunked_length cs : (length cs < S (String.length (chunked cs)))%nat.
Proof.
  induction cs as [|c cs IH]; simpl; [lia|]. rewrite str_length_app.
  unfold chunk. rewrite !str_length_app. change (String.length CRLF) with 2%nat. lia.
Qed.

(** The chunk decoder always returns (whatever the bytes, each turn of its
    loop consumes some), and it inverts the chunked transfer encoding: the
    chunks of a response come back concatenated. *)
Theorem dechunk_roundtrip cs :
  Forall (fun c => c <> EmptyString) cs -> Z.of_nat (String.length (chunked cs)) <= u64_max ->
  (forall body, is_Some (dechunk body))
  /\ dechunk (chunked cs) = Some (from_utf8_lossy (foldl String.append EmptyString cs)).
Proof.
  intros Hne Hlen. split.
  - intros body. unfold dechunk. rewrite fmap_is_Some. apply dechunk_go_total. lia.
  - unfold dechunk. by rewrite dechunk_go_chunked by (done || apply chunked_length).
Qed.

(** ** The response parser *)

Definition header_block (rest : string) (ls : list string) : string :=
  foldr (fun l s => crlf_line l +:+ s) rest ls.

Lemma header_block_cons rest l ls :
  header_block rest (l :: ls) = l +:+ CRLF +:+ header_block rest ls.
Proof. unfold header_block. cbn [foldr]. unfold crlf_line. by rewrite str_app_assoc. Qed.

Definition header_line (kv : string * string) : string := kv.1 +:+ ":" +:+ " " +:+ kv.2.

Definition http_response (status : Z) (phrase : string) (headers : list (string * string))
    (body : string) : string :=
  header_block (CRLF +:+ body)
    (("HTTP/1.1 " +:+ show status +:+ " " +:+ phrase) :: (header_line <$> headers)).

(** A header the wire can carry: printable, no colon in the name, no white space
    around either part. *)
Definition plain_header (kv : string * string) : Prop :=
  all_bytes printable kv.1 = true /\ all_bytes printable kv.2 = true
  /\ contains_char ":"%char kv.1 = false /\ trim kv.1 = kv.1 /\ trim kv.2 = kv.2.

Definition header_map (headers : list (string * string)) : gmap string string :=
  foldl (fun m kv => <[to_ascii_lowercase kv.1 := kv.2]> m) ∅ headers.

Lemma printable_not c s : all_bytes printable s = true -> printable c = false -> contains_char c s = false.
Proof. apply contains_char_not. Qed.

Lemma find_end_lines ls body :
  ls <> [] -> Forall (fun l => all_bytes printable l = true /\ l <> EmptyString) ls ->
  exists i, find_subslice (CRLF +:+ CRLF) (header_block (CRLF +:+ body) ls)
              = Some i
    /\ (i + 4)%nat = String.length (header_block CRLF ls).
Proof.
  intros Hne Hls.
  change (CRLF +:+ CRLF) with (String (byte_of 13) (String (byte_of 10) CRLF)).
  induction Hls as [|l ls [Hl Hl0] Hls IH]; [done|]. rewrite !header_block_cons.
  rewrite find_subslice_skip by by apply (printable_not _ l).
  destruct ls as [|l' ls].
  - assert (find_subslice (String (byte_of 13) (String (byte_of 10) CRLF))
              (CRLF +:+ header_block (CRLF +:+ body) []) = Some O) as ->.
    { change (CRLF +:+ header_block (CRLF +:+ body) [])
        with (String (byte_of 13) (String (byte_of 10) CRLF) +:+ body).
      apply find_subslice_here. }
    simpl. eexists. split; [done|]. rewrite !str_length_app.
    change (String.length CRLF) with 2%nat. change (String.length (header_block CRLF [])) with 2%nat. lia.
  - destruct IH as (i & Hi & Hlen); [done|].
    set (tail := header_block (CRLF +:+ body) (l' :: ls)) in *.
    assert (exists a t, tail = String a t /\ a <> byte_of 13) as (a & t & Ht & Ha).
    { unfold tail. rewrite header_block_cons.
      inversion Hls as [|? ? [Hl1 Hl2] _]; subst. destruct l' as [|a l']; [done|].
      rewrite str_app_cons. eexists _, _. split; [done|]. simpl in Hl1.
      apply andb_true_iff in Hl1 as [Hp _]. intros ->. by vm_compute in Hp. }
    assert (find_subslice (String (byte_of 13) (String (byte_of 10) CRLF)) (CRLF +:+ tail)
            = Some (S (S i))) as ->.
    { change (CRLF +:+ tail) with (String (byte_of 13) (String (byte_of 10) tail)).
      cbn [find_subslice].
      assert (starts_with (String (byte_of 13) (String (byte_of 10) CRLF))
                (String (byte_of 13) (String (byte_of 10) tail)) = false) as ->.
      { destruct (starts_with _ _) eqn:E; [|done]. apply starts_with_spec in E as [r Hr].
        rewrite !str_app_cons in Hr. injection Hr as Hr. rewrite Ht in Hr.
        unfold CRLF in Hr. cbn [bytes foldr] in Hr. rewrite str_app_cons in Hr. congruence. }
      rewrite starts_with_ne by done. by rewrite Hi. }
    simpl fmap. eexists. split; [done|]. rewrite !str_length_app. rewrite <-Hlen.
    change (String.length CRLF) with 2%nat. lia.
Qed.

Lemma foldr_lines_app ls body :
  header_block (CRLF +:+ body) ls
    = header_block CRLF ls +:+ body.
Proof.
  induction ls as [|l ls IH]; [done|]. by rewrite !header_block_cons, IH, !str_app_assoc.
Qed.

Lemma lines_header_block ls :
  Forall (fun l => all_bytes printable l = true) ls ->
  lines (header_block CRLF ls) = app ls [EmptyString].
Proof.
  unfold lines. induction 1 as [|l ls Hl Hls IH]; [done|]. rewrite header_block_cons.
  change (l +:+ CRLF +:+ ?s) with (l +:+ (str1 CR +:+ String LF s)).
  rewrite <-str_app_assoc, lines_go_line.
  - rewrite str_app_nil_l, strip_cr_line. by rewrite IH.
  - rewrite contains_char_app, (printable_not LF l) by done. done.
Qed.

Lemma block_ascii ls :
  Forall (fun l => all_bytes printable l = true) ls ->
  utf8_valid (header_block CRLF ls) = true.
Proof.
  intros Hls. apply ascii_valid. induction Hls as [|l ls Hl Hls IH]; [done|].
  rewrite header_block_cons, !all_bytes_app, IH.
  rewrite (all_bytes_impl printable is_ascii l); [done| |done].
  intros a. unfold printable, is_ascii. rewrite !bool_decide_eq_true. lia.
Qed.

Lemma insert_header_line m kv :
  plain_header kv -> insert_header m (header_line kv) = <[to_ascii_lowercase kv.1 := kv.2]> m.
Proof.
  destruct kv as [k v]. intros (_ & _ & Hc & Hk & Hv). simpl in *.
  unfold insert_header, header_line. simpl.
  assert (split_once ":"%char (k +:+ ":" +:+ " " +:+ v) = Some (k, " " +:+ v)) as ->.
  { apply split_once_Some. by split. }
  change (" " +:+ v) with (String " " v). by rewrite Hk, trim_space, Hv.
Qed.

Lemma status_word status phrase :
  0 <= status ->
  split_whitespace ("HTTP/1.1 " +:+ show status +:+ " " +:+ phrase)
    = "HTTP/1.1" :: show status :: split_whitespace phrase.
Proof.
  intros Hs.
  assert (all_bytes graphic (show status) = true) as Hg.
  { eapply all_bytes_impl; [|by apply show_all_dec]. intros a. unfold is_dec, graphic.
    rewrite !bool_decide_eq_true. unfold dec_digit. case_bool_decide; [lia|by intros []]. }
  change ("HTTP/1.1 " +:+ ?s) with ("HTTP/1.1" +:+ String " " s).
  rewrite split_whitespace_cons by done.
  change (" " +:+ phrase) with (String " " phrase).
  rewrite split_whitespace_cons; [done|done|by apply show_length_pos].
Qed.

(** The lines of a response that can be carried are printable and not empty. *)
Lemma response_lines status phrase headers :
  0 <= status -> all_bytes printable phrase = true -> Forall plain_header headers ->
  Forall (fun l => all_bytes printable l = true /\ l <> EmptyString)
    (("HTTP/1.1 " +:+ show status +:+ " " +:+ phrase) :: (header_line <$> headers)).
Proof.
  intros Hst Hph Hh.
  assert (all_bytes printable (show status) = true) as Hshow.
  { eapply all_bytes_impl; [|apply show_all_dec; lia]. intros a. unfold is_dec, printable.
    rewrite !bool_decide_eq_true. unfold dec_digit. case_bool_decide; [lia|by intros []]. }
  constructor; [split; [by rewrite !all_bytes_app, Hshow, Hph|done]|].
  apply Forall_fmap. eapply Forall_impl; [exact Hh|]. intros [k v] (Hk & Hv & _). simpl in *.
  unfold header_line. simpl. split; [by rewrite !all_bytes_app, Hk, Hv|]. by destruct k.
Qed.

Lemma parse_http_response_eq status phrase headers body :
  0 <= status <= u16_max -> all_bytes printable phrase = true -> Forall plain_header headers ->
  parse_http_response (http_response status phrase headers body) =
    (body' ← (if is_chunked (header_map headers) then dechunk body else Some (from_utf8_lossy body));
     Some (status, header_map headers, body')).
Proof.
  intros Hst Hph Hh.
  set (ls := ("HTTP/1.1 " +:+ show status +:+ " " +:+ phrase) :: (header_line <$> headers)).
  pose proof (response_lines status phrase headers ltac:(lia) Hph Hh) as Hls. fold ls in Hls.
  assert (Forall (fun l => all_bytes printable l = true) ls) as Hls'
    by (eapply Forall_impl; [exact Hls|naive_solver]).
  destruct (find_end_lines ls body) as (i & Hi & Hlen); [done|done|].
  unfold parse_http_response, find_header_end, http_response. fold ls. rewrite Hi.
  cbn [mbind option_bind]. rewrite Hlen, foldr_lines_app, str_take_app, str_drop_app.
  rewrite block_ascii by done. cbn [mbind option_bind].
  rewrite lines_header_block by done. unfold ls at 1. cbn [app].
  rewrite status_word by lia. simpl lookup. cbn [mbind option_bind].
  unfold parse_u16. rewrite parse_show by done. cbn [mbind option_bind].
  rewrite foldl_snoc. simpl insert_header at 1.
  assert (foldl insert_header ∅ (header_line <$> headers) = header_map headers) as ->; [|done].
  unfold header_map. generalize (∅ : gmap string string) as m. clear -Hh.
  induction Hh as [|kv headers Hkv Hh IH]; intros m; simpl; [done|].
  rewrite insert_header_line by done. apply IH.
Qed.

(** C23. The response parser inverts the wire format: a response with any
    16-bit status, any printable reason phrase, any plain headers and any body
    is read back as that status, those headers (names lower-cased, the last of
    equal names winning) and that body - the body's bytes decoded as UTF-8, or
    first dechunked when the headers say so. *)
Theorem parse_http_response_roundtrip status phrase headers body :
  0 <= status <= u16_max -> all_bytes printable phrase = true -> Forall plain_header headers ->
  parse_http_response (http_response status phrase headers body) =
    (body' ← (if is_chunked (header_map headers) then dechunk body else Some (from_utf8_lossy body));
     Some (status, header_map headers, body')).
Proof. apply parse_http_response_eq. Qed.

(** ** URLs *)

(** A host name or a bracketed address: printable, no slash, not only brackets. *)
Definition plain_host (host : string) : Prop :=
  all_bytes graphic host = true /\ contains_char "/"%char host = false
  /\ trim_matches is_bracket host <> EmptyString.

Lemma show_graphic z : 0 <= z -> all_bytes graphic (show z) = true.
Proof.
  intros Hz. eapply all_bytes_impl; [|by apply show_all_dec]. intros a. unfold is_dec, graphic.
  rewrite !bool_decide_eq_true. unfold dec_digit. case_bool_decide; [lia|by intros []].
Qed.

Lemma show_not c z : 0 <= z -> dec_digit c = None -> contains_char c (show z) = false.
Proof.
  intros Hz Hc. eapply contains_char_not; [by apply show_all_dec|]. unfold is_dec.
  rewrite Hc. apply bool_decide_eq_false. by intros [].
Qed.

Lemma split_path c auth path :
  contains_char c auth = false -> path = EmptyString \/ (exists p, path = String c p) ->
  match split_on c (auth +:+ path) with w :: _ => w | [] => EmptyString end = auth.
Proof.
  intros Ha [->|[p ->]].
  - by rewrite str_app_nil_r, split_on_absent.
  - by rewrite split_on_cons.
Qed.

(** An [http://] URL is split into exactly the authority it was built
    from, with or without a path: the host and its port, or port 8080 when it
    names none. Anything that is not an [http://] URL is refused - an
    [https://] head is never dialed - and an accepted URL always has a
    non-empty host and a 16-bit port. *)
Theorem parse_head_url_roundtrip host port path :
  plain_host host -> 0 <= port <= u16_max -> path = EmptyString \/ (exists p, path = String "/" p) ->
  parse_head_url ("http://" +:+ host +:+ ":" +:+ show port +:+ path) = Ok (host, port)
  /\ (contains_char ":"%char host = false ->
        parse_head_url ("http://" +:+ host +:+ path) = Ok (host, DEFAULT_HEAD_PORT))
  /\ (forall base, strip_prefix "http://" base = None ->
        exists d, parse_head_url base = Err (BadHeadUrl d))
  /\ (forall base h p, parse_head_url base = Ok (h, p) -> h <> EmptyString /\ 0 <= p <= u16_max).
Proof.
  intros (Hg & Hs & Hb) Hport Hpath.
  assert (forall a s, strip_prefix a (a +:+ s) = Some s) as Hstrip by (intros; by apply strip_prefix_Some).
  assert (host <> EmptyString) as Hne by (intros ->; by apply Hb).
  assert (String.eqb (trim_matches is_bracket host) "" = false) as Hbr by by apply String.eqb_neq.
  split_and!.
  - unfold parse_head_url. rewrite Hstrip. cbn [ok_or mbind result_bind].
    replace (host +:+ ":" +:+ show port +:+ path) with ((host +:+ ":" +:+ show port) +:+ path)
      by by rewrite !str_app_assoc.
    rewrite split_path; [|by rewrite !contains_char_app, Hs, show_not by (done || lia)|done].
    rewrite trim_graphic by (rewrite !all_bytes_app, Hg, show_graphic by lia; done).
    assert (String.eqb (host +:+ ":" +:+ show port) "" = false) as ->
      by (apply String.eqb_neq; by destruct host).
    change (":" +:+ show port) with (String ":" (show port)).
    rewrite rsplit_once_last by (apply show_not; [lia|done]).
    unfold parse_u16. rewrite parse_show by done. cbn [ok_or mbind result_bind]. by rewrite Hbr.
  - intros Hc. unfold parse_head_url. rewrite Hstrip. cbn [ok_or mbind result_bind].
    rewrite split_path by done. rewrite trim_graphic by done.
    assert (String.eqb host "" = false) as -> by by apply String.eqb_neq.
    rewrite rsplit_once_absent by done. cbn [mbind result_bind]. by rewrite Hbr.
  - intros base Hn. unfold parse_head_url. rewrite Hn. cbn. eauto.
  - intros base h p. unfold parse_head_url.
    destruct (strip_prefix "http://" base) as [rest|]; [|done]. cbn [ok_or mbind result_bind].
    set (authority := trim _). destruct (String.eqb authority ""); [done|].
    destruct (rsplit_once ":"%char authority) as [[h' p']|] eqn:Er.
    + destruct (parse_u16 p') as [z|] eqn:Ep; [|done]. cbn [ok_or mbind result_bind].
      apply parse_unsigned_bounds in Ep; [|apply dec_digit_nonneg|done|done].
      destruct (String.eqb_spec (trim_matches is_bracket h') ""); [done|].
      intros [= <- <-]. split; [|done]. by intros ->.
    + cbn [mbind result_bind].
      destruct (String.eqb_spec (trim_matches is_bracket authority) ""); [done|].
      intros [= <- <-]. split; [by intros ->|]. by unfold DEFAULT_HEAD_PORT.
Qed.

(** ** The answer *)

Section client.
Context (exchange : string -> string -> result NetError string).
Context (encode_request : PlanRequest -> result string string).
Context (decode_fragment : string -> result string PlanFragment).
Context (parse_json : string -> option Json).

Let ask := ask_head exchange encode_request decode_fragment parse_json.

(** C24. One ask of a reachable head, end to end. If the head's answer is an
    HTTP response with a plain body, the client returns a fragment only for a
    2xx status with a body that decodes to one; 403 becomes
    [escalate-nowhere] with the header's constraint, else the body's detail;
    404 becomes an unknown role; every other status a [BadResponse] carrying
    that status. If nothing answered, it is [backend-down]. *)
Theorem ask_head_spec host port req json answer :
  plain_host host -> 0 <= port <= u16_max -> encode_request req = Ok json ->
  let url := "http://" +:+ host +:+ ":" +:+ show port in
  exchange (host +:+ ":" +:+ show port)
    (http_request (host +:+ ":" +:+ show port) PLAN_ENDPOINT_PATH json) = answer ->
  match answer with
  | Err _ => exists d, ask url req = Err (HeadUnreachable d)
  | Ok raw =>
      forall status phrase headers body,
      raw = http_response status phrase headers body ->
      0 <= status <= u16_max -> all_bytes printable phrase = true -> Forall plain_header headers ->
      is_chunked (header_map headers) = false -> utf8_valid body = true ->
      (forall fr, ask url req = Ok fr <-> 200 <= status <= 299 /\ decode_fragment body = Ok fr)
      /\ (status = 403 -> exists c, ask url req = Err (EscalateNowhere c)
            /\ (forall v, header_map headers !! "x-escalate-constraint" = Some v ->
                  trim v <> EmptyString -> c = Some v)
            /\ (header_map headers !! "x-escalate-constraint" = None -> c = json_detail parse_json body))
      /\ (status = 404 -> ask url req = Err (UnknownRole (pr_role req)))
      /\ (~ (200 <= status <= 299) -> status <> 403 -> status <> 404 ->
            ask url req = Err (BadResponse status
              (if bool_decide (status >= 500) then "backend-down" else "executor-error")
              (truncate body 200)))
  end.
Proof.
  intros Hhost Hport Henc url Hans. unfold ask, ask_head.
  assert (parse_head_url url = Ok (host, port)) as ->.
  { destruct Hhost as (Hg & Hs & Hb).
    assert (forall a s, strip_prefix a (a +:+ s) = Some s) as Hstrip
      by (intros; by apply strip_prefix_Some).
    unfold url, parse_head_url. rewrite Hstrip. cbn [ok_or mbind result_bind].
    pose proof (split_path "/"%char (host +:+ ":" +:+ show port) EmptyString) as Hsp.
    rewrite str_app_nil_r in Hsp.
    rewrite Hsp; [|by rewrite !contains_char_app, Hs, show_not by (done || lia)|by left].
    rewrite trim_graphic by (rewrite !all_bytes_app, Hg, show_graphic by lia; done).
    assert (String.eqb (host +:+ ":" +:+ show port) "" = false) as ->
      by (apply String.eqb_neq; by destruct host).
    change (":" +:+ show port) with (String ":" (show port)).
    rewrite rsplit_once_last by (apply show_not; [lia|done]).
    unfold parse_u16. rewrite parse_show by done. cbn [ok_or mbind result_bind].
    by apply String.eqb_neq in Hb as ->. }
  cbn [mbind result_bind]. rewrite Henc. cbn [map_err mbind result_bind]. unfold http_post.
  rewrite Hans. destruct answer as [raw|[]]; [|cbn; eauto..].
  intros status phrase headers body -> Hst Hph Hh Hck Hu.
  assert (parse_http_response (http_response status phrase headers body)
          = Some (status, header_map headers, body)) as ->.
  { rewrite parse_http_response_eq by done. rewrite Hck. cbn [mbind option_bind].
    by rewrite lossy_valid. }
  cbn [ok_or mbind result_bind]. split_and!.
  - intros fr. case_bool_decide as H1.
    + destruct (decode_fragment body); simpl; naive_solver.
    + repeat case_bool_decide; naive_solver.
  - intros ->. rewrite bool_decide_eq_false_2, bool_decide_eq_true_2 by lia.
    eexists. split; [done|]. split; [|by intros ->].
    intros v -> Hv. by apply String.eqb_neq in Hv as ->.
  - intros ->. rewrite !bool_decide_eq_false_2, bool_decide_eq_true_2 by lia. done.
  - intros H1 H2 H3. by rewrite !bool_decide_eq_false_2 by lia.
Qed.

End client.

(** ** Concrete instances *)

Lemma dechunk_roundtrip_witness :
  Forall (fun c => c <> EmptyString) ["coder"; "-lane-a"]
  /\ dechunk (chunked ["coder"; "-lane-a"]) = Some (from_utf8_lossy "coder-lane-a").
Proof.
  assert (Forall (fun c => c <> EmptyString) ["coder"; "-lane-a"]) as H
    by (repeat constructor; discriminate).
  split; [exact H|]. apply (dechunk_roundtrip _ H). vm_compute. discriminate.
Defined.

Definition demo_headers : list (string * string) :=
  [("Content-Type", "application/json"); ("X-Escalate-Constraint", "no slot")].

Lemma demo_headers_plain : Forall plain_header demo_headers.
Proof. repeat constructor. Qed.

Lemma parse_http_response_roundtrip_witness :
  0 <= 403 <= u16_max
  /\ parse_http_response (http_response 403 "Forbidden" demo_headers "{}") =
       Some (403, header_map demo_headers, "{}")
  /\ header_map demo_headers !! "x-escalate-constraint" = Some "no slot".
Proof.
  split; [by vm_compute|]. split; [|by vm_compute].
  pose proof (parse_http_response_roundtrip 403 "Forbidden" demo_headers "{}"
    ltac:(by vm_compute) ltac:(by vm_compute) demo_headers_plain) as H.
  refine (eq_trans H _). by vm_compute.
Defined.

Lemma demo_host_plain : plain_host "t440".
Proof. split_and!; by vm_compute. Qed.

Lemma parse_head_url_roundtrip_witness :
  plain_host "t440" /\ parse_head_url "http://t440:9090/fleet" = Ok ("t440", 9090).
Proof.
  split; [exact demo_host_plain|].
  refine (proj1 (parse_head_url_roundtrip "t440" 9090 "/fleet" demo_host_plain _ _));
    [by vm_compute|right; by exists "fleet"].
Defined.

Lemma ask_head_spec_witness :
  let exchange := fun _ _ => Ok (http_response 403 "Forbidden" demo_headers "{}") in
  plain_host "t440"
  /\ exists c, ask_head exchange (fun _ => Ok "{}") (fun _ => Err "no fragment") (fun _ => None)
       "http://t440:8080" (new_request "me" "coder") = Err (EscalateNowhere c)
     /\ c = Some "no slot".
Proof.
  intros exchange. split; [exact demo_host_plain|].
  pose proof (ask_head_spec exchange (fun _ => Ok "{}") (fun _ => Err "no fragment") (fun _ => None)
    "t440" 8080 (new_request "me" "coder") "{}" (exchange "t440:8080" "") demo_host_plain
    ltac:(by vm_compute) eq_refl eq_refl) as H. cbv zeta in H.
  destruct (H 403 "Forbidden" demo_headers "{}" eq_refl ltac:(by vm_compute) eq_refl
    demo_headers_plain ltac:(by vm_compute) ltac:(by vm_compute)) as (_ & H403 & _).
  destruct (H403 eq_refl) as (c & Hc & Hv & _). exists c. split; [exact Hc|].
  apply Hv; by vm_compute.
Defined.
