(* ===== verification/RpcAuth.v ===== *)
(** * Application-layer authorization (nauti-fabric/src/rpc_auth.rs) and the
    requests it inspects (rpc.rs, [RpcRequest])

    A provider is a name and a decision; the decision is a pure function of the
    connection and the request. [{:?}] of a [Duration] is an argument. *)

From stdpp Require Import base tactics option list gmap strings.
From S2P Require Import Prelude Str Resource.

#[local] Open Scope Z_scope.

(** ** Requests and responses *)

Inductive RpcRequest : Type :=
  | Ping
  | Inventory
  | FindAvailable (query : ResourceRequest)
  | LeaseExclusive (resource_id owner : string) (ttl_secs : Z)
  | Attach (adapter : string) (lease : Lease)
  | Release (lease : Lease)
  | LeaseRenew (lease : Lease) (ttl_secs : Z)
  | Heartbeat (node : string).

Record RpcError : Type := mkRpcError { message : string }.

Inductive RpcResponse : Type :=
  | Pong
  | InventoryResp (rs : list Resource)
  | FindAvailableResp (rs : list Resource)
  | Leased (l : Lease)
  | Attached (a : Attachment)
  | Released
  | Error (e : RpcError).

(** ** Providers *)

Record RequestContext : Type := mkRequestContext {
  remote_endpoint_id : string;
  local_endpoint_id : string;
}.

Inductive AuthRejection : Type :=
  | PolicyViolation (reason : string)
  | NotConfigured (adapter hint : string)
  | InvalidCredential (reason : string).

(** [AuthError] wraps the rejection. *)
Abbreviation AuthError := AuthRejection (only parsing).

(** [Display], and the conversion to the wire. *)
Definition rejection_display (r : AuthRejection) : string :=
  match r with
  | PolicyViolation reason => "policy violation: " +:+ reason
  | NotConfigured adapter hint => adapter +:+ " not configured: " +:+ hint
  | InvalidCredential reason => "invalid credential: " +:+ reason
  end.

Definition auth_error_to_rpc (r : AuthRejection) : RpcError := {| message := rejection_display r |}.

Record AuthProvider : Type := mkAuthProvider {
  auth_name : string;
  authorize : RequestContext -> RpcRequest -> result AuthRejection ();
}.

Definition NoAuth : AuthProvider :=
  {| auth_name := "none"; authorize := fun _ _ => Ok tt |}.

Section ttl_bound.
Context (show_duration : duration -> string).

Definition ttl_bound_authorize (min max : duration) (_ : RequestContext) (request : RpcRequest) :
    result AuthRejection () :=
  match request with
  | LeaseExclusive _ owner ttl_secs =>
      let ttl := from_secs ttl_secs in
      if bool_decide (ttl < min) then
        Err (PolicyViolation ("lease ttl " +:+ show_duration ttl +:+ " for owner "
               +:+ debug_str owner +:+ " is below minimum " +:+ show_duration min))
      else if bool_decide (ttl > max) then
        Err (PolicyViolation ("lease ttl " +:+ show_duration ttl +:+ " for owner "
               +:+ debug_str owner +:+ " exceeds maximum " +:+ show_duration max))
      else Ok tt
  | _ => Ok tt
  end.

Definition TtlBound (min max : duration) : AuthProvider :=
  {| auth_name := "ttl-bound"; authorize := ttl_bound_authorize min max |}.

(** [TtlBound::default()]. *)
Definition default_ttl_bound : AuthProvider := TtlBound (from_secs 1) (from_secs 3600).

End ttl_bound.

Definition OAuth2Bearer (jwks_url audience : option string) : AuthProvider :=
  {| auth_name := "oauth2-bearer";
     authorize := fun _ _ =>
       Err (NotConfigured "oauth2-bearer"
              (match jwks_url, audience with
               | None, _ => "set [auth] jwks_url in nauti-agent.toml"
               | _, None => "set [auth] oauth.audience in nauti-agent.toml"
               | Some _, Some _ =>
                   "token validation not yet implemented; this is a documented stub"
               end)) |}.

Definition SharedSecret (token : option string) : AuthProvider :=
  {| auth_name := "shared-secret";
     authorize := fun _ _ =>
       Err (NotConfigured "shared-secret"
              (match token with
               | None => "set [auth] shared_secret.file in nauti-agent.toml"
               | Some _ => "header check not yet implemented; needs X-Nauti-Token on RpcRequest"
               end)) |}.
