(* ===== verification/Rpc.v ===== *)
(** * The agent protocol (nauti-fabric/src/rpc.rs)

    Frames on a byte stream, the dispatch of a request to the registry and the
    agent's loop over one connection. JSON text is an argument; a stream is the
    bytes that arrive and whether it was finished cleanly after them; which
    calls on the connection fail, and with what, is a [Transport]. *)

From stdpp Require Import base tactics option list gmap strings.
From Stdlib Require Import Ascii String.
From S2P Require Import Prelude Str Utf8 Resource Fabric RpcAuth.

#[local] Open Scope Z_scope.

Definition ALPN : string := "nauti-fabric/rpc/1".
Definition MAX_FRAME_BYTES : Z := 16 * 1024 * 1024.

Inductive RpcTransportError : Type :=
  | Io (e : string)
  | FrameTooLarge (len : Z)
  | ConnectionClosed
  | JsonError (e : string)
  | Iroh (e : string).

(** ** Frames *)

Definition le_byte (z i : Z) : ascii := byte_of (Z.to_nat ((z / 256 ^ i) `mod` 256)).

(** [u32::to_le_bytes] and [u32::from_le_bytes]. *)
Definition to_le_bytes (z : Z) : string :=
  String (le_byte z 0) (String (le_byte z 1) (String (le_byte z 2) (str1 (le_byte z 3)))).

Fixpoint from_le_bytes (s : string) : Z :=
  match s with
  | EmptyString => 0
  | String a s' => Z.of_nat (nat_of_ascii a) + 256 * from_le_bytes s'
  end.

Definition write_frame {T} (to_vec : T -> result string string) (value : T) :
    result RpcTransportError string :=
  bytes ← map_err JsonError (to_vec value);
  let len := Z.of_nat (String.length bytes) in
  if bool_decide (len <= u32_max) then Ok (to_le_bytes len +:+ bytes)
  else Err (FrameTooLarge u32_max).

(** Bytes that have arrived and whether the sender finished the stream. *)
Record Stream : Type := mkStream {
  st_bytes : string;
  st_finished : bool;
}.

(** [read_exact(n)]: the bytes, or whether the stream ended early. *)
Definition read_exact (n : nat) (s : Stream) : result bool (string * Stream) :=
  if bool_decide (n <= String.length (st_bytes s))%nat then
    Ok (str_take n (st_bytes s), mkStream (str_drop n (st_bytes s)) (st_finished s))
  else Err (st_finished s).

Definition read_frame {T} (from_slice : string -> result string T) (s : Stream) :
    result RpcTransportError (T * Stream) :=
  '(len_bytes, s) ← map_err (fun finished : bool =>
                        if finished then ConnectionClosed else Io "read") (read_exact 4 s);
  let len := from_le_bytes len_bytes in
  if bool_decide (len > MAX_FRAME_BYTES) then Err (FrameTooLarge len)
  else
    '(buf, s) ← map_err (fun _ : bool => Io "read") (read_exact (Z.to_nat len) s);
    value ← map_err JsonError (from_slice buf);
    Ok (value, s).

(** ** Dispatch *)

Section agent.
Context {W : Type}.

(** [From<FabricError> for RpcError] and [From<Result<T, FabricError>>]. *)
Definition fabric_error_to_rpc (e : FabricError) : RpcError :=
  {| message := fabric_error_display e |}.
Definition respond {T} (wrap : T -> RpcResponse) (r : result FabricError T) : RpcResponse :=
  match r with
  | Ok v => wrap v
  | Err e => Error (fabric_error_to_rpc e)
  end.

Definition dispatch (c : Clock) (request : RpcRequest) : ST (Fabric W) RpcResponse :=
  match request with
  | Ping => mret Pong
  | Inventory => fab ← st_get; mret (InventoryResp (resources_sorted fab))
  | FindAvailable query => rs ← find_available query; mret (FindAvailableResp rs)
  | LeaseExclusive resource_id owner ttl_secs =>
      r ← lease_exclusive c resource_id owner (from_secs ttl_secs); mret (respond Leased r)
  | Attach adapter lease => r ← attach c adapter lease; mret (respond Attached r)
  | Release lease => r ← release lease; mret (respond (fun _ => Released) r)
  | LeaseRenew lease ttl_secs =>
      r ← renew_lease c lease (from_secs ttl_secs); mret (respond Leased r)
  | Heartbeat node => _ ← heartbeat c node; mret Pong
  end.

(** [FabricAgent]: the provider and the agent's own endpoint. *)
Record FabricAgent : Type := mkFabricAgent {
  agent_auth : AuthProvider;
  agent_endpoint_id : string;
}.

Definition with_auth (auth : AuthProvider) (local_endpoint_id : string) : FabricAgent :=
  {| agent_auth := auth; agent_endpoint_id := local_endpoint_id |}.
Definition agent_new : FabricAgent := with_auth NoAuth "local".

(** Binding the endpoint under a key, or a fresh one, is iroh's; an agent knows
    itself by the identifier of its endpoint, and what it announces is the
    endpoint's address. *)
Section serving.
Context {Key Endpoint Addr : Type} (bind : option Key -> result string Endpoint) (addr_of : Endpoint -> Addr)
  (id_of : Endpoint -> string).

Definition serve_with_identity (auth : AuthProvider) (secret_key : option Key) :
    result RpcTransportError (FabricAgent * Addr) :=
  endpoint ← map_err Iroh (bind secret_key);
  Ok (with_auth auth (id_of endpoint), addr_of endpoint).
Definition serve_with_auth (auth : AuthProvider) : result RpcTransportError (FabricAgent * Addr) :=
  serve_with_identity auth None.
Definition serve : result RpcTransportError (FabricAgent * Addr) := serve_with_auth NoAuth.
End serving.

Definition agent_context (agent : FabricAgent) (remote_id : string) : RequestContext :=
  {| remote_endpoint_id := remote_id; local_endpoint_id := agent_endpoint_id agent |}.

(** One turn of the loop after the request is read. *)
Definition handle (agent : FabricAgent) (ctx : RequestContext) (c : Clock) (request : RpcRequest) :
    ST (Fabric W) RpcResponse :=
  match authorize (agent_auth agent) ctx request with
  | Ok _ => dispatch c request
  | Err rejection => mret (Error (auth_error_to_rpc rejection))
  end.

(** How serving a connection ended. *)
Inductive AcceptResult : Type :=
  | Accepted
  | AcceptFailed (e : RpcTransportError)
  | AcceptLinkFailed (e : string)
  | AcceptPanicked
  | AcceptOutOfFuel.

(** What a connection answers to the calls made on it. The moment of a call is
    the number of bytes sent before it, which grows with every turn. *)
Record Transport : Type := mkTransport {
  (** [accept_bi()]: its error, if it fails. *)
  tr_accept_bi : option string;
  (** Has the peer's application closed the connection? *)
  tr_app_closed : nat -> bool;
  (** The two [write_all]s of a frame: the error of the one that fails. *)
  tr_write_all : nat -> option string;
  (** [send.finish()]: its error, if it fails. *)
  tr_finish : nat -> option string;
}.

(** A connection on which no call fails. *)
Definition sound_transport (app_closed : bool) : Transport :=
  mkTransport None (fun _ => app_closed) (fun _ => None) (fun _ => None).

Section loop.
Context (decode_request : string -> result string RpcRequest).
Context (encode_response : RpcResponse -> result string string).
Context (link : Transport).

(** [write_frame] on the connection after [out]: the frame that was sent. *)
Definition send_response (out : string) (response : RpcResponse) : result RpcTransportError string :=
  frame ← write_frame encode_response response;
  match tr_write_all link (String.length out) with
  | Some e => Err (Io e)
  | None => Ok frame
  end.

(** The stream cannot be read any further. The wait for [connection.closed()]
    that follows a finished stream touches nothing: [Accepted] is the return
    after it. *)
Definition accept_end (e : RpcTransportError) (out : string) : AcceptResult :=
  match e with
  | ConnectionClosed =>
      match tr_finish link (String.length out) with
      | Some e => AcceptLinkFailed e
      | None => Accepted
      end
  | e => if tr_app_closed link (String.length out) then Accepted else AcceptFailed e
  end.

(** The loop of [FabricAgent::accept]; [out] is the frames that have been sent
    whole. *)
Fixpoint accept_loop (fuel : nat) (agent : FabricAgent) (ctx : RequestContext)
    (clocks : nat -> Clock) (s : Stream) (out : string) (fab : Fabric W) :
    AcceptResult * string * Fabric W :=
  match fuel with
  | O => (AcceptOutOfFuel, out, fab)
  | S f =>
      match read_frame decode_request s with
      | Err e => (accept_end e out, out, fab)
      | Ok (request, s') =>
          match handle agent ctx (clocks O) request fab with
          | (Panicked, fab') => (AcceptPanicked, out, fab')
          | (Done response, fab') =>
              match send_response out response with
              | Err e => (AcceptFailed e, out, fab')
              | Ok frame => accept_loop f agent ctx (fun n => clocks (S n)) s' (out +:+ frame) fab'
              end
          end
      end
  end.

(** Every turn consumes the four bytes of a length at least. *)
Definition accept (agent : FabricAgent) (remote_id : string) (clocks : nat -> Clock) (s : Stream)
    (fab : Fabric W) : AcceptResult * string * Fabric W :=
  match tr_accept_bi link with
  | Some e => (AcceptLinkFailed e, EmptyString, fab)
  | None =>
      accept_loop (S (String.length (st_bytes s))) agent (agent_context agent remote_id) clocks s
        EmptyString fab
  end.

End loop.
End agent.

(** ** The addresses a client dials *)

Inductive IpAddr : Type :=
  | V4 (o : Z * Z * Z * Z)
  | V6 (segments : list Z).

Definition is_direct_ip (ip : IpAddr) : bool :=
  match ip with
  | V4 (o0, o1, _, _) =>
      bool_decide (o0 = 10)
      || (bool_decide (o0 = 192) && bool_decide (o1 = 168))
      || (bool_decide (o0 = 100) && bool_decide (64 <= o1 < 128))
  | V6 _ => false
  end.

(** [as_ip] is the address of a [TransportAddr::Ip]; the other transports have none. *)
Definition prefer_direct {A} (as_ip : A -> option IpAddr) (addrs : list A) : list A :=
  let direct := filter (fun a => from_option is_direct_ip false (as_ip a) = true) addrs in
  match direct with [] => addrs | _ => direct end.
