(* ===== verification/RpcProps.v ===== *)
(** * What the agent protocol promises

    Frames round-trip within their size bound, a connection answers every
    request in order through the provider, and what the time-to-live provider
    does and does not bound. *)

From stdpp Require Import base tactics option list gmap strings fin_maps.
From Stdlib Require Import Ascii String.
From S2P Require Import Prelude Str Utf8 Resource Fabric FabricInv FabricOps RpcAuth Rpc.

#[local] Open Scope Z_scope.

(** ** Little-endian lengths *)

Lemma nat_of_byte n : (n < 256)%nat -> nat_of_ascii (byte_of n) = n.
Proof. apply nat_ascii_embedding. Qed.

Lemma le_byte_val z i : 0 <= i -> Z.of_nat (nat_of_ascii (le_byte z i)) = (z / 256 ^ i) `mod` 256.
Proof.
  intros Hi. unfold le_byte. pose proof (Z.mod_pos_bound (z / 256 ^ i) 256) as Hb.
  rewrite nat_of_byte by lia. lia.
Qed.

Lemma le_roundtrip z : 0 <= z <= u32_max -> from_le_bytes (to_le_bytes z) = z.
Proof.
  intros Hz. unfold to_le_bytes, str1. cbn [from_le_bytes]. rewrite !le_byte_val by lia.
  unfold u32_max in Hz. change (256 ^ 0) with 1. change (256 ^ 1) with 256.
  change (256 ^ 2) with 65536. change (256 ^ 3) with 16777216. rewrite Z.div_1_r.
  pose proof (Z.div_mod z 256). pose proof (Z.div_mod (z / 256) 256).
  pose proof (Z.div_mod (z / 65536) 256).
  assert (z / 65536 = z / 256 / 256) as E1 by (rewrite Z.div_div by lia; done).
  assert (z / 16777216 = z / 65536 / 256) as E2 by (rewrite Z.div_div by lia; done).
  rewrite E1 in *. rewrite E2.
  assert (0 <= z / 256 / 256 / 256 < 256).
  { rewrite !Z.div_div by lia. split; [apply Z.div_pos; lia|apply Z.div_lt_upper_bound; lia]. }
  rewrite (Z.mod_small (z / 256 / 256 / 256)) by lia. lia.
Qed.

(** ** Frames *)

Section frames.
Context {T : Type} (to_vec : T -> result string string) (from_slice : string -> result string T).

Definition frame_of (body : string) : string :=
  to_le_bytes (Z.of_nat (String.length body)) +:+ body.

Lemma write_frame_ok v body :
  to_vec v = Ok body -> Z.of_nat (String.length body) <= u32_max ->
  write_frame to_vec v = Ok (frame_of body).
Proof.
  intros Hv Hl. unfold write_frame. rewrite Hv. cbn [map_err mbind result_bind].
  by rewrite bool_decide_eq_true_2.
Qed.

Lemma read_exact_app a s fin :
  read_exact (String.length a) (mkStream (a +:+ s) fin) = Ok (a, mkStream s fin).
Proof.
  unfold read_exact. cbn [st_bytes st_finished].
  rewrite bool_decide_eq_true_2 by (rewrite str_length_app; lia).
  by rewrite str_take_app, str_drop_app.
Qed.

Lemma read_frame_of body v rest fin :
  from_slice body = Ok v -> Z.of_nat (String.length body) <= MAX_FRAME_BYTES ->
  read_frame from_slice (mkStream (frame_of body +:+ rest) fin) = Ok (v, mkStream rest fin).
Proof.
  intros Hv Hl. unfold read_frame, frame_of. rewrite str_app_assoc.
  change 4%nat with (String.length (to_le_bytes (Z.of_nat (String.length body)))).
  rewrite read_exact_app. cbn [map_err mbind result_bind].
  rewrite le_roundtrip by (unfold MAX_FRAME_BYTES, u32_max in *; lia).
  rewrite bool_decide_eq_false_2 by lia. rewrite Nat2Z.id, read_exact_app.
  cbn [map_err mbind result_bind]. by rewrite Hv.
Qed.

Lemma read_frame_large body rest fin :
  MAX_FRAME_BYTES < Z.of_nat (String.length body) <= u32_max ->
  read_frame from_slice (mkStream (frame_of body +:+ rest) fin)
    = Err (FrameTooLarge (Z.of_nat (String.length body))).
Proof.
  intros Hl. unfold read_frame, frame_of. rewrite str_app_assoc.
  change 4%nat with (String.length (to_le_bytes (Z.of_nat (String.length body)))).
  rewrite read_exact_app. cbn [map_err mbind result_bind].
  rewrite le_roundtrip by (unfold MAX_FRAME_BYTES in *; lia).
  by rewrite bool_decide_eq_true_2 by lia.
Qed.

End frames.

(** Framing. A value whose JSON is at most 16 MiB is written as a frame
    that the reader gives back, leaving the stream exactly after it. Above 16
    MiB the writer still succeeds and only the reader refuses, naming the size;
    above the range of a [u32] the writer itself refuses. *)
Theorem frame_roundtrip {T} (to_vec : T -> result string string) from_slice v body :
  to_vec v = Ok body -> from_slice body = Ok v ->
  let len := Z.of_nat (String.length body) in
  (len <= MAX_FRAME_BYTES -> forall rest fin, exists frame, write_frame to_vec v = Ok frame
     /\ read_frame from_slice (mkStream (frame +:+ rest) fin) = Ok (v, mkStream rest fin))
  /\ (MAX_FRAME_BYTES < len <= u32_max -> forall rest fin, exists frame, write_frame to_vec v = Ok frame
     /\ read_frame from_slice (mkStream (frame +:+ rest) fin) = Err (FrameTooLarge len))
  /\ (u32_max < len -> write_frame to_vec v = Err (FrameTooLarge u32_max)).
Proof.
  intros Hto Hfrom len. split_and!.
  - intros Hl rest fin. exists (frame_of body). split.
    + apply write_frame_ok; [done|]. unfold MAX_FRAME_BYTES, u32_max in *. lia.
    + by apply read_frame_of.
  - intros Hl rest fin. exists (frame_of body). split; [apply write_frame_ok; [done|lia]|].
    by apply read_frame_large.
  - intros Hl. unfold write_frame. rewrite Hto. cbn [map_err mbind result_bind].
    by rewrite bool_decide_eq_false_2 by lia.
Qed.

(** ** A connection *)

Section session.
Context {W : Type}.
Context (encode_request : RpcRequest -> string) (decode_request : string -> result string RpcRequest).
Context (encode_response : RpcResponse -> result string string).

(** The requests one after the other, as the controller expects them handled. *)
Fixpoint serve_all (agent : FabricAgent) (ctx : RequestContext) (clocks : nat -> Clock)
    (reqs : list RpcRequest) (fab : Fabric W) : option (list RpcResponse * Fabric W) :=
  match reqs with
  | [] => Some ([], fab)
  | r :: reqs =>
      match handle agent ctx (clocks O) r fab with
      | (Panicked, _) => None
      | (Done resp, fab') =>
          '(resps, fab'') ← serve_all agent ctx (fun n => clocks (S n)) reqs fab';
          Some (resp :: resps, fab'')
      end
  end.

(** A request the client can frame and the agent can read. *)
Definition wire_ok (r : RpcRequest) : Prop :=
  decode_request (encode_request r) = Ok r
  /\ Z.of_nat (String.length (encode_request r)) <= MAX_FRAME_BYTES.

Definition framable (resp : RpcResponse) (frame : string) : Prop :=
  write_frame encode_response resp = Ok frame.

(** On a connection on which no write fails, sending is framing. *)
Lemma send_response_sound app_closed out resp :
  send_response encode_response (sound_transport app_closed) out resp = write_frame encode_response resp.
Proof. unfold send_response. by destruct (write_frame encode_response resp). Qed.

Lemma accept_loop_session app_closed agent ctx reqs :
  forall fuel clocks out fab resps frames fab',
  Forall wire_ok reqs -> (length reqs < fuel)%nat ->
  serve_all agent ctx clocks reqs fab = Some (resps, fab') -> Forall2 framable resps frames ->
  accept_loop decode_request encode_response (sound_transport app_closed) fuel agent ctx clocks
    (mkStream (foldr (fun r s => frame_of (encode_request r) +:+ s) EmptyString reqs) true) out fab
  = (Accepted, foldl String.append out frames, fab').
Proof.
  induction reqs as [|r reqs IH]; intros [|fuel] clocks out fab resps frames fab' Hok Hf Hs Hfr;
    simpl in Hf; try lia.
  { simpl in Hs. injection Hs as <- <-. by inversion Hfr. }
  inversion Hok as [|? ? [Hdec Hlen] Hok']; subst. cbn [accept_loop foldr].
  rewrite (read_frame_of decode_request _ r) by done. cbn [serve_all] in Hs.
  destruct (handle agent ctx (clocks O) r fab) as [[resp|] fab1]; [|done].
  destruct (serve_all agent ctx (fun n => clocks (S n)) reqs fab1) as [[resps1 fab2]|] eqn:E; [|done].
  cbn [mbind option_bind] in Hs. injection Hs as <- <-.
  inversion Hfr as [|? frame ? frames1 Hw Hfr']; subst. unfold framable in Hw. rewrite send_response_sound, Hw.
  cbn [foldl]. eapply IH; [done|lia|exact E|done].
Qed.

(** One connection, end to end. The agent reads the frames of the requests
    off the stream, passes each through the provider and the registry, and
    sends one frame per request, in order - the exact frames of the responses -
    until the controller finishes the stream; the registry ends in the state
    those calls leave. *)
Theorem session_answers_in_order app_closed agent remote clocks reqs fab resps frames fab' :
  Forall wire_ok reqs ->
  serve_all agent (agent_context agent remote) clocks reqs fab = Some (resps, fab') ->
  Forall2 framable resps frames ->
  accept decode_request encode_response (sound_transport app_closed) agent remote clocks
    (mkStream (foldr (fun r s => frame_of (encode_request r) +:+ s) EmptyString reqs) true) fab
  = (Accepted, foldl String.append EmptyString frames, fab').
Proof.
  intros Hok Hs Hfr. unfold accept. eapply accept_loop_session; try done. cbn [st_bytes].
  clear. induction reqs as [|r reqs IH]; cbn [foldr length]; [lia|].
  rewrite str_length_app. unfold frame_of at 1. rewrite str_length_app.
  change (String.length (to_le_bytes _)) with 4%nat. lia.
Qed.

(** Everything the agent reads off a stream shortens it. *)
Lemma read_exact_shrinks n s a s' :
  read_exact n s = Ok (a, s') ->
  (String.length (st_bytes s') + n = String.length (st_bytes s))%nat.
Proof.
  unfold read_exact. case_bool_decide; [|done]. intros [= <- <-]. cbn. rewrite str_drop_length. lia.
Qed.

Lemma read_frame_shrinks {T} (from_slice : string -> result string T) s v s' :
  read_frame from_slice s = Ok (v, s') ->
  (String.length (st_bytes s') < String.length (st_bytes s))%nat.
Proof.
  unfold read_frame. destruct (read_exact 4 s) as [[len s1]|] eqn:E1; cbn; [|done].
  case_bool_decide; [done|].
  destruct (read_exact (Z.to_nat (from_le_bytes len)) s1) as [[buf s2]|] eqn:E2; cbn; [|done].
  destruct (from_slice buf); cbn; [|done]. intros [= <- <-].
  apply read_exact_shrinks in E1, E2. lia.
Qed.

Lemma accept_loop_fuel link agent ctx fuel clocks s out (fab : Fabric W) :
  (String.length (st_bytes s) < fuel)%nat ->
  (accept_loop decode_request encode_response link fuel agent ctx clocks s out fab).1.1 <> AcceptOutOfFuel.
Proof.
  revert clocks s out fab. induction fuel as [|fuel IH]; intros clocks s out fab Hf; [lia|].
  cbn [accept_loop]. destruct (read_frame decode_request s) as [[req s']|e] eqn:E.
  - destruct (handle agent ctx (clocks O) req fab) as [[resp|] fab1]; [|done].
    destruct (send_response encode_response link out resp); [|done].
    apply IH. apply read_frame_shrinks in E. lia.
  - unfold accept_end. cbn [fst]. by repeat case_match.
Qed.

(** The fuel of [accept] is enough on every stream. *)
Lemma accept_fuel link agent remote clocks s (fab : Fabric W) :
  (accept decode_request encode_response link agent remote clocks s fab).1.1 <> AcceptOutOfFuel.
Proof. unfold accept. destruct (tr_accept_bi link); [done|]. apply accept_loop_fuel. lia. Qed.

End session.

(** ** The time-to-live provider *)

Section ttl.
Context {W : Type} (show_duration : duration -> string).

(** Granting a lease through the agent. *)
Lemma handle_lease_granted agent ctx c id owner ttl (fab fab' : Fabric W) l :
  handle agent ctx c (LeaseExclusive id owner ttl) fab = (Done (Leased l), fab') ->
  authorize (agent_auth agent) ctx (LeaseExclusive id owner ttl) = Ok tt
  /\ lease_exclusive c id owner (from_secs ttl) fab = (Done (Ok l), fab').
Proof.
  unfold handle. destruct (authorize _ _ _) as [[]|]; [|done]. simpl. st_unfold.
  destruct (lease_exclusive c id owner (from_secs ttl) fab) as [[[?|?]|] ?]; simpl; naive_solver.
Qed.

(** C28. The time-to-live provider accepts a [LeaseExclusive] exactly when its
    seconds lie within the configured window, so every lease the agent grants
    on request expires at most [max] after the grant. But it looks at no other
    request: the holder of any live lease can renew it for any representable
    time - beyond [max] - in a single call. *)
Theorem ttl_bound_window min max agent ctx c (fab : Fabric W) :
  agent_auth agent = TtlBound show_duration min max ->
  (forall id owner ttl, authorize (agent_auth agent) ctx (LeaseExclusive id owner ttl) = Ok tt
     <-> min <= from_secs ttl <= max)
  /\ (forall id owner ttl l fab', handle agent ctx c (LeaseExclusive id owner ttl) fab
         = (Done (Leased l), fab') ->
       exists a, leases fab' !! id = Some a /\ al_lease a = l /\ al_expires_at a <= now c + max)
  /\ (forall l a ttl, leases_poisoned fab = false -> live_lease c (l_resource_id l) fab = Some a ->
       l_id (al_lease a) = l_id l -> is_Some (instant_add (now c) (from_secs ttl)) ->
       exists fab', handle agent ctx c (LeaseRenew l ttl) fab = (Done (Leased (al_lease a)), fab')
         /\ exists a', leases fab' !! l_resource_id l = Some a'
              /\ al_expires_at a' = now c + from_secs ttl).
Proof.
  intros Hauth. split_and!.
  - intros id owner ttl. rewrite Hauth. simpl. unfold ttl_bound_authorize.
    repeat case_bool_decide; split; try done; lia.
  - intros id owner ttl l fab' Hh. apply handle_lease_granted in Hh as [Ha Hl].
    rewrite Hauth in Ha. simpl in Ha. unfold ttl_bound_authorize in Ha.
    repeat case_bool_decide; try done.
    destruct (lease_exclusive_cases c id owner (from_secs ttl) fab) as [[_ Heq]|[_ Href]].
    + rewrite Hl in Heq. injection Heq as -> ->. eexists. simpl. rewrite lookup_insert_eq.
      split_and!; try done. simpl. lia.
    + rewrite Hl in Href. simpl in Href.
      destruct Href as [(?&_)|[(?&_&_&?&_)|[(?&_)|[(?&_)|(?&_)]]]]; congruence.
  - intros l a ttl Hp Ha Hid Hadd.
    unfold handle. rewrite Hauth. simpl. st_unfold.
    rewrite (renew_lease_ok c l (from_secs ttl) fab a) by done. simpl.
    eexists. split; [done|]. simpl. rewrite lookup_insert_eq. eauto.
Qed.

End ttl.

(** ** Concrete instances *)

Definition demo_encode (r : RpcRequest) : string := match r with Ping => "p" | _ => "i" end.
Definition demo_decode (s : string) : result string RpcRequest :=
  if String.eqb s "p" then Ok Ping else if String.eqb s "i" then Ok Inventory else Err "bad".
Definition demo_encode_response (r : RpcResponse) : result string string :=
  Ok (match r with Pong => "P" | _ => "R" end).

Lemma frame_roundtrip_witness :
  demo_decode "p" = Ok Ping
  /\ exists frame, write_frame (fun r => Ok (demo_encode r)) Ping = Ok frame
     /\ read_frame demo_decode (mkStream (frame +:+ "tail") true) = Ok (Ping, mkStream "tail" true).
Proof.
  split; [done|].
  destruct (frame_roundtrip (fun r => Ok (demo_encode r)) demo_decode Ping "p" eq_refl eq_refl)
    as (H & _). apply H. by vm_compute.
Defined.

Lemma session_answers_in_order_witness :
  Forall (wire_ok demo_encode demo_decode) [Ping; Inventory]
  /\ accept (W := ()) demo_decode demo_encode_response (sound_transport false) agent_new "peer" (fun _ => clock_at 0)
       (mkStream (frame_of "p" +:+ frame_of "i") true) demo_fab
     = (Accepted, frame_of "P" +:+ frame_of "R", demo_fab).
Proof.
  assert (Forall (wire_ok demo_encode demo_decode) [Ping; Inventory]) as H.
  { constructor; [|constructor; [|constructor]]; (split; [reflexivity|vm_compute; discriminate]). }
  split; [exact H|].
  refine (session_answers_in_order demo_encode demo_decode demo_encode_response false agent_new "peer"
    (fun _ => clock_at 0) [Ping; Inventory] demo_fab
    [Pong; InventoryResp (resources_sorted demo_fab)] [frame_of "P"; frame_of "R"] demo_fab H _ _).
  - reflexivity.
  - repeat constructor.
Defined.

Lemma ttl_bound_window_witness :
  let agent := mkFabricAgent (TtlBound (fun _ => "") (from_secs 1) (from_secs 3600)) "me" in
  exists fab', handle agent (agent_context agent "peer") (clock_at 3) (LeaseRenew demo_lease 86400)
    demo_leased = (Done (Leased demo_lease), fab')
  /\ exists a', leases fab' !! "gpu.0" = Some a' /\ al_expires_at a' = 3 + from_secs 86400.
Proof.
  intros agent.
  destruct (ttl_bound_window (W := ()) (fun _ => EmptyString) (from_secs 1) (from_secs 3600) agent
    (agent_context agent "peer") (clock_at 3) demo_leased eq_refl) as (_ & _ & H).
  apply (H demo_lease demo_active 86400); [by vm_compute|by vm_compute|done|].
  exists (3 + from_secs 86400). vm_compute. reflexivity.
Defined.
