(* ===== verification/RpcClient.v ===== *)
(** * The client of an agent (nauti-fabric/src/rpc.rs, [AgentClient])

    A call writes the frame of a request and reads the frame of a response; in
    between the agent takes one turn of its loop. The endpoint and the streams
    are iroh's: what binding, dialling and opening a stream give, how much of a
    frame arrives when the connection is lost in the middle of a call, and how a
    stream looks after that, are arguments. *)

From stdpp Require Import base tactics option list gmap strings.
From Stdlib Require Import Ascii String.
From S2P Require Import Prelude Str Utf8 Resource Fabric FabricInv RpcAuth Rpc RpcProps.

#[local] Open Scope Z_scope.

(** [Display] of [RpcTransportError]. *)
Definition transport_display (e : RpcTransportError) : string :=
  match e with
  | Io e => "i/o error: " +:+ e
  | FrameTooLarge len =>
      "frame of " +:+ show len +:+ " bytes exceeds maximum of " +:+ show MAX_FRAME_BYTES
  | ConnectionClosed => "connection closed before a complete frame was received"
  | JsonError e => "failed to encode/decode JSON: " +:+ e
  | Iroh e => "iroh transport error: " +:+ e
  end.

(** [AgentClient::connect]: the addresses dialled are the direct ones when there
    are any. *)
Definition client_connect {Endpoint Connection Streams Addr} (as_ip : Addr -> option IpAddr)
    (bind : result string Endpoint) (dial : Endpoint -> list Addr -> string -> result string Connection)
    (open_bi : Connection -> result string Streams) (addrs : list Addr) :
    result RpcTransportError (Endpoint * Connection * Streams) :=
  endpoint ← map_err Iroh bind;
  connection ← map_err Iroh (dial endpoint (prefer_direct as_ip addrs) ALPN);
  streams ← map_err Iroh (open_bi connection);
  Ok (endpoint, connection, streams).

(** [AgentClient::close]: only finishing the stream can fail; reading the agent's
    end and closing the connection and the endpoint are best effort. *)
Definition client_close (finish : result string ()) : result RpcTransportError () := map_err Iroh finish.

Section client.
Context {W : Type}.
Context (encode_request : RpcRequest -> result string string) (decode_request : string -> result string RpcRequest).
Context (encode_response : RpcResponse -> result string string)
  (decode_response : string -> result string RpcResponse).
(** Does the stream of an agent that stopped serving end cleanly? *)
Context (lost_cleanly : bool).
(** A call on a stream whose sides are no longer in step. *)
Context (stale : RpcRequest -> Fabric W -> result RpcTransportError RpcResponse * Fabric W).

(** One turn of the agent's loop on what has arrived: the frame it sends and
    the rest of the stream, unless it stops serving. *)
Definition agent_turn (agent : FabricAgent) (ctx : RequestContext) (c : Clock) (s : Stream) (fab : Fabric W) :
    option (string * Stream) * Fabric W :=
  match read_frame decode_request s with
  | Err _ => (None, fab)
  | Ok (request, s') =>
      match handle agent ctx c request fab with
      | (Panicked, fab') => (None, fab')
      | (Done response, fab') =>
          (match write_frame encode_response response with
           | Err _ => None
           | Ok frame => Some (frame, s')
           end, fab')
      end
  end.

(** A connection: the agent's registry, and whether client and agent are both
    between two frames. *)
Record Conn : Type := mkConn {
  cn_fabric : Fabric W;
  cn_in_step : bool;
}.

(** What becomes of the connection during a call: nothing, or it is lost after
    so many bytes of the request - with the error the write returns, unless the
    client has written everything before - or after so many of the response. *)
Inductive Wire : Type :=
  | Intact
  | RequestCut (n : nat) (write_error : option string)
  | AnswerCut (n : nat).

(** The part of the request's frame that reaches the agent. *)
Definition arrived (wire : Wire) (frame : string) : string :=
  match wire with RequestCut n _ => str_take n frame | _ => frame end.

(** What the client can read after the agent's turn. *)
Definition answer_stream (wire : Wire) (answer : option (string * Stream)) : Stream :=
  match answer, wire with
  | Some (frame, _), Intact => mkStream frame false
  | Some (frame, _), AnswerCut n => mkStream (str_take n frame) lost_cleanly
  | _, _ => mkStream EmptyString lost_cleanly
  end.

Definition kept (wire : Wire) : bool := match wire with Intact => true | _ => false end.

(** A frame read to its end leaves the two in step, whatever it held. *)
Definition step_after (wire : Wire) {A} (res : result RpcTransportError A) : bool :=
  match res with Ok _ | Err (JsonError _) => kept wire | _ => false end.

(** [AgentClient::call]. *)
Definition call_via (wire : Wire) (agent : FabricAgent) (ctx : RequestContext) (c : Clock) (request : RpcRequest) :
    ST Conn (result RpcTransportError RpcResponse) := fun conn =>
  if cn_in_step conn then
    match write_frame encode_request request with
    | Err e => (Done (Err e), conn)
    | Ok frame =>
        let '(answer, fab) := agent_turn agent ctx c (mkStream (arrived wire frame) false) (cn_fabric conn) in
        let res := match wire with
                   | RequestCut _ (Some e) => Err (Io e)
                   | _ => '(response, _) ← read_frame decode_response (answer_stream wire answer); Ok response
                   end in
        (Done res, mkConn fab (step_after wire res))
    end
  else let '(res, fab) := stale request (cn_fabric conn) in (Done res, mkConn fab false).

(** On a connection that is not lost. *)
Definition call : FabricAgent -> RequestContext -> Clock -> RpcRequest ->
    ST Conn (result RpcTransportError RpcResponse) := call_via Intact.

(** ** The turn is the loop's *)

Lemma accept_loop_turn link fuel agent ctx clocks s out fab :
  tr_write_all link (String.length out) = None ->
  match agent_turn agent ctx (clocks O) s fab with
  | (Some (frame, s'), fab') =>
      accept_loop decode_request encode_response link (S fuel) agent ctx clocks s out fab
      = accept_loop decode_request encode_response link fuel agent ctx (fun n => clocks (S n)) s'
          (out +:+ frame) fab'
  | (None, fab') =>
      exists r, accept_loop decode_request encode_response link (S fuel) agent ctx clocks s out fab
                = (r, out, fab')
  end.
Proof.
  intros Hlink. unfold agent_turn. cbn [accept_loop].
  destruct (read_frame decode_request s) as [[request s']|e]; [|by eexists].
  destruct (handle agent ctx (clocks O) request fab) as [[response|] fab']; [|by eexists].
  unfold send_response. rewrite Hlink.
  destruct (write_frame encode_response response) as [frame|e]; [done|by eexists].
Qed.

(** ** What travels *)

(** A value whose text is within the frame limit and is read back as the value. *)
Definition travels {T} (to_vec : T -> result string string) (from_slice : string -> result string T)
    (v : T) : Prop :=
  exists body, to_vec v = Ok body /\ Z.of_nat (String.length body) <= MAX_FRAME_BYTES
    /\ from_slice body = Ok v.

Lemma travels_frame {T} (to_vec : T -> result string string) from_slice v fin :
  travels to_vec from_slice v ->
  exists frame, write_frame to_vec v = Ok frame
    /\ read_frame from_slice (mkStream frame fin) = Ok (v, mkStream EmptyString fin).
Proof.
  intros (body & Hv & Hl & Hb). exists (frame_of body).
  rewrite (write_frame_ok to_vec v body Hv) by (unfold MAX_FRAME_BYTES, u32_max in *; lia).
  split; [done|]. rewrite <-(str_app_nil_r (frame_of body)). by apply read_frame_of.
Qed.

(** How the client sees an agent that stopped serving. *)
Definition hung_up : RpcTransportError := if lost_cleanly then ConnectionClosed else Io "read".

Lemma read_hung_up {T} (from_slice : string -> result string T) :
  read_frame from_slice (mkStream EmptyString lost_cleanly) = Err hung_up.
Proof. unfold hung_up. by destruct lost_cleanly. Qed.

Lemma call_ok agent ctx c request fab response fab' :
  travels encode_request decode_request request -> travels encode_response decode_response response ->
  handle agent ctx c request fab = (Done response, fab') ->
  call agent ctx c request (mkConn fab true) = (Done (Ok response), mkConn fab' true).
Proof.
  intros (frame & Hw & Hr)%(travels_frame _ _ _ false) (frame' & Hw' & Hr')%(travels_frame _ _ _ false) Hh.
  unfold call, call_via, agent_turn. cbn [cn_in_step cn_fabric arrived]. rewrite Hw, Hr, Hh, Hw'.
  cbn [answer_stream]. by rewrite Hr'.
Qed.

Lemma call_panics agent ctx c request fab fab' :
  travels encode_request decode_request request ->
  handle agent ctx c request fab = (Panicked, fab') ->
  call agent ctx c request (mkConn fab true) = (Done (Err hung_up), mkConn fab' false).
Proof.
  intros (frame & Hw & Hr)%(travels_frame _ _ _ false) Hh.
  unfold call, call_via, agent_turn. cbn [cn_in_step cn_fabric arrived]. rewrite Hw, Hr, Hh.
  cbn [answer_stream]. rewrite read_hung_up. unfold hung_up. by destruct lost_cleanly.
Qed.

End client.

(** ** Frames that arrive in part *)

Definition size_of (body : string) : Z := Z.of_nat (String.length body).

Lemma write_frame_split {T} (to_vec : T -> result string string) v :
  write_frame to_vec v =
    match to_vec v with
    | Err e => Err (JsonError e)
    | Ok body => if bool_decide (size_of body <= u32_max) then Ok (frame_of body)
                 else Err (FrameTooLarge u32_max)
    end.
Proof. unfold write_frame, size_of. destruct (to_vec v); [|done]. cbn [map_err mbind result_bind]. by case_bool_decide. Qed.

(** The size of the frame of a text. *)
Definition frame_length (body : string) : nat := (4 + String.length body)%nat.

Lemma frame_of_length body : String.length (frame_of body) = frame_length body.
Proof. unfold frame_of. by rewrite str_length_app. Qed.

Lemma read_exact_short n s : (String.length (st_bytes s) < n)%nat -> read_exact n s = Err (st_finished s).
Proof. intros H. unfold read_exact. by rewrite bool_decide_eq_false_2 by lia. Qed.

Section partial_frames.
Context {T : Type} (from_slice : string -> result string T) (body : string).
Context (Hlen : size_of body <= u32_max).

(** A whole frame. *)
Lemma read_whole fin :
  read_frame from_slice (mkStream (frame_of body) fin) =
    if bool_decide (MAX_FRAME_BYTES < size_of body)
    then Err (FrameTooLarge (size_of body))
    else match from_slice body with
         | Ok v => Ok (v, mkStream EmptyString fin)
         | Err e => Err (JsonError e)
         end.
Proof.
  unfold size_of in *. rewrite <-(str_app_nil_r (frame_of body)). case_bool_decide; [apply read_frame_large; lia|].
  unfold read_frame, frame_of. rewrite str_app_assoc.
  change 4%nat with (String.length (to_le_bytes (Z.of_nat (String.length body)))).
  rewrite read_exact_app. cbn [map_err mbind result_bind]. rewrite le_roundtrip by lia.
  rewrite bool_decide_eq_false_2 by lia. rewrite Nat2Z.id, read_exact_app.
  cbn [map_err mbind result_bind]. by destruct (from_slice body).
Qed.

(** A frame that is cut short: in its length, or in its text. *)
Lemma read_cut n fin :
  (n < frame_length body)%nat ->
  read_frame from_slice (mkStream (str_take n (frame_of body)) fin) =
    Err (if decide (n < 4)%nat then hung_up fin
         else if bool_decide (MAX_FRAME_BYTES < size_of body) then FrameTooLarge (size_of body) else Io "read").
Proof.
  intros Hn. unfold size_of, frame_length in *. unfold read_frame. case_decide as H4.
  - rewrite read_exact_short by (cbn [st_bytes]; rewrite str_take_length; lia).
    unfold hung_up. by destruct fin.
  - assert (exists m, n = String.length (to_le_bytes (Z.of_nat (String.length body))) + m)%nat as [m ->]
      by (exists (n - 4)%nat; cbn; lia).
    unfold frame_of. rewrite str_take_app_add.
    change 4%nat with (String.length (to_le_bytes (Z.of_nat (String.length body)))).
    rewrite read_exact_app. cbn [map_err mbind result_bind]. rewrite le_roundtrip by lia.
    destruct (decide (MAX_FRAME_BYTES < Z.of_nat (String.length body))) as [Hm|Hm];
      [by rewrite !bool_decide_eq_true_2 by lia|].
    rewrite !bool_decide_eq_false_2 by lia. rewrite read_exact_short; [done|]. cbn [st_bytes].
    rewrite str_take_length. cbn in Hn. lia.
Qed.

End partial_frames.

(** ** How a call can end *)

Section endings.
Context {W : Type}.
Context (encode_request : RpcRequest -> result string string) (decode_request : string -> result string RpcRequest).
Context (encode_response : RpcResponse -> result string string)
  (decode_response : string -> result string RpcResponse).
Context (lost_cleanly : bool).
Context (stale : RpcRequest -> Fabric W -> result RpcTransportError RpcResponse * Fabric W).
Context (wire : Wire) (agent : FabricAgent) (ctx : RequestContext) (c : Clock).

(** The whole frame of [body] reaches the agent. *)
Definition delivered (body : string) : Prop :=
  match wire with RequestCut n _ => (frame_length body <= n)%nat | _ => True end.

#[local] Instance delivered_dec body : Decision (delivered body).
Proof. unfold delivered. destruct wire; solve_decision. Defined.

(** What the agent does about the request text [body]: the text it answers
    with, if any, and the registry after it. *)
Inductive agent_side (body : string) (fab : Fabric W) : option string -> Fabric W -> Prop :=
  | as_cut : ~ delivered body -> agent_side body fab None fab
  | as_too_large : delivered body -> MAX_FRAME_BYTES < size_of body -> agent_side body fab None fab
  | as_unreadable e : delivered body -> size_of body <= MAX_FRAME_BYTES -> decode_request body = Err e ->
      agent_side body fab None fab
  | as_panic request fab' : delivered body -> size_of body <= MAX_FRAME_BYTES -> decode_request body = Ok request ->
      handle agent ctx c request fab = (Panicked, fab') -> agent_side body fab None fab'
  | as_unencodable request response e fab' : delivered body -> size_of body <= MAX_FRAME_BYTES ->
      decode_request body = Ok request -> handle agent ctx c request fab = (Done response, fab') ->
      encode_response response = Err e -> agent_side body fab None fab'
  | as_unframable request response text fab' : delivered body -> size_of body <= MAX_FRAME_BYTES ->
      decode_request body = Ok request -> handle agent ctx c request fab = (Done response, fab') ->
      encode_response response = Ok text -> u32_max < size_of text -> agent_side body fab None fab'
  | as_answered request response text fab' : delivered body -> size_of body <= MAX_FRAME_BYTES ->
      decode_request body = Ok request -> handle agent ctx c request fab = (Done response, fab') ->
      encode_response response = Ok text -> size_of text <= u32_max -> agent_side body fab (Some text) fab'.

(** How many bytes of a response's frame reach the client. *)
Definition received (text : string) : nat :=
  match wire with
  | Intact => frame_length text
  | RequestCut _ _ => 0
  | AnswerCut n => Nat.min n (frame_length text)
  end.

(** What the client makes of the answer [text]; the flag says whether it read
    the frame to its end. *)
Inductive client_side (text : string) : result RpcTransportError RpcResponse -> bool -> Prop :=
  | cs_lost : (received text < 4)%nat -> client_side text (Err (hung_up lost_cleanly)) false
  | cs_too_large : (4 <= received text)%nat -> MAX_FRAME_BYTES < size_of text ->
      client_side text (Err (FrameTooLarge (size_of text))) false
  | cs_cut : (4 <= received text < frame_length text)%nat -> size_of text <= MAX_FRAME_BYTES ->
      client_side text (Err (Io "read")) false
  | cs_unreadable e : received text = frame_length text -> size_of text <= MAX_FRAME_BYTES ->
      decode_response text = Err e -> client_side text (Err (JsonError e)) true
  | cs_answer response : received text = frame_length text -> size_of text <= MAX_FRAME_BYTES ->
      decode_response text = Ok response -> client_side text (Ok response) true.

(** The client finished writing, as far as it can tell. *)
Definition written : Prop := match wire with RequestCut _ (Some _) => False | _ => True end.

(** Every way a call can end, and the connection after it. *)
Inductive call_ends (request : RpcRequest) (fab : Fabric W) :
    result RpcTransportError RpcResponse -> @Conn W -> Prop :=
  | ce_unencodable e : encode_request request = Err e ->
      call_ends request fab (Err (JsonError e)) (mkConn fab true)
  | ce_unframable body : encode_request request = Ok body -> u32_max < size_of body ->
      call_ends request fab (Err (FrameTooLarge u32_max)) (mkConn fab true)
  | ce_write_failed body n e answer fab' : encode_request request = Ok body -> size_of body <= u32_max ->
      wire = RequestCut n (Some e) -> agent_side body fab answer fab' ->
      call_ends request fab (Err (Io e)) (mkConn fab' false)
  | ce_hung_up body fab' : encode_request request = Ok body -> size_of body <= u32_max -> written ->
      agent_side body fab None fab' ->
      call_ends request fab (Err (hung_up lost_cleanly)) (mkConn fab' false)
  | ce_answered body text res whole fab' : encode_request request = Ok body -> size_of body <= u32_max ->
      written -> agent_side body fab (Some text) fab' -> client_side text res whole ->
      call_ends request fab res (mkConn fab' (whole && kept wire)).

Lemma agent_side_total body fab : exists answer fab', agent_side body fab answer fab'.
Proof.
  destruct (decide (delivered body)) as [Hd|Hd]; [|eauto using agent_side].
  destruct (decide (size_of body <= MAX_FRAME_BYTES)) as [Hs|Hs];
    [|eexists _, _; apply as_too_large; [done|lia]].
  destruct (decode_request body) as [request|e] eqn:Hr; [|eauto using agent_side].
  destruct (handle agent ctx c request fab) as [[response|] fab'] eqn:Hh; [|eauto using agent_side].
  destruct (encode_response response) as [text|e] eqn:He; [|eauto using agent_side].
  destruct (decide (size_of text <= u32_max)); [eauto using agent_side|].
  eexists _, _. eapply as_unframable; try done. lia.
Qed.

Lemma client_side_total text : exists res whole, client_side text res whole.
Proof.
  destruct (decide (received text < 4)%nat) as [H4|H4]; [eauto using client_side|].
  destruct (decide (size_of text <= MAX_FRAME_BYTES)) as [Hs|Hs];
    [|eexists _, _; apply cs_too_large; lia].
  assert (received text <= frame_length text)%nat by (unfold received; destruct wire; lia).
  destruct (decide (received text = frame_length text)) as [Hr|Hr];
    [|eexists _, _; apply cs_cut; lia].
  destruct (decode_response text) eqn:Hd; eauto using client_side.
Qed.

(** The agent's turn on what has arrived. *)
Lemma agent_side_turn body fab answer fab' :
  size_of body <= u32_max -> agent_side body fab answer fab' ->
  exists s', agent_turn decode_request encode_response agent ctx c (mkStream (arrived wire (frame_of body)) false) fab
             = ((fun text => (frame_of text, s')) <$> answer, fab').
Proof.
  intros Hs H. exists (mkStream EmptyString false). unfold agent_turn.
  destruct (decide (delivered body)) as [Hd|Hd].
  - assert (arrived wire (frame_of body) = frame_of body) as ->.
    { unfold delivered, arrived in *. destruct wire; [done| |done]. apply str_take_all. by rewrite frame_of_length. }
    rewrite read_whole by done. case_bool_decide; [inversion H; subst; done || lia|].
    inversion H; subst; try done; try lia; match goal with E : decode_request _ = _ |- _ => rewrite E end;
      try done; match goal with E : handle _ _ _ _ _ = _ |- _ => rewrite E end; try done;
      rewrite write_frame_split; match goal with E : encode_response _ = _ |- _ => rewrite E end; try done;
      case_bool_decide; done || lia.
  - unfold delivered in Hd. destruct wire as [|n e|] eqn:Hw; [done| |done]. cbn [arrived].
    rewrite read_cut by (done || lia). by inversion H; subst; unfold delivered in *; rewrite Hw in *.
Qed.

(** What the client reads of the answer. *)
Lemma client_side_read text s' res whole :
  size_of text <= u32_max -> client_side text res whole ->
  ('(response, _) ← read_frame decode_response (answer_stream lost_cleanly wire (Some (frame_of text, s'))); Ok response)
    = res
  /\ step_after wire res = whole && kept wire.
Proof.
  intros Hs H.
  assert (forall fin, received text = frame_length text ->
    ('(response, _) ← read_frame decode_response (mkStream (frame_of text) fin); Ok response) = res
    /\ step_after wire res = whole && kept wire) as Hwhole.
  { intros fin Hr. rewrite read_whole by done. case_bool_decide.
    - inversion H; subst; try lia; [unfold frame_length in *; lia|done].
    - inversion H; subst; unfold frame_length in *; try lia;
        match goal with E : decode_response _ = _ |- _ => by rewrite E end. }
  destruct (decide (received text = frame_length text)) as [Hr|Hr].
  - assert (exists fin, answer_stream lost_cleanly wire (Some (frame_of text, s')) = mkStream (frame_of text) fin)
      as [fin ->]; [|by apply Hwhole].
    unfold received, answer_stream in *. destruct wire as [|n e|n]; [eauto|done|]. exists lost_cleanly.
    rewrite str_take_all; [done|]. rewrite frame_of_length. lia.
  - assert (answer_stream lost_cleanly wire (Some (frame_of text, s'))
            = mkStream (str_take (received text) (frame_of text)) lost_cleanly) as ->.
    { unfold received, answer_stream in *. destruct wire as [|n e|n]; [done|done|]. f_equal. f_equal. lia. }
    rewrite read_cut by (try done; unfold received in *; destruct wire; unfold frame_length in *; lia).
    case_decide; inversion H; subst; try lia; [unfold hung_up; by destruct lost_cleanly|..];
      [rewrite bool_decide_eq_true_2 by lia|rewrite bool_decide_eq_false_2 by lia]; done.
Qed.

Lemma call_ends_total request fab : exists res conn', call_ends request fab res conn'.
Proof.
  destruct (encode_request request) as [body|e] eqn:He; [|eauto using call_ends].
  destruct (decide (size_of body <= u32_max)) as [Hs|Hs]; [|eexists _, _; eapply ce_unframable; [done|lia]].
  destruct (agent_side_total body fab) as (answer & fab' & Ha).
  assert (written \/ exists n e, wire = RequestCut n (Some e)) as [Hw|(n & e & Hw)]
    by (unfold written; destruct wire as [|n [e|]|]; eauto).
  - destruct answer as [text|]; [|eauto using call_ends].
    destruct (client_side_total text) as (res & whole & Hc). eauto using call_ends.
  - eauto using call_ends.
Qed.

Lemma call_ends_call request fab res conn' :
  call_ends request fab res conn' ->
  call_via encode_request decode_request encode_response decode_response lost_cleanly stale wire agent ctx c request
    (mkConn fab true) = (Done res, conn').
Proof.
  intros H. unfold call_via. cbn [cn_in_step cn_fabric]. rewrite write_frame_split.
  destruct H as [e He|body He Hs|body n e answer fab' He Hs Hw Ha|body fab' He Hs Hw Ha|body text res whole fab' He Hs Hw Ha Hc];
    rewrite He; [done|by rewrite bool_decide_eq_false_2 by lia|..];
    rewrite bool_decide_eq_true_2 by done;
    apply agent_side_turn in Ha as Ht; try done; destruct Ht as [s' ->].
  - by rewrite Hw.
  - cbn [fmap option_fmap option_map answer_stream]. rewrite read_hung_up. unfold written, hung_up in *.
    destruct wire as [|n [e|]|n], lost_cleanly; done.
  - assert (size_of text <= u32_max) as Ht by (by inversion Ha).
    destruct (client_side_read text s' res whole Ht Hc) as [Hr Hk].
    cbn [fmap option_fmap option_map]. rewrite <-Hk. unfold written in Hw.
    destruct wire as [|n [e|]|n]; [|done|..]; by rewrite Hr.
Qed.

(** The registry after a call is the one before it, or the handler's. *)
Lemma call_ends_registry request fab res conn' :
  call_ends request fab res conn' ->
  cn_fabric conn' = fab
  \/ exists body request', encode_request request = Ok body /\ decode_request body = Ok request'
       /\ cn_fabric conn' = (handle agent ctx c request' fab).2.
Proof.
  assert (forall body answer fab', encode_request request = Ok body -> agent_side body fab answer fab' ->
    fab' = fab \/ exists body request', encode_request request = Ok body /\ decode_request body = Ok request'
       /\ fab' = (handle agent ctx c request' fab).2) as Hside.
  { intros body answer fab' He H. inversion H; subst; (by left) || right; exists body; eexists; split_and!;
      try done; match goal with E : handle _ _ _ _ _ = _ |- _ => by rewrite E end. }
  destruct 1; try (by left); cbn [cn_fabric]; eauto.
Qed.

(** An answer is the agent's. *)
Lemma call_ends_ok request fab response conn' :
  call_ends request fab (Ok response) conn' ->
  exists body request' response' text, encode_request request = Ok body /\ decode_request body = Ok request'
    /\ handle agent ctx c request' fab = (Done response', cn_fabric conn')
    /\ encode_response response' = Ok text /\ decode_response text = Ok response.
Proof.
  inversion 1 as [| | | |body text res whole fab' He Hs Hw Ha Hc]; subst.
  inversion Ha; subst. inversion Hc; subst. cbn [cn_fabric]. naive_solver.
Qed.

End endings.

(** C25. What a remote call can come to. A call ends in exactly one of the ways
    of [call_ends], whatever the codecs, the registry and the moment at which
    the connection is lost: the request has no text or no frame, and nothing is
    sent; the write fails, or the frame is cut short, too large for the agent
    or unreadable to it, and the registry is untouched; the agent panics, or
    its response has no text, no frame, is too large for the client, is cut
    short or cannot be read, and the request has taken effect although the call
    is an error; or the call returns what the client reads of the agent's
    response. So the registry is only ever the one before the call or the one
    that handling the request leaves, once; an answer is never made up; and
    when request and response travel - their texts fit a frame and read back as
    themselves - on a connection that is kept, the call is the registry's. *)
Theorem call_over_wire {W} encode_request decode_request encode_response decode_response lost stale
    wire agent ctx c request (fab : Fabric W) :
  let remote := call_via encode_request decode_request encode_response decode_response lost stale wire agent ctx c
                  request (mkConn fab true) in
  (exists res conn', remote = (Done res, conn'))
  /\ (forall res conn', remote = (Done res, conn') <->
        call_ends encode_request decode_request encode_response decode_response lost wire agent ctx c request fab
          res conn')
  /\ (forall res conn', remote = (Done res, conn') ->
        cn_fabric conn' = fab
        \/ exists body request', encode_request request = Ok body /\ decode_request body = Ok request'
             /\ cn_fabric conn' = (handle agent ctx c request' fab).2)
  /\ (forall response conn', remote = (Done (Ok response), conn') ->
        exists body request' response' text, encode_request request = Ok body /\ decode_request body = Ok request'
          /\ handle agent ctx c request' fab = (Done response', cn_fabric conn')
          /\ encode_response response' = Ok text /\ decode_response text = Ok response)
  /\ (forall response fab', wire = Intact -> travels encode_request decode_request request ->
        travels encode_response decode_response response -> handle agent ctx c request fab = (Done response, fab') ->
        remote = (Done (Ok response), mkConn fab' true)).
Proof.
  intros remote.
  assert (forall res conn', remote = (Done res, conn') <->
    call_ends encode_request decode_request encode_response decode_response lost wire agent ctx c request fab res conn')
    as Hiff.
  { intros res conn'. split; [|by apply call_ends_call].
    destruct (call_ends_total encode_request decode_request encode_response decode_response lost wire agent ctx c
      request fab) as (res0 & conn0 & H0).
    unfold remote. rewrite (call_ends_call _ _ _ _ _ stale _ _ _ _ _ _ _ _ H0). by intros [= <- <-]. }
  split_and!.
  - destruct (call_ends_total encode_request decode_request encode_response decode_response lost wire agent ctx c
      request fab) as (res0 & conn0 & H0). exists res0, conn0. by apply Hiff.
  - exact Hiff.
  - intros res conn' H%Hiff. eapply call_ends_registry. exact H.
  - intros response conn' H%Hiff. by apply call_ends_ok in H.
  - intros response fab' Hwire Hreq Hresp Hh. unfold remote. rewrite Hwire.
    by apply (call_ok encode_request decode_request encode_response decode_response lost stale).
Qed.

(** ** Concrete instances *)

Definition demo_decode_response (s : string) : result string RpcResponse :=
  if String.eqb s "P" then Ok Pong else Err "bad".

(** A ping, answered; and one whose answer is lost in its length. *)
Lemma call_over_wire_witness :
  let remote wire := call_via (W := ()) (fun r => Ok (demo_encode r)) demo_decode demo_encode_response
    demo_decode_response true (fun _ f => (Err (Io "stale"), f)) wire agent_new (agent_context agent_new "peer")
    (clock_at 3) Ping (mkConn demo_fab true) in
  remote Intact = (Done (Ok Pong), mkConn demo_fab true)
  /\ remote (AnswerCut 2) = (Done (Err ConnectionClosed), mkConn demo_fab false).
Proof.
  intros remote.
  pose proof (fun wire => call_over_wire (W := ()) (fun r => Ok (demo_encode r)) demo_decode demo_encode_response
    demo_decode_response true (fun _ f => (Err (Io "stale"), f)) wire agent_new (agent_context agent_new "peer")
    (clock_at 3) Ping demo_fab) as H.
  split.
  - apply (H Intact); [done|exists "p"|exists "P"|]; (split_and!; [done|by vm_compute|done]) || done.
  - apply (H (AnswerCut 2)).
    apply (ce_answered _ _ _ _ _ _ _ _ _ _ _ "p" "P" (Err ConnectionClosed) false); [done|by vm_compute|done|..].
    + apply (as_answered _ _ _ _ _ _ _ _ Ping Pong); done || by vm_compute.
    + apply (cs_lost _ true). vm_compute. lia.
Defined.
