(* ===== verification/Connections.v ===== *)
(** * Many controllers on one agent (nauti-fabric/src/rpc.rs over lib.rs)

    The agent serves every connection in a task of its own over one shared
    registry. Here [FabricAgent::accept] is a process of [Interleave]: its
    requests are the lock operations and sections of the methods they dispatch
    to. A connection alone is [Rpc.accept]; what is proved of a pool holds
    of every schedule of any number of connections, next to any other callers
    of the registry. *)

From stdpp Require Import base tactics option list gmap strings pretty sorting fin_maps relations.
From Stdlib Require Import String.
From S2P Require Import Prelude Str Utf8 Resource Fabric FabricInv FabricOps Interleave InterleaveSolo InterleaveLive InterleaveSafe InterleaveLocks RpcAuth Rpc RpcProps.

#[local] Open Scope Z_scope.

(** ** A connection as a process *)

Section connection.
Context {W : Type}.

Definition dispatch_proc (request : RpcRequest) : Proc W RpcResponse :=
  match request with
  | Ping => mret Pong
  | Inventory => rs ← with_lock LResources Shared SResources; mret (InventoryResp rs)
  | FindAvailable query => rs ← find_available_proc query; mret (FindAvailableResp rs)
  | LeaseExclusive resource_id owner ttl_secs =>
      r ← lease_exclusive_proc resource_id owner (from_secs ttl_secs); mret (respond Leased r)
  | Attach adapter lease => r ← attach_proc adapter lease; mret (respond Attached r)
  | Release lease => r ← release_proc lease; mret (respond (fun _ => Released) r)
  | LeaseRenew lease ttl_secs =>
      r ← with_lock LLeases Exclusive (SRenew lease (from_secs ttl_secs)); mret (respond Leased r)
  | Heartbeat node => _ ← with_lock LHeartbeats Exclusive (SHeartbeat node); mret Pong
  end.

Definition handle_proc (agent : FabricAgent) (ctx : RequestContext) (request : RpcRequest) :
    Proc W RpcResponse :=
  match authorize (agent_auth agent) ctx request with
  | Ok _ => dispatch_proc request
  | Err rejection => mret (Error (auth_error_to_rpc rejection))
  end.

Context (decode_request : string -> result string RpcRequest).
Context (encode_response : RpcResponse -> result string string).
(** The loop of [accept]: how it ended and the frames it sent. *)
Fixpoint conn_loop (link : Transport) (fuel : nat) (agent : FabricAgent) (ctx : RequestContext) (s : Stream)
    (out : string) : Proc W (AcceptResult * string) :=
  match fuel with
  | O => mret (AcceptOutOfFuel, out)
  | S f =>
      match read_frame decode_request s with
      | Err e => mret (accept_end link e out, out)
      | Ok (request, s') =>
          response ← handle_proc agent ctx request;
          match send_response encode_response link out response with
          | Err e => mret (AcceptFailed e, out)
          | Ok frame => conn_loop link f agent ctx s' (out +:+ frame)
          end
      end
  end.

(** A peer, the bytes it sends and its connection. *)
Record Caller : Type := mkCaller {
  caller_remote : string;
  caller_stream : Stream;
  caller_link : Transport;
}.

Definition conn_proc (agent : FabricAgent) (cn : Caller) : Proc W (AcceptResult * string) :=
  match tr_accept_bi (caller_link cn) with
  | Some e => mret (AcceptLinkFailed e, EmptyString)
  | None =>
      conn_loop (caller_link cn) (S (String.length (st_bytes (caller_stream cn)))) agent
        (agent_context agent (caller_remote cn)) (caller_stream cn) EmptyString
  end.

(** The requests that can be read off a stream. *)
Fixpoint requests_in (fuel : nat) (s : Stream) : list RpcRequest :=
  match fuel with
  | O => []
  | S f => match read_frame decode_request s with
           | Ok (request, s') => request :: requests_in f s'
           | Err _ => []
           end
  end.
Definition conn_requests (cn : Caller) : list RpcRequest :=
  requests_in (S (String.length (st_bytes (caller_stream cn)))) (caller_stream cn).

End connection.

(** ** Alone, it is the loop of [Rpc] *)

(** An outcome of the process as a result of [accept_loop], which also keeps
    what had been sent before a panic. *)
Definition same_end {W} (o : outcome (AcceptResult * string) * Fabric W)
    (r : AcceptResult * string * Fabric W) : Prop :=
  o.2 = r.2 /\ match o.1 with
               | Done (ended, out) => r.1 = (ended, out)
               | Panicked => r.1.1 = AcceptPanicked
               end.

Section alone.
Context {W : Type}.
Context (decode_request : string -> result string RpcRequest).
Context (encode_response : RpcResponse -> result string string).
Implicit Types (fab : Fabric W).

Lemma solo_dispatch c request fab : solo c (dispatch_proc request) fab = dispatch c request fab.
Proof.
  destruct request; cbn [dispatch_proc dispatch]; [done|..];
    try (apply solo_bind_as; [first [apply solo_with_lock|apply solo_find|apply solo_lease
      |apply solo_attach|apply solo_release]|done]).
  all: rewrite solo_bind; unfold mbind, st_bind; by rewrite solo_with_lock.
Qed.

Lemma solo_handle agent ctx c request fab :
  solo c (handle_proc agent ctx request) fab = handle agent ctx c request fab.
Proof. unfold handle_proc, handle. destruct (authorize _ _ _); [apply solo_dispatch|done]. Qed.

Lemma solo_conn_loop link c fuel agent ctx s out fab :
  same_end (solo c (conn_loop decode_request encode_response link fuel agent ctx s out) fab)
    (accept_loop decode_request encode_response link fuel agent ctx (fun _ => c) s out fab).
Proof.
  revert s out fab. induction fuel as [|fuel IH]; intros s out fab; [done|].
  cbn [conn_loop accept_loop].
  destruct (read_frame decode_request s) as [[request s']|e]; [|done].
  rewrite solo_bind. unfold mbind, st_bind. rewrite solo_handle.
  destruct (handle agent ctx c request fab) as [[response|] fab']; [|done].
  destruct (send_response encode_response link out response); [apply IH|done].
Qed.

Lemma solo_conn c agent cn fab :
  same_end (solo c (conn_proc decode_request encode_response agent cn) fab)
    (accept decode_request encode_response (caller_link cn) agent (caller_remote cn) (fun _ => c)
       (caller_stream cn) fab).
Proof. unfold conn_proc, accept. destruct (tr_accept_bi (caller_link cn)); [done|]. apply solo_conn_loop. Qed.

End alone.

(** ** The lock discipline *)

Section discipline.
Context {W : Type}.
Context (decode_request : string -> result string RpcRequest).
Context (encode_response : RpcResponse -> result string string).

(** Either discipline of a process: closed under sequencing and kept by every call. *)
Lemma conn_closed (D : forall A, Proc W A -> Prop) agent cn :
  (forall A (a : A), D A (mret a)) ->
  (forall A B (p : Proc W A) (f : A -> Proc W B), D A p -> (forall a, D B (f a)) -> D B (p ≫= f)) ->
  D _ (with_lock LResources Shared SResources) ->
  (forall l ttl, D _ (with_lock LLeases Exclusive (SRenew l ttl))) ->
  (forall n, D _ (with_lock LHeartbeats Exclusive (SHeartbeat n))) ->
  (forall rq, D _ (find_available_proc rq)) -> (forall id owner ttl, D _ (lease_exclusive_proc id owner ttl)) ->
  (forall n l, D _ (attach_proc n l)) -> (forall l, D _ (release_proc l)) ->
  D _ (conn_proc decode_request encode_response agent cn).
Proof.
  intros Hret Hbind Hinventory Hrenew Hbeat Hfind Hlease Hattach Hrelease. unfold conn_proc.
  destruct (tr_accept_bi (caller_link cn)); [apply Hret|].
  generalize EmptyString as out. generalize (caller_stream cn) at 2 as s.
  generalize (S (String.length (st_bytes (caller_stream cn)))) as fuel.
  induction fuel as [|fuel IH]; intros s out; cbn [conn_loop]; [apply Hret|].
  destruct (read_frame decode_request s) as [[request s']|e]; [|apply Hret].
  apply Hbind; [|intros response; destruct (send_response encode_response _ out response); auto].
  unfold handle_proc. destruct (authorize _ _ _); [|apply Hret].
  destruct request; cbn [dispatch_proc]; auto.
Qed.

Lemma ordered_conn agent cn : ordered (W := W) [] (conn_proc decode_request encode_response agent cn).
Proof.
  apply (conn_closed (fun A p => ordered [] p)); try done; intros.
  - by apply ordered_bind.
  - apply ordered_with_lock.
  - apply ordered_with_lock.
  - apply ordered_with_lock.
  - apply ordered_find.
  - apply ordered_lease.
  - apply ordered_attach.
  - apply ordered_release.
Qed.

Lemma disciplined_conn known agent cn :
  disciplined (W := W) false known (conn_proc decode_request encode_response agent cn).
Proof.
  revert known. apply (conn_closed (fun A p => forall known, disciplined false known p)); intros.
  - apply disciplined_ret.
  - apply disciplined_bind; auto.
  - apply disciplined_inventory.
  - apply disciplined_renew.
  - apply disciplined_heartbeat.
  - apply disciplined_find.
  - apply disciplined_lease.
  - apply disciplined_attach.
  - apply disciplined_release.
Qed.

End discipline.

(** ** What the sections of a request may be, and what they hand back *)

Section contract.
Context {W : Type}.

(** Is [s] one of the sections of the method that [request] asks for, on the
    resource, lease and time the request names? *)
Definition acts_for (request : RpcRequest) {B} (s : Sec W B) : Prop :=
  match request, s with
  | Inventory, SResources => True
  | FindAvailable query, SLocked => True
  | FindAvailable query, SMatching rq => rq = query
  | LeaseExclusive id _ _, SResource id' => id' = id
  | LeaseExclusive id owner ttl, SGrant id' owner' ttl' =>
      id' = id /\ owner' = owner /\ ttl' = from_secs ttl
  | Attach _ l, SResource id => id = l_resource_id l
  | Attach _ l, SAuthorized l' => l' = l
  | Attach name _, SAdapter name' => name' = name
  | Attach _ l, SAttach _ _ l' => l' = l
  | Attach name l, SRecord id name' => id = l_resource_id l /\ name' = name
  | Release l, SReleaseCheck l' => l' = l
  | Release l, STake id => id = l_resource_id l
  | Release l, SResource id => id = l_resource_id l
  | Release _, SAdapter _ => True
  | Release l, SDetach _ _ l' => l' = l
  | Release l, SReleaseRemove l' => l' = l
  | LeaseRenew l ttl, SRenew l' ttl' => l' = l /\ ttl' = from_secs ttl
  | Heartbeat node, SHeartbeat node' => node' = node
  | _, _ => False
  end.

(** What a section promises of its result, whatever the registry holds. *)
Definition sec_post {B} (s : Sec W B) : B -> Prop :=
  match s in Sec _ B return B -> Prop with
  | SGrant id owner _ => fun r => forall l, r = Ok l -> l_resource_id l = id /\ l_owner l = owner
  | SRenew l _ => fun r => forall l', r = Ok l' -> l_id l' = l_id l
  | SMatching rq => fun rs => Forall (fun r => matches rq r = true) rs
  | _ => fun _ => True
  end.

Lemma run_sec_post {B} (s : Sec W B) c fab b fab' : run_sec s c fab = (Done b, fab') -> sec_post s b.
Proof.
  destruct s; cbn [run_sec sec_post]; try done.
  - unfold st_read. intros [= <- _]. apply Forall_forall. intros r Hr.
    by apply list_elem_of_filter in Hr as [[? _] _].
  - unfold lease_grant, lock_leases, panic_holding_leases. st_unfold.
    repeat (case_match; simplify_eq/=); intros; by simplify_eq.
  - unfold renew_lease, lock_leases, panic_holding_leases. st_unfold.
    repeat (case_match; simplify_eq/=); intros; by simplify_eq.
Qed.

(** Every section of the process satisfies [P], and every result [Q], whatever
    the registry answers within [sec_post]. *)
Fixpoint meets (P : forall B, Sec W B -> Prop) {A} (Q : A -> Prop) (p : Proc W A) : Prop :=
  match p with
  | Ret a => Q a
  | Acquire _ _ k => meets P Q k
  | Unlock _ k => meets P Q k
  | Act s k => P _ s /\ forall b, sec_post s b -> meets P Q (k b)
  end.

Lemma meets_bind (P : forall B, Sec W B -> Prop) {A B} (Q : A -> Prop) (Q' : B -> Prop)
    (p : Proc W A) (f : A -> Proc W B) :
  meets P Q p -> (forall a, Q a -> meets P Q' (f a)) -> meets P Q' (p ≫= f).
Proof. intros Hp Hf. induction p; simpl in *; naive_solver. Qed.

Lemma meets_weaken (P P' : forall B, Sec W B -> Prop) {A} (Q Q' : A -> Prop) (p : Proc W A) :
  (forall B (s : Sec W B), P B s -> P' B s) -> (forall a, Q a -> Q' a) -> meets P Q p -> meets P' Q' p.
Proof. intros HP HQ. induction p; simpl; naive_solver. Qed.

(** The answers a request can get. *)
Definition answers (request : RpcRequest) (response : RpcResponse) : Prop :=
  match request, response with
  | Ping, Pong | Heartbeat _, Pong => True
  | Inventory, InventoryResp _ => True
  | FindAvailable query, FindAvailableResp rs => Forall (fun r => matches query r = true) rs
  | LeaseExclusive id owner _, Leased l => l_resource_id l = id /\ l_owner l = owner
  | LeaseRenew l _, Leased l' => l_id l' = l_id l
  | Attach _ _, Attached _ => True
  | Release _, Released => True
  | LeaseExclusive _ _ _, Error e | LeaseRenew _ _, Error e | Attach _ _, Error e | Release _, Error e =>
      exists fe, e = fabric_error_to_rpc fe
  | _, _ => False
  end.

(** A process without a loop: branch by branch. *)
Ltac meet :=
  repeat (cbn; match goal with
  | |- _ /\ _ => split
  | |- forall _, _ => intros ?
  | |- meets _ _ (proc_mbind _ _ _ _) => eapply (meets_bind _ (fun _ => True))
  | |- meets _ _ (match ?x with _ => _ end) => destruct x
  | |- meets _ _ (proc_bind (match ?x with _ => _ end) _) => destruct x
  | |- meets _ _ (if ?x then _ else _) => destruct x
  | |- _ => done
  end).

Lemma meets_release l : meets (@acts_for (Release l)) (fun _ => True) (release_proc l).
Proof. meet. Qed.

Lemma meets_attach n l : meets (@acts_for (Attach n l)) (fun _ => True) (attach_proc n l).
Proof. meet. Qed.

Lemma meets_lease id owner ttl :
  meets (@acts_for (LeaseExclusive id owner ttl))
    (fun r => forall l, r = Ok l -> l_resource_id l = id /\ l_owner l = owner)
    (lease_exclusive_proc id owner (from_secs ttl)).
Proof. meet; naive_solver. Qed.

(** A request runs the sections of its own method, and gets its own kind of answer. *)
Lemma meets_dispatch request : meets (@acts_for request) (answers request) (dispatch_proc request).
Proof.
  destruct request; cbn [dispatch_proc]; try solve [meet].
  - eapply meets_bind; [apply meets_lease|]. intros [l|fe] Hr; cbn; eauto.
  - eapply meets_bind; [apply meets_attach|]. intros [a|fe] _; cbn; eauto.
  - eapply meets_bind; [apply meets_release|]. intros [[]|fe] _; cbn; eauto.
  - cbn. split; [done|]. intros [l|fe] Hr; cbn in *; eauto.
Qed.

(** The turn of the loop: a rejected request runs no section. *)
Definition served (agent : FabricAgent) (ctx : RequestContext) (request : RpcRequest) {B} (s : Sec W B) : Prop :=
  authorize (agent_auth agent) ctx request = Ok tt /\ acts_for request s.

Definition answered (agent : FabricAgent) (ctx : RequestContext) (request : RpcRequest)
    (response : RpcResponse) : Prop :=
  match authorize (agent_auth agent) ctx request with
  | Ok _ => answers request response
  | Err rejection => response = Error {| message := rejection_display rejection |}
  end.

Lemma meets_handle agent ctx request :
  meets (@served agent ctx request) (answered agent ctx request) (handle_proc agent ctx request).
Proof.
  unfold handle_proc, answered. destruct (authorize _ _ _) as [[]|rejection] eqn:E; [|done].
  eapply meets_weaken; [..|apply meets_dispatch]; [by split|done].
Qed.

Context (decode_request : string -> result string RpcRequest).
Context (encode_response : RpcResponse -> result string string).

(** What a connection ended with and sent: the frames of the answers to its
    first requests, in order; to all of them when it was accepted. *)
Definition transcript (agent : FabricAgent) (ctx : RequestContext) (reqs : list RpcRequest)
    (out : string) (r : AcceptResult * string) : Prop :=
  exists n responses frames,
    Forall2 (answered agent ctx) (take n reqs) responses
    /\ Forall2 (framable encode_response) responses frames
    /\ r.2 = foldl String.append out frames
    /\ (r.1 = Accepted -> (length reqs <= n)%nat)
    /\ r.1 <> AcceptOutOfFuel /\ r.1 <> AcceptPanicked.

Lemma transcript_cons agent ctx request response frame reqs out r :
  answered agent ctx request response -> framable encode_response response frame ->
  transcript agent ctx reqs (out +:+ frame) r -> transcript agent ctx (request :: reqs) out r.
Proof.
  intros Ha Hf (n & responses & frames & H1 & H2 & H3 & H4 & H5).
  exists (S n), (response :: responses), (frame :: frames). cbn [take length foldl].
  destruct H5 as [H5 H6].
  split_and!; [by constructor|by constructor|done| |done|done]. intros H. specialize (H4 H). lia.
Qed.

Lemma transcript_stop agent ctx reqs out (ended : AcceptResult) :
  ended <> AcceptOutOfFuel -> ended <> AcceptPanicked -> (ended = Accepted -> reqs = []) ->
  transcript agent ctx reqs out (ended, out).
Proof.
  intros H1 H2 H3. exists O, [], []. cbn. split_and!; try done. intros H. by rewrite H3.
Qed.

(** What was sent is the frame of the response. *)
Lemma send_response_framable link out response frame :
  send_response encode_response link out response = Ok frame -> framable encode_response response frame.
Proof.
  unfold send_response, framable. destruct (write_frame encode_response response); [|done].
  cbn [mbind result_bind]. by destruct (tr_write_all link _).
Qed.

Lemma meets_conn_loop link fuel agent ctx s out :
  (String.length (st_bytes s) < fuel)%nat ->
  meets (fun _ sec => exists request, request ∈ requests_in decode_request fuel s /\ served agent ctx request sec)
    (transcript agent ctx (requests_in decode_request fuel s) out)
    (conn_loop decode_request encode_response link fuel agent ctx s out).
Proof.
  revert s out. induction fuel as [|fuel IH]; intros s out Hf; [lia|]. cbn [requests_in conn_loop].
  destruct (read_frame decode_request s) as [[request s']|e] eqn:E.
  - eapply meets_bind.
    { eapply meets_weaken; [|done|apply meets_handle]. intros B sec Hs. exists request. split; [by left|done]. }
    intros response Ha. destruct (send_response encode_response link out response) as [frame|e] eqn:Ew.
    + eapply meets_weaken; [..|apply IH].
      * intros B sec (rq & Hin & Hs). exists rq. split; [by right|done].
      * intros r. apply send_response_framable in Ew. by eapply transcript_cons.
      * apply read_frame_shrinks in E. lia.
    + cbn. by apply transcript_stop.
  - unfold accept_end. repeat case_match; cbn; by apply transcript_stop.
Qed.

Lemma meets_conn agent cn :
  let ctx := agent_context agent (caller_remote cn) in
  meets (fun _ sec => exists request, request ∈ conn_requests decode_request cn /\ served agent ctx request sec)
    (transcript agent ctx (conn_requests decode_request cn) EmptyString)
    (conn_proc decode_request encode_response agent cn).
Proof.
  intros ctx. unfold conn_proc. destruct (tr_accept_bi (caller_link cn)) as [e|].
  - cbn. apply transcript_stop; done.
  - apply meets_conn_loop. lia.
Qed.

End contract.

(** ** Pools *)

Section pool.
Context {W R : Type}.
Implicit Types (fab : Fabric W) (cfg : Config W R).

Definition thread_meets (P : forall B, Sec W B -> Prop) (Q : R -> Prop) (th : Thread W R) : Prop :=
  match th with
  | Running _ p => meets P Q p
  | Finished (Done r) => Q r
  | Finished Panicked => True
  end.

(** A label of thread [i] is a section that satisfies [P]. *)
Definition label_meets (i : nat) (P : forall B, Sec W B -> Prop) (lab : Label W) : Prop :=
  match lab with LSec j s _ _ => j = i -> P _ s | LTau _ => True end.

Lemma cstep_meets wf i P Q lab cfg cfg' :
  cstep wf lab cfg cfg' -> (forall th, cf_threads cfg !! i = Some th -> thread_meets P Q th) ->
  label_meets i P lab /\ (forall th, cf_threads cfg' !! i = Some th -> thread_meets P Q th).
Proof.
  intros Hs Hm. destruct Hs as [j h lk m k cfg Hj Hg|j h lk k cfg Hj|j h B s k c b fab cfg Hj Hc Hrun
    |j h B s k c fab cfg Hj Hc Hrun|j h rs cfg Hj]; (split; simpl; [try done|]);
    try (intros ->; by apply Hm in Hj as [? _]);
    intros th; rewrite list_lookup_insert_Some; intros [(-> & <- & _)|[_ Hth]]; try (by apply Hm);
    apply Hm in Hj; simpl in *; try done.
  destruct Hj as [_ Hk]. by eapply Hk, run_sec_post.
Qed.

Lemma csteps_meets wf i P Q ls cfg cfg' :
  csteps wf ls cfg cfg' -> (forall th, cf_threads cfg !! i = Some th -> thread_meets P Q th) ->
  Forall (label_meets i P) ls /\ (forall th, cf_threads cfg' !! i = Some th -> thread_meets P Q th).
Proof.
  induction 1 as [cfg|lab ls cfg1 cfg2 cfg3 H1 Hs IH]; intros Hm; [done|].
  destruct (cstep_meets _ _ _ _ _ _ _ H1 Hm) as [Hl Hm2]. destruct (IH Hm2) as [Hls Hm3].
  split; [by constructor|done].
Qed.

Definition label_thread (lab : Label W) : nat := match lab with LSec i _ _ _ => i | LTau i => i end.

(** The steps of a run are steps of its threads. *)
Lemma csteps_thread wf ls cfg cfg' :
  csteps wf ls cfg cfg' -> Forall (fun lab => (label_thread lab < length (cf_threads cfg))%nat) ls.
Proof.
  induction 1 as [cfg|lab ls cfg1 cfg2 cfg3 H1 Hs IH]; [done|]. constructor.
  - destruct H1; simpl; by eapply lookup_lt_Some.
  - replace (length (cf_threads cfg1)) with (length (cf_threads cfg2)); [done|].
    destruct H1; simpl; apply length_insert.
Qed.

(** The tables no request of the protocol can change. *)
Definition same_registrations fab fab' : Prop :=
  resources fab' = resources fab /\ adapters fab' = adapters fab.

Lemma acts_registrations request {B} (s : Sec W B) c fab :
  acts_for request s -> same_registrations fab (run_sec s c fab).2.
Proof.
  destruct request, s; try done; intros _; unfold same_registrations; cbn [run_sec];
    unfold st_read, lease_grant, renew_lease, call_attach, call_detach, release_check, release_remove,
      take_attachment, heartbeat, panic_holding_leases; unfold lock_leases;
    st_unfold; repeat (case_match; simplify_eq/=); done.
Qed.

(** The request presents the identifier of the lease. *)
Definition presents (l : Lease) (request : RpcRequest) : Prop :=
  match request with Release l' | LeaseRenew l' _ => same_lease l l' | _ => False end.

Lemma acts_presents l request {B} (s : Sec W B) : acts_for request s -> presents_sec l s -> presents l request.
Proof. destruct request, s; try done; simpl; intros H; destruct_and?; by subst. Qed.

End pool.

(** ** The agent's connections *)

Section agent_pool.
Context {W : Type}.
Context (decode_request : string -> result string RpcRequest).
Context (encode_response : RpcResponse -> result string string).
Context (agent : FabricAgent).
Implicit Types (conns : list Caller) (fab : Fabric W) (others : list (Proc W (AcceptResult * string))).

Implicit Types cfg : Config W (AcceptResult * string).

(** Every connection in a task of its own, next to whatever else uses the registry. *)
Definition agent_procs conns others : list (Proc W (AcceptResult * string)) :=
  app (conn_proc decode_request encode_response agent <$> conns) others.

Definition conn_ctx (cn : Caller) : RequestContext := agent_context agent (caller_remote cn).
Definition requests_of (cn : Caller) : list RpcRequest := conn_requests decode_request cn.

Lemma agent_pool_meets wf conns others fab t ls cfg i cn :
  csteps wf ls (start_procs (agent_procs conns others) fab t) cfg -> conns !! i = Some cn ->
  Forall (label_meets i (fun _ s => exists request, request ∈ requests_of cn
                                      /\ served agent (conn_ctx cn) request s)) ls
  /\ (forall th, cf_threads cfg !! i = Some th ->
       thread_meets (fun _ s => exists request, request ∈ requests_of cn
                                  /\ served agent (conn_ctx cn) request s)
         (transcript encode_response agent (conn_ctx cn) (requests_of cn) EmptyString) th).
Proof.
  intros Hs Hi. eapply csteps_meets; [exact Hs|]. intros th. cbn [start_procs cf_threads].
  unfold agent_procs. rewrite list_lookup_fmap, lookup_app_l
    by (rewrite length_fmap; by eapply lookup_lt_Some).
  rewrite list_lookup_fmap, Hi. cbn. intros [= <-]. apply meets_conn.
Qed.

(** C10. One controller at a time is the loop the connection runs. A connection
    that nothing interrupts sends the bytes, ends the way and leaves the
    registry that [accept] does, whichever calls on it fail; and in any pool where the other threads
    hold no lock there is a schedule that serves the whole connection so. *)
Theorem connection_alone cn c fab :
  let run c fab := accept decode_request encode_response (caller_link cn) agent (caller_remote cn) (fun _ => c)
                     (caller_stream cn) fab in
  let proc := conn_proc decode_request encode_response agent cn in
  same_end (solo c proc fab) (run c fab)
  /\ forall cfg i, cf_threads cfg !! i = Some (Running [] proc) -> others_idle i (cf_threads cfg) ->
     let '(ended, fab') := run (clock_at (cf_time cfg)) (cf_fabric cfg) in
     ended.1 <> AcceptPanicked ->
     exists ls, csteps false ls cfg
       (mkConfig (<[i := Finished (Done ended)]> (cf_threads cfg)) fab' (cf_time cfg)).
Proof.
  intros run proc.
  assert (forall c fab, same_end (solo c proc fab) (run c fab)) as Hsame by (intros; apply solo_conn).
  split; [apply Hsame|]. intros cfg i Hi Hidle.
  pose proof (alone_runs proc (fun p => p) i [] cfg extends_id
    (ordered_conn _ _ _ _) Hi Hidle) as H.
  specialize (Hsame (clock_at (cf_time cfg)) (cf_fabric cfg)).
  destruct (solo _ proc _) as [o fab1], (run _ _) as [[ended out] fab2]. destruct Hsame as [Hf Ho].
  simpl in Hf, Ho. subst fab2. intros Hp. destruct o as [[ended' out']|]; [|done].
  injection Ho as -> ->. destruct H as [ls H]. exists (app ls [LTau i]).
  eapply csteps_trans; [exact H|]. econstructor; [|constructor].
  replace (<[i := Finished (Done (ended', out'))]> (cf_threads cfg))
    with (<[i := Finished (Done (ended', out'))]> (<[i := Running [] (Ret (ended', out'))]> (cf_threads cfg)))
    by apply list_insert_insert_eq.
  eapply (step_ret false i [] _ (mkConfig _ _ _)). apply list_lookup_insert_eq.
  by eapply lookup_lt_Some.
Qed.

(** C7. What a controller can make the agent do. In every schedule of any number
    of connections, next to any other callers of the registry: whatever a
    connection's thread does to the registry is a section of the method that
    one of the requests in its stream asks for, on the resource, lease and time
    that request names, and the provider accepted that request. In particular
    no connection ever changes the tables of resources or of adapters, and
    under the time-to-live provider every grant is within the window. *)
Theorem connections_confined wf conns others fab t ls cfg i cn B (s : Sec W B) c o :
  csteps wf ls (start_procs (agent_procs conns others) fab t) cfg ->
  conns !! i = Some cn -> LSec i s c o ∈ ls ->
  (exists request, request ∈ requests_of cn
     /\ authorize (agent_auth agent) (conn_ctx cn) request = Ok tt /\ acts_for request s)
  /\ (forall fab', same_registrations fab' (run_sec s c fab').2)
  /\ (forall show min max, agent_auth agent = TtlBound show min max ->
       match s with SGrant _ _ ttl => min <= ttl <= max | _ => True end).
Proof.
  intros Hs Hi Hin. destruct (agent_pool_meets _ _ _ _ _ _ _ _ _ Hs Hi) as [Hl _].
  rewrite Forall_forall in Hl. specialize (Hl _ Hin eq_refl) as (request & Hr & Ha & Hserve).
  split_and!; [by exists request|intros fab'; by eapply acts_registrations|].
  intros show min max Hauth. destruct s; try done. destruct request; try done.
  destruct Hserve as (_ & _ & ->). rewrite Hauth in Ha. simpl in Ha. unfold ttl_bound_authorize in Ha.
  repeat case_bool_decide; try done; lia.
Qed.

(** C8. Every controller is answered. A pool of connections, next to callers
    that keep the lock order, can from any point of any schedule be continued
    until every thread has returned or panicked; and a connection that has
    returned has sent the frames of the answers to the requests in its stream,
    in order - to all of them when it was closed cleanly: the rejection's text
    for a request the provider refused, and otherwise a response of the
    request's kind, a granted lease naming the resource and the owner that were
    asked for, a renewed one the identifier presented, an offered resource
    matching the query. *)
Theorem connections_answered conns others fab t ls cfg :
  csteps false ls (start_procs (agent_procs conns others) fab t) cfg -> Forall (ordered []) others ->
  (exists ls' final, csteps true ls' cfg final /\ all_finished final)
  /\ (forall i cn r, conns !! i = Some cn -> cf_threads cfg !! i = Some (Finished (Done r)) ->
       transcript encode_response agent (conn_ctx cn) (requests_of cn) EmptyString r).
Proof.
  intros Hs Ho. split.
  - apply completes. eapply csteps_ordered; [|exact Hs]. apply start_procs_ordered.
    apply Forall_app. split; [|done]. apply Forall_fmap, Forall_forall. intros cn _. apply ordered_conn.
  - intros i cn r Hi Hth. destruct (agent_pool_meets _ _ _ _ _ _ _ _ _ Hs Hi) as [_ Hm].
    by apply Hm in Hth.
Qed.

(** C9. A controller keeps its lease against every other controller. Take any
    moment of any schedule at which a lease is stored. As long as its deadline
    has not passed, the connection of its holder completes no renewal or release of it, and no
    other connection has an accepted request that presents the identifier: the
    lease stays stored, no connection is granted its resource, and no
    attachment of it is accepted under another identifier. *)
Theorem lease_kept_from_others wf conns fab t ls1 cfg1 ls2 cfg2 a holder :
  let id := l_resource_id (al_lease a) in
  csteps wf ls1 (start_procs (agent_procs conns []) fab t) cfg1 ->
  csteps wf ls2 cfg1 cfg2 ->
  leases (cf_fabric cfg1) !! id = Some a -> cf_time cfg2 < al_expires_at a ->
  (forall lab, lab ∈ ls2 -> label_thread lab = holder -> ~ presented (al_lease a) lab) ->
  (forall i cn request, conns !! i = Some cn -> i <> holder -> request ∈ requests_of cn ->
     authorize (agent_auth agent) (conn_ctx cn) request = Ok tt -> ~ presents (al_lease a) request) ->
  leases (cf_fabric cfg2) !! id = Some a
  /\ (forall lab l, lab ∈ ls2 -> granted_by lab = Some l -> l_resource_id l <> id)
  /\ (forall lab l, lab ∈ ls2 -> accepted_by lab = Some l -> l_resource_id l = id ->
       l_id l = l_id (al_lease a)).
Proof.
  intros id H1 H2 Ha Ht Hholder Hothers. eapply csteps_keeps_lease; [exact H2|done|done|].
  intros lab Hin Hp. destruct (decide (label_thread lab = holder)) as [|Hne]; [by eapply Hholder|].
  pose proof (csteps_trans _ _ _ _ _ _ H1 H2) as Hs.
  destruct lab as [i B s c o|i]; [|done]. simpl in Hne, Hp.
  assert (exists cn, conns !! i = Some cn) as [cn Hi].
  { apply lookup_lt_is_Some. apply csteps_thread in Hs. rewrite Forall_forall in Hs.
    specialize (Hs (LSec i s c o)). rewrite elem_of_app in Hs. specialize (Hs (or_intror Hin)).
    simpl in Hs. unfold agent_procs in Hs. rewrite app_nil_r, !length_fmap in Hs. exact Hs. }
  destruct (agent_pool_meets _ _ _ _ _ _ _ _ _ Hs Hi) as [Hl _]. rewrite Forall_forall in Hl.
  destruct (Hl (LSec i s c o)) as (request & Hr & Hauth & Hserve); [apply elem_of_app; by right|done|].
  eapply Hothers; [exact Hi|done|exact Hr|exact Hauth|by eapply acts_presents].
Qed.

End agent_pool.

(** ** Concrete instances *)

(** A peer that asks for the inventory once. *)
Definition demo_peer : Caller := mkCaller "peer" (mkStream (frame_of "i") true) (sound_transport false).
Definition demo_window : FabricAgent :=
  with_auth (TtlBound (fun _ => EmptyString) (from_secs 1) (from_secs 3600)) "me".

Definition demo_pool (conns : list Caller) : list (Proc () (AcceptResult * string)) :=
  agent_procs demo_decode demo_encode_response demo_window conns [].

Lemma demo_pool_eq :
  demo_pool [demo_peer] =
    [Acquire LResources Shared (Act SResources (fun _ =>
       Unlock LResources (Ret (Accepted, frame_of "R"))))].
Proof. vm_compute. reflexivity. Qed.

Lemma connection_alone_witness :
  exists ls, csteps false ls (start_procs (demo_pool [demo_peer]) demo_fab 3)
    (mkConfig [Finished (Done (Accepted, frame_of "R"))] demo_fab 3).
Proof.
  destruct (connection_alone demo_decode demo_encode_response demo_window demo_peer (clock_at 3)
    demo_fab) as [_ H].
  specialize (H (start_procs (demo_pool [demo_peer]) demo_fab 3) 0%nat eq_refl
    ltac:(by intros [|j] th Hne Hj)).
  cbn [cf_time cf_fabric start_procs] in H.
  replace (accept _ _ _ _ _ _ _ demo_fab) with (Accepted, frame_of "R", demo_fab) in H
    by (vm_compute; reflexivity).
  by apply H.
Defined.

(** The peer's whole connection, step by step. *)
Definition demo_labels : list (Label ()) :=
  [LTau 0; LSec 0 SResources (clock_at 4) (Done (resources_sorted demo_fab)); LTau 0; LTau 0].

Lemma demo_run :
  csteps false demo_labels (start_procs (demo_pool [demo_peer]) demo_fab 3)
    (mkConfig [Finished (Done (Accepted, frame_of "R"))] demo_fab 4).
Proof. rewrite demo_pool_eq. do 4 alone_step (clock_at 4). apply csteps_nil. Qed.

Lemma connections_confined_witness :
  exists request, request ∈ requests_of demo_decode demo_peer
    /\ authorize (agent_auth demo_window) (conn_ctx demo_window demo_peer) request = Ok tt
    /\ acts_for (W := ()) request SResources.
Proof.
  apply (connections_confined demo_decode demo_encode_response demo_window false [demo_peer] []
    demo_fab 3 demo_labels _ 0 demo_peer _ SResources (clock_at 4) (Done (resources_sorted demo_fab)) demo_run eq_refl).
  right. left.
Defined.

Lemma connections_answered_witness :
  transcript demo_encode_response demo_window (conn_ctx demo_window demo_peer)
    (requests_of demo_decode demo_peer) EmptyString (Accepted, frame_of "R").
Proof.
  apply (connections_answered demo_decode demo_encode_response demo_window [demo_peer] []
    demo_fab 3 demo_labels _ demo_run (Forall_nil_2 _)) with (i := 0%nat); reflexivity.
Defined.

(** The device is leased; a rival connection reads the inventory and the lease stays. *)
Lemma demo_run_leased :
  csteps false [LTau 0; LSec 0 SResources (clock_at 4) (Done (resources_sorted demo_leased)); LTau 0; LTau 0]
    (start_procs (demo_pool [demo_peer]) demo_leased 3)
    (mkConfig [Finished (Done (Accepted, frame_of "R"))] demo_leased 4).
Proof. rewrite demo_pool_eq. do 4 alone_step (clock_at 4). apply csteps_nil. Qed.

Lemma lease_kept_from_others_witness :
  leases demo_leased !! "gpu.0" = Some demo_active /\ 4 < al_expires_at demo_active
  /\ requests_of demo_decode demo_peer = [Inventory]
  /\ leases (cf_fabric (mkConfig (R := AcceptResult * string)
       [Finished (Done (Accepted, frame_of "R"))] demo_leased 4)) !! "gpu.0" = Some demo_active.
Proof.
  assert (requests_of demo_decode demo_peer = [Inventory]) as Hrq by (vm_compute; reflexivity).
  split; [vm_compute; reflexivity|]. split; [vm_compute; reflexivity|]. split; [exact Hrq|].
  refine (proj1 (lease_kept_from_others demo_decode demo_encode_response demo_window false [demo_peer]
    demo_leased 3 [] _ _ _ demo_active 7 (csteps_nil _ _) demo_run_leased _ _ _ _)).
  - vm_compute. reflexivity.
  - vm_compute. reflexivity.
  - intros lab Hin. rewrite !elem_of_cons, elem_of_nil in Hin. destruct_or? Hin; subst; simpl; tauto.
  - intros [|i] cn request; [intros [= <-]|done]. rewrite Hrq. intros _ Hin _.
    apply list_elem_of_singleton in Hin as ->. simpl. tauto.
Defined.
