(* ===== verification/Config.v ===== *)
(** * The agent's configuration (nauti-fabric/src/config.rs)

    The structs, their defaults, loading, the warnings and the provider they
    select. What a TOML file states is a record of optional keys ([Raw...]);
    the [#[serde(default)]] attributes say what an absent key becomes. The TOML
    parser, the file system and the Cargo features are arguments. *)

From stdpp Require Import base tactics option list gmap strings.
From S2P Require Import Prelude Str Resource RpcAuth.

#[local] Open Scope Z_scope.

(** ** The structs *)

Record FabricConfig : Type := mkFabricConfig { auto_refresh_interval : Z }.

Record TtlConfig : Type := mkTtlConfig { min_secs : Z; max_secs : Z }.

Record OAuth2Config : Type := mkOAuth2Config {
  oc_jwks_url : option string;
  oc_audience : option string;
  oc_client_secrets_file : option string;
}.

Record SharedSecretConfig : Type := mkSharedSecretConfig { ss_file : option string }.

Record AuthConfig : Type := mkAuthConfig {
  ac_method : string;
  ac_ttl : TtlConfig;
  ac_oauth2 : OAuth2Config;
  ac_shared_secret : SharedSecretConfig;
}.

Record VfioConfig : Type := mkVfioConfig {
  exclude_vendors : option string;
  exclude_iommu_groups : option string;
  auto_bind : bool;
}.

Record CloudHypervisorConfig : Type := mkCloudHypervisorConfig {
  cc_binary : string;
  cc_socket_dir : string;
  cc_kernel : option string;
  cc_rootfs : option string;
  cc_vcpus : Z;
  cc_memory_mib : Z;
}.

Record AgentConfig : Type := mkAgentConfig {
  cfg_node : string;
  cfg_fabric : FabricConfig;
  cfg_auth : AuthConfig;
  cfg_vfio : VfioConfig;
  cfg_cloud_hypervisor : CloudHypervisorConfig;
}.

(** ** Defaults: the functions serde names, and the [Default] instances *)

Definition default_node : string := "local".
Definition default_auth_method : string := "none".
Definition default_ttl_min : Z := 1.
Definition default_ttl_max : Z := 3600.
Definition default_ch_binary : string := "/usr/bin/cloud-hypervisor".
Definition default_ch_socket_dir : string := "/var/run/nauti".
Definition default_vcpus : Z := 1.
Definition default_memory_mib : Z := 512.

(** [derive(Default)]: every field's own default. *)
Definition FabricConfig_default : FabricConfig := {| auto_refresh_interval := 0 |}.
Definition TtlConfig_default : TtlConfig := {| min_secs := 0; max_secs := 0 |}.
Definition OAuth2Config_default : OAuth2Config :=
  {| oc_jwks_url := None; oc_audience := None; oc_client_secrets_file := None |}.
Definition SharedSecretConfig_default : SharedSecretConfig := {| ss_file := None |}.
Definition VfioConfig_default : VfioConfig :=
  {| exclude_vendors := None; exclude_iommu_groups := None; auto_bind := false |}.
Definition CloudHypervisorConfig_default : CloudHypervisorConfig :=
  {| cc_binary := ""; cc_socket_dir := ""; cc_kernel := None; cc_rootfs := None;
     cc_vcpus := 0; cc_memory_mib := 0 |}.

(** Written by hand in the source. *)
Definition AuthConfig_default : AuthConfig :=
  {| ac_method := default_auth_method; ac_ttl := TtlConfig_default;
     ac_oauth2 := OAuth2Config_default; ac_shared_secret := SharedSecretConfig_default |}.

Definition AgentConfig_default : AgentConfig :=
  {| cfg_node := ""; cfg_fabric := FabricConfig_default; cfg_auth := AuthConfig_default;
     cfg_vfio := VfioConfig_default; cfg_cloud_hypervisor := CloudHypervisorConfig_default |}.

(** ** What a file states, and what serde makes of it *)

Record RawTtl : Type := mkRawTtl { raw_min_secs : option Z; raw_max_secs : option Z }.

Record RawAuth : Type := mkRawAuth {
  raw_method : option string;
  raw_ttl : option RawTtl;
  raw_oauth2 : option OAuth2Config;
  raw_shared_secret : option SharedSecretConfig;
}.

Record RawCloudHypervisor : Type := mkRawCloudHypervisor {
  raw_binary : option string;
  raw_socket_dir : option string;
  raw_kernel : option string;
  raw_rootfs : option string;
  raw_vcpus : option Z;
  raw_memory_mib : option Z;
}.

Record RawVfio : Type := mkRawVfio {
  raw_exclude_vendors : option string;
  raw_exclude_iommu_groups : option string;
  raw_auto_bind : option bool;
}.

Record RawConfig : Type := mkRawConfig {
  raw_node : option string;
  raw_auto_refresh_interval : option (option Z);
  raw_auth : option RawAuth;
  raw_vfio : option RawVfio;
  raw_cloud_hypervisor : option RawCloudHypervisor;
}.

Definition or_default {A} (d : A) (o : option A) : A := match o with Some a => a | None => d end.

Definition decode_ttl (r : RawTtl) : TtlConfig :=
  {| min_secs := or_default default_ttl_min (raw_min_secs r);
     max_secs := or_default default_ttl_max (raw_max_secs r) |}.

Definition decode_auth (r : RawAuth) : AuthConfig :=
  {| ac_method := or_default default_auth_method (raw_method r);
     ac_ttl := or_default TtlConfig_default (decode_ttl <$> raw_ttl r);
     ac_oauth2 := or_default OAuth2Config_default (raw_oauth2 r);
     ac_shared_secret := or_default SharedSecretConfig_default (raw_shared_secret r) |}.

Definition decode_cloud_hypervisor (r : RawCloudHypervisor) : CloudHypervisorConfig :=
  {| cc_binary := or_default default_ch_binary (raw_binary r);
     cc_socket_dir := or_default default_ch_socket_dir (raw_socket_dir r);
     cc_kernel := raw_kernel r; cc_rootfs := raw_rootfs r;
     cc_vcpus := or_default default_vcpus (raw_vcpus r);
     cc_memory_mib := or_default default_memory_mib (raw_memory_mib r) |}.

Definition decode_vfio (r : RawVfio) : VfioConfig :=
  {| exclude_vendors := raw_exclude_vendors r;
     exclude_iommu_groups := raw_exclude_iommu_groups r;
     auto_bind := or_default false (raw_auto_bind r) |}.

Definition decode_config (r : RawConfig) : AgentConfig :=
  {| cfg_node := or_default default_node (raw_node r);
     cfg_fabric := or_default FabricConfig_default
       ((fun i => mkFabricConfig (or_default 0 i)) <$> raw_auto_refresh_interval r);
     cfg_auth := or_default AuthConfig_default (decode_auth <$> raw_auth r);
     cfg_vfio := or_default VfioConfig_default (decode_vfio <$> raw_vfio r);
     cfg_cloud_hypervisor := or_default CloudHypervisorConfig_default
       (decode_cloud_hypervisor <$> raw_cloud_hypervisor r) |}.

(** ** Loading *)

Inductive ConfigError : Type :=
  | NotFound (path : string)
  | Unreadable (path e : string)
  | InvalidToml (e : string)
  | InvalidValue (v : string)
  | FeatureNotEnabled (m : string).

(** [cfg!(feature = ...)]. *)
Record Features : Type := mkFeatures {
  feature_auth_ttl : bool;
  feature_auth_oauth : bool;
  feature_auth_shared_secret : bool;
  feature_vfio : bool;
  feature_cloud_hypervisor : bool;
}.

Section config.
(** [Path::exists], [read_to_string], [toml::from_str] up to the keys it finds,
    and [{:?}] of a [Duration]. *)
Context (exists_ : string -> bool) (read_to_string : string -> result string string).
Context (parse_toml : string -> result string RawConfig).
Context (show_duration : duration -> string).

Definition from_file (path : string) : result ConfigError AgentConfig :=
  if negb (exists_ path) then Ok AgentConfig_default
  else
    text ← map_err (Unreadable path) (read_to_string path);
    raw ← map_err InvalidToml (parse_toml text);
    Ok (decode_config raw).

(** [AgentConfig::load] with the value of [NAUTI_AGENT_CONFIG]. *)
Definition load (env : option string) : result ConfigError AgentConfig :=
  from_file (or_default "/etc/nauti/agent.toml" env).

Definition warn_if (b : bool) (w : string) : list string := if b then [w] else [].

Definition validate (ft : Features) (cfg : AgentConfig) : list string :=
  let method := ac_method (cfg_auth cfg) in
  let falling_back m f :=
    warn_if (String.eqb method m && negb f) in
  app (falling_back "ttl" (feature_auth_ttl ft)
         "auth method 'ttl' selected but --features auth-ttl is not enabled; falling back to 'none'")
 (app (falling_back "oauth2" (feature_auth_oauth ft)
         "auth method 'oauth2' selected but --features auth-oauth is not enabled; falling back to 'none'")
 (app (falling_back "shared-secret" (feature_auth_shared_secret ft)
         "auth method 'shared-secret' selected but --features auth-shared-secret is not enabled; falling back to 'none'")
 (app (warn_if (bool_decide (auto_refresh_interval (cfg_fabric cfg) > 0))
         "fabric.auto_refresh_interval is set but not yet implemented in agent loop")
 (app (warn_if (feature_vfio ft && auto_bind (cfg_vfio cfg))
         "vfio.auto_bind is experimental; requires root and driverctl installed")
      (warn_if (feature_cloud_hypervisor ft
                && (bool_decide (cc_kernel (cfg_cloud_hypervisor cfg) = None)
                    || bool_decide (cc_rootfs (cfg_cloud_hypervisor cfg) = None)))
         "cloud_hypervisor.kernel and rootfs should be set for VM launch to work"))))).

Definition build_auth_provider (ft : Features) (cfg : AgentConfig) : AuthProvider :=
  let auth := cfg_auth cfg in
  if String.eqb (ac_method auth) "ttl" then
    if feature_auth_ttl ft then
      TtlBound show_duration (from_secs (min_secs (ac_ttl auth))) (from_secs (max_secs (ac_ttl auth)))
    else NoAuth
  else if String.eqb (ac_method auth) "oauth2" then
    if feature_auth_oauth ft then
      OAuth2Bearer (oc_jwks_url (ac_oauth2 auth)) (oc_audience (ac_oauth2 auth))
    else NoAuth
  else if String.eqb (ac_method auth) "shared-secret" then
    if feature_auth_shared_secret ft then
      SharedSecret ((fun p => trim (match read_to_string p with Ok t => t | Err _ => EmptyString end))
                      <$> ss_file (ac_shared_secret auth))
    else NoAuth
  else NoAuth.

(** ** What the configuration decides *)

(** A request the agent would serve without a provider. *)
Definition accepts (p : AuthProvider) (ctx : RequestContext) (r : RpcRequest) : Prop :=
  authorize p ctx r = Ok tt.

(** The case analysis on a method name and an answer. *)
#[local] Ltac method_cases :=
  try split; intros; destruct_and?; destruct_or?; try congruence; try discriminate.

(** The provider a configuration selects, and how it fails. A method whose
    feature is compiled in is the one used; the two stub methods then reject
    every request; a method without its feature - and any unknown method name -
    accepts every request, and [validate] warns about the former but is silent
    about the latter. *)
Theorem build_auth_provider_spec ft cfg :
  let p := build_auth_provider ft cfg in
  let m := ac_method (cfg_auth cfg) in
  (auth_name p = "none" -> forall ctx r, accepts p ctx r)
  /\ (auth_name p = "oauth2-bearer" \/ auth_name p = "shared-secret" -> forall ctx r, ~ accepts p ctx r)
  /\ (auth_name p = "ttl-bound" <-> m = "ttl" /\ feature_auth_ttl ft = true)
  /\ (m <> "ttl" -> m <> "oauth2" -> m <> "shared-secret" -> auth_name p = "none")
  /\ (m = "ttl" \/ m = "oauth2" \/ m = "shared-secret" -> auth_name p = "none" -> validate ft cfg <> [])
  /\ (m <> "ttl" -> m <> "oauth2" -> m <> "shared-secret" ->
        auto_refresh_interval (cfg_fabric cfg) = 0 -> feature_vfio ft = false ->
        feature_cloud_hypervisor ft = false -> validate ft cfg = []).
Proof.
  unfold build_auth_provider, accepts, validate.
  destruct (String.eqb_spec (ac_method (cfg_auth cfg)) "ttl") as [->|H1];
    [destruct (feature_auth_ttl ft) eqn:F1; simpl; split_and!; by method_cases|].
  destruct (String.eqb_spec (ac_method (cfg_auth cfg)) "oauth2") as [->|H2];
    [destruct (feature_auth_oauth ft) eqn:F2; simpl; split_and!; by method_cases|].
  destruct (String.eqb_spec (ac_method (cfg_auth cfg)) "shared-secret") as [->|H3];
    [destruct (feature_auth_shared_secret ft) eqn:F3; simpl; split_and!; by method_cases|].
  simpl. split_and!; try by method_cases.
  intros _ _ _ Hi -> ->. rewrite Hi. by rewrite bool_decide_eq_false_2 by lia.
Qed.

(** A file that selects [method = ttl] without a [[auth.ttl]] table does
    not get the window of 1 to 3600 seconds that an empty table would give: the
    derived default is the empty window 0 to 0, so the agent rejects every
    lease request of a second or more. *)
Theorem ttl_table_default ft raw ctx id owner ttl :
  feature_auth_ttl ft = true -> raw_method raw = Some "ttl" -> raw_ttl raw = None -> 0 < ttl ->
  let cfg t := decode_config (mkRawConfig None None
                 (Some (mkRawAuth (raw_method raw) t (raw_oauth2 raw) (raw_shared_secret raw))) None None) in
  ~ accepts (build_auth_provider ft (cfg (raw_ttl raw))) ctx (LeaseExclusive id owner ttl)
  /\ (accepts (build_auth_provider ft (cfg (Some (mkRawTtl None None)))) ctx
        (LeaseExclusive id owner ttl) <-> ttl <= 3600).
Proof.
  intros Hft Hm Ht Hpos cfg. unfold accepts, build_auth_provider, cfg. simpl. rewrite Hm, Ht. simpl.
  rewrite Hft. simpl. unfold ttl_bound_authorize, TtlConfig_default, default_ttl_min, default_ttl_max,
    from_secs, NANOS. simpl. split.
  - repeat case_bool_decide; try done; lia.
  - repeat case_bool_decide; split; try done; lia.
Qed.

End config.

Lemma ttl_table_default_witness :
  0 < 60
  /\ ~ accepts (build_auth_provider (fun _ => Err "") (fun _ => "") (mkFeatures true false false false false)
        (decode_config (mkRawConfig None None (Some (mkRawAuth (Some "ttl") None None None)) None None)))
        (mkRequestContext "peer" "me") (LeaseExclusive "gpu.0" "alice" 60).
Proof.
  split; [lia|].
  apply (ttl_table_default (fun _ => Err EmptyString) (fun _ => EmptyString)
           (mkFeatures true false false false false) (mkRawAuth (Some "ttl") None None None)
           (mkRequestContext "peer" "me") "gpu.0" "alice" 60); [done|done|done|lia].
Defined.
