(* ===== verification/Adapters.v ===== *)
(** * Descriptor adapters (nauti-fabric/src/adapters.rs)

    The local and the network descriptor, and the Lemonade server's adapter with
    its output parsers, over the answers it gets: how they are obtained is in
    [Lemonade]. The Unicode [to_lowercase] is an argument. *)

From stdpp Require Import base tactics option list gmap strings fin_maps.
From Stdlib Require Import Ascii String.
From S2P Require Import Prelude Str F64 Json Utf8 Resource.

#[local] Open Scope Z_scope.

(** ** State behind an adapter

    An adapter keeps its own state inside the world the registry passes around:
    a lens reads and writes it. *)
Class Lens (W S : Type) : Type := {
  lget : W -> S;
  lput : S -> W -> W;
  lget_lput : forall s w, lget (lput s w) = s;
}.

#[export] Instance Lens_id {S} : Lens S S := {| lget w := w; lput s _ := s; lget_lput _ _ := eq_refl |}.

Definition attachment (r : Resource) (l : Lease) (adapter : string) (details : gmap string string) :
    Attachment :=
  {| at_resource_id := r_id r; at_lease_id := l_id l; at_adapter := adapter; at_details := details |}.

Section adapters.
Context {W : Type}.

(** ** Local and network descriptors *)

Definition local_resource_attach (r : Resource) (l : Lease) (w : W) :
    result FabricError Attachment * W :=
  if bool_decide (r_node r <> "local") then
    (Err (IncompatibleResourceLocality "local-resource" "local" (r_node r)), w)
  else (Ok (attachment r l "local-resource" {[ "attachment.scope" := "local" ]}), w).

Definition LocalResourceAdapter : ResourceAdapter W :=
  {| ad_name := "local-resource"; ad_attach := local_resource_attach; ad_detach := default_detach;
     ad_capability_report := fun _ =>
       {| ar_name := "local-resource"; ar_scope := "local-host"; ar_healthy := true;
          ar_detail := {[ "resource.locality" := "local" ]} |} |}.

Definition network_resource_attach (r : Resource) (l : Lease) (w : W) :
    result FabricError Attachment * W :=
  if bool_decide (r_node r = "local") then
    (Err (IncompatibleResourceLocality "network-resource" "remote" "local"), w)
  else
    (endpoint ← ok_or (r_attributes r !! "network.endpoint")
                  (MissingResourceAttribute "network.endpoint");
     protocol ← ok_or (r_attributes r !! "network.protocol")
                  (MissingResourceAttribute "network.protocol");
     Ok (attachment r l "network-resource"
           {[ "attachment.scope" := "network"; "endpoint" := endpoint; "protocol" := protocol ]}), w).

Definition NetworkResourceAdapter : ResourceAdapter W :=
  {| ad_name := "network-resource"; ad_attach := network_resource_attach;
     ad_detach := default_detach;
     ad_capability_report := fun _ =>
       {| ar_name := "network-resource"; ar_scope := "remote-descriptor"; ar_healthy := true;
          ar_detail := {[ "resource.locality" := "remote" ]} |} |}.

#[global] Instance LocalResourceAdapter_laws : AdapterLaws LocalResourceAdapter.
Proof.
  split; [|done]. intros r l w a w'. simpl. unfold local_resource_attach.
  case_bool_decide; naive_solver.
Qed.

#[global] Instance NetworkResourceAdapter_laws : AdapterLaws NetworkResourceAdapter.
Proof.
  split; [|done]. intros r l w a w'. simpl. unfold network_resource_attach.
  case_bool_decide; [done|].
  destruct (r_attributes r !! "network.endpoint"), (r_attributes r !! "network.protocol");
    simpl; naive_solver.
Qed.

End adapters.

(** ** Lemonade *)

Record LemonadeConfig : Type := mkLemonadeConfig {
  lc_host : string;
  lc_port : Z;
  lc_api_key : option string;
}.

Definition LemonadeConfig_default : LemonadeConfig :=
  {| lc_host := "127.0.0.1"; lc_port := 13305; lc_api_key := None |}.

Record LemonadeModel : Type := mkLemonadeModel {
  lm_id : string;
  lm_backend : string;
  lm_downloaded : bool;
  lm_size_gb : option f64;
}.

Record LemonadeLoaded : Type := mkLemonadeLoaded {
  ll_id : string;
  ll_recipe : string;
  ll_device : string;
  ll_status : string;
}.

Record LemonadeReport : Type := mkLemonadeReport {
  lr_reachable : bool;
  lr_version : option string;
  lr_models : list LemonadeModel;
  lr_amd_gpus : list string;
  lr_loaded : list LemonadeLoaded;
  lr_backends : list string;
}.

(** [Value::get] with a key, and with an index. *)
Definition get_key (v : Json) (k : string) : option Json := as_object v ≫= map_get k.
Definition get_idx (v : Json) (i : nat) : option Json := as_array v ≫= (.!! i).

Definition or_empty (o : option string) : string := match o with Some s => s | None => EmptyString end.

(** [split] on a set of one-byte separators. *)
Fixpoint split_any (p : ascii -> bool) (s : string) : list string :=
  match s with
  | EmptyString => [EmptyString]
  | String a s' =>
      if p a then EmptyString :: split_any p s'
      else match split_any p s' with
           | [] => [str1 a]
           | w :: ws => String a w :: ws
           end
  end.

Section lemonade.
Context (to_lowercase : string -> string) (parse_f64 : string -> option f64).
Context (parse_json : string -> option Json).

Definition known_backends : list string := ["vulkan"; "rocm"; "cpu"; "cuda"; "metal"].

(** The segment after [llamacpp], when it names a backend. *)
Fixpoint backend_of_segments (segments : list string) : option string :=
  match segments with
  | a :: ((b :: _) as rest) =>
      if String.eqb a "llamacpp" && bool_decide (to_lowercase b ∈ known_backends)
      then Some (to_lowercase b)
      else backend_of_segments rest
  | _ => None
  end.

Definition is_path_sep (a : ascii) : bool := Ascii.eqb a "/" || Ascii.eqb a (byte_of 92).

Definition backend_from_launch_command (entry : Json) : option string :=
  cmds ← get_key entry "launch_command";
  cmd ← get_idx cmds 0 ≫= as_str;
  backend_of_segments (split_any is_path_sep cmd).

Definition backends_from_health (health : Json) : list string :=
  let items := match get_key health "all_models_loaded" ≫= as_array with
               | Some l => l | None => [] end in
  foldl (fun out item =>
           match backend_from_launch_command item with
           | Some b => if decide (b ∈ out) then out else app out [b]
           | None => out
           end) [] items.

Definition parse_status_json (text : string) : option string * list LemonadeLoaded :=
  match parse_json text with
  | None => (None, [])
  | Some value =>
      let field item k := or_empty (get_key item k ≫= as_str) in
      (get_key value "version" ≫= as_str,
       (fun item => {| ll_id := field item "model_name"; ll_recipe := field item "recipe";
                       ll_device := field item "device"; ll_status := field item "status" |})
         <$> match get_key value "models" ≫= as_array with Some l => l | None => [] end)
  end.

(** One row of [lemonade list --downloaded]. *)
Definition parse_model_row (line : string) : option LemonadeModel :=
  if String.eqb (trim line) "" || starts_with "---" (trim line) then None
  else
    let parts := split_whitespace line in
    let id := trim (or_empty (parts !! 0%nat)) in
    if String.eqb id "" || String.eqb id "Model" then None
    else Some {| lm_id := id;
                 lm_downloaded := eq_ignore_ascii_case
                   (match parts !! 1%nat with Some d => d | None => "no" end) "yes";
                 lm_size_gb := parts !! 2%nat ≫= parse_f64;
                 lm_backend := trim (match parts !! 3%nat with Some b => b | None => "unknown" end) |}.

Definition version_line (out : string) : option string :=
  line ← head (filter (fun l => starts_with "Version" (trim l) = true) (lines out));
  split_whitespace line !! 1%nat.

(** [LemonadeAdapter::status]: [run args] is the output of a successful
    [lemonade] call, [health] the JSON of the health endpoint. *)
Definition status (amd_gpus : list string) (run : string -> option string) (health : option Json) :
    LemonadeReport :=
  let '(json_version, loaded) := match run "status --json" with
                                 | Some out => parse_status_json out
                                 | None => (None, [])
                                 end in
  let '(reachable, version) :=
    match run "status" with
    | Some out =>
        (contains "running" (to_lowercase out) || contains "server is running" (to_lowercase out),
         match json_version with Some v => Some v | None => version_line out end)
    | None => (false, json_version)
    end in
  {| lr_reachable := reachable; lr_version := version;
     lr_models := match run "list --downloaded" with
                  | Some out => omap parse_model_row (drop 2 (lines out))
                  | None => []
                  end;
     lr_amd_gpus := amd_gpus; lr_loaded := loaded;
     lr_backends := match health with Some h => backends_from_health h | None => [] end |}.

Definition lemonade_detail (report : LemonadeReport) : gmap string string :=
  let d := {[ "lemonade.reachable" := show_bool (lr_reachable report) ]} in
  let d := match lr_version report with Some v => <["lemonade.version" := v]> d | None => d end in
  let loaded := ll_id <$> lr_loaded report in
  let d := <["lemonade.models" := match loaded with [] => "none-loaded" | _ => join "," loaded end]> d in
  let d := match lr_models report with
           | [] => d | ms => <["lemonade.downloaded" := join "," (lm_id <$> ms)]> d end in
  let d := match lr_backends report with
           | [] => d | bs => <["lemonade.backend" := join "," bs]> d end in
  match lr_amd_gpus report with
  | [] => d | gs => <["lemonade.amd_gpus" := join "; " gs]> d end.

Context {W : Type} (status_of : W -> LemonadeReport).

Definition lemonade_endpoint (cfg : LemonadeConfig) : string :=
  lc_host cfg +:+ ":" +:+ show (lc_port cfg).

Definition lemonade_attach (cfg : LemonadeConfig) (r : Resource) (l : Lease) (w : W) :
    result FabricError Attachment * W :=
  let endpoint := match r_attributes r !! "lemonade.endpoint" with
                  | Some e => e | None => lemonade_endpoint cfg end in
  let details := <["attachment.scope" := "lemonade-serving"]>
                   (<["lemonade.endpoint" := endpoint]> (lemonade_detail (status_of w))) in
  (Ok (attachment r l "lemonade" details), w).

Definition LemonadeAdapter (cfg : LemonadeConfig) : ResourceAdapter W :=
  {| ad_name := "lemonade"; ad_attach := lemonade_attach cfg; ad_detach := default_detach;
     ad_capability_report := fun w =>
       {| ar_name := "lemonade"; ar_scope := "lemonade-serving";
          ar_healthy := lr_reachable (status_of w);
          ar_detail := <["lemonade.endpoint" := lemonade_endpoint cfg]>
                         (lemonade_detail (status_of w)) |} |}.

#[global] Instance LemonadeAdapter_laws cfg : AdapterLaws (LemonadeAdapter cfg).
Proof. split; [|done]. intros r l w a w'. simpl. unfold lemonade_attach. naive_solver. Qed.

(** ** What is reported was reported *)

Lemma backend_of_segments_known segments b :
  backend_of_segments segments = Some b -> b ∈ known_backends.
Proof.
  induction segments as [|a [|c rest] IH]; [done|done|]. cbn [backend_of_segments].
  destruct (_ && _) eqn:E; [|exact IH]. intros [= <-].
  apply andb_true_iff in E as [_ E]. by apply bool_decide_eq_true in E.
Qed.

Lemma backends_from_health_iff items b out :
  b ∈ foldl (fun out item =>
           match backend_from_launch_command item with
           | Some b => if decide (b ∈ out) then out else app out [b]
           | None => out
           end) out items
  <-> b ∈ out \/ exists item, item ∈ items /\ backend_from_launch_command item = Some b.
Proof.
  revert out. induction items as [|item items IH]; intros out; simpl.
  { split; [by left|]. intros [?|(? & H & _)]; [done|]. by apply elem_of_nil in H. }
  rewrite IH. setoid_rewrite elem_of_cons.
  destruct (backend_from_launch_command item) as [b'|] eqn:E; [case_decide as Hd|];
    rewrite ?elem_of_app, ?list_elem_of_singleton; split.
  - intros [?|(i & ? & ?)]; eauto.
  - intros [?|(i & [->|?] & ?)]; [by left|simplify_eq; by left|eauto].
  - intros [[?| ->]|(i & ? & ?)]; eauto.
  - intros [?|(i & [->|?] & ?)]; [eauto|simplify_eq; eauto|eauto].
  - intros [?|(i & ? & ?)]; eauto.
  - intros [?|(i & [->|?] & ?)]; [by left|congruence|eauto].
Qed.

Lemma backends_from_health_NoDup items out :
  NoDup out ->
  NoDup (foldl (fun out item =>
           match backend_from_launch_command item with
           | Some b => if decide (b ∈ out) then out else app out [b]
           | None => out
           end) out items).
Proof.
  revert out. induction items as [|item items IH]; intros out Hnd; simpl; [done|]. apply IH.
  destruct (backend_from_launch_command item) as [b|]; [|done]. case_decide as Hd; [done|].
  apply NoDup_app. split_and!; [done| |apply NoDup_singleton].
  intros x Hx ->%list_elem_of_singleton. done.
Qed.

(** The backends the Lemonade adapter reports are exactly those named by
    the launch commands of the loaded models - each once, and only the five
    known ones; no health data, or none it understands, means none. *)
Theorem backends_from_health_spec health :
  NoDup (backends_from_health health)
  /\ (forall b, b ∈ backends_from_health health -> b ∈ known_backends)
  /\ (forall b, b ∈ backends_from_health health <->
        exists items item, get_key health "all_models_loaded" ≫= as_array = Some items
          /\ item ∈ items /\ backend_from_launch_command item = Some b).
Proof.
  assert (forall b, b ∈ backends_from_health health <->
        exists items item, get_key health "all_models_loaded" ≫= as_array = Some items
          /\ item ∈ items /\ backend_from_launch_command item = Some b) as Hiff.
  { intros b. unfold backends_from_health. rewrite backends_from_health_iff, elem_of_nil.
    destruct (get_key health "all_models_loaded" ≫= as_array) as [items|].
    - split; [intros [[]|(i & ? & ?)]; by exists items, i|]. intros (? & i & [= <-] & ? & ?). eauto.
    - split; [intros [[]|(i & H & _)]; by apply elem_of_nil in H|]. by intros (? & ? & ? & _). }
  split_and!; [by apply backends_from_health_NoDup, NoDup_nil| |done].
  intros b Hb. apply Hiff in Hb as (items & item & _ & _ & Hb). unfold backend_from_launch_command in Hb.
  destruct (get_key item "launch_command"); simpl in Hb; [|done].
  destruct (get_idx _ 0 ≫= as_str); simpl in Hb; [|done]. by apply backend_of_segments_known in Hb.
Qed.

End lemonade.
