(* ===== verification/GpuLocal.v ===== *)
(** * Host-local GPU reservations (nauti-fabric/src/gpu/adapter.rs)

    The adapter's state is its reservation table; the live GPU count of its
    report is an argument. *)

From stdpp Require Import base tactics option list gmap strings fin_maps.
From S2P Require Import Prelude Str Resource Adapters.

#[local] Open Scope Z_scope.

Definition ADAPTER_NAME : string := "gpu-local".
Definition SCOPE : string := "gpu-host-local".

Record GpuReservation : Type := mkGpuReservation {
  gr_lease_id : Z;
  gr_gpu_id : string;
  gr_attached_at : instant;
}.

(** [reservations]: resource id to reservation. *)
Abbreviation Reservations := (gmap string GpuReservation) (only parsing).

Section gpu_local.
Context {W : Type} `{Lens W Reservations}.
(** [Instant::now()] and the number of compute GPUs discovery sees. *)
Context (clock : W -> instant) (live_gpus : W -> Z).

Definition gpu_id_of (r : Resource) : option string :=
  match r_attributes r !! "gpu.uuid" with
  | Some u => Some u
  | None => r_attributes r !! "gpu.pci_bus_id"
  end.

Definition insert_opt (k : string) (v : option string) (d : gmap string string) : gmap string string :=
  match v with Some x => <[k := x]> d | None => d end.

Definition reservation_details (r : Resource) (gpu_id : string) : gmap string string :=
  let d : gmap string string :=
    {[ "gpu.id" := gpu_id; "gpu.attachment_scope" := SCOPE;
       "gpu.note" := "host-local reservation; no VFIO passthrough bound";
       "adapter.implementation" := ADAPTER_NAME ]} in
  let d := insert_opt "gpu.name" (r_attributes r !! "gpu.name") d in
  let d := insert_opt "gpu.pci_bus_id" (r_attributes r !! "gpu.pci_bus_id") d in
  insert_opt "gpu.free_memory_bytes_at_attach" (r_attributes r !! "gpu.free_memory_bytes") d.

Definition gpu_attach (r : Resource) (l : Lease) (w : W) : result FabricError Attachment * W :=
  if bool_decide (r_kind r <> Gpu) then
    (Err (IncompatibleResourceKind ADAPTER_NAME Gpu (r_kind r)), w)
  else
    match gpu_id_of r with
    | None => (Err (MissingResourceAttribute "gpu.uuid or gpu.pci_bus_id"), w)
    | Some gpu_id =>
        let details := reservation_details r gpu_id in
        let held := match lget w !! r_id r with
                    | Some existing => bool_decide (gr_lease_id existing = l_id l)
                    | None => false
                    end in
        if held then
          (Ok {| at_resource_id := r_id r; at_lease_id := l_id l; at_adapter := ADAPTER_NAME;
                 at_details := <["gpu.reattach" := "true"]> details |}, w)
        else
          (Ok {| at_resource_id := r_id r; at_lease_id := l_id l; at_adapter := ADAPTER_NAME;
                 at_details := details |},
           lput (<[r_id r := {| gr_lease_id := l_id l; gr_gpu_id := gpu_id;
                                gr_attached_at := clock w |}]> (lget w)) w)
    end.

Definition gpu_capability_report (w : W) : AdapterReport :=
  {| ar_name := ADAPTER_NAME; ar_scope := SCOPE; ar_healthy := true;
     ar_detail := {[ "adapter.implementation" := ADAPTER_NAME;
                     "gpu.attachment_mode" := "host-local reservation (no hardware binding)";
                     "gpu.count_live" := show (live_gpus w);
                     "reservations.current" := show (Z.of_nat (size (lget w)));
                     "vfio.available" := "see vmm::vfio adapter if --features vfio is enabled" ]} |}.

(** No [detach]: the trait's default. *)
Definition GpuLocalAdapter : ResourceAdapter W :=
  {| ad_name := ADAPTER_NAME; ad_attach := gpu_attach; ad_detach := default_detach;
     ad_capability_report := gpu_capability_report |}.

#[global] Instance GpuLocalAdapter_laws : AdapterLaws GpuLocalAdapter.
Proof.
  split; [|done]. intros r l w a w'. simpl. unfold gpu_attach.
  case_bool_decide; [done|]. destruct (gpu_id_of r); [|done].
  destruct (match lget w !! r_id r with Some _ => _ | None => _ end); naive_solver.
Qed.

(** A GPU is reserved only for a resource of kind [Gpu] that names a uuid
    or a bus id. Attaching records the lease on the resource, once: attaching
    again under the same lease changes nothing and is marked as a reattach. But
    releasing does not undo it - detach is a no-op - so the reservation outlives
    the lease until another lease overwrites it, and a discovered GPU that only
    carries [gpu.pci_bdf] cannot be attached at all. *)
Theorem gpu_reservation_spec r l w :
  match gpu_attach r l w with
  | (Ok att, w') =>
      r_kind r = Gpu /\ is_Some (gpu_id_of r)
      /\ (exists res, lget w' !! r_id r = Some res /\ gr_lease_id res = l_id l)
      /\ (forall k, k <> r_id r -> lget w' !! k = lget w !! k)
      /\ (exists att', gpu_attach r l w' = (Ok att', w')
            /\ at_details att' !! "gpu.reattach" = Some "true")
      /\ ad_detach GpuLocalAdapter r l w' = (Ok tt, w')
  | (Err e, w') =>
      w' = w /\ (r_kind r <> Gpu \/ (r_attributes r !! "gpu.uuid" = None
                                     /\ r_attributes r !! "gpu.pci_bus_id" = None))
  end.
Proof.
  unfold gpu_attach. case_bool_decide as Hk; [by split; [|left]|].
  destruct (gpu_id_of r) as [g|] eqn:Hg; last first.
  { split; [done|]. right. unfold gpu_id_of in Hg. by case_match. }
  destruct (match lget w !! r_id r with Some _ => _ | None => _ end) eqn:Hheld.
  - destruct (lget w !! r_id r) as [res|] eqn:Hres; [|done]. pose proof Hheld as Hid.
    apply bool_decide_eq_true in Hid.
    split_and!; try done; [by exists res|].
    rewrite Hheld. eexists. split; [done|]. simpl. by rewrite lookup_insert_eq.
  - split_and!; try done.
    + rewrite lget_lput. eexists. by rewrite lookup_insert_eq.
    + intros k Hne. by rewrite lget_lput, lookup_insert_ne.
    + rewrite lget_lput, lookup_insert_eq. simpl. rewrite bool_decide_eq_true_2 by done.
      eexists. split; [done|]. simpl. by rewrite lookup_insert_eq.
Qed.

End gpu_local.
