(* ===== verification/Store.v ===== *)
(** * The fabric store (nauti-fabric/src/store.rs)

    The store contract a resource carries, its resolution, and the adapter that
    attaches it under a lease and detaches it on release. Creating a directory
    and looking up [virtiofsd] are arguments. *)

From stdpp Require Import base tactics option list gmap strings fin_maps.
From S2P Require Import Prelude Str Resource Fabric FabricInv FabricOps Adapters.

#[local] Open Scope Z_scope.

Inductive StoreKind : Type := Bind | VirtioFs | Nfs.

#[export] Instance StoreKind_eq_dec : EqDecision StoreKind.
Proof. solve_decision. Defined.

Definition parse_store_kind (raw : string) : result FabricError StoreKind :=
  if String.eqb raw "bind" then Ok Bind
  else if String.eqb raw "virtio-fs" || String.eqb raw "virtiofs" || String.eqb raw "fs" then Ok VirtioFs
  else if String.eqb raw "nfs" then Ok Nfs
  else Err (MissingResourceAttribute
              ("store.kind (unknown " +:+ raw +:+ "; expected bind|virtio-fs|nfs)")).

Definition store_kind_as_str (k : StoreKind) : string :=
  match k with Bind => "bind" | VirtioFs => "virtio-fs" | Nfs => "nfs" end.

Record StoreResolution : Type := mkStoreResolution {
  sr_resource_id : string;
  sr_kind : StoreKind;
  sr_path : string;
  sr_tag : string;
  sr_socket : option string;
  sr_nfs_export : option string;
}.

Definition from_resource (r : Resource) : result FabricError StoreResolution :=
  if bool_decide (r_kind r <> Storage) then
    Err (IncompatibleResourceKind "fabric-store" Storage (r_kind r))
  else
    kind ← parse_store_kind (match r_attributes r !! "store.kind" with
                             | Some k => k | None => "bind" end);
    path ← ok_or (r_attributes r !! "store.path") (MissingResourceAttribute "store.path");
    let tag := match r_attributes r !! "store.tag" with Some t => t | None => "nauti" end in
    let socket := r_attributes r !! "store.socket" in
    let nfs_export := r_attributes r !! "store.nfs_export" in
    if bool_decide (kind = Nfs /\ nfs_export = None) then
      Err (MissingResourceAttribute "store.nfs_export")
    else if bool_decide (kind = VirtioFs /\ socket = None) then
      Err (MissingResourceAttribute "store.socket")
    else Ok {| sr_resource_id := r_id r; sr_kind := kind; sr_path := path; sr_tag := tag;
               sr_socket := socket; sr_nfs_export := nfs_export |}.

Definition virtio_fs_spec (s : StoreResolution) : option string :=
  socket ← sr_socket s;
  if bool_decide (sr_kind s <> VirtioFs) then None
  else Some ("tag=" +:+ sr_tag s +:+ ",socket=" +:+ socket).

Definition job_path (s : StoreResolution) : string :=
  match sr_kind s with
  | Nfs => match sr_nfs_export s with Some e => e | None => sr_path s end
  | Bind | VirtioFs => sr_path s
  end.

Definition default_store_resource (node : string) : Resource :=
  {| r_id := "local.store.fabric"; r_kind := Storage; r_capacity := 1; r_unit := "store";
     r_node := node; r_state := Available; r_exclusive := true;
     r_attributes := {[ "store.kind" := "bind"; "store.path" := "/var/lib/nauti/store";
                        "store.tag" := "nauti" ]} |}.

(** [live]: lease id to resolution. *)
Abbreviation LiveStores := (gmap Z StoreResolution) (only parsing).

Section store.
Context {W : Type} `{HL : Lens W LiveStores}.
(** [create_dir_all], and [which("virtiofsd")]. *)
Context (create_dir_all : string -> W -> result string () * W) (virtiofsd : W -> option string).
(** Creating a directory does not touch the adapter's table. *)
Context (create_dir_frame : forall p w, lget (create_dir_all p w).2 = lget w).

Definition live_count (w : W) : nat := size (lget w).

Definition ensure_dir (path : string) (w : W) : result FabricError () * W :=
  let '(res, w) := create_dir_all path w in
  (map_err (fun error => AdapterBackendUnavailable "fabric-store"
              ("cannot create " +:+ path +:+ ": " +:+ error)) res, w).

Definition store_details (s : StoreResolution) : gmap string string :=
  {[ "store.kind" := store_kind_as_str (sr_kind s); "store.path" := job_path s;
     "store.virtio_fs" := match virtio_fs_spec s with Some v => v | None => EmptyString end;
     "store.tag" := sr_tag s ]}.

Definition store_attach (r : Resource) (l : Lease) (w : W) : result FabricError Attachment * W :=
  match from_resource r with
  | Err e => (Err e, w)
  | Ok resolution =>
      let '(dir, w) := if bool_decide (sr_kind resolution <> Nfs)
                       then ensure_dir (sr_path resolution) w else (Ok tt, w) in
      match dir with
      | Err e => (Err e, w)
      | Ok _ =>
          (Ok {| at_resource_id := r_id r; at_lease_id := l_id l; at_adapter := "fabric-store";
                 at_details := store_details resolution |},
           lput (<[l_id l := resolution]> (lget w)) w)
      end
  end.

Definition store_detach (r : Resource) (l : Lease) (w : W) : result FabricError () * W :=
  match lget w !! l_id l with
  | Some resolution =>
      if bool_decide (sr_resource_id resolution = r_id r)
      then (Ok tt, lput (delete (l_id l) (lget w)) w)
      else (Err LeaseNotFound, lput (<[l_id l := resolution]> (delete (l_id l) (lget w))) w)
  | None => (Ok tt, w)
  end.

Definition store_capability_report (w : W) : AdapterReport :=
  {| ar_name := "fabric-store"; ar_scope := "fabric-store"; ar_healthy := true;
     ar_detail := {[ "store.bind" := "available";
                     "store.virtiofsd" := match virtiofsd w with Some p => p | None => "missing" end;
                     "store.nfs" := "explicit-attr-only" ]} |}.

Definition FabricStoreAdapter : ResourceAdapter W :=
  {| ad_name := "fabric-store"; ad_attach := store_attach; ad_detach := store_detach;
     ad_capability_report := store_capability_report |}.

Lemma store_attach_ok r l w att w' :
  store_attach r l w = (Ok att, w') ->
  exists s, from_resource r = Ok s /\ at_resource_id att = r_id r /\ at_lease_id att = l_id l
    /\ at_adapter att = "fabric-store" /\ at_details att = store_details s
    /\ lget w' = <[l_id l := s]> (lget w).
Proof.
  unfold store_attach. destruct (from_resource r) as [s|]; [|done].
  assert (forall w1, lget w1 = lget w ->
    lget (lput (<[l_id l := s]> (lget w1)) w1) = <[l_id l := s]> (lget w)) as Hput.
  { intros w1 H1. by rewrite lget_lput, H1. }
  case_bool_decide; cbn zeta.
  - unfold ensure_dir. pose proof (create_dir_frame (sr_path s) w) as Hf.
    destruct (create_dir_all (sr_path s) w) as [[[]|] w1]; simpl; [|done].
    intros [= <- <-]. exists s. split_and!; try done. by apply Hput.
  - intros [= <- <-]. exists s. split_and!; try done. by apply Hput.
Qed.

#[global] Instance FabricStoreAdapter_laws : AdapterLaws FabricStoreAdapter.
Proof.
  split; [|done]. intros r l w a w' Ha. simpl in *.
  apply store_attach_ok in Ha as (s & _ & ? & ? & ? & _). done.
Qed.

(** ** The contract *)

Lemma parse_store_kind_as_str k : parse_store_kind (store_kind_as_str k) = Ok k.
Proof. by destruct k. Qed.

(** The store contract. Reading it off a resource succeeds exactly for a
    storage resource with a known kind (a missing kind is [bind]), a path, and
    the extra address its kind needs - an export for NFS, a socket for
    virtio-fs; the path a job opens is then a string the resource states, never
    an invented one, and the guest spec exists exactly for virtio-fs. *)
Theorem from_resource_spec r :
  let kind_attr := match r_attributes r !! "store.kind" with Some k => k | None => "bind" end in
  ((exists s, from_resource r = Ok s) <->
     r_kind r = Storage /\ is_Some (r_attributes r !! "store.path")
     /\ exists k, parse_store_kind kind_attr = Ok k
          /\ (k = Nfs -> is_Some (r_attributes r !! "store.nfs_export"))
          /\ (k = VirtioFs -> is_Some (r_attributes r !! "store.socket")))
  /\ (forall s, from_resource r = Ok s ->
       sr_resource_id s = r_id r /\ parse_store_kind kind_attr = Ok (sr_kind s)
       /\ (sr_kind s = Nfs -> r_attributes r !! "store.nfs_export" = Some (job_path s))
       /\ (sr_kind s <> Nfs -> r_attributes r !! "store.path" = Some (job_path s))
       /\ (is_Some (virtio_fs_spec s) <-> sr_kind s = VirtioFs)).
Proof.
  intros kind_attr. unfold from_resource. fold kind_attr.
  case_bool_decide as Hk; [split; [|done]; split; [by intros []|by intros [? _]]|].
  destruct (parse_store_kind kind_attr) as [k|] eqn:Ek; cbn [mbind result_bind];
    [|split; [|done]; split; [by intros []|by intros (_ & _ & ? & ? & _)]].
  destruct (r_attributes r !! "store.path") as [p|] eqn:Ep; cbn [ok_or mbind result_bind];
    [|split; [|done]; split; [by intros []|by intros (_ & [] & _)]].
  case_bool_decide as Hn.
  { destruct Hn as [-> Hn]. split; [|done]. split; [by intros []|].
    intros (_ & _ & k & [= <-] & H & _). destruct (H eq_refl). congruence. }
  case_bool_decide as Hv.
  { destruct Hv as [-> Hv]. split; [|done]. split; [by intros []|].
    intros (_ & _ & k & [= <-] & _ & H). destruct (H eq_refl). congruence. }
  assert (k = Nfs -> is_Some (r_attributes r !! "store.nfs_export")) as Hn'.
  { intros ->. destruct (r_attributes r !! "store.nfs_export"); [eauto|]. by destruct Hn. }
  assert (k = VirtioFs -> is_Some (r_attributes r !! "store.socket")) as Hv'.
  { intros ->. destruct (r_attributes r !! "store.socket"); [eauto|]. by destruct Hv. }
  split.
  - split; [|eauto]. intros _. split_and!; [done|eauto|]. by exists k.
  - intros s [= <-]. unfold job_path, virtio_fs_spec. simpl. split_and!; try done.
    + intros ->. by destruct (Hn' eq_refl) as [e ->].
    + intros ?. by destruct k.
    + destruct (r_attributes r !! "store.socket") as [so|] eqn:Es; simpl.
      * case_bool_decide; split; [by intros []|done|done|eauto].
      * split; [by intros []|]. intros ->. by destruct (Hv' eq_refl).
Qed.

(** C31. The life of a store attachment, through the registry: attaching a
    leased store puts exactly that lease in the adapter's table, with the
    resolution of the resource's contract; releasing the lease then detaches
    exactly it, leaves every other attachment in place, and frees the
    resource. *)
Theorem store_lifecycle c l att (fab fab' : Fabric W) :
  adapters fab !! "fabric-store" = Some FabricStoreAdapter -> leases_poisoned fab = false ->
  attach c "fabric-store" l fab = (Done (Ok att), fab') ->
  exists r s, resources fab !! l_resource_id l = Some r /\ from_resource r = Ok s
    /\ at_details att = store_details s
    /\ lget (world fab') = <[l_id l := s]> (lget (world fab))
    /\ (r_id r = l_resource_id l ->
        exists fab'', release l fab' = (Done (Ok tt), fab'')
        /\ lget (world fab'') = delete (l_id l) (lget (world fab))
        /\ leases fab'' = delete (l_resource_id l) (leases fab)
        /\ attachments fab'' = delete (l_resource_id l) (attachments fab)).
Proof.
  intros Had Hp. unfold attach, lock_leases, resource. st_unfold.
  destruct (resources fab !! l_resource_id l) as [r|] eqn:Hr; simpl; [|done]. rewrite Hp.
  destruct (authorized l (now c) fab) eqn:Hau; simpl; [|done]. rewrite Had. simpl.
  destruct (store_attach r l (world fab)) as [[att'|] w] eqn:Hatt; simpl; [|done].
  intros [= -> <-]. apply store_attach_ok in Hatt as (s & Hs & _ & _ & _ & Hd & Hw).
  exists r, s. split_and!; try done. intros Hid.
  set (fab' := with_attachments _ _).
  assert (holds_lease l fab' = true) as Hh.
  { unfold authorized in Hau. unfold holds_lease. simpl.
    destruct (leases fab !! l_resource_id l); [|done]. by apply andb_true_iff in Hau as [? _]. }
  assert (sr_resource_id s = r_id r) as Hsid.
  { unfold from_resource in Hs. case_bool_decide; [done|].
    destruct (parse_store_kind _); simpl in Hs; [|done].
    destruct (r_attributes r !! "store.path"); simpl in Hs; [|done].
    repeat case_bool_decide; naive_solver. }
  assert (detach_attached l fab' = (Ok tt, lput (delete (l_id l) (lget w)) w)) as Hdet.
  { unfold detach_attached, resource. simpl. rewrite lookup_insert_eq. simpl. rewrite Had, Hr. simpl.
    unfold store_detach. rewrite Hw, lookup_insert_eq. by rewrite bool_decide_eq_true_2. }
  eexists. split.
  - unfold release, release_check, release_remove, lock_leases, st_try. st_unfold.
    rewrite Hp. simpl. rewrite Hh, release_detach_eq, Hdet. simpl.
    rewrite Hp. simpl. rewrite holds_lease_world, Hh. reflexivity.
  - simpl. split_and!.
    + rewrite lget_lput, Hw. by rewrite delete_insert_eq.
    + done.
    + by rewrite delete_insert_eq.
Qed.

End store.

(** ** Concrete instances *)

Definition demo_store : Resource := default_store_resource "n".
Definition demo_mkdir (p : string) (w : gmap Z StoreResolution) : result string () * gmap Z StoreResolution :=
  (Ok tt, w).
Definition demo_adapter : ResourceAdapter (gmap Z StoreResolution) :=
  FabricStoreAdapter demo_mkdir (fun _ => None).
Definition demo_store_fab : Fabric (gmap Z StoreResolution) :=
  run_calls [ (clock_at 0, CRegisterAdapter demo_adapter); (clock_at 0, CRegister demo_store);
              (clock_at 1, CLease "local.store.fabric" "alice" (from_secs 5)) ] (default ∅).
Definition demo_store_lease : Lease := mkLease 1 "local.store.fabric" "alice".

Lemma store_lifecycle_witness :
  exists att fab', attach (clock_at 2) "fabric-store" demo_store_lease demo_store_fab = (Done (Ok att), fab')
  /\ at_details att !! "store.path" = Some "/var/lib/nauti/store".
Proof.
  assert (adapters demo_store_fab !! "fabric-store" = Some demo_adapter) as Had by reflexivity.
  assert (leases_poisoned demo_store_fab = false) as Hp by reflexivity.
  set (res := attach (clock_at 2) "fabric-store" demo_store_lease demo_store_fab).
  set (att := {| at_resource_id := "local.store.fabric"; at_lease_id := 1; at_adapter := "fabric-store";
                 at_details := {[ "store.kind" := "bind"; "store.path" := "/var/lib/nauti/store";
                                  "store.virtio_fs" := ""; "store.tag" := "nauti" ]} |}).
  assert (res.1 = Done (Ok att)) as E1 by (vm_compute; reflexivity).
  assert (res = (Done (Ok att), res.2)) as E by (rewrite <-E1; apply surjective_pairing).
  exists att, res.2. split; [exact E|].
  destruct (store_lifecycle demo_mkdir (fun _ => None) (fun _ _ => eq_refl) (clock_at 2)
    demo_store_lease att demo_store_fab res.2 Had Hp E) as (r & s & Hr & Hs & Hd & _).
  rewrite Hd. assert (Some r = Some demo_store) as [= ->] by (rewrite <-Hr; reflexivity).
  vm_compute in Hs. injection Hs as <-. reflexivity.
Defined.
