(* ===== verification/VhostRng.v ===== *)
(** * The virtio-rng backend (nauti-fabric/src/vhost/rng.rs)

    The device, its configuration and its rate-limited descriptor loop. What the queue hands over (descriptor
    chains), the clock readings, whether the source can be locked and what it
    gives are arguments of each request; the timer is the state. A completion
    is recorded when the loop hands it to the ring, which may refuse it: the code
    only logs that. *)

From stdpp Require Import base tactics option list gmap strings.
From S2P Require Import Prelude Str.

#[local] Open Scope Z_scope.

Definition QUEUE_SIZE : Z := 1024.
Definition NUM_QUEUES : Z := 1.
Definition MAX_PERIOD_MS : Z := 65536.

Inductive RngError : Type :=
  | DescriptorNotFound
  | SendNotificationFailed
  | EventFdError
  | HandleEventNotEpollIn
  | HandleEventUnknownEvent
  | UnexpectedDescriptorCount (n : Z)
  | UnexpectedReadDescriptor
  | SourceAccess
  | SourceRead
  | SourceOpen (e : string)
  | Daemon (e : string)
  | UnexpectedTimerValue.

Record RngConfig : Type := mkRngConfig {
  rc_socket_path : string;
  rc_source_path : string;
  rc_period_ms : Z;
  rc_max_bytes : Z;
}.

Definition rng_validate (cfg : RngConfig) : result RngError () :=
  if bool_decide (rc_period_ms cfg = 0) || bool_decide (rc_period_ms cfg > MAX_PERIOD_MS) then
    Err (SourceOpen ("period " +:+ show (rc_period_ms cfg) +:+ "ms outside 1..=" +:+ show MAX_PERIOD_MS))
  else Ok tt.

(** ** The timer *)

Record TimerConfig : Type := mkTimerConfig {
  tm_period_ms : Z;
  tm_period_start : instant;
  tm_max_bytes : Z;
  tm_quota_remaining : Z;
}.

(** [TimerConfig::new] at the reading [now]. *)
Definition timer_new (period_ms max_bytes : Z) (now : instant) : TimerConfig :=
  {| tm_period_ms := period_ms; tm_period_start := now; tm_max_bytes := max_bytes;
     tm_quota_remaining := max_bytes |}.

Definition restart (t : TimerConfig) (now : instant) : TimerConfig :=
  {| tm_period_ms := tm_period_ms t; tm_period_start := now; tm_max_bytes := tm_max_bytes t;
     tm_quota_remaining := tm_max_bytes t |}.

Definition as_millis (d : duration) : Z := d / 10 ^ 6.

(** The rate limiter's decision at [now]; [woken] is the clock after the sleep
    it may ask for, whose length is the second component. *)
Definition timer_tick (t : TimerConfig) (now woken : instant) : result RngError (TimerConfig * Z) :=
  if bool_decide (now < tm_period_start t) then Err UnexpectedTimerValue
  else
    let elapsed := as_millis (now - tm_period_start t) in
    if bool_decide (elapsed >= tm_period_ms t) then Ok (restart t now, 0)
    else if bool_decide (tm_quota_remaining t = 0) then
      Ok (restart t woken, tm_period_ms t - elapsed)
    else Ok (t, 0).

(** ** Requests *)

Record Descriptor : Type := mkDescriptor {
  d_addr : Z;
  d_len : Z;
  d_write_only : bool;
}.

Record Chain : Type := mkChain {
  ch_head_index : Z;
  ch_descriptors : list Descriptor;
}.

(** What the outside did during one request: the two clock readings, whether
    the source's lock could be taken, and what [read_volatile_from] returned
    for the address and the count it was asked for. *)
Record Env : Type := mkEnv {
  e_now : instant;
  e_woken : instant;
  e_locked : bool;
  e_read : Z -> Z -> option Z;
}.

(** A completion: the chain, the bytes, and the window they were charged to. *)
Record Used : Type := mkUsed {
  u_head : Z;
  u_len : Z;
  u_window : instant;
}.

Definition process_request (t : TimerConfig) (c : Chain) (env : Env) :
    result RngError Used * TimerConfig :=
  match ch_descriptors c with
  | [descriptor] =>
      if negb (d_write_only descriptor) then (Err UnexpectedReadDescriptor, t)
      else
        match timer_tick t (e_now env) (e_woken env) with
        | Err e => (Err e, t)
        | Ok (t, _) =>
            let to_read := if bool_decide (tm_quota_remaining t < d_len descriptor)
                           then tm_quota_remaining t else d_len descriptor in
            if negb (e_locked env) then (Err SourceAccess, t)
            else
              match e_read env (d_addr descriptor) to_read with
              | None => (Err SourceRead, t)
              | Some len =>
                  (Ok {| u_head := ch_head_index c; u_len := len; u_window := tm_period_start t |},
                   {| tm_period_ms := tm_period_ms t; tm_period_start := tm_period_start t;
                      tm_max_bytes := tm_max_bytes t;
                      tm_quota_remaining := tm_quota_remaining t - len |})
              end
        end
  | ds => (Err (UnexpectedDescriptorCount (Z.of_nat (length ds))), t)
  end.

(** [RngBackend::process_requests]: the completions added to the ring, and the
    first error, which ends the batch. *)
Fixpoint process_requests (t : TimerConfig) (requests : list (Chain * Env)) :
    result RngError bool * list Used * TimerConfig :=
  match requests with
  | [] => (Ok true, [], t)
  | (c, env) :: requests =>
      match process_request t c env with
      | (Err e, t) => (Err e, [], t)
      | (Ok u, t) =>
          let '(res, us, t) := process_requests t requests in (res, u :: us, t)
      end
  end.

(** [process_queue]: the queue's chains or an error, and the notification. *)
Definition process_queue (t : TimerConfig) (queue : option (list (Chain * Env))) (signal_ok : bool) :
    result RngError () * list Used * TimerConfig :=
  match queue with
  | None => (Err DescriptorNotFound, [], t)
  | Some requests =>
      let '(res, us, t) := process_requests t requests in
      match res with
      | Err e => (Err e, us, t)
      | Ok true => (if signal_ok then Ok tt else Err SendNotificationFailed, us, t)
      | Ok false => (Ok tt, us, t)
      end
  end.

(** One pass of the event loop: what [process_queue] finds, and whether
    [enable_notification] says there is more. *)
Record Pass : Type := mkPass {
  ps_queue : option (list (Chain * Env));
  ps_signal_ok : bool;
  ps_more : bool;
}.

(** The loop under [EVENT_IDX], over the passes that happen. *)
Fixpoint event_loop (t : TimerConfig) (passes : list Pass) :
    option (result RngError () * list Used * TimerConfig) :=
  match passes with
  | [] => None
  | p :: passes =>
      let '(res, us, t) := process_queue t (ps_queue p) (ps_signal_ok p) in
      match res with
      | Err e => Some (Err e, us, t)
      | Ok _ =>
          if ps_more p then
            '(res, us', t) ← event_loop t passes; Some (res, app us us', t)
          else Some (Ok tt, us, t)
      end
  end.

(** [handle_event]; [None] when the given passes end before the loop does. *)
Definition handle_event (event_idx : bool) (t : TimerConfig) (device_event : Z) (evset_in : bool)
    (passes : list Pass) : option (result RngError () * list Used * TimerConfig) :=
  if negb evset_in then Some (Err HandleEventNotEpollIn, [], t)
  else if bool_decide (device_event <> 0) then Some (Err HandleEventUnknownEvent, [], t)
  else if event_idx then event_loop t passes
  else p ← head passes; Some (process_queue t (ps_queue p) (ps_signal_ok p)).

(** [features()], with the bit numbers and the protocol bit of the libraries. *)
Definition rng_features (version_1 notify_on_empty indirect_desc event_idx protocol : Z) : Z :=
  Z.lor (Z.lor (Z.lor (Z.lor (Z.shiftl 1 version_1) (Z.shiftl 1 notify_on_empty))
    (Z.shiftl 1 indirect_desc)) (Z.shiftl 1 event_idx)) protocol.

(** [open_source]: how the file is opened; a FIFO read-write. *)
Inductive OpenMode : Type := ReadWrite | ReadOnly.

Definition open_source (is_fifo : string -> bool) (open : OpenMode -> string -> result string ())
    (path : string) : result RngError OpenMode :=
  let mode := if is_fifo path then ReadWrite else ReadOnly in
  map_err (fun e => SourceOpen (path +:+ ": " +:+ e)) ((fun _ => mode) <$> open mode path).

(** [Display] of [RngError]. *)
Definition rng_error_display (e : RngError) : string :=
  match e with
  | DescriptorNotFound => "descriptor not found"
  | SendNotificationFailed => "notification send failed"
  | EventFdError => "can't create eventFd"
  | HandleEventNotEpollIn => "failed to handle event: not EPOLLIN"
  | HandleEventUnknownEvent => "unknown device event"
  | UnexpectedDescriptorCount n => "too many descriptors: " +:+ show n
  | UnexpectedReadDescriptor => "unexpected read descriptor"
  | SourceAccess => "failed to access RNG source"
  | SourceRead => "failed to read from the RNG source"
  | SourceOpen e => "entropy source cannot be opened: " +:+ e
  | Daemon e => "daemon failed: " +:+ e
  | UnexpectedTimerValue => "previous time value is later than current time"
  end.

(** ** The device *)

(** [RngBackend], without the source and the event descriptors: those are in the
    environment of a request. *)
Record RngBackend : Type := mkRngBackend {
  rb_event_idx : bool;
  rb_timer : TimerConfig;
  rb_has_mem : bool;
}.

(** [RngBackend::new]; [eventfd] tells whether the exit descriptor can be made. *)
Definition rng_backend_new (eventfd : bool) (period_ms max_bytes : Z) (now : instant) : result RngError RngBackend :=
  if eventfd then Ok {| rb_event_idx := false; rb_timer := timer_new period_ms max_bytes now; rb_has_mem := false |}
  else Err EventFdError.

Definition num_queues : Z := NUM_QUEUES.
Definition max_queue_size : Z := QUEUE_SIZE.
Definition set_event_idx (enabled : bool) (b : RngBackend) : RngBackend :=
  mkRngBackend enabled (rb_timer b) (rb_has_mem b).
Definition update_memory (b : RngBackend) : RngBackend := mkRngBackend (rb_event_idx b) (rb_timer b) true.
Definition exit_event {A B} (consumer : option A) (notifier : option B) : option (A * B) :=
  consumer ← consumer; notifier ← notifier; Some (consumer, notifier).

(** [VhostUserBackendMut::handle_event]: the queue cannot be read before the
    frontend has handed over the guest's memory. *)
Definition rng_handle_event (b : RngBackend) (device_event : Z) (evset_in : bool) (passes : list Pass) :
    option (outcome (result RngError ()) * list Used * RngBackend) :=
  if evset_in && bool_decide (device_event = 0) && negb (rb_has_mem b) then Some (Panicked, [], b)
  else
    '(res, us, t) ← handle_event (rb_event_idx b) (rb_timer b) device_event evset_in passes;
    Some (Done res, us, mkRngBackend (rb_event_idx b) t (rb_has_mem b)).

(** [serve_rng]; the daemon is a library. *)
Definition serve_rng {D} (is_fifo : string -> bool) (open : OpenMode -> string -> result string ())
    (eventfd : bool) (now : instant) (daemon_new : RngBackend -> result string D)
    (daemon_serve : D -> string -> result string ()) (cfg : RngConfig) : result RngError () :=
  _ ← rng_validate cfg;
  _ ← open_source is_fifo open (rc_source_path cfg);
  backend ← map_err (fun e => SourceOpen (rng_error_display e))
    (rng_backend_new eventfd (rc_period_ms cfg) (rc_max_bytes cfg) now);
  daemon ← map_err Daemon (daemon_new backend);
  map_err Daemon (daemon_serve daemon (rc_socket_path cfg)).

(** ** The rate limit *)

Definition timer_ok (t : TimerConfig) : Prop :=
  0 < tm_period_ms t /\ 0 <= tm_quota_remaining t <= tm_max_bytes t.

(** The outside of one request as the libraries document it: a read returns at
    most what was asked for, and a sleep lasts at least as long as asked. *)
Definition env_ok (t : TimerConfig) (c : Chain) (env : Env) : Prop :=
  (forall addr n len, 0 <= n -> e_read env addr n = Some len -> 0 <= len <= n)
  /\ (forall t' ms, timer_tick t (e_now env) (e_woken env) = Ok (t', ms) ->
        ms = 0 \/ e_now env + from_millis ms <= e_woken env)
  /\ Forall (fun d => 0 <= d_len d) (ch_descriptors c).

Fixpoint envs_ok (t : TimerConfig) (requests : list (Chain * Env)) : Prop :=
  match requests with
  | [] => True
  | (c, env) :: requests => env_ok t c env /\ envs_ok (process_request t c env).2 requests
  end.

Definition bytes_in (w : instant) (us : list Used) : Z :=
  foldr (fun u s => (if bool_decide (u_window u = w) then u_len u else 0) + s) 0 us.

(** Two windows that start at [a] and later at [b] are a period apart. *)
Definition apart (period : Z) (a b : instant) : Prop := a = b \/ a + from_millis period <= b.

Lemma timer_tick_ok t c env t' ms :
  timer_ok t -> env_ok t c env -> timer_tick t (e_now env) (e_woken env) = Ok (t', ms) ->
  timer_ok t' /\ tm_max_bytes t' = tm_max_bytes t /\ tm_period_ms t' = tm_period_ms t
  /\ apart (tm_period_ms t) (tm_period_start t) (tm_period_start t')
  /\ (t' = t \/ (tm_period_start t < tm_period_start t' /\ tm_quota_remaining t' = tm_max_bytes t)).
Proof.
  intros [Hp Hq] (_ & Hsleep & _) Heq. pose proof (Hsleep _ _ Heq) as Hs. clear Hsleep.
  unfold timer_tick, as_millis, apart in *. unfold from_millis in *.
  case_bool_decide as Hnow; [done|].
  pose proof (Z.div_mod (e_now env - tm_period_start t) (10 ^ 6)) as Hdm.
  pose proof (Z.mod_pos_bound (e_now env - tm_period_start t) (10 ^ 6)) as Hmb.
  case_bool_decide as Hel; [|case_bool_decide as Hz].
  - injection Heq as <- _. unfold timer_ok. simpl. split_and!; try done; try lia.
  - injection Heq as <- <-. unfold timer_ok. simpl. split_and!; try done; try lia.
  - injection Heq as <- _. unfold timer_ok. split_and!; try done; try lia. by left.
Qed.

Lemma process_request_ok t c env :
  timer_ok t -> env_ok t c env ->
  let '(res, t') := process_request t c env in
  timer_ok t' /\ tm_max_bytes t' = tm_max_bytes t /\ tm_period_ms t' = tm_period_ms t
  /\ apart (tm_period_ms t) (tm_period_start t) (tm_period_start t')
  /\ (tm_period_start t' = tm_period_start t ->
        tm_quota_remaining t' = tm_quota_remaining t - match res with Ok u => u_len u | Err _ => 0 end)
  /\ (tm_period_start t' <> tm_period_start t ->
        tm_quota_remaining t' = tm_max_bytes t - match res with Ok u => u_len u | Err _ => 0 end)
  /\ match res with
     | Ok u => u_window u = tm_period_start t' /\ 0 <= u_len u
     | Err _ => True end.
Proof.
  intros Hok Henv. unfold process_request.
  assert (apart (tm_period_ms t) (tm_period_start t) (tm_period_start t)) as Hrefl by by left.
  destruct (ch_descriptors c) as [|d [|d' ds]] eqn:Ed; [split_and!; try done; lia| |split_and!; try done; lia].
  destruct (d_write_only d); simpl; [|split_and!; try done; lia].
  destruct (timer_tick t (e_now env) (e_woken env)) as [[t1 ms]|e] eqn:Et; [|split_and!; try done; lia].
  pose proof (timer_tick_ok _ _ _ _ _ Hok Henv Et) as (Hok1 & Hmax & Hper & Hap & Hcase).
  destruct (e_locked env); simpl; [|split_and!; try done; intros; destruct Hcase as [->|[? ?]]; lia].
  set (to_read := if bool_decide _ then _ else _).
  assert (0 <= to_read <= tm_quota_remaining t1) as Hto.
  { destruct Henv as (_ & _ & Hd). rewrite Ed in Hd. inversion Hd as [|? ? Hlen _]; subst.
    unfold to_read. destruct Hok1 as [_ Hq]. case_bool_decide; lia. }
  destruct (e_read env (d_addr d) to_read) as [len|] eqn:Er;
    [|split_and!; try done; intros; destruct Hcase as [->|[? ?]]; lia].
  destruct Henv as (Hread & _ & _). apply Hread in Er; [|lia].
  destruct Hok1 as [Hp1 Hq1]. simpl.
  split_and!; try done; [unfold timer_ok; simpl; lia|..]; simpl; try lia;
    intros; destruct Hcase as [->|[? ?]]; lia.
Qed.

(** What a batch has served from the window that was open when it began. *)
Lemma process_requests_ok t requests :
  timer_ok t -> envs_ok t requests ->
  let '(res, us, t') := process_requests t requests in
  timer_ok t' /\ tm_max_bytes t' = tm_max_bytes t
  /\ apart (tm_period_ms t) (tm_period_start t) (tm_period_start t')
  /\ Forall (fun u => 0 <= u_len u
              /\ apart (tm_period_ms t) (tm_period_start t) (u_window u)) us
  /\ bytes_in (tm_period_start t) us <= tm_quota_remaining t
  /\ (forall w, bytes_in w us <= tm_max_bytes t).
Proof.
  revert t. induction requests as [|[c env] requests IH]; intros t Hok Henvs; simpl.
  { pose proof Hok as [? ?]. split_and!; try done; try (by left); intros; simpl; lia. }
  destruct Henvs as [Henv Henvs].
  pose proof (process_request_ok t c env Hok Henv) as Hstep.
  destruct (process_request t c env) as [res t1]. simpl in Henvs.
  destruct Hstep as (Hok1 & Hmax & Hper & Hap & Hsame & Hdiff & Hres).
  destruct res as [u|e]; last first.
  { pose proof Hok as [? ?]. split_and!; try done; intros; simpl; lia. }
  destruct Hres as [Hw Hlen]. specialize (IH t1 Hok1 Henvs).
  destruct (process_requests t1 requests) as [[res us] t2].
  destruct IH as (Hok2 & Hmax2 & Hap2 & Hall & Hsum & Hwin).
  pose proof Hok as [Hp Hq].
  assert (forall x, apart (tm_period_ms t1) (tm_period_start t1) x ->
            apart (tm_period_ms t) (tm_period_start t) x) as Htrans.
  { intros x. unfold apart in *. rewrite Hper. unfold from_millis in *. lia. }
  assert (forall w, w <> tm_period_start t1 -> tm_period_start t1 <> tm_period_start t ->
    w = tm_period_start t -> bytes_in w us = 0) as Hold.
  { intros w Hne Hne1 ->. clear -Hall Hne1 Hap Hp Hper. induction Hall as [|u us [Hl Ha] _ IH]; [done|].
    simpl. rewrite bool_decide_eq_false_2; [lia|]. unfold apart, from_millis in *. lia. }
  split_and!.
  - done.
  - by rewrite Hmax2.
  - by apply Htrans.
  - constructor; [by rewrite Hw|]. eapply Forall_impl; [exact Hall|]. intros u' [? ?]. split; auto.
  - simpl. rewrite Hw. destruct (decide (tm_period_start t1 = tm_period_start t)) as [Heq|Hne].
    + rewrite bool_decide_eq_true_2 by done. rewrite Heq in Hsum. specialize (Hsame Heq). lia.
    + rewrite bool_decide_eq_false_2 by done. rewrite Hold by done. lia.
  - intros w. simpl. rewrite Hw. case_bool_decide as Hcase.
    + subst w. destruct (decide (tm_period_start t1 = tm_period_start t)) as [Heq|Hne];
        [specialize (Hsame Heq)|specialize (Hdiff Hne)]; lia.
    + rewrite <-Hmax. specialize (Hwin w). lia.
Qed.

(** What a batch charges to each window, with what it leaves of the open one. *)
Lemma process_requests_charge t requests :
  timer_ok t -> envs_ok t requests ->
  let '(_, us, t') := process_requests t requests in
  Forall (fun u => apart (tm_period_ms t) (u_window u) (tm_period_start t')) us
  /\ ForallOrdPairs (fun u u' => apart (tm_period_ms t) (u_window u) (u_window u')) us
  /\ tm_period_ms t' = tm_period_ms t
  /\ forall w, bytes_in w us + (if decide (w = tm_period_start t') then tm_quota_remaining t' else 0)
               <= (if decide (w = tm_period_start t) then tm_quota_remaining t else tm_max_bytes t).
Proof.
  revert t. induction requests as [|[c env] requests IH]; intros t Hok Henvs; simpl.
  { destruct Hok as [_ Hq]. split_and!; [done|constructor|done|]. intros w. case_decide; lia. }
  destruct Henvs as [Henv Henvs]. pose proof (process_request_ok t c env Hok Henv) as Hstep.
  destruct (process_request t c env) as [res t1]. simpl in Henvs.
  destruct Hstep as (Hok1 & Hmax & Hper & Hap & Hsame & Hdiff & Hres). pose proof Hok as [Hp Hq].
  assert (tm_period_start t <= tm_period_start t1) as Hle by (unfold apart, from_millis in Hap; lia).
  destruct res as [u|e]; last first.
  { split_and!; [done|constructor|done|]. intros w. simpl. repeat case_decide; subst; lia. }
  destruct Hres as [Hw Hlen]. specialize (IH t1 Hok1 Henvs).
  pose proof (process_requests_ok t1 requests Hok1 Henvs) as Hbatch.
  destruct (process_requests t1 requests) as [[res us] t2].
  destruct IH as (Hlate & Hpairs & Hper2 & Hsum). destruct Hbatch as (_ & _ & Hap2 & Hall & _).
  rewrite Hper in Hlate, Hpairs, Hper2, Hall, Hap2.
  assert (tm_period_start t1 <= tm_period_start t2) as Hle2.
  { unfold apart, from_millis in Hap2. lia. }
  split_and!; [constructor; [by rewrite Hw|done]| |done|].
  { constructor; [|done]. eapply Forall_impl; [exact Hall|]. intros u' [_ Ha]. by rewrite Hw. }
  intros w. simpl. rewrite Hw. specialize (Hsum w). rewrite Hmax in Hsum.
  case_bool_decide as Hcase.
  - subst w. rewrite (decide_True (P := tm_period_start t1 = tm_period_start t1)) in Hsum by done.
    destruct (decide (tm_period_start t1 = tm_period_start t)) as [Heq|Hne];
      [specialize (Hsame Heq)|specialize (Hdiff Hne)]; lia.
  - rewrite (decide_False (P := w = tm_period_start t1)) in Hsum by done.
    destruct (decide (w = tm_period_start t)) as [->|]; [|lia].
    assert (bytes_in (tm_period_start t) us = 0) as ->; [|rewrite decide_False by lia; lia].
    clear -Hall Hle Hcase Hp. induction Hall as [|u us [_ Ha] _ IH]; [done|]. simpl.
    rewrite bool_decide_eq_false_2; [lia|].
    unfold apart, from_millis in Ha. lia.
Qed.

(** Batches one after the other, each from the timer the last one left, an error
    ending only its own batch. *)
Fixpoint serve_batches (t : TimerConfig) (batches : list (list (Chain * Env))) : list Used * TimerConfig :=
  match batches with
  | [] => ([], t)
  | requests :: batches =>
      let '(_, us, t) := process_requests t requests in
      let '(us', t) := serve_batches t batches in (app us us', t)
  end.

Fixpoint batches_ok (t : TimerConfig) (batches : list (list (Chain * Env))) : Prop :=
  match batches with
  | [] => True
  | requests :: batches => envs_ok t requests /\ batches_ok (process_requests t requests).2 batches
  end.

Lemma bytes_in_app w us us' : bytes_in w (app us us') = bytes_in w us + bytes_in w us'.
Proof. induction us as [|u us IH]; simpl; lia. Qed.

Lemma bytes_in_other w us : Forall (fun u => u_window u <> w) us -> bytes_in w us = 0.
Proof. induction 1 as [|u us Hu _ IH]; [done|]. simpl. rewrite bool_decide_eq_false_2 by done. lia. Qed.

Lemma serve_batches_charge t batches :
  timer_ok t -> batches_ok t batches ->
  let '(us, t') := serve_batches t batches in
  timer_ok t' /\ tm_max_bytes t' = tm_max_bytes t
  /\ Forall (fun u => 0 <= u_len u /\ apart (tm_period_ms t) (tm_period_start t) (u_window u)) us
  /\ ForallOrdPairs (fun u u' => apart (tm_period_ms t) (u_window u) (u_window u')) us
  /\ forall w, bytes_in w us <= (if decide (w = tm_period_start t) then tm_quota_remaining t else tm_max_bytes t).
Proof.
  revert t. induction batches as [|requests batches IH]; intros t Hok Hb; simpl.
  { destruct Hok as [? Hq]. split_and!; try done; [constructor|]. intros w. case_decide; simpl; lia. }
  destruct Hb as [Henvs Hb]. pose proof (process_requests_ok t requests Hok Henvs) as H1.
  pose proof (process_requests_charge t requests Hok Henvs) as H2.
  destruct (process_requests t requests) as [[res us] t1]. simpl in Hb.
  destruct H1 as (Hok1 & Hmax & Hap & Hall & _). destruct H2 as (Hlate & Hpairs & Hper & Hsum).
  specialize (IH t1 Hok1 Hb). destruct (serve_batches t1 batches) as [us' t2].
  destruct IH as (Hok2 & Hmax2 & Hge & Hpairs' & Hsum'). rewrite Hper in Hge, Hpairs'. pose proof Hok as [Hp Hq].
  assert (forall a b c, apart (tm_period_ms t) a b -> apart (tm_period_ms t) b c -> apart (tm_period_ms t) a c)
    as Htrans by (unfold apart, from_millis; lia).
  split_and!; [done|by rewrite Hmax2|..].
  - apply Forall_app. split; [done|]. eapply Forall_impl; [exact Hge|]. intros u [? ?]. split; [done|].
    by eapply Htrans.
  - clear Hsum Hsum' Hall. induction Hpairs as [|u us Hu _ IHp]; [done|]. apply Forall_cons in Hlate as [Hlu Hlate].
    simpl. constructor; [|by apply IHp]. apply Forall_app. split; [done|].
    eapply Forall_impl; [exact Hge|]. intros u' [_ ?]. by eapply Htrans.
  - intros w. rewrite bytes_in_app. specialize (Hsum w). specialize (Hsum' w). rewrite Hmax in Hsum'.
    destruct (decide (w = tm_period_start t1)) as [->|Hne]; [lia|].
    destruct (decide (w < tm_period_start t1)) as [Hlt|Hgt].
    + rewrite (bytes_in_other w us'); [lia|]. eapply Forall_impl; [exact Hge|]. simpl.
      unfold apart, from_millis. lia.
    + rewrite (bytes_in_other w us); [|eapply Forall_impl; [exact Hlate|]; simpl; unfold apart, from_millis; lia].
      rewrite (decide_False (P := w = tm_period_start t)) by (unfold apart, from_millis in Hap; lia). lia.
Qed.

Lemma serve_batches_app t batches more :
  serve_batches t (app batches more)
  = let '(us, t') := serve_batches t batches in
    let '(us', t'') := serve_batches t' more in (app us us', t'').
Proof.
  revert t. induction batches as [|requests batches IH]; intros t; simpl.
  - by destruct (serve_batches t more).
  - destruct (process_requests t requests) as [[r us] t1]. rewrite IH. destruct (serve_batches t1 batches) as [us1 t2].
    destruct (serve_batches t2 more). by rewrite app_assoc.
Qed.

Lemma process_queue_batch t p r us t1 :
  process_queue t (ps_queue p) (ps_signal_ok p) = (r, us, t1) -> serve_batches t (omap ps_queue [p]) = (us, t1).
Proof.
  intros E. unfold process_queue in E. simpl. destruct (ps_queue p) as [requests|]; simpl; [|by simplify_eq].
  destruct (process_requests t requests) as [[[[]|] us2] t2]; simplify_eq; by rewrite app_nil_r.
Qed.

(** An event serves batches: those of the passes it made. *)
Lemma event_loop_batches t passes res us t' :
  event_loop t passes = Some (res, us, t') -> exists k, serve_batches t (omap ps_queue (take k passes)) = (us, t').
Proof.
  revert t us t' res. induction passes as [|p passes IH]; intros t us t' res; simpl; [done|].
  destruct (process_queue t (ps_queue p) (ps_signal_ok p)) as [[r us1] t1] eqn:E.
  pose proof (process_queue_batch _ _ _ _ _ E) as Hone.
  destruct r as [[]|e]; [|intros [= <- <- <-]; by exists 1%nat].
  destruct (ps_more p); [|intros [= <- <- <-]; by exists 1%nat].
  destruct (event_loop t1 passes) as [[[r' us'] t2]|] eqn:El; simpl; [|done]. intros [= _ <- <-].
  destruct (IH _ _ _ _ El) as [k Hk]. exists (S k). cbn [take].
  replace (omap ps_queue (p :: take k passes)) with (app (omap ps_queue [p]) (omap ps_queue (take k passes)))
    by (simpl; by destruct (ps_queue p)).
  by rewrite serve_batches_app, Hone, Hk.
Qed.

Lemma handle_event_batches event_idx t device_event evset_in passes res us t' :
  handle_event event_idx t device_event evset_in passes = Some (res, us, t') ->
  exists k, serve_batches t (omap ps_queue (take k passes)) = (us, t').
Proof.
  unfold handle_event. destruct (negb evset_in); [intros [= _ <- <-]; by exists 0%nat|].
  case_bool_decide; [intros [= _ <- <-]; by exists 0%nat|].
  destruct event_idx; [apply event_loop_batches|].
  destruct passes as [|p passes]; simpl; [done|]. intros Heq.
  injection Heq as Heq. exists 1%nat. by apply process_queue_batch in Heq.
Qed.

(** The rate limit. Whatever the guest asks for, and whenever: no batch
    ever charges more than [max_bytes] to one window - counting what was
    already served from the window open at its start - windows start at least
    [period_ms] apart, the quota never goes below zero, and the timer error is
    unreachable while the clock does not run backwards. *)
Theorem rng_rate_limit t requests :
  timer_ok t -> envs_ok t requests ->
  let '(res, us, t') := process_requests t requests in
  0 <= tm_quota_remaining t' <= tm_max_bytes t
  /\ bytes_in (tm_period_start t) us <= tm_quota_remaining t
  /\ (forall w, bytes_in w us <= tm_max_bytes t)
  /\ Forall (fun u => apart (tm_period_ms t) (tm_period_start t) (u_window u)) us
  /\ (forall c env, tm_period_start t' <= e_now env ->
        (process_request t' c env).1 <> Err UnexpectedTimerValue).
Proof.
  intros Hok Henvs. pose proof (process_requests_ok t requests Hok Henvs) as H.
  destruct (process_requests t requests) as [[res us] t'].
  destruct H as ([_ Hq] & Hmax & _ & Hall & Hsum & Hwin). split_and!; try done; try lia.
  - eapply Forall_impl; [exact Hall|]. naive_solver.
  - intros c env Hnow. unfold process_request, timer_tick.
    destruct (ch_descriptors c) as [|d [|]]; [done| |done]. destruct (d_write_only d); simpl; [|done].
    rewrite bool_decide_eq_false_2 by lia.
    repeat case_bool_decide; simpl; destruct (e_locked env); simpl; try done;
      by destruct (e_read env _ _).
Qed.

(** C32. The rate limit over the life of a device. From the moment it is made,
    whatever the guest asks for and whenever, in whatever batches, and whether
    batches fail or not: no window is ever charged more than [max_bytes], any
    two windows are the same or at least [period_ms] apart, and the quota stays
    between zero and [max_bytes]. Everything an event serves is served in such
    batches, under [EVENT_IDX] or without. A device made with [max_bytes] zero
    completes every request with zero bytes. *)
Theorem rng_device_limit period_ms max_bytes made batches :
  0 < period_ms -> 0 <= max_bytes ->
  let t := timer_new period_ms max_bytes made in
  batches_ok t batches ->
  let '(us, t') := serve_batches t batches in
  (forall w, bytes_in w us <= max_bytes)
  /\ ForallOrdPairs (fun u u' => apart period_ms (u_window u) (u_window u')) us
  /\ 0 <= tm_quota_remaining t' <= max_bytes
  /\ (max_bytes = 0 -> Forall (fun u => u_len u = 0) us)
  /\ (forall event_idx device_event evset_in passes res used t'',
        handle_event event_idx t' device_event evset_in passes = Some (res, used, t'') ->
        exists k, serve_batches t (app batches (omap ps_queue (take k passes))) = (app us used, t'')).
Proof.
  intros Hp Hm t Hb. assert (timer_ok t) as Hok by (unfold timer_ok; simpl; lia).
  pose proof (serve_batches_charge t batches Hok Hb) as H.
  destruct (serve_batches t batches) as [us t'] eqn:Eb. destruct H as ([_ Hq] & Hmax & Hlen & Hpairs & Hsum).
  assert (forall w, bytes_in w us <= max_bytes) as Hall.
  { intros w. specialize (Hsum w). simpl in Hsum. by case_decide. }
  split_and!; [done|done|rewrite Hmax in Hq; simpl in Hq; lia|rewrite Hmax in Hq; simpl in Hq; lia|..].
  - intros ->. apply Forall_forall. intros u Hin. specialize (Hall (u_window u)).
    assert (forall l, Forall (fun v => 0 <= u_len v) l -> 0 <= bytes_in (u_window u) l) as Hnn.
    { induction 1 as [|v l ? _ IH]; simpl; [lia|]. case_bool_decide; lia. }
    apply list_elem_of_split in Hin as (l1 & l2 & ->). rewrite bytes_in_app in Hall. simpl in Hall.
    rewrite bool_decide_eq_true_2 in Hall by done. rewrite Forall_app, Forall_cons in Hlen.
    destruct Hlen as (H1 & [Hu _] & H2).
    assert (0 <= bytes_in (u_window u) l1) by (apply Hnn; eapply Forall_impl; [exact H1|naive_solver]).
    assert (0 <= bytes_in (u_window u) l2) by (apply Hnn; eapply Forall_impl; [exact H2|naive_solver]).
    lia.
  - intros event_idx device_event evset_in passes res used t'' Hev.
    apply handle_event_batches in Hev as [k Hk]. exists k. by rewrite serve_batches_app, Eb, Hk.
Qed.

(** ** A concrete instance *)

(** Three requests of 40 bytes at 64 bytes per 100 ms: the second is cut to the
    24 bytes left, the third sleeps into a new window. *)
Definition demo_env (now woken : Z) : Env :=
  {| e_now := from_millis now; e_woken := from_millis woken; e_locked := true;
     e_read := fun _ n => Some n |}.
Definition demo_chain (i : Z) : Chain := {| ch_head_index := i; ch_descriptors := [mkDescriptor 0 40 true] |}.
Definition demo_requests : list (Chain * Env) :=
  [ (demo_chain 0, demo_env 10 10); (demo_chain 1, demo_env 20 20); (demo_chain 2, demo_env 30 100) ].


(** The sleeps of a run are long enough; the reads of [demo_env] are exact. *)
Fixpoint sleeps_ok (t : TimerConfig) (requests : list (Chain * Env)) : bool :=
  match requests with
  | [] => true
  | (c, env) :: requests =>
      match timer_tick t (e_now env) (e_woken env) with
      | Ok (_, ms) => (ms =? 0) || (e_now env + from_millis ms <=? e_woken env)
      | Err _ => true
      end && sleeps_ok (process_request t c env).2 requests
  end.

Lemma demo_envs_ok t requests :
  Forall (fun ce => Forall (fun d => 0 <= d_len d) (ch_descriptors ce.1) /\ exists n w, ce.2 = demo_env n w) requests ->
  sleeps_ok t requests = true -> envs_ok t requests.
Proof.
  intros Hall. revert t. induction Hall as [|ce requests Hce _ IH]; intros t; [done|].
  destruct ce as [c env], Hce as [Hc (n & w & He)]. simpl in Hc, He. subst.
  cbn [sleeps_ok envs_ok].
  rewrite andb_true_iff. intros [Hs Hr]. split; [|by apply IH]. unfold env_ok. split_and!.
  - intros addr m len Hm [= <-]. lia.
  - intros t' ms Ht. rewrite Ht in Hs. apply orb_true_iff in Hs as [Hs|Hs];
      [left; by apply Z.eqb_eq|right; by apply Z.leb_le].
  - done.
Qed.

Lemma rng_rate_limit_witness :
  let t := timer_new 100 64 0 in
  (u_len <$> (process_requests t demo_requests).1.2) = [40; 24; 40]
  /\ bytes_in 0 (process_requests t demo_requests).1.2 <= 64.
Proof.
  intros t. split; [vm_compute; reflexivity|].
  assert (timer_ok t) as Hok by (unfold timer_ok; simpl; lia).
  assert (envs_ok t demo_requests) as Henvs.
  { apply demo_envs_ok; [|vm_compute; reflexivity].
    repeat (apply Forall_cons; split; [split; [repeat constructor; cbn; lia|by eexists _, _]|]). by apply Forall_nil. }
  pose proof (rng_rate_limit t demo_requests Hok Henvs) as H.
  destruct (process_requests t demo_requests) as [[res us] t'].
  destruct H as (_ & _ & H & _). apply (H 0).
Defined.

(** Two batches, the first ended by a chain with no descriptor. *)
Definition demo_batches : list (list (Chain * Env)) :=
  [ [(demo_chain 0, demo_env 10 10); (mkChain 7 [], demo_env 15 15); (demo_chain 3, demo_env 16 16)];
    [(demo_chain 1, demo_env 20 20); (demo_chain 2, demo_env 30 100)] ].

Lemma rng_device_limit_witness :
  (u_len <$> (serve_batches (timer_new 100 64 0) demo_batches).1) = [40; 24; 40]
  /\ bytes_in 0 (serve_batches (timer_new 100 64 0) demo_batches).1 <= 64.
Proof.
  split; [vm_compute; reflexivity|].
  assert (batches_ok (timer_new 100 64 0) demo_batches) as Hb.
  { split; [|split; [|exact I]]; (apply demo_envs_ok; [|vm_compute; reflexivity]).
    all: repeat (apply Forall_cons; split; [split; [repeat constructor; cbn; lia|by eexists _, _]|]); by apply Forall_nil. }
  pose proof (rng_device_limit 100 64 0 demo_batches ltac:(lia) ltac:(lia) Hb) as H.
  destruct (serve_batches (timer_new 100 64 0) demo_batches) as [us t']. destruct H as [H _]. apply (H 0).
Defined.
