(* ===== verification/Entropy.v ===== *)
(** * The remote entropy stub (nauti-fabric/src/vhost/entropy.rs)

    The length-prefixed protocol over a byte stream: the server's loop over one
    connection, the client's fetch and the pump. The random source, the socket
    and the FIFO are arguments. *)

From stdpp Require Import base tactics option list gmap strings.
From Stdlib Require Import Ascii String.
From S2P Require Import Prelude Str Utf8 Resource Fabric RpcAuth Rpc RpcProps.

#[local] Open Scope Z_scope.

Definition MAX_REQUEST_BYTES : Z := 2 ^ 20.
Definition DEFAULT_CHUNK : Z := 64 * 2 ^ 10.

Inductive EntropyError : Type :=
  | EntropyBind (addr e : string)
  | EntropyConnect (addr e : string)
  | EntropyProtocol (m : string)
  | EntropyIo (e : string).

(** [Display] of [EntropyError]. *)
Definition entropy_error_display (e : EntropyError) : string :=
  match e with
  | EntropyBind addr e => "cannot bind entropy server at " +:+ addr +:+ ": " +:+ e
  | EntropyConnect addr e => "cannot connect to entropy server at " +:+ addr +:+ ": " +:+ e
  | EntropyProtocol m => "protocol violation: " +:+ m
  | EntropyIo e => "i/o: " +:+ e
  end.

(** [u32::to_be_bytes] and [u32::from_be_bytes]. *)
Definition to_be_bytes (z : Z) : string := String.rev (to_le_bytes z).
Definition from_be_bytes (s : string) : Z := from_le_bytes (String.rev s).

Definition length_ok (len : Z) : bool :=
  negb (bool_decide (len = 0) || bool_decide (len > MAX_REQUEST_BYTES)).

Definition length_error (what : string) (len : Z) : EntropyError :=
  EntropyProtocol (what +:+ show len +:+ " outside 1..=" +:+ show MAX_REQUEST_BYTES).

Section entropy.
(** The [n] bytes [read_exact] takes from the source at its [k]th read. *)
Context (urandom : nat -> nat -> result string string).
(** Opening the source, and whether the [k]th answer could be sent. *)
Context (open_urandom : result string ()) (sent : nat -> result string ()).

(** How serving a connection ended, with what was sent. *)
Inductive ConnEnd : Type :=
  | ConnClosed
  | ConnError (e : EntropyError)
  | ConnOutOfFuel.

(** The loop of [serve_conn]; [k] counts the reads of the source. *)
Fixpoint serve_conn_loop (fuel k : nat) (s : Stream) (out : string) : ConnEnd * string :=
  match fuel with
  | O => (ConnOutOfFuel, out)
  | S f =>
      match read_exact 4 s with
      | Err true => (ConnClosed, out)
      | Err false => (ConnError (EntropyIo "read"), out)
      | Ok (len_buf, s') =>
          let len := from_be_bytes len_buf in
          if negb (length_ok len) then (ConnError (length_error "requested length " len), out)
          else
            match urandom k (Z.to_nat len) with
            | Err e => (ConnError (EntropyIo e), out)
            | Ok buf =>
                match sent k with
                | Err e => (ConnError (EntropyIo e), out)
                | Ok _ => serve_conn_loop f (S k) s' (out +:+ buf)
                end
            end
      end
  end.

(** Every turn consumes the four bytes of a length. *)
Definition serve_conn (s : Stream) : ConnEnd * string :=
  match open_urandom with
  | Err e => (ConnError (EntropyIo e), EmptyString)
  | Ok _ => serve_conn_loop (S (String.length (st_bytes s))) 0 s EmptyString
  end.

(** [entropy_serve_on]: every connection has a thread of its own, whose end is
    dropped; an error of the listener ends the server. [incoming] are the
    connections that came. *)
Fixpoint entropy_serve_on (incoming : list (result string Stream)) :
    result EntropyError () * list (ConnEnd * string) :=
  match incoming with
  | [] => (Ok tt, [])
  | Err e :: _ => (Err (EntropyIo e), [])
  | Ok stream :: incoming =>
      let '(res, served) := entropy_serve_on incoming in (res, serve_conn stream :: served)
  end.

Definition entropy_serve (bound : result string ()) (listen : string) (incoming : list (result string Stream)) :
    result EntropyError () * list (ConnEnd * string) :=
  match bound with
  | Err e => (Err (EntropyBind listen e), [])
  | Ok _ => entropy_serve_on incoming
  end.

(** [entropy_fetch]: [exchange addr request] is the stream of the answer, or why
    there is none. *)
Definition entropy_fetch (exchange : string -> string -> result EntropyError Stream)
    (addr : string) (len : Z) : result EntropyError string :=
  if negb (length_ok len) then Err (length_error "requested length " len)
  else
    answer ← exchange addr (to_be_bytes len);
    '(buf, _) ← map_err (fun _ : bool => EntropyIo "read") (read_exact (Z.to_nat len) answer);
    Ok buf.

(** [entropy_pump]: what it has written to [out] when it stops; [turns] are the
    fetches that happen with the outcome of writing what they gave, and [None]
    says that it is still running after them. *)
Fixpoint pump_loop (turns : list (result EntropyError string * result string ())) (written : string) :
    option EntropyError * string :=
  match turns with
  | [] => (None, written)
  | (Err e, _) :: _ => (Some e, written)
  | (Ok bytes, Err e) :: _ => (Some (EntropyIo e), written)
  | (Ok bytes, Ok _) :: turns => pump_loop turns (written +:+ bytes)
  end.

(** [mkfifo] is why the command could not run, or the status it failed with. *)
Definition entropy_pump (out_exists : bool) (mkfifo : result string (option string))
    (open_out : result string ()) (out : string) (chunk : Z)
    (turns : list (result EntropyError string * result string ())) : option EntropyError * string :=
  if negb (length_ok chunk) then (Some (length_error "pump chunk " chunk), EmptyString)
  else
    match (if out_exists then Ok None else mkfifo) with
    | Err e => (Some (EntropyProtocol ("mkfifo unavailable: " +:+ e)), EmptyString)
    | Ok (Some status) =>
        (Some (EntropyProtocol ("mkfifo " +:+ out +:+ " failed with " +:+ status)), EmptyString)
    | Ok None =>
        match open_out with
        | Err e => (Some (EntropyIo e), EmptyString)
        | Ok _ => pump_loop turns EmptyString
        end
    end.

(** ** The protocol *)

Lemma be_roundtrip z : 0 <= z <= u32_max -> from_be_bytes (to_be_bytes z) = z.
Proof.
  intros Hz. unfold from_be_bytes, to_be_bytes. rewrite rev_str_involutive. by apply le_roundtrip.
Qed.

Lemma to_be_bytes_length z : String.length (to_be_bytes z) = 4%nat.
Proof. reflexivity. Qed.

Lemma length_ok_spec len : length_ok len = true <-> len <> 0 /\ len <= MAX_REQUEST_BYTES.
Proof.
  unfold length_ok. rewrite negb_true_iff, orb_false_iff, !bool_decide_eq_false. lia.
Qed.

Lemma from_be_bytes_nonneg s : 0 <= from_be_bytes s.
Proof.
  unfold from_be_bytes. induction (String.rev s) as [|a r IH]; cbn [from_le_bytes]; lia.
Qed.

(** Bytes a source and a socket that do not fail give to a list of requests. *)
Fixpoint answers (k : nat) (lens : list Z) : option (list string) :=
  match lens with
  | [] => Some []
  | len :: lens =>
      match urandom k (Z.to_nat len) with
      | Ok buf =>
          match sent k with
          | Ok _ => bufs ← answers (S k) lens; Some (buf :: bufs)
          | Err _ => None
          end
      | Err _ => None
      end
  end.

Definition requests (lens : list Z) (tail : string) : string :=
  foldr (fun len s => to_be_bytes len +:+ s) tail lens.

Lemma serve_conn_answers lens tail fin bufs fuel k out :
  Forall (fun len => 0 < len <= MAX_REQUEST_BYTES) lens -> answers k lens = Some bufs ->
  serve_conn_loop (length lens + fuel) k (mkStream (requests lens tail) fin) out
    = serve_conn_loop fuel (k + length lens) (mkStream tail fin) (foldl String.append out bufs).
Proof.
  intros Hlens. revert k out bufs. induction Hlens as [|len lens Hlen Hlens IH]; intros k out bufs Hb.
  { injection Hb as <-. simpl. by rewrite Nat.add_0_r. }
  cbn [answers] in Hb. destruct (urandom k (Z.to_nat len)) as [buf|] eqn:Eu; [|done].
  destruct (sent k) eqn:Es; [|done].
  destruct (answers (S k) lens) as [bufs'|] eqn:Ea; [|done]. injection Hb as <-.
  cbn [length Nat.add serve_conn_loop requests foldr]. fold (requests lens tail).
  rewrite <-(to_be_bytes_length len) at 1. rewrite read_exact_app.
  rewrite be_roundtrip by (unfold MAX_REQUEST_BYTES, u32_max in *; lia).
  assert (length_ok len = true) as -> by (apply length_ok_spec; lia). cbn [negb].
  rewrite Eu, Es. cbn [foldl]. rewrite (IH (S k) _ bufs') by done.
  f_equal. lia.
Qed.

Lemma serve_conn_fuel fuel k s out :
  (String.length (st_bytes s) < fuel)%nat -> (serve_conn_loop fuel k s out).1 <> ConnOutOfFuel.
Proof.
  revert k s out. induction fuel as [|fuel IH]; intros k s out Hf; [lia|]. cbn [serve_conn_loop].
  destruct (read_exact 4 s) as [[buf s']|[]] eqn:E; [|done..].
  destruct (negb (length_ok _)); [done|]. destruct (urandom _ _); [|done].
  destruct (sent k); [|done]. apply IH. apply read_exact_shrinks in E. lia.
Qed.

Lemma requests_length lens tail :
  String.length (requests lens tail) = (4 * length lens + String.length tail)%nat.
Proof.
  induction lens as [|len lens IH]; [done|]. cbn [requests foldr]. fold (requests lens tail).
  rewrite str_length_app, to_be_bytes_length, IH. simpl. lia.
Qed.

(** C33. The entropy protocol. Serving a connection ends on every finite
    stream; valid requests are answered in order with exactly the bytes the
    source gave for the length asked, whatever follows; a length of zero or
    above 1 MiB ends the connection with a protocol error after the earlier
    answers, so the server never allocates more than 1 MiB; and the client
    refuses such lengths before it dials, and otherwise returns exactly as many
    bytes as it asked for. *)
Theorem entropy_protocol lens tail fin bufs :
  open_urandom = Ok tt ->
  Forall (fun len => 0 < len <= MAX_REQUEST_BYTES) lens -> answers 0 lens = Some bufs ->
  (forall s, (serve_conn s).1 <> ConnOutOfFuel)
  /\ serve_conn (mkStream (requests lens EmptyString) true)
       = (ConnClosed, foldl String.append EmptyString bufs)
  /\ (forall len, 0 <= len <= u32_max -> len = 0 \/ MAX_REQUEST_BYTES < len ->
        serve_conn (mkStream (requests lens (to_be_bytes len +:+ tail)) fin)
          = (ConnError (length_error "requested length " len), foldl String.append EmptyString bufs)
        /\ forall exchange addr, entropy_fetch exchange addr len
             = Err (length_error "requested length " len))
  /\ (forall exchange addr len buf, entropy_fetch exchange addr len = Ok buf ->
        length_ok len = true /\ String.length buf = Z.to_nat len).
Proof.
  intros Hopen Hlens Hb. split_and!.
  - intros s. unfold serve_conn. rewrite Hopen. apply serve_conn_fuel. lia.
  - unfold serve_conn. rewrite Hopen. cbn [st_bytes]. rewrite requests_length. cbn [String.length].
    replace (S (4 * length lens + 0)) with (length lens + S (3 * length lens))%nat by lia.
    by rewrite serve_conn_answers with (bufs := bufs).
  - intros len Hr Hlen.
    assert (length_ok len = false) as Hbad.
    { destruct (length_ok len) eqn:E; [|done]. apply length_ok_spec in E. lia. }
    split.
    + unfold serve_conn. rewrite Hopen. cbn [st_bytes]. rewrite requests_length.
      replace (S (4 * length lens + String.length (to_be_bytes len +:+ tail)))
        with (length lens + S (3 * length lens + String.length (to_be_bytes len +:+ tail)))%nat by lia.
      rewrite serve_conn_answers with (bufs := bufs) by done. cbn [serve_conn_loop].
      rewrite <-(to_be_bytes_length len) at 1. rewrite read_exact_app, be_roundtrip by done.
      by rewrite Hbad.
    + intros exchange addr. unfold entropy_fetch. by rewrite Hbad.
  - intros exchange addr len buf. unfold entropy_fetch.
    destruct (length_ok len) eqn:Hok; [|done]. cbn [negb].
    destruct (exchange addr (to_be_bytes len)) as [s|]; [|done]. cbn [mbind result_bind].
    unfold read_exact. case_bool_decide as Hle; [|done]. cbn. intros [= <-]. split; [done|].
    rewrite <-(str_take_drop (Z.to_nat len) (st_bytes s)) in Hle at 1.
    pose proof (f_equal String.length (str_take_drop (Z.to_nat len) (st_bytes s))) as Hl.
    rewrite str_length_app, str_drop_length in Hl. rewrite str_length_app, str_drop_length in Hle.
    lia.
Qed.

End entropy.

Definition demo_urandom (k n : nat) : result string string :=
  Ok (foldr (fun _ s => String (byte_of (65 + k)) s) EmptyString (seq 0 n)).

Lemma entropy_protocol_witness :
  Forall (fun len => 0 < len <= MAX_REQUEST_BYTES) [3; 2]
  /\ serve_conn demo_urandom (Ok tt) (fun _ => Ok tt) (mkStream (requests [3; 2] EmptyString) true) = (ConnClosed, "AAABB").
Proof.
  assert (Forall (fun len => 0 < len <= MAX_REQUEST_BYTES) [3; 2]) as H.
  { repeat (constructor; [unfold MAX_REQUEST_BYTES; lia|]). constructor. }
  split; [exact H|].
  destruct (entropy_protocol demo_urandom (Ok tt) (fun _ => Ok tt) [3; 2] EmptyString true
    ["AAA"; "BB"] eq_refl H eq_refl)
    as (_ & Hs & _).
  exact Hs.
Defined.

(** A peer that breaks the protocol, or goes away, ends its own connection only:
    every connection accepted before the listener fails is served, each as if it
    were alone. *)
Lemma entropy_serve_isolated urandom open_urandom sent before after stream res served :
  entropy_serve_on urandom open_urandom sent (app (Ok <$> before) (Ok stream :: after)) = (res, served) ->
  served !! length before = Some (serve_conn urandom open_urandom sent stream).
Proof.
  revert res served. induction before as [|s before IH]; intros res served; simpl.
  - destruct (entropy_serve_on _ _ _ after). by intros [= <- <-].
  - destruct (entropy_serve_on _ _ _ (app _ _)) as [r l] eqn:E. intros [= <- <-]. by eapply IH.
Qed.
