(* ===== verification/Hypervisor.v ===== *)
(** * The Cloud Hypervisor adapter (nauti-fabric/src/vmm/cloud_hypervisor.rs)

    The argument vector of a VM, the launcher and the network provisioner over
    the commands of the host, the attachment, and the reconciliation that tears
    VMs down. Running a command, looking at a path and removing one are the
    host's ([Host]); the order in which a [HashMap] is iterated is an
    argument. *)

From stdpp Require Import base tactics option list gmap strings fin_maps.
From Stdlib Require Import Ascii String.
From S2P Require Import Prelude Str Resource Fabric Adapters.

#[local] Open Scope Z_scope.

Record ManagedVm : Type := mkManagedVm {
  mv_resource_id : string;
  mv_api_socket : string;
  mv_vm_name : string;
}.

(** [managed]: resource id to VM. Nothing can panic while its lock is held, so
    the lock is never poisoned. *)
Abbreviation ManagedVms := (gmap string ManagedVm) (only parsing).

(** ** The host and what is launched on it *)

(** The parts of [std::process::Output] that are read. *)
Record Output : Type := mkOutput {
  o_success : bool;
  o_status : string;
  o_stderr : string;
}.

(** The host: whether a path exists, running a command to its end, spawning one
    and polling it 250 ms later ([None]: still running), removing a file. *)
Record Host (W : Type) : Type := mkHost {
  path_exists : string -> W -> bool;
  run_command : string -> list string -> W -> result string Output * W;
  spawn_and_poll : string -> list string -> W ->
    result string (result string (option string)) * W;
  remove_file : string -> W -> W;
}.
Arguments path_exists {W}.
Arguments run_command {W}.
Arguments spawn_and_poll {W}.
Arguments remove_file {W}.

(** The trait [Launcher]. *)
Record Launcher (W : Type) : Type := mkLauncher {
  la_type_name : string;
  locate_binary : string -> W -> option string;
  launch_vm : string -> list string -> W -> result string () * W;
  remove_vm : string -> string -> W -> result string () * W;
  vm_is_running : string -> W -> bool * W;
}.
Arguments mkLauncher {W}.
Arguments la_type_name {W}.
Arguments locate_binary {W}.
Arguments launch_vm {W}.
Arguments remove_vm {W}.
Arguments vm_is_running {W}.

Definition NetProvisioner (W : Type) : Type := gmap string string -> W -> result string () * W.

Section process.
Context {W : Type} (host : Host W).

Definition process_locate_binary (configured_path : string) (w : W) : option string :=
  if String.eqb configured_path EmptyString then None
  else if path_exists host configured_path w then Some configured_path else None.

Definition process_launch_vm (binary : string) (argv : list string) (w : W) : result string () * W :=
  let '(child, w) := spawn_and_poll host binary argv w in
  (match child with
   | Err error => Err ("failed to spawn " +:+ binary +:+ ": " +:+ error)
   | Ok (Ok (Some status)) =>
       Err (binary +:+ " exited immediately with status " +:+ status
            +:+ "; check kernel/rootfs paths and /dev/kvm access")
   | Ok (Ok None) => Ok tt
   | Ok (Err error) => Err ("failed to poll " +:+ binary +:+ " after spawn: " +:+ error)
   end, w).

Definition process_remove_vm (api_socket vm_name : string) (w : W) : result string () * W :=
  let '(out, w) := run_command host "ch-remote"
                     ["--api-socket=" +:+ api_socket; "remove-vm"; vm_name] w in
  (match out with
   | Err error => Err ("failed to spawn ch-remote: " +:+ error)
   | Ok out =>
       if o_success out then Ok tt
       else Err ("ch-remote remove-vm " +:+ vm_name +:+ " exited with status " +:+ o_status out)
   end, w).

Definition process_vm_is_running (api_socket : string) (w : W) : bool * W :=
  if negb (path_exists host api_socket w) then (false, w)
  else
    let '(out, w) := run_command host "ch-remote" ["--api-socket=" +:+ api_socket; "info"] w in
    let live := match out with Ok out => o_success out | Err _ => false end in
    (live, if live then w else remove_file host api_socket w).

Definition ProcessLauncher : Launcher W :=
  {| la_type_name := "nauti_fabric::vmm::cloud_hypervisor::ProcessLauncher";
     locate_binary := process_locate_binary; launch_vm := process_launch_vm;
     remove_vm := process_remove_vm; vm_is_running := process_vm_is_running |}.

(** The tap named in a net spec. *)
Definition find_tap (net : string) : option string :=
  trim <$> head (omap (strip_prefix "tap=") (split_on "," net)).

(** [ProcessNetProvisioner::provision]. *)
Definition process_provision : NetProvisioner W := fun attrs w =>
  match attrs !! "vmm.net" with
  | None => (Err "vmm.net attribute missing", w)
  | Some net =>
      match find_tap net with
      | None => (Err ("vmm.net spec has no tap= key: " +:+ net), w)
      | Some tap =>
          let '(shown, w) := run_command host "ip" ["link"; "show"; tap] w in
          if match shown with Ok out => o_success out | Err _ => false end then (Ok tt, w)
          else
            let '(add, w) := run_command host "ip" ["tuntap"; "add"; "dev"; tap; "mode"; "tap"] w in
            match add with
            | Err error => (Err ("failed to run `ip tuntap add`: " +:+ error), w)
            | Ok add =>
                if negb (o_success add) then
                  (Err ("ip tuntap add dev " +:+ tap
                        +:+ " mode tap failed (needs root/CAP_NET_ADMIN?): " +:+ trim (o_stderr add)), w)
                else
                  let '(up, w) := run_command host "ip" ["link"; "set"; tap; "up"] w in
                  match up with
                  | Err error => (Err ("failed to run `ip link set`: " +:+ error), w)
                  | Ok up =>
                      if negb (o_success up) then
                        (Err ("ip link set " +:+ tap +:+ " up failed: " +:+ trim (o_stderr up)), w)
                      else (Ok tt, w)
                  end
            end
      end
  end.

End process.

(** ** The argument vector *)

Definition require_attr (attrs : gmap string string) (key : string) : result FabricError string :=
  ok_or (attrs !! key) (MissingResourceAttribute key).

Definition attr_or (attrs : gmap string string) (key default : string) : string :=
  match attrs !! key with Some v => v | None => default end.

Definition attr_on (attrs : gmap string string) (key : string) : bool :=
  match attrs !! key with Some v => String.eqb v "on" || String.eqb v "true" | None => false end.

Definition needs_shared (attrs : gmap string string) : bool :=
  bool_decide (is_Some (attrs !! "vmm.user_device")) || bool_decide (is_Some (attrs !! "vmm.fs"))
  || bool_decide (is_Some (attrs !! "vmm.vsock")) || attr_on attrs "vmm.shared".

Definition memory_arg (attrs : gmap string string) : string :=
  "size=" +:+ attr_or attrs "vmm.memory_mib" "512" +:+ "M"
  +:+ (if needs_shared attrs then ",shared=on" else EmptyString).

(** [argv.push(flag); argv.push(value)] when the attribute is there. *)
Definition push_attr (attrs : gmap string string) (key flag prefix : string) : list string :=
  match attrs !! key with Some v => [flag; prefix +:+ v] | None => [] end.

Definition vfio_devices (attrs : gmap string string) : list string :=
  match attrs !! "vmm.device" with
  | Some devices => filter (fun d => d <> EmptyString) (trim <$> split_on "," devices)
  | None => []
  end.

Definition user_device_arg (attrs : gmap string string) (user_device : string) : string :=
  "device_type=" +:+ attr_or attrs "vmm.user_device_type" "rng" +:+ ",socket=" +:+ user_device
  +:+ ",queue_sizes=" +:+ attr_or attrs "vmm.user_device_queue_sizes" "1024".

Definition build_argv (r : Resource) : result FabricError (list string) :=
  let attrs := r_attributes r in
  api_socket ← require_attr attrs "vmm.api_socket";
  kernel ← require_attr attrs "vmm.kernel";
  rootfs ← require_attr attrs "vmm.rootfs";
  Ok (app [ "--api-socket"; "path=" +:+ api_socket;
            "--cpus"; "boot=" +:+ attr_or attrs "vmm.vcpus" "1";
            "--memory"; memory_arg attrs;
            "--kernel"; kernel;
            "--disk"; "path=" +:+ rootfs;
            "--serial"; "tty";
            "--console"; "off";
            "--rng"; "src=" +:+ attr_or attrs "vmm.rng_src" "/dev/urandom" +:+ ",id=ch-builtin-rng" ]
     (app (push_attr attrs "vmm.initramfs" "--initramfs" EmptyString)
     (app (push_attr attrs "vmm.cmdline" "--cmdline" EmptyString)
     (app (push_attr attrs "vmm.virtio_blk" "--disk" "path=")
     (app (mjoin ((fun device => ["--device"; "path=" +:+ device]) <$> vfio_devices attrs))
     (app (push_attr attrs "vmm.net" "--net" EmptyString)
     (app (match attrs !! "vmm.user_device" with
           | Some user_device => ["--generic-vhost-user"; user_device_arg attrs user_device]
           | None => []
           end)
     (app (push_attr attrs "vmm.fs" "--fs" EmptyString)
     (app (push_attr attrs "vmm.vsock" "--vsock" EmptyString)
          (if attr_on attrs "vmm.watchdog" then ["--watchdog"] else [])))))))))).

(** ** The adapter *)

Definition detail_map (binary api_socket vm_name : string) (already_running : bool) :
    gmap string string :=
  {[ "vmm.binary" := binary; "vmm.api_socket" := api_socket; "vmm.vm_name" := vm_name;
     "vmm.launched_by_adapter" := show_bool (negb already_running) ]}.

Section adapter.
Context {W : Type} `{HL : Lens W ManagedVms}.
Context (cfg_binary : string) (la : Launcher W) (net : NetProvisioner W).
(** The order [HashMap::values] yields. *)
Context (hash_values : ManagedVms -> list ManagedVm).

Definition record_managed (r : Resource) (api_socket vm_name : string) (w : W) : W :=
  lput (<[r_id r := {| mv_resource_id := r_id r; mv_api_socket := api_socket;
                       mv_vm_name := vm_name |}]> (lget w)) w.

(** The resource is managed under this name. *)
Definition already_managed (r : Resource) (vm_name : string) (w : W) : bool :=
  match lget w !! r_id r with
  | Some existing => String.eqb (mv_vm_name existing) vm_name
  | None => false
  end.

Definition backend_unavailable (reason : string) : FabricError :=
  AdapterBackendUnavailable "cloud-hypervisor" reason.

(** From provisioning on: nothing runs for this resource yet. *)
Definition launch_new (r : Resource) (binary : string) (w : W) : result FabricError () * W :=
  let '(provisioned, w) := if bool_decide (is_Some (r_attributes r !! "vmm.net"))
                           then net (r_attributes r) w else (Ok tt, w) in
  match map_err backend_unavailable provisioned with
  | Err e => (Err e, w)
  | Ok _ =>
      match build_argv r with
      | Err e => (Err e, w)
      | Ok argv => let '(launched, w) := launch_vm la binary argv w in
                   (map_err backend_unavailable launched, w)
      end
  end.

Definition ch_attach (r : Resource) (l : Lease) (w : W) : result FabricError Attachment * W :=
  if bool_decide (r_kind r <> Device) then
    (Err (IncompatibleResourceKind "cloud-hypervisor" Device (r_kind r)), w)
  else
    match locate_binary la cfg_binary w with
    | None => (Err (backend_unavailable ("cloud-hypervisor binary not found at " +:+ cfg_binary)), w)
    | Some binary =>
        match require_attr (r_attributes r) "vmm.api_socket" with
        | Err e => (Err e, w)
        | Ok api_socket =>
            let vm_name := attr_or (r_attributes r) "vmm.vm_name" (r_id r) in
            let done already := Ok (attachment r l "cloud-hypervisor"
                                      (detail_map binary api_socket vm_name already)) in
            if already_managed r vm_name w then (done true, w)
            else
              let '(running, w) := vm_is_running la api_socket w in
              if running then (done true, record_managed r api_socket vm_name w)
              else
                match launch_new r binary w with
                | (Err e, w) => (Err e, w)
                | (Ok _, w) => (done false, record_managed r api_socket vm_name w)
                end
        end
    end.

Definition ch_capability_report (w : W) : AdapterReport :=
  {| ar_name := "cloud-hypervisor"; ar_scope := "vmm-runtime";
     ar_healthy := bool_decide (is_Some (locate_binary la cfg_binary w));
     ar_detail := {[ "vmm.binary" := cfg_binary; "launcher" := la_type_name la ]} |}.

Definition CloudHypervisorAdapter : ResourceAdapter W :=
  {| ad_name := "cloud-hypervisor"; ad_attach := ch_attach; ad_detach := default_detach;
     ad_capability_report := ch_capability_report |}.

(** One VM of [reconcile]. *)
Definition reconcile_vm (vm : ManagedVm) (w : W) : result string string * W :=
  let '(removed, w) := remove_vm la (mv_api_socket vm) (mv_vm_name vm) w in
  match removed with
  | Ok _ => (Ok (mv_resource_id vm), lput (delete (mv_resource_id vm) (lget w)) w)
  | Err e => (Err e, w)
  end.

Fixpoint reconcile_loop (entries : list ManagedVm) (w : W) : list (result string string) * W :=
  match entries with
  | [] => ([], w)
  | vm :: entries =>
      let '(outcome, w) := reconcile_vm vm w in
      let '(results, w) := reconcile_loop entries w in
      (outcome :: results, w)
  end.

Definition reconcile (w : W) : list (result string string) * W :=
  reconcile_loop (hash_values (lget w)) w.

End adapter.

(** ** The manifest *)

Record VmResourceSpec : Type := mkVmResourceSpec {
  vs_api_socket : string;
  vs_kernel : string;
  vs_rootfs : string;
  vs_vm_name : option string;
  vs_vcpus : option string;
  vs_memory_mib : option string;
  vs_virtio_blk : option string;
  vs_net : option string;
  vs_user_device : option string;
  vs_user_device_type : option string;
  vs_user_device_queue_sizes : option string;
  vs_fs : option string;
  vs_vsock : option string;
  vs_watchdog : option string;
  vs_cmdline : option string;
  vs_initramfs : option string;
  vs_rng_src : option string;
  vs_shared : option string;
}.

(** [if let Some(v) = field { attrs.insert(key, v) }]. *)
Definition insert_opt (key : string) (v : option string) (attrs : gmap string string) :
    gmap string string :=
  match v with Some v => <[key := v]> attrs | None => attrs end.

Definition into_attributes (s : VmResourceSpec) : gmap string string :=
  insert_opt "vmm.shared" (vs_shared s) (
  insert_opt "vmm.rng_src" (vs_rng_src s) (
  insert_opt "vmm.initramfs" (vs_initramfs s) (
  insert_opt "vmm.cmdline" (vs_cmdline s) (
  insert_opt "vmm.watchdog" (vs_watchdog s) (
  insert_opt "vmm.vsock" (vs_vsock s) (
  insert_opt "vmm.fs" (vs_fs s) (
  insert_opt "vmm.user_device_queue_sizes" (vs_user_device_queue_sizes s) (
  insert_opt "vmm.user_device_type" (vs_user_device_type s) (
  insert_opt "vmm.user_device" (vs_user_device s) (
  insert_opt "vmm.net" (vs_net s) (
  insert_opt "vmm.virtio_blk" (vs_virtio_blk s) (
  insert_opt "vmm.memory_mib" (vs_memory_mib s) (
  insert_opt "vmm.vcpus" (vs_vcpus s) (
  insert_opt "vmm.vm_name" (vs_vm_name s) (
  <["vmm.rootfs" := vs_rootfs s]> (<["vmm.kernel" := vs_kernel s]> (
  <["vmm.api_socket" := vs_api_socket s]> ∅))))))))))))))))).

(** ** The options a vector gives

    How Cloud Hypervisor reads its arguments: every flag but [--watchdog] takes
    the next argument as its value, whatever it looks like. *)
Fixpoint parse_argv (argv : list string) : list (string * option string) :=
  match argv with
  | [] => []
  | flag :: rest =>
      if String.eqb flag "--watchdog" then (flag, None) :: parse_argv rest
      else match rest with
           | value :: rest => (flag, Some value) :: parse_argv rest
           | [] => [(flag, None)]
           end
  end.

Definition option_values (flag : string) (argv : list string) : list string :=
  omap (fun '(f, v) => if String.eqb f flag then v else None) (parse_argv argv).

Definition opt_values (attrs : gmap string string) (key prefix : string) : list string :=
  match attrs !! key with Some v => [prefix +:+ v] | None => [] end.

Lemma values_flag flag f v rest :
  String.eqb f "--watchdog" = false ->
  option_values flag (f :: v :: rest)
    = (if String.eqb f flag then [v] else []) ++ option_values flag rest.
Proof.
  intros Hf. unfold option_values. cbn [parse_argv]. rewrite Hf. cbn [omap list_omap].
  by destruct (String.eqb f flag).
Qed.

Lemma values_push flag attrs key f prefix rest :
  String.eqb f "--watchdog" = false ->
  option_values flag (push_attr attrs key f prefix ++ rest)
    = (if String.eqb f flag then opt_values attrs key prefix else []) ++ option_values flag rest.
Proof.
  intros Hf. unfold push_attr, opt_values. destruct (attrs !! key) as [v|].
  - cbn [app]. by rewrite values_flag.
  - by destruct (String.eqb f flag).
Qed.

Lemma values_devices flag (ds : list string) rest :
  option_values flag (mjoin ((fun d => ["--device"; "path=" +:+ d]) <$> ds) ++ rest)
    = (if String.eqb "--device" flag then (fun d => "path=" +:+ d) <$> ds else [])
      ++ option_values flag rest.
Proof.
  induction ds as [|d ds IH].
  - change (option_values flag rest
      = (if String.eqb "--device" flag then [] else []) ++ option_values flag rest).
    by destruct (String.eqb _ _).
  - change (mjoin _ ++ rest) with
      ("--device" :: ("path=" +:+ d) :: mjoin ((fun d => ["--device"; "path=" +:+ d]) <$> ds) ++ rest).
    rewrite values_flag, IH by done. by destruct (String.eqb _ _).
Qed.

Lemma values_user_device flag attrs rest :
  option_values flag (match attrs !! "vmm.user_device" with
                      | Some u => ["--generic-vhost-user"; user_device_arg attrs u] | None => [] end
                      ++ rest)
    = (if String.eqb "--generic-vhost-user" flag then
         match attrs !! "vmm.user_device" with Some u => [user_device_arg attrs u] | None => [] end
       else []) ++ option_values flag rest.
Proof.
  destruct (attrs !! "vmm.user_device") as [u|].
  - cbn [app]. by rewrite values_flag.
  - by destruct (String.eqb _ _).
Qed.

Lemma values_watchdog flag attrs :
  option_values flag (if attr_on attrs "vmm.watchdog" then ["--watchdog"] else []) = [].
Proof.
  destruct (attr_on attrs "vmm.watchdog"); [|done]. unfold option_values.
  change (parse_argv ["--watchdog"]) with [("--watchdog", @None string)].
  cbn [omap list_omap]. by destruct (String.eqb "--watchdog" flag).
Qed.

Lemma build_argv_ok r :
  (exists argv, build_argv r = Ok argv) <->
  is_Some (r_attributes r !! "vmm.api_socket") /\ is_Some (r_attributes r !! "vmm.kernel")
  /\ is_Some (r_attributes r !! "vmm.rootfs").
Proof.
  unfold build_argv, require_attr.
  destruct (r_attributes r !! "vmm.api_socket"), (r_attributes r !! "vmm.kernel"),
    (r_attributes r !! "vmm.rootfs"); cbn [ok_or mbind result_bind]; split;
    first [by intros [? [=]] | by intros ([? [=]] & [? [=]] & [? [=]]) | by eauto].
Qed.

Lemma lookup_insert_opt key v attrs key' :
  insert_opt key v attrs !! key'
    = if String.eqb key key' && match v with Some _ => true | None => false end then v
      else attrs !! key'.
Proof.
  destruct (String.eqb_spec key key') as [<-|Hne]; destruct v; simpl;
    [apply lookup_insert_eq|done|by apply lookup_insert_ne|done].
Qed.

Lemma lookup_insert_str key (v : string) (attrs : gmap string string) key' :
  <[key := v]> attrs !! key' = if String.eqb key key' then Some v else attrs !! key'.
Proof.
  destruct (String.eqb_spec key key') as [<-|Hne]; [apply lookup_insert_eq|by apply lookup_insert_ne].
Qed.

(** Reading the manifest back from the attributes. *)
Definition from_attributes (attrs : gmap string string) : option VmResourceSpec :=
  api_socket ← attrs !! "vmm.api_socket"; kernel ← attrs !! "vmm.kernel";
  rootfs ← attrs !! "vmm.rootfs";
  Some {| vs_api_socket := api_socket; vs_kernel := kernel; vs_rootfs := rootfs;
          vs_vm_name := attrs !! "vmm.vm_name"; vs_vcpus := attrs !! "vmm.vcpus";
          vs_memory_mib := attrs !! "vmm.memory_mib"; vs_virtio_blk := attrs !! "vmm.virtio_blk";
          vs_net := attrs !! "vmm.net"; vs_user_device := attrs !! "vmm.user_device";
          vs_user_device_type := attrs !! "vmm.user_device_type";
          vs_user_device_queue_sizes := attrs !! "vmm.user_device_queue_sizes";
          vs_fs := attrs !! "vmm.fs"; vs_vsock := attrs !! "vmm.vsock";
          vs_watchdog := attrs !! "vmm.watchdog"; vs_cmdline := attrs !! "vmm.cmdline";
          vs_initramfs := attrs !! "vmm.initramfs"; vs_rng_src := attrs !! "vmm.rng_src";
          vs_shared := attrs !! "vmm.shared" |}.

(** One field: the chain of insertions decides every key by computation. *)
Ltac attr_field :=
  unfold into_attributes; rewrite ?lookup_insert_opt, ?lookup_insert_str, ?lookup_empty;
  lazymatch goal with |- _ = ?v => first [reflexivity | destruct v; reflexivity] end.

Lemma into_attributes_fields s :
  let attrs := into_attributes s in
  (attrs !! "vmm.api_socket" = Some (vs_api_socket s) /\ attrs !! "vmm.kernel" = Some (vs_kernel s)
   /\ attrs !! "vmm.rootfs" = Some (vs_rootfs s) /\ attrs !! "vmm.vm_name" = vs_vm_name s
   /\ attrs !! "vmm.vcpus" = vs_vcpus s /\ attrs !! "vmm.memory_mib" = vs_memory_mib s)
  /\ (attrs !! "vmm.virtio_blk" = vs_virtio_blk s /\ attrs !! "vmm.net" = vs_net s
   /\ attrs !! "vmm.user_device" = vs_user_device s
   /\ attrs !! "vmm.user_device_type" = vs_user_device_type s
   /\ attrs !! "vmm.user_device_queue_sizes" = vs_user_device_queue_sizes s
   /\ attrs !! "vmm.fs" = vs_fs s)
  /\ attrs !! "vmm.vsock" = vs_vsock s /\ attrs !! "vmm.watchdog" = vs_watchdog s
  /\ attrs !! "vmm.cmdline" = vs_cmdline s /\ attrs !! "vmm.initramfs" = vs_initramfs s
  /\ attrs !! "vmm.rng_src" = vs_rng_src s /\ attrs !! "vmm.shared" = vs_shared s.
Proof. intros attrs. subst attrs. destruct s. split_and!; attr_field. Qed.

Lemma from_into_attributes s : from_attributes (into_attributes s) = Some s.
Proof.
  destruct (into_attributes_fields s) as ((H1 & H2 & H3 & H4 & H5 & H6)
    & (H7 & H8 & H9 & H10 & H11 & H12) & H13 & H14 & H15 & H16 & H17 & H18).
  unfold from_attributes.
  rewrite H1, H2, H3, H4, H5, H6, H7, H8, H9, H10, H11, H12, H13, H14, H15, H16, H17, H18.
  by destruct s.
Qed.

(** The values of one flag in a vector that was built. *)
Ltac argv_values :=
  repeat first
    [ rewrite values_flag by reflexivity | rewrite values_push by reflexivity
    | rewrite values_devices | rewrite values_user_device | rewrite values_watchdog ];
  cbn [String.eqb Ascii.eqb Bool.eqb app]; rewrite ?app_nil_r.

Lemma memory_arg_shared attrs :
  needs_shared attrs = true ->
  memory_arg attrs = "size=" +:+ attr_or attrs "vmm.memory_mib" "512" +:+ "M,shared=on".
Proof. unfold memory_arg. by intros ->. Qed.

(** The argument vector of a VM. It exists exactly when the resource states
    the API socket, the kernel and the root disk - which every manifest does,
    and the manifest reads back from the attributes it wrote. Whatever the
    attributes hold, a value is never taken for an option: each option of the
    vector has exactly the values its attributes call for, a disk list with the
    extra disk after the root disk, one device per non-empty VFIO path, and
    guest memory shared whenever a vhost-user device, a file system or a vsock
    is attached, as their backends need, and private when nothing asks for it. *)
Theorem build_argv_spec r :
  let attrs := r_attributes r in
  ((exists argv, build_argv r = Ok argv) <->
     is_Some (attrs !! "vmm.api_socket") /\ is_Some (attrs !! "vmm.kernel")
     /\ is_Some (attrs !! "vmm.rootfs"))
  /\ (forall spec, attrs = into_attributes spec ->
        from_attributes attrs = Some spec /\ exists argv, build_argv r = Ok argv)
  /\ (forall argv, build_argv r = Ok argv ->
        option_values "--api-socket" argv = opt_values attrs "vmm.api_socket" "path="
        /\ option_values "--kernel" argv = opt_values attrs "vmm.kernel" EmptyString
        /\ option_values "--disk" argv
             = opt_values attrs "vmm.rootfs" "path=" ++ opt_values attrs "vmm.virtio_blk" "path="
        /\ option_values "--device" argv = (fun d => "path=" +:+ d) <$> vfio_devices attrs
        /\ option_values "--net" argv = opt_values attrs "vmm.net" EmptyString
        /\ option_values "--fs" argv = opt_values attrs "vmm.fs" EmptyString
        /\ option_values "--vsock" argv = opt_values attrs "vmm.vsock" EmptyString
        /\ option_values "--cpus" argv = ["boot=" +:+ attr_or attrs "vmm.vcpus" "1"]
        /\ option_values "--generic-vhost-user" argv
             = match attrs !! "vmm.user_device" with
               | Some socket =>
                   ["device_type=" +:+ attr_or attrs "vmm.user_device_type" "rng" +:+ ",socket=" +:+ socket
                    +:+ ",queue_sizes=" +:+ attr_or attrs "vmm.user_device_queue_sizes" "1024"]
               | None => []
               end
        /\ (attrs !! "vmm.user_device" = None -> attrs !! "vmm.fs" = None -> attrs !! "vmm.vsock" = None ->
            attrs !! "vmm.shared" <> Some "on" -> attrs !! "vmm.shared" <> Some "true" ->
            option_values "--memory" argv = ["size=" +:+ attr_or attrs "vmm.memory_mib" "512" +:+ "M"])
        /\ (option_values "--generic-vhost-user" argv <> [] \/ option_values "--fs" argv <> []
            \/ option_values "--vsock" argv <> [] ->
            option_values "--memory" argv
              = ["size=" +:+ attr_or attrs "vmm.memory_mib" "512" +:+ "M,shared=on"])).
Proof.
  intros attrs. split; [apply build_argv_ok|]. split.
  { intros spec Hspec. rewrite Hspec. split; [apply from_into_attributes|].
    apply build_argv_ok. fold attrs. rewrite Hspec.
    destruct (into_attributes_fields spec) as ((-> & -> & -> & _) & _). eauto. }
  intros argv. unfold build_argv, require_attr. fold attrs.
  destruct (attrs !! "vmm.api_socket") as [a|] eqn:Ha; cbn [ok_or mbind result_bind]; [|done].
  destruct (attrs !! "vmm.kernel") as [k|] eqn:Hk; cbn [ok_or mbind result_bind]; [|done].
  destruct (attrs !! "vmm.rootfs") as [d|] eqn:Hd; cbn [ok_or mbind result_bind]; [|done].
  intros [= <-]. cbn [app].
  assert (forall key p v, attrs !! key = Some v -> opt_values attrs key p = [p +:+ v]) as Hov.
  { intros key p v Hv. unfold opt_values. by rewrite Hv. }
  rewrite (Hov _ _ _ Ha), (Hov _ _ _ Hk), (Hov _ _ _ Hd).
  split_and!; [argv_values; done..| |].
  - intros Hu Hf Hv Hon Htrue. argv_values. unfold memory_arg, needs_shared, attr_on.
    rewrite Hu, Hf, Hv. simpl. destruct (attrs !! "vmm.shared") as [v|]; [|done].
    destruct (String.eqb_spec v "on") as [->|]; [done|]. by destruct (String.eqb_spec v "true") as [->|].
  - intros Hsh. argv_values. rewrite memory_arg_shared; [done|]. unfold needs_shared.
    revert Hsh. argv_values. unfold opt_values.
    destruct (attrs !! "vmm.user_device"), (attrs !! "vmm.fs"), (attrs !! "vmm.vsock");
      intros [?|[?|?]]; done.
Qed.

(** ** What launching does not touch *)

Class LauncherFrame {W} `{HL : Lens W ManagedVms} (la : Launcher W) (net : NetProvisioner W) : Prop := {
  launch_frame : forall binary argv w, lget (launch_vm la binary argv w).2 = lget w;
  remove_frame : forall socket name w, lget (remove_vm la socket name w).2 = lget w;
  running_frame : forall socket w, lget (vm_is_running la socket w).2 = lget w;
  net_frame : forall attrs w, lget (net attrs w).2 = lget w;
}.

(** The real launcher and provisioner keep out of the table when the host does. *)
Lemma process_frame {W} `{HL : Lens W ManagedVms} (host : Host W) :
  (forall p a w, lget (run_command host p a w).2 = lget w) ->
  (forall p a w, lget (spawn_and_poll host p a w).2 = lget w) ->
  (forall p w, lget (remove_file host p w) = lget w) ->
  LauncherFrame (ProcessLauncher host) (process_provision host).
Proof.
  intros Hrun Hspawn Hrm. split; simpl.
  - intros b argv w. unfold process_launch_vm. specialize (Hspawn b argv w).
    by destruct (spawn_and_poll host b argv w).
  - intros so n w. unfold process_remove_vm. pose proof (Hrun "ch-remote"
      ["--api-socket=" +:+ so; "remove-vm"; n] w). by destruct (run_command _ _ _ _).
  - intros so w. unfold process_vm_is_running. destruct (path_exists host so w); [|done]. cbn [negb].
    pose proof (Hrun "ch-remote" ["--api-socket=" +:+ so; "info"] w) as H.
    destruct (run_command _ _ _ _) as [out w1]. simpl in *.
    destruct (match out with Ok o => o_success o | Err _ => false end); [done|]. by rewrite Hrm.
  - intros attrs w. unfold process_provision. destruct (attrs !! "vmm.net") as [n|]; [|done].
    destruct (find_tap n) as [t|]; [|done].
    pose proof (Hrun "ip" ["link"; "show"; t] w) as H1.
    destruct (run_command _ _ _ w) as [o1 w1]. simpl in H1.
    destruct (match o1 with Ok o => o_success o | Err _ => false end); [done|].
    pose proof (Hrun "ip" ["tuntap"; "add"; "dev"; t; "mode"; "tap"] w1) as H2.
    destruct (run_command _ _ _ w1) as [[o2|] w2]; simpl in *; [|congruence].
    destruct (o_success o2); simpl; [|congruence].
    pose proof (Hrun "ip" ["link"; "set"; t; "up"] w2) as H3.
    destruct (run_command _ _ _ w2) as [[o3|] w3]; simpl in *; [|congruence].
    destruct (o_success o3); simpl; congruence.
Qed.

Definition managed_ok (m : ManagedVms) : Prop := map_Forall (fun id vm => mv_resource_id vm = id) m.

Section facts.
Context {W : Type} `{HL : Lens W ManagedVms}.
Context (cfg_binary : string) (la : Launcher W) (net : NetProvisioner W) `{!LauncherFrame la net}.
Context (hash_values : ManagedVms -> list ManagedVm)
  (hash_values_perm : forall m, hash_values m ≡ₚ (map_to_list m).*2).

Lemma launch_new_frame r binary w : lget (launch_new la net r binary w).2 = lget w.
Proof.
  unfold launch_new. case_bool_decide.
  - pose proof (net_frame (la := la) (net := net) (r_attributes r) w) as Hn. destruct (net _ w) as [[[]|e] w1]; simpl in *; [|done].
    destruct (build_argv r) as [argv|e]; simpl; [|done].
    pose proof (launch_frame (la := la) (net := net) binary argv w1) as Hl. destruct (launch_vm _ _ _ _). simpl in *. congruence.
  - simpl. destruct (build_argv r) as [argv|e]; simpl; [|done].
    pose proof (launch_frame (la := la) (net := net) binary argv w) as Hl. by destruct (launch_vm _ _ _ _).
Qed.

(** The tap is there when the resource asks for one. *)
Definition tap_ready (r : Resource) (w w1 : W) : Prop :=
  if bool_decide (is_Some (r_attributes r !! "vmm.net")) then net (r_attributes r) w = (Ok tt, w1)
  else w1 = w.

(** The launch succeeded: the tap came first, then exactly the built vector. *)
Definition launched_with (r : Resource) (binary : string) (w w' : W) : Prop :=
  exists argv w1, tap_ready r w w1 /\ build_argv r = Ok argv /\ launch_vm la binary argv w1 = (Ok tt, w').

Lemma launch_new_ok r binary w w' :
  launch_new la net r binary w = (Ok tt, w') -> launched_with r binary w w'.
Proof.
  unfold launch_new, launched_with, tap_ready. case_bool_decide as Hn.
  - destruct (net _ w) as [[[]|e] w1] eqn:En; simpl; [|done].
    destruct (build_argv r) as [argv|e] eqn:Eb; simpl; [|done].
    destruct (launch_vm la binary argv w1) as [[[]|e] w2] eqn:El; simpl; [|done].
    intros [= <-]. by exists argv, w1.
  - simpl. destruct (build_argv r) as [argv|e] eqn:Eb; simpl; [|done].
    destruct (launch_vm la binary argv w) as [[[]|e] w2] eqn:El; simpl; [|done].
    intros [= <-]. by exists argv, w.
Qed.

Definition vm_name_of (r : Resource) : string := attr_or (r_attributes r) "vmm.vm_name" (r_id r).

(** The three ways an attachment succeeds. *)
Lemma ch_attach_ok r l w att w' :
  ch_attach cfg_binary la net r l w = (Ok att, w') ->
  exists binary socket already,
    r_kind r = Device /\ locate_binary la cfg_binary w = Some binary
    /\ r_attributes r !! "vmm.api_socket" = Some socket
    /\ att = attachment r l "cloud-hypervisor" (detail_map binary socket (vm_name_of r) already)
    /\ ((already = true /\ already_managed r (vm_name_of r) w = true /\ w' = w)
        \/ (already = true /\ already_managed r (vm_name_of r) w = false
            /\ exists w1, vm_is_running la socket w = (true, w1)
               /\ w' = record_managed r socket (vm_name_of r) w1)
        \/ (already = false /\ already_managed r (vm_name_of r) w = false
            /\ exists w1 w2, vm_is_running la socket w = (false, w1) /\ launched_with r binary w1 w2
               /\ w' = record_managed r socket (vm_name_of r) w2)).
Proof.
  unfold ch_attach, require_attr. fold (vm_name_of r). case_bool_decide as Hk; [done|].
  assert (r_kind r = Device) by (destruct (decide (r_kind r = Device)); [done|by destruct Hk]).
  destruct (locate_binary la cfg_binary w) as [b|] eqn:Eb; [|done].
  destruct (r_attributes r !! "vmm.api_socket") as [so|] eqn:Es; cbn [ok_or]; [|done].
  destruct (already_managed r (vm_name_of r) w) eqn:Em.
  { intros [= <- <-]. exists b, so, true. split_and!; try done. by left. }
  destruct (vm_is_running la so w) as [[] w1] eqn:Er.
  { intros [= <- <-]. exists b, so, true. split_and!; try done. right. left. split_and!; [done..|by exists w1]. }
  destruct (launch_new la net r b w1) as [[[]|e] w2] eqn:El; [|done].
  intros [= <- <-]. apply launch_new_ok in El. exists b, so, false. split_and!; try done.
  right. right. split_and!; [done..|by exists w1, w2].
Qed.

Lemma ch_attach_err r l w e w' :
  ch_attach cfg_binary la net r l w = (Err e, w') -> lget w' = lget w.
Proof.
  unfold ch_attach. case_bool_decide; [by intros [= _ <-]|].
  destruct (locate_binary _ _ _); [|by intros [= _ <-]].
  destruct (require_attr _ _) as [so|]; [|by intros [= _ <-]].
  destruct (already_managed _ _ _); [done|].
  pose proof (running_frame (la := la) (net := net) so w) as Hr. destruct (vm_is_running la so w) as [[] w1]; [done|]. simpl in Hr.
  pose proof (launch_new_frame r s w1) as Hl. destruct (launch_new _ _ _ _ _) as [[|] w2]; [done|].
  intros [= _ <-]. simpl in Hl. congruence.
Qed.

(** The host is asked to launch: everything before says that it must. *)
Definition must_launch (r : Resource) (w : W) (binary socket : string) (w1 : W) : Prop :=
  r_kind r = Device /\ locate_binary la cfg_binary w = Some binary
  /\ r_attributes r !! "vmm.api_socket" = Some socket /\ already_managed r (vm_name_of r) w = false
  /\ vm_is_running la socket w = (false, w1).

(** Every way an attachment fails, with its error and the host it leaves. *)
Inductive attach_fails (r : Resource) (w : W) : FabricError -> W -> Prop :=
  | af_kind : r_kind r <> Device ->
      attach_fails r w (IncompatibleResourceKind "cloud-hypervisor" Device (r_kind r)) w
  | af_binary : r_kind r = Device -> locate_binary la cfg_binary w = None ->
      attach_fails r w (AdapterBackendUnavailable "cloud-hypervisor"
                          ("cloud-hypervisor binary not found at " +:+ cfg_binary)) w
  | af_socket binary : r_kind r = Device -> locate_binary la cfg_binary w = Some binary ->
      r_attributes r !! "vmm.api_socket" = None ->
      attach_fails r w (MissingResourceAttribute "vmm.api_socket") w
  | af_net binary socket w1 reason w2 : must_launch r w binary socket w1 ->
      is_Some (r_attributes r !! "vmm.net") -> net (r_attributes r) w1 = (Err reason, w2) ->
      attach_fails r w (AdapterBackendUnavailable "cloud-hypervisor" reason) w2
  | af_kernel binary socket w1 w2 : must_launch r w binary socket w1 -> tap_ready r w1 w2 ->
      r_attributes r !! "vmm.kernel" = None -> attach_fails r w (MissingResourceAttribute "vmm.kernel") w2
  | af_rootfs binary socket w1 w2 : must_launch r w binary socket w1 -> tap_ready r w1 w2 ->
      is_Some (r_attributes r !! "vmm.kernel") -> r_attributes r !! "vmm.rootfs" = None ->
      attach_fails r w (MissingResourceAttribute "vmm.rootfs") w2
  | af_launch binary socket w1 w2 argv reason w3 : must_launch r w binary socket w1 -> tap_ready r w1 w2 ->
      build_argv r = Ok argv -> launch_vm la binary argv w2 = (Err reason, w3) ->
      attach_fails r w (AdapterBackendUnavailable "cloud-hypervisor" reason) w3.

Lemma build_argv_missing r socket :
  r_attributes r !! "vmm.api_socket" = Some socket ->
  match build_argv r with
  | Ok _ => is_Some (r_attributes r !! "vmm.kernel") /\ is_Some (r_attributes r !! "vmm.rootfs")
  | Err e => r_attributes r !! "vmm.kernel" = None /\ e = MissingResourceAttribute "vmm.kernel"
             \/ is_Some (r_attributes r !! "vmm.kernel") /\ r_attributes r !! "vmm.rootfs" = None
                /\ e = MissingResourceAttribute "vmm.rootfs"
  end.
Proof.
  intros Hs. unfold build_argv, require_attr. rewrite Hs. cbn [ok_or mbind result_bind].
  destruct (r_attributes r !! "vmm.kernel"); cbn [ok_or mbind result_bind]; [|by left].
  destruct (r_attributes r !! "vmm.rootfs"); cbn [ok_or mbind result_bind]; [by split|right; by split; [eexists|]].
Qed.

(** A tap that is ready, or the error of making it. *)
Lemma tap_cases r w :
  (exists w1, tap_ready r w w1)
  \/ exists reason w1, is_Some (r_attributes r !! "vmm.net") /\ net (r_attributes r) w = (Err reason, w1).
Proof.
  unfold tap_ready. case_bool_decide; [|eauto]. destruct (net (r_attributes r) w) as [[[]|reason] w1] eqn:E; eauto.
Qed.

Lemma launch_new_tap r binary w w1 :
  tap_ready r w w1 ->
  launch_new la net r binary w =
    match build_argv r with
    | Err e => (Err e, w1)
    | Ok argv => let '(launched, w) := launch_vm la binary argv w1 in (map_err backend_unavailable launched, w)
    end.
Proof. unfold tap_ready, launch_new. case_bool_decide; [by intros ->|by intros ->]. Qed.

Lemma launch_new_no_tap r binary w reason w1 :
  is_Some (r_attributes r !! "vmm.net") -> net (r_attributes r) w = (Err reason, w1) ->
  launch_new la net r binary w = (Err (backend_unavailable reason), w1).
Proof. intros H E. unfold launch_new. by rewrite bool_decide_eq_true_2, E. Qed.

(** Up to the launch, an attachment is its conditions. *)
Lemma ch_attach_must_launch r l w binary socket w1 :
  must_launch r w binary socket w1 ->
  ch_attach cfg_binary la net r l w =
    match launch_new la net r binary w1 with
    | (Err e, w2) => (Err e, w2)
    | (Ok _, w2) => (Ok (attachment r l "cloud-hypervisor" (detail_map binary socket (vm_name_of r) false)),
                     record_managed r socket (vm_name_of r) w2)
    end.
Proof.
  intros (Hk & Hb & Hs & Hm & Hr). unfold ch_attach, require_attr. fold (vm_name_of r).
  rewrite bool_decide_eq_false_2 by (by intros []). rewrite Hb, Hs. cbn [ok_or]. by rewrite Hm, Hr.
Qed.

Lemma ch_attach_fails r l w e w' :
  ch_attach cfg_binary la net r l w = (Err e, w') -> attach_fails r w e w'.
Proof.
  intros H. destruct (decide (r_kind r = Device)) as [Hk|Hk]; last first.
  { unfold ch_attach in H. rewrite bool_decide_eq_true_2 in H by done. injection H as <- <-. by constructor. }
  destruct (locate_binary la cfg_binary w) as [b|] eqn:Hb; last first.
  { unfold ch_attach in H. rewrite bool_decide_eq_false_2, Hb in H by (by intros []).
    injection H as <- <-. by constructor. }
  destruct (r_attributes r !! "vmm.api_socket") as [so|] eqn:Hs; last first.
  { unfold ch_attach, require_attr in H. rewrite bool_decide_eq_false_2, Hb, Hs in H by (by intros []).
    injection H as <- <-. by eapply af_socket. }
  destruct (already_managed r (vm_name_of r) w) eqn:Hm.
  { unfold ch_attach, require_attr in H. rewrite bool_decide_eq_false_2, Hb, Hs in H by (by intros []).
    cbn [ok_or] in H. fold (vm_name_of r) in H. by rewrite Hm in H. }
  destruct (vm_is_running la so w) as [[] w1] eqn:Hr.
  { unfold ch_attach, require_attr in H. rewrite bool_decide_eq_false_2, Hb, Hs in H by (by intros []).
    cbn [ok_or] in H. fold (vm_name_of r) in H. by rewrite Hm, Hr in H. }
  assert (must_launch r w b so w1) as Hl by done. rewrite (ch_attach_must_launch _ _ _ _ _ _ Hl) in H.
  destruct (tap_cases r w1) as [[w2 Ht]|(reason & w2 & Hn & Ht)].
  - rewrite (launch_new_tap _ _ _ _ Ht) in H. pose proof (build_argv_missing r so Hs) as Ha.
    destruct (build_argv r) as [argv|e'] eqn:Eb.
    + destruct (launch_vm la b argv w2) as [[[]|reason] w3] eqn:El; [done|]. injection H as <- <-.
      by eapply af_launch.
    + injection H as <- <-. destruct Ha as [(? & ->)|(? & ? & ->)]; [by eapply af_kernel|by eapply af_rootfs].
  - rewrite (launch_new_no_tap _ _ _ _ _ Hn Ht) in H. injection H as <- <-. by eapply af_net.
Qed.

Lemma attach_fails_ch_attach r l w e w' :
  attach_fails r w e w' -> ch_attach cfg_binary la net r l w = (Err e, w').
Proof.
  destruct 1 as [Hk|Hk Hb|b Hk Hb Hs|b so w1 reason w2 Hl Hn Ht|b so w1 w2 Hl Ht Hm|b so w1 w2 Hl Ht Hm Hm'
    |b so w1 w2 argv reason w3 Hl Ht Ha Hv].
  { unfold ch_attach. by rewrite bool_decide_eq_true_2. }
  { unfold ch_attach. rewrite bool_decide_eq_false_2 by (by intros []). by rewrite Hb. }
  { unfold ch_attach, require_attr. rewrite bool_decide_eq_false_2 by (by intros []). by rewrite Hb, Hs. }
  all: rewrite (ch_attach_must_launch _ _ _ _ _ _ Hl); destruct Hl as (_ & _ & Hs & _).
  { by rewrite (launch_new_no_tap _ _ _ _ _ Hn Ht). }
  all: rewrite (launch_new_tap _ _ _ _ Ht).
  3: { by rewrite Ha, Hv. }
  all: pose proof (build_argv_missing r so Hs) as Ha; destruct (build_argv r);
    [destruct Ha as [[? ?] [? ?]]; congruence|].
  all: destruct Ha as [(H1 & ->)|(H1 & H2 & ->)]; try done.
  - rewrite Hm in H1. by destruct H1.
  - rewrite H1 in Hm. by destruct Hm.
Qed.

(** What a successful attachment leaves. *)
Lemma ch_attach_leaves r l w att w' :
  ch_attach cfg_binary la net r l w = (Ok att, w') ->
  already_managed r (vm_name_of r) w' = true
  /\ (managed_ok (lget w) -> managed_ok (lget w'))
  /\ (exists binary socket already,
        att = attachment r l "cloud-hypervisor" (detail_map binary socket (vm_name_of r) already)
        /\ (already = false <->
             exists w1 w2, already_managed r (vm_name_of r) w = false
               /\ vm_is_running la socket w = (false, w1) /\ launched_with r binary w1 w2
               /\ w' = record_managed r socket (vm_name_of r) w2)
        /\ (already_managed r (vm_name_of r) w = true -> w' = w)
        /\ forall l' binary', locate_binary la cfg_binary w' = Some binary' ->
             ch_attach cfg_binary la net r l' w'
               = (Ok (attachment r l' "cloud-hypervisor"
                        (detail_map binary' socket (vm_name_of r) true)), w')).
Proof.
  intros (b & so & al & Hk & Hb & Hso & Hatt & Hcase)%ch_attach_ok.
  assert (already_managed r (vm_name_of r) w' = true /\ (managed_ok (lget w) -> managed_ok (lget w')))
    as [Hm Hok].
  { assert (forall w0, already_managed r (vm_name_of r) (record_managed r so (vm_name_of r) w0) = true)
      as Hrec.
    { intros w0. unfold already_managed, record_managed. rewrite lget_lput, lookup_insert_eq. simpl.
      apply String.eqb_refl. }
    assert (forall w0, lget w0 = lget w -> managed_ok (lget w) ->
              managed_ok (lget (record_managed r so (vm_name_of r) w0))) as Hkeep.
    { intros w0 Heq H0. unfold record_managed. rewrite lget_lput, Heq.
      by apply map_Forall_insert_2. }
    destruct Hcase as [(_ & ? & ->)|[(_ & _ & w1 & Hr & ->)|(_ & _ & w1 & w2 & Hr & Hl & ->)]];
      [by split|split; [apply Hrec|apply Hkeep]..].
    - pose proof (running_frame (la := la) (net := net) so w) as Hf. by rewrite Hr in Hf.
    - pose proof (running_frame (la := la) (net := net) so w) as Hf. rewrite Hr in Hf. simpl in Hf.
      rewrite <-Hf. destruct Hl as (argv & w3 & Hn & _ & Hl).
      pose proof (launch_frame (la := la) (net := net) b argv w3) as Hlf. rewrite Hl in Hlf. simpl in Hlf. rewrite Hlf.
      unfold tap_ready in Hn. case_bool_decide; [|by subst].
      pose proof (net_frame (la := la) (net := net) (r_attributes r) w1) as Hnf. by rewrite Hn in Hnf. }
  split; [exact Hm|split; [exact Hok|]]. exists b, so, al. split; [exact Hatt|]. split_and!.
  - destruct Hcase as [(-> & Hal & _)|[(-> & _ & w1 & Hr & _)|(-> & Hal & w1 & w2 & Hr & Hl & ->)]];
      split; try done.
    + intros (? & ? & ? & _). congruence.
    + intros (? & ? & _ & Hr' & _). congruence.
    + intros _. by exists w1, w2.
  - intros Hal. destruct Hcase as [(_ & _ & ->)|[(_ & ? & _)|(_ & ? & _)]]; congruence.
  - intros l' b' Hb'. unfold ch_attach, require_attr. rewrite bool_decide_eq_false_2 by (by intros []).
    rewrite Hb', Hso. cbn [ok_or]. fold (vm_name_of r). by rewrite Hm.
Qed.

(** When an attachment succeeds. *)
Lemma ch_attach_succeeds r l w :
  (exists att w', ch_attach cfg_binary la net r l w = (Ok att, w')) <->
  exists binary socket, r_kind r = Device /\ locate_binary la cfg_binary w = Some binary
    /\ r_attributes r !! "vmm.api_socket" = Some socket
    /\ (already_managed r (vm_name_of r) w = true
        \/ (vm_is_running la socket w).1 = true
        \/ exists w1 w2, vm_is_running la socket w = (false, w1) /\ launched_with r binary w1 w2).
Proof.
  split.
  - intros (att & w' & (b & so & al & Hk & Hb & Hso & _ & Hcase)%ch_attach_ok). exists b, so. split_and!; try done.
    destruct Hcase as [(_ & ? & _)|[(_ & _ & w1 & -> & _)|(_ & _ & w1 & w2 & ? & ? & _)]];
      [by left|by right; left|right; right; by exists w1, w2].
  - intros (b & so & Hk & Hb & Hso & Hcase).
    destruct (ch_attach cfg_binary la net r l w) as [[att|e] w'] eqn:E; [eauto|exfalso].
    apply ch_attach_fails in E. destruct E as [?|?|?|b' so' w1 reason w2 Hl Hn Ht|b' so' w1 w2 Hl Ht Hm
      |b' so' w1 w2 Hl Ht Hm Hm'|b' so' w1 w2 argv reason w3 Hl Ht Ha Hv]; try congruence;
      destruct Hl as (_ & Hb' & Hso' & Hmg & Hr); simplify_eq; rewrite Hmg, Hr in Hcase;
      destruct Hcase as [?|[?|(? & w4 & [= <-] & argv' & w5 & Ht' & Ha' & Hv')]]; try done;
      unfold tap_ready in *.
    + rewrite bool_decide_eq_true_2 in Ht' by done. congruence.
    + pose proof (build_argv_missing r so Hso) as H. rewrite Ha', Hm in H. by destruct H as [[? ?] _].
    + pose proof (build_argv_missing r so Hso) as H. rewrite Ha', Hm' in H. by destruct H as [_ [? ?]].
    + case_bool_decide; simplify_eq; congruence.
Qed.

(** C22. Attaching a VM, exactly. It fails in the ways of [attach_fails] and in
    no other, each with its error and the host it leaves: another kind of
    resource, no binary, no API socket, and - only where the VM is neither
    managed nor running - a tap that cannot be made, no kernel, no root disk, a
    launch that fails; nothing is recorded then. In every other case it must
    succeed. When it succeeds the VM is managed from then on and the
    attachment names the binary, the socket and the VM; it says
    [launched_by_adapter] exactly when the adapter launched it - with the
    argument vector of the resource, after provisioning its tap, and only
    because the VM was neither managed nor running. A second attachment, under
    whatever lease, then succeeds without touching the host - it does not ask
    whether the VM still runs. *)
Theorem ch_attach_spec r l w :
  (forall e w', ch_attach cfg_binary la net r l w = (Err e, w') <-> attach_fails r w e w')
  /\ (forall e w', ch_attach cfg_binary la net r l w = (Err e, w') -> lget w' = lget w)
  /\ ((exists att w', ch_attach cfg_binary la net r l w = (Ok att, w')) <->
       exists binary socket, r_kind r = Device /\ locate_binary la cfg_binary w = Some binary
         /\ r_attributes r !! "vmm.api_socket" = Some socket
         /\ (already_managed r (vm_name_of r) w = true
             \/ (vm_is_running la socket w).1 = true
             \/ exists w1 w2, vm_is_running la socket w = (false, w1) /\ launched_with r binary w1 w2))
  /\ (forall att w', ch_attach cfg_binary la net r l w = (Ok att, w') ->
       already_managed r (vm_name_of r) w' = true
       /\ (managed_ok (lget w) -> managed_ok (lget w'))
       /\ (exists binary socket already,
             att = attachment r l "cloud-hypervisor" (detail_map binary socket (vm_name_of r) already)
             /\ (already = false <->
                  exists w1 w2, already_managed r (vm_name_of r) w = false
                    /\ vm_is_running la socket w = (false, w1) /\ launched_with r binary w1 w2
                    /\ w' = record_managed r socket (vm_name_of r) w2)
             /\ (already_managed r (vm_name_of r) w = true -> w' = w)
             /\ forall l' binary', locate_binary la cfg_binary w' = Some binary' ->
                  ch_attach cfg_binary la net r l' w'
                    = (Ok (attachment r l' "cloud-hypervisor"
                             (detail_map binary' socket (vm_name_of r) true)), w'))).
Proof.
  split_and!.
  - intros e w'. split; [apply ch_attach_fails|apply attach_fails_ch_attach].
  - intros e w'. apply ch_attach_err.
  - apply ch_attach_succeeds.
  - apply ch_attach_leaves.
Qed.

Lemma reconcile_loop_spec entries w :
  NoDup (mv_resource_id <$> entries) ->
  let '(results, w') := reconcile_loop la entries w in
  Forall2 (fun vm res => res = Ok (mv_resource_id vm) \/ is_ok res = false) entries results
  /\ (forall id, lget w' !! id = if decide (Ok id ∈ results) then None else lget w !! id).
Proof.
  revert w. induction entries as [|vm entries IH]; intros w Hnd; cbn [reconcile_loop].
  { split; [constructor|]. intros id. by rewrite decide_False by (apply not_elem_of_nil). }
  apply NoDup_cons in Hnd as [Hin Hnd]. unfold reconcile_vm.
  pose proof (remove_frame (la := la) (net := net) (mv_api_socket vm) (mv_vm_name vm) w) as Hf.
  destruct (remove_vm la (mv_api_socket vm) (mv_vm_name vm) w) as [res w1]. simpl in Hf.
  destruct res as [[]|e].
  - specialize (IH (lput (delete (mv_resource_id vm) (lget w1)) w1) Hnd).
    destruct (reconcile_loop la entries _) as [results w2]. destruct IH as (Hall & Hlook).
    split; [constructor; [by left|done]|].
    intros id. rewrite Hlook, lget_lput, Hf. destruct (decide (id = mv_resource_id vm)) as [->|Hne].
    + rewrite lookup_delete_eq. rewrite (decide_True (P := Ok _ ∈ Ok _ :: _)) by (by left).
      by case_decide.
    + rewrite lookup_delete_ne by done.
      destruct (decide (Ok id ∈ results)) as [Hi|Hi];
        [rewrite decide_True by (by right)|rewrite decide_False]; [done..|].
      intros [[= ?]|?]%elem_of_cons; done.
  - specialize (IH w1 Hnd). destruct (reconcile_loop la entries w1) as [results w2].
    destruct IH as (Hall & Hlook). split; [constructor; [by right|done]|].
    intros id. rewrite Hlook, Hf. destruct (decide (Ok id ∈ results)) as [Hi|Hi];
      [rewrite decide_True by (by right)|rewrite decide_False]; [done..|].
    intros [[=]|?]%elem_of_cons. done.
Qed.

Lemma managed_ids (m : ManagedVms) :
  managed_ok m -> mv_resource_id <$> hash_values m ≡ₚ (map_to_list m).*1.
Proof.
  intros Hok. rewrite (hash_values_perm m), <-list_fmap_compose.
  assert (forall l, (forall id vm, (id, vm) ∈ l -> mv_resource_id vm = id) ->
    (mv_resource_id ∘ snd <$> l) = l.*1) as Hl.
  { intros l. induction l as [|[id vm] l IH]; intros Hl; [done|]. simpl. f_equal.
    - apply Hl. by left.
    - apply IH. intros ???. apply Hl. by right. }
  rewrite Hl; [done|]. intros id vm Hin%elem_of_map_to_list. by apply (Hok id vm).
Qed.


#[export] Instance CloudHypervisorAdapter_laws : AdapterLaws (CloudHypervisorAdapter cfg_binary la net).
Proof.
  split; [|done]. intros r l w a w' Ha.
  apply ch_attach_ok in Ha as (b & so & al & _ & _ & _ & -> & _). done.
Qed.

End facts.

(** ** Concrete instances *)

(** A host where every path but the socket exists and every command succeeds. *)
Definition demo_host : Host (gmap string ManagedVm) :=
  {| path_exists := fun p _ => negb (String.eqb p "/run/vm.sock");
     run_command := fun _ _ w => (Ok (mkOutput true "0" EmptyString), w);
     spawn_and_poll := fun _ _ w => (Ok (Ok None), w);
     remove_file := fun _ w => w |}.

#[export] Instance demo_frame : LauncherFrame (ProcessLauncher demo_host) (process_provision demo_host).
Proof. by apply process_frame. Defined.

Definition demo_vm : Resource :=
  {| r_id := "vm0"; r_kind := Device; r_capacity := 1; r_unit := "vm"; r_node := "local";
     r_state := Available; r_exclusive := true;
     r_attributes := {[ "vmm.api_socket" := "/run/vm.sock"; "vmm.kernel" := "/k"; "vmm.rootfs" := "/r";
                        "vmm.net" := "tap=t0"; "vmm.device" := "/d0, ,/d1" ]} |}.

Definition demo_attach (w : gmap string ManagedVm) : result FabricError Attachment * gmap string ManagedVm :=
  ch_attach "/bin/ch" (ProcessLauncher demo_host) (process_provision demo_host) demo_vm
    (mkLease 7 "vm0" "alice") w.

(** The VM without its kernel: the tap has been asked for, and nothing is launched. *)
Definition demo_no_kernel : Resource :=
  {| r_id := "vm0"; r_kind := Device; r_capacity := 1; r_unit := "vm"; r_node := "local";
     r_state := Available; r_exclusive := true;
     r_attributes := {[ "vmm.api_socket" := "/run/vm.sock"; "vmm.rootfs" := "/r" ]} |}.

Lemma ch_attach_spec_witness :
  ((fun att => at_details att !! "vmm.launched_by_adapter") <$> (demo_attach ∅).1) = Ok (Some "true")
  /\ already_managed demo_vm "vm0" (demo_attach ∅).2 = true
  /\ ch_attach "/bin/ch" (ProcessLauncher demo_host) (process_provision demo_host) demo_no_kernel
       (mkLease 7 "vm0" "alice") ∅ = (Err (MissingResourceAttribute "vmm.kernel"), ∅).
Proof.
  pose proof (fun r l w => ch_attach_spec "/bin/ch" (ProcessLauncher demo_host) (process_provision demo_host) r l w)
    as H.
  split_and!; [vm_compute; reflexivity|..].
  - assert (is_ok (demo_attach ∅).1 = true) as Hok by (vm_compute; reflexivity).
    destruct (demo_attach ∅) as [[att|e] w'] eqn:E; [|done].
    apply (H demo_vm (mkLease 7 "vm0" "alice") ∅) in E as [H' _]. exact H'.
  - apply H. apply (af_kernel _ _ _ _ _ "/bin/ch" "/run/vm.sock" ∅ ∅); vm_compute; repeat split; reflexivity.
Defined.

Definition demo_hash_values (m : gmap string ManagedVm) : list ManagedVm := (map_to_list m).*2.

