(* ===== verification/AdapterLocks.v ===== *)
(** * The locks inside the adapters

    The adapters with state of their own guard it with a mutex that one call may
    take more than once (gpu/adapter.rs, store.rs, vmm/cloud_hypervisor.rs).
    [Interleave] runs a call of an adapter as one section. Here the calls are
    programs that drop the lock where the source does. The registry calls
    [attach] with the lease table locked, so one [attach] runs at a time, but
    [release] calls [detach], and [list_adapters] asks for the capability
    report, without that lock: any number of these can run in the gaps of an
    attach. They cannot be told from ones before or after a whole attach. Only
    the store adapter has a [detach] of its own; the report reads the table of
    the GPU adapter, the binary of the hypervisor adapter and the daemon of the
    store adapter. [reconcile] is not a call of the registry and not part of
    this. *)

From stdpp Require Import base tactics option list gmap strings fin_maps.
From S2P Require Import Prelude Str Resource Adapters GpuLocal Store Hypervisor.

#[local] Open Scope Z_scope.

(** ** Programs *)

(** A step is what a call does between two points where another call can run. *)
Inductive Prog (W A : Type) : Type :=
  | PRet (a : A)
  | PStep {B : Type} (f : W -> B * W) (k : B -> Prog W A).
Arguments PRet {W A}. Arguments PStep {W A B}.

Fixpoint prog_run {W A} (p : Prog W A) (w : W) : A * W :=
  match p with
  | PRet a => (a, w)
  | PStep f k => let '(b, w) := f w in prog_run (k b) w
  end.

(** ** Attaching, step by step *)

Section programs.
Context {W : Type}.

(** The reservation is looked up and entered under two separate locks. *)
Definition gpu_attach_prog `{Lens W (gmap string GpuReservation)} (clock : W -> instant) (r : Resource) (l : Lease) :
    Prog W (result FabricError Attachment) :=
  if bool_decide (r_kind r <> Gpu) then PRet (Err (IncompatibleResourceKind ADAPTER_NAME Gpu (r_kind r)))
  else
    match gpu_id_of r with
    | None => PRet (Err (MissingResourceAttribute "gpu.uuid or gpu.pci_bus_id"))
    | Some gpu_id =>
        let details := reservation_details r gpu_id in
        PStep (fun w => (match lget w !! r_id r with
                         | Some existing => bool_decide (gr_lease_id existing = l_id l)
                         | None => false
                         end, w)) (fun held : bool =>
          if held then PRet (Ok (attachment r l ADAPTER_NAME (<["gpu.reattach" := "true"]> details)))
          else
            PStep (fun w => (clock w, w)) (fun attached_at =>
            PStep (fun w => (tt, lput (<[r_id r := {| gr_lease_id := l_id l; gr_gpu_id := gpu_id;
                                                      gr_attached_at := attached_at |}]> (lget w)) w))
              (fun _ => PRet (Ok (attachment r l ADAPTER_NAME details)))))
    end.

(** The directory is created before the lock is taken. *)
Definition store_attach_prog `{Lens W (gmap Z StoreResolution)}
    (create_dir_all : string -> W -> result string () * W) (r : Resource) (l : Lease) :
    Prog W (result FabricError Attachment) :=
  match from_resource r with
  | Err e => PRet (Err e)
  | Ok resolution =>
      let insert_live :=
        PStep (fun w => (tt, lput (<[l_id l := resolution]> (lget w)) w))
          (fun _ => PRet (Ok (attachment r l "fabric-store" (store_details resolution)))) in
      if bool_decide (sr_kind resolution <> Nfs) then
        PStep (ensure_dir create_dir_all (sr_path resolution)) (fun dir =>
          match dir with Err e => PRet (Err e) | Ok _ => insert_live end)
      else insert_live
  end.

(** Nothing is locked while the host is asked or a VM is launched. *)
Definition ch_attach_prog `{Lens W (gmap string ManagedVm)} (cfg_binary : string) (la : Launcher W)
    (net : NetProvisioner W) (r : Resource) (l : Lease) : Prog W (result FabricError Attachment) :=
  if bool_decide (r_kind r <> Device) then
    PRet (Err (IncompatibleResourceKind "cloud-hypervisor" Device (r_kind r)))
  else
    PStep (fun w => (locate_binary la cfg_binary w, w)) (fun found =>
    match found with
    | None => PRet (Err (backend_unavailable ("cloud-hypervisor binary not found at " +:+ cfg_binary)))
    | Some binary =>
        match require_attr (r_attributes r) "vmm.api_socket" with
        | Err e => PRet (Err e)
        | Ok api_socket =>
            let vm_name := attr_or (r_attributes r) "vmm.vm_name" (r_id r) in
            let done already := Ok (attachment r l "cloud-hypervisor"
                                      (detail_map binary api_socket vm_name already)) in
            let record already :=
              PStep (fun w => (tt, record_managed r api_socket vm_name w)) (fun _ => PRet (done already)) in
            PStep (fun w => (already_managed r vm_name w, w)) (fun managed : bool =>
            if managed then PRet (done true)
            else
              PStep (vm_is_running la api_socket) (fun running : bool =>
              if running then record true
              else
                PStep (fun w => if bool_decide (is_Some (r_attributes r !! "vmm.net"))
                                then net (r_attributes r) w else (Ok tt, w)) (fun provisioned =>
                match map_err backend_unavailable provisioned with
                | Err e => PRet (Err e)
                | Ok _ =>
                    match build_argv r with
                    | Err e => PRet (Err e)
                    | Ok argv =>
                        PStep (launch_vm la binary argv) (fun launched =>
                        match map_err backend_unavailable launched with
                        | Err e => PRet (Err e)
                        | Ok _ => record false
                        end)
                    end
                end)))
        end
    end).

End programs.

(** ** Calls in the gaps *)

Section overlap.
Context {W A D : Type}.

(** [overlap p ds w a rs w']: from [w], the calls [ds] run in the gaps of [p],
    which ends with [a]; [rs] are their results. *)
Inductive overlap : Prog W A -> list (W -> D * W) -> W -> A -> list D -> W -> Prop :=
  | overlap_ret a w : overlap (PRet a) [] w a [] w
  | overlap_step B (f : W -> B * W) k ds w a rs w' :
      overlap (k (f w).1) ds (f w).2 a rs w' -> overlap (PStep f k) ds w a rs w'
  | overlap_detach p d ds w a rs w' :
      overlap p ds (d w).2 a rs w' -> overlap p (d :: ds) w a ((d w).1 :: rs) w'.

(** The calls one after the other. *)
Fixpoint run_all (ds : list (W -> D * W)) (w : W) : list D * W :=
  match ds with
  | [] => ([], w)
  | d :: ds => let '(r, w) := d w in let '(rs, w) := run_all ds w in (r :: rs, w)
  end.

(** The order of the two cannot be observed. *)
Definition commutes {B} (f : W -> B * W) (d : W -> D * W) : Prop :=
  forall w, (f (d w).2).1 = (f w).1 /\ (d (f w).2).1 = (d w).1 /\ (f (d w).2).2 = (d (f w).2).2.

(** Only the last step of [p] may fail to commute with the calls of [P]. *)
Fixpoint movable (P : (W -> D * W) -> Prop) (p : Prog W A) : Prop :=
  match p with
  | PRet _ => True
  | PStep f k =>
      (forall b, exists a, k b = PRet a) \/ ((forall d, P d -> commutes f d) /\ forall b, movable P (k b))
  end.

Lemma run_all_app ds1 ds2 w :
  run_all (app ds1 ds2) w =
    let '(rs1, w1) := run_all ds1 w in let '(rs2, w2) := run_all ds2 w1 in (app rs1 rs2, w2).
Proof.
  revert w. induction ds1 as [|d ds1 IH]; intros w; cbn [app run_all].
  - by destruct (run_all ds2 w).
  - destruct (d w) as [r w']. rewrite IH. destruct (run_all ds1 w') as [rs1 w1]. by destruct (run_all ds2 w1).
Qed.

(** A step that commutes with each detach commutes with all of them. *)
Lemma commutes_all {B} (f : W -> B * W) ds w :
  Forall (commutes f) ds ->
  (f (run_all ds w).2).1 = (f w).1 /\ (run_all ds (f w).2).1 = (run_all ds w).1
  /\ (f (run_all ds w).2).2 = (run_all ds (f w).2).2.
Proof.
  intros Hc. revert w. induction Hc as [|d ds Hd Hc IH]; intros w; [done|]. cbn [run_all].
  destruct (Hd w) as (H1 & H2 & H3). destruct (IH (d w).2) as (I1 & I2 & I3).
  destruct (d w) as [r wd] eqn:Ed. cbn [fst snd] in *. rewrite H3 in I2, I3. rewrite H1 in I1.
  destruct (d (f w).2) as [r' wf] eqn:Ef. cbn [fst snd] in *.
  destruct (run_all ds wd) as [rs w'], (run_all ds wf) as [rs' w'']. cbn [fst snd] in *. by subst.
Qed.

(** With the program over, or its last step to come, the calls are just a list. *)
Lemma overlap_ret_inv a0 ds w a rs w' :
  overlap (PRet a0) ds w a rs w' -> a = a0 /\ run_all ds w = (rs, w').
Proof.
  remember (PRet a0) as p eqn:E. induction 1 as [| |p d ds w a rs w' H IH]; simplify_eq; [done|].
  destruct IH as [-> IH]; [done|]. split; [done|]. cbn [run_all]. destruct (d w) as [r w1]. cbn in *. by rewrite IH.
Qed.

(** Whatever runs in its gaps, the program is run whole at one point between them. *)
Lemma overlap_atomic P p ds w a rs w' :
  movable P p -> Forall P ds -> overlap p ds w a rs w' ->
  exists ds1 ds2 rs1 rs2 w1 w2, ds = app ds1 ds2 /\ rs = app rs1 rs2
    /\ run_all ds1 w = (rs1, w1) /\ prog_run p w1 = (a, w2) /\ run_all ds2 w2 = (rs2, w').
Proof.
  intros Hm Hds H. induction H as [a w|B f k ds w a rs w' H IH|p d ds w a rs w' H IH].
  - by exists [], [], [], [], w, w.
  - destruct Hm as [Hlast|[Hc Hm]].
    + destruct (Hlast (f w).1) as [a0 Hk]. rewrite Hk in H. apply overlap_ret_inv in H as [-> H].
      exists [], ds, [], rs, w, (f w).2. split_and!; try done. cbn [prog_run].
      destruct (f w) as [b w0]. cbn in *. by rewrite Hk.
    + destruct (IH (Hm _) Hds) as (ds1 & ds2 & rs1 & rs2 & w1 & w2 & -> & -> & H1 & H2 & H3).
      apply Forall_app in Hds as [Hds1 _].
      destruct (commutes_all f ds1 w) as (E1 & E2 & E3); [by eapply Forall_impl|].
      rewrite H1 in E2, E3. cbn in E2, E3. destruct (run_all ds1 w) as [rs1' w0] eqn:E0. cbn in E1, E2, E3.
      exists ds1, ds2, rs1, rs2, w0, w2. split_and!; try done; [by rewrite E0, E2|]. cbn [prog_run].
      destruct (f w0) as [b w3]. cbn in E1, E3. by rewrite E1, E3.
  - apply Forall_cons in Hds as [_ Hds]. destruct (IH Hm Hds) as (ds1 & ds2 & rs1 & rs2 & w1 & w2 & -> & -> & H1 & H2 & H3).
    exists (d :: ds1), ds2, ((d w).1 :: rs1), rs2, w1, w2. split_and!; try done. cbn [run_all].
    destruct (d w) as [r w0]. cbn in *. by rewrite H1.
Qed.

End overlap.

(** Nothing runs in the gaps. *)
Lemma overlap_alone {W A D} (p : Prog W A) w : overlap (D := D) p [] w (prog_run p w).1 [] (prog_run p w).2.
Proof.
  revert w. induction p as [a|B f k IH]; intros w; [constructor|]. constructor. cbn [prog_run].
  destruct (f w) as [b w1]. apply IH.
Qed.

(** ** The adapters *)

(** A call of an adapter that does not take the lock of the lease table. *)
Inductive GapCall : Type :=
  | GDetach (r : Resource) (l : Lease)
  | GReport.

Inductive GapResult : Type :=
  | GDetached (res : result FabricError ())
  | GReported (report : AdapterReport).

Definition gap_call {W} (ad : ResourceAdapter W) (g : GapCall) (w : W) : GapResult * W :=
  match g with
  | GDetach r l => let '(res, w) := ad_detach ad r l w in (GDetached res, w)
  | GReport => (GReported (ad_capability_report ad w), w)
  end.

(** From [w], the calls [gs] one after the other with one [attach] between two of
    them give [rs], [a] and [w']. *)
Definition one_attach_among {W} (ad : ResourceAdapter W) (r : Resource) (l : Lease) (gs : list GapCall) (w : W)
    (a : result FabricError Attachment) (rs : list GapResult) (w' : W) : Prop :=
  exists gs1 gs2 rs1 rs2 w1 w2, gs = app gs1 gs2 /\ rs = app rs1 rs2
    /\ run_all (gap_call ad <$> gs1) w = (rs1, w1) /\ ad_attach ad r l w1 = (a, w2)
    /\ run_all (gap_call ad <$> gs2) w2 = (rs2, w').

(** The steps [p] are the adapter's [attach], and with any calls in their gaps
    they are one call of it, made between two of those. *)
Definition atomic_attach {W} (ad : ResourceAdapter W)
    (p : Resource -> Lease -> Prog W (result FabricError Attachment)) : Prop :=
  forall r l,
    (forall w, prog_run (p r l) w = ad_attach ad r l w)
    /\ forall gs w a rs w', overlap (p r l) (gap_call ad <$> gs) w a rs w' -> one_attach_among ad r l gs w a rs w'.

Section adapters.
Context {W : Type}.

Definition gap_of (ad : ResourceAdapter W) (d : W -> GapResult * W) : Prop := exists g, d = gap_call ad g.

(** Steps that run as the adapter's [attach] and move past its calls are atomic. *)
Lemma movable_atomic (ad : ResourceAdapter W) p :
  (forall r l w, prog_run (p r l) w = ad_attach ad r l w) -> (forall r l, movable (gap_of ad) (p r l)) ->
  atomic_attach ad p.
Proof.
  intros Hrun Hmov r l. split; [apply Hrun|]. intros gs w a rs w' H.
  eapply (overlap_atomic (gap_of ad)) in H as (ds1 & ds2 & rs1 & rs2 & w1 & w2 & Hds & Hrs & H1 & H2 & H3);
    [|apply Hmov|apply Forall_fmap, Forall_forall; intros g _; by exists g].
  apply fmap_app_inv in Hds as (gs1 & gs2 & -> & -> & ->).
  exists gs1, gs2, rs1, rs2, w1, w2. by rewrite <-Hrun.
Qed.

(** A step that leaves the report as it is commutes with the calls of an adapter
    that has no [detach] of its own. *)
Lemma commutes_default ad {B} (f : W -> B * W) d :
  ad_detach ad = default_detach -> (forall w, ad_capability_report ad (f w).2 = ad_capability_report ad w) ->
  gap_of ad d -> commutes f d.
Proof.
  intros Hd Hf [[r l|] ->] w; unfold gap_call; [by rewrite Hd|]. cbn. by rewrite Hf.
Qed.

Lemma gpu_atomic `{Lens W (gmap string GpuReservation)} (clock : W -> instant) live_gpus :
  atomic_attach (GpuLocalAdapter clock live_gpus) (gpu_attach_prog clock).
Proof.
  apply movable_atomic; intros r l; unfold gpu_attach_prog.
  - intros w. cbn [ad_attach GpuLocalAdapter]. unfold gpu_attach. case_bool_decide; [done|].
    destruct (gpu_id_of r); [|done]. cbn [prog_run].
    destruct (lget w !! r_id r) as [existing|]; [|done]. by case_bool_decide.
  - case_bool_decide; [done|]. destruct (gpu_id_of r); [|done].
    right. split; [intros d; by apply commutes_default|]. intros [|]; [done|].
    right. split; [intros d; by apply commutes_default|]. intros at_. left. eauto.
Qed.

(** Asking whether a VM runs, making a tap and launching do not install or remove
    the hypervisor's binary. *)
Class BinaryFrame (cfg_binary : string) (la : Launcher W) (net : NetProvisioner W) : Prop := {
  running_binary : forall socket w,
    locate_binary la cfg_binary (vm_is_running la socket w).2 = locate_binary la cfg_binary w;
  net_binary : forall attrs w, locate_binary la cfg_binary (net attrs w).2 = locate_binary la cfg_binary w;
  launch_binary : forall binary argv w,
    locate_binary la cfg_binary (launch_vm la binary argv w).2 = locate_binary la cfg_binary w;
}.

Lemma ch_atomic `{Lens W (gmap string ManagedVm)} cfg_binary (la : Launcher W) net
    `{!BinaryFrame cfg_binary la net} :
  atomic_attach (CloudHypervisorAdapter cfg_binary la net) (ch_attach_prog cfg_binary la net).
Proof.
  apply movable_atomic; intros r l; unfold ch_attach_prog.
  - intros w. cbn [ad_attach CloudHypervisorAdapter]. unfold ch_attach, launch_new.
    case_bool_decide; [done|]. cbn [prog_run].
    destruct (locate_binary la cfg_binary w); [|done]. destruct (require_attr _ _); [|done]. cbn [prog_run].
    destruct (already_managed _ _ _); [done|]. cbn [prog_run].
    destruct (vm_is_running la _ w) as [[] w1]; [done|]. cbn [prog_run].
    destruct (if bool_decide _ then _ else _) as [[|] w2]; cbn [map_err prog_run]; [|done].
    destruct (build_argv r); [|done]. cbn [prog_run]. by destruct (launch_vm la _ _ w2) as [[|] w3].
  - assert (forall B (f : W -> B * W) d,
      (forall w, locate_binary la cfg_binary (f w).2 = locate_binary la cfg_binary w) ->
      gap_of (CloudHypervisorAdapter cfg_binary la net) d -> commutes f d) as Hc.
    { intros B f d Hf. apply commutes_default; [done|]. intros w. cbn [ad_capability_report CloudHypervisorAdapter].
      unfold ch_capability_report. by rewrite Hf. }
    case_bool_decide; [done|]. right. split; [intros d; by apply Hc|]. intros [binary|]; [|done].
    destruct (require_attr _ _); [|done]. right. split; [intros d; by apply Hc|]. intros [|]; [done|].
    right. split; [intros d; apply Hc; intros; apply (running_binary (net := net))|]. intros [|]; [left; eauto|].
    right. split.
    { intros d. apply Hc. intros w. case_bool_decide; [apply (net_binary (la := la))|done]. }
    intros provisioned. destruct (map_err backend_unavailable provisioned); [|done].
    destruct (build_argv r); [|done].
    right. split; [intros d; apply Hc; intros; apply (launch_binary (net := net))|]. intros launched.
    destruct (map_err backend_unavailable launched); [left; eauto|done].
Qed.

(** Creating a directory neither reads nor writes the adapter's table, and does
    not install the daemon. *)
Definition dir_apart `{Lens W (gmap Z StoreResolution)} (create_dir_all : string -> W -> result string () * W)
    (virtiofsd : W -> option string) : Prop :=
  forall path m w, lget (create_dir_all path w).2 = lget w
    /\ create_dir_all path (lput m w) = ((create_dir_all path w).1, lput m (create_dir_all path w).2)
    /\ virtiofsd (create_dir_all path w).2 = virtiofsd w.

Lemma ensure_dir_commutes `{Lens W (gmap Z StoreResolution)} create_dir_all virtiofsd path d :
  dir_apart create_dir_all virtiofsd -> gap_of (FabricStoreAdapter create_dir_all virtiofsd) d ->
  commutes (ensure_dir create_dir_all path) d.
Proof.
  intros Hdir [[r l|] ->] w; cbn [gap_call ad_detach ad_capability_report FabricStoreAdapter];
    unfold store_detach, store_capability_report, ensure_dir;
    destruct (Hdir path (lget w) w) as (Hget & _ & Hv);
    destruct (create_dir_all path w) as [res w1] eqn:E; cbn in Hget, Hv; cbn [fst snd];
    [|by rewrite E, Hv].
  rewrite Hget. destruct (lget w !! l_id l) as [s|]; cbn [fst snd]; [|by rewrite E].
  case_bool_decide; cbn [fst snd];
    (match goal with |- context [lput ?m w] => destruct (Hdir path m w) as (_ & Hput & _) end);
    rewrite Hput, E; done.
Qed.

Lemma store_atomic `{Lens W (gmap Z StoreResolution)} create_dir_all virtiofsd :
  dir_apart create_dir_all virtiofsd ->
  atomic_attach (FabricStoreAdapter create_dir_all virtiofsd) (store_attach_prog create_dir_all).
Proof.
  intros Hdir. apply movable_atomic; intros r l; unfold store_attach_prog.
  - intros w. cbn [ad_attach FabricStoreAdapter]. unfold store_attach.
    destruct (from_resource r) as [s|]; [|done].
    case_bool_decide; [|done]. cbn [prog_run]. by destruct (ensure_dir _ _ w) as [[|] w1].
  - destruct (from_resource r) as [s|]; [|done]. case_bool_decide; [|left; eauto]. right.
    split; [intros d; by apply (ensure_dir_commutes _ virtiofsd)|]. intros [|]; [left; eauto|done].
Qed.

End adapters.

(** C18. One section per adapter call is enough. Each adapter that takes its own
    lock more than once - the GPU reservations, the hypervisor, the fabric
    store - in the steps between which the source has dropped it: run alone,
    the steps are the adapter's [attach]; and while any detaches and
    capability reports run in their gaps, the results of all of them and the
    state they leave are those of the same calls one after the other with the
    whole [attach] between two of them. In particular no report sees, and no
    detach meets, an attachment that is half made. *)
Theorem adapter_calls_atomic {W1 W2 W3} `{Lens W1 (gmap string GpuReservation)} `{Lens W2 (gmap string ManagedVm)}
    `{Lens W3 (gmap Z StoreResolution)} clock live_gpus cfg_binary (la : Launcher W2) net
    (create_dir_all : string -> W3 -> result string () * W3) virtiofsd :
  BinaryFrame cfg_binary la net -> dir_apart create_dir_all virtiofsd ->
  atomic_attach (GpuLocalAdapter (W := W1) clock live_gpus) (gpu_attach_prog clock)
  /\ atomic_attach (CloudHypervisorAdapter cfg_binary la net) (ch_attach_prog cfg_binary la net)
  /\ atomic_attach (FabricStoreAdapter create_dir_all virtiofsd) (store_attach_prog create_dir_all).
Proof. intros Hframe Hdir. split_and!; [apply gpu_atomic|by apply ch_atomic|by apply store_atomic]. Qed.

(** ** Concrete instances *)

(** While a GPU is reserved, its table read and not yet written, a report is
    made; while a VM is launched, one too; and while a store is attached under
    lease 1, its directory just created, the detach of lease 7 and a report. *)
Definition demo_gpu : Resource :=
  {| r_id := "gpu.0"; r_kind := Gpu; r_capacity := 1; r_unit := "device"; r_node := "local";
     r_state := Available; r_exclusive := true; r_attributes := {[ "gpu.uuid" := "GPU-0" ]} |}.
Definition demo_gpu_lease : Lease := mkLease 1 "gpu.0" "alice".
Definition demo_gpus : ResourceAdapter (gmap string GpuReservation) := GpuLocalAdapter (fun _ => 3) (fun _ => 1).
Definition demo_vm_lease : Lease := mkLease 7 "vm0" "alice".
Definition demo_hypervisor : ResourceAdapter (gmap string ManagedVm) :=
  CloudHypervisorAdapter "/bin/ch" (ProcessLauncher demo_host) (process_provision demo_host).
Definition demo_detach : GapCall := GDetach demo_store (mkLease 7 "local.store.fabric" "bob").

Lemma demo_dir_apart : dir_apart demo_mkdir (fun _ => None).
Proof. done. Qed.

#[local] Instance demo_binary_frame :
  BinaryFrame "/bin/ch" (ProcessLauncher demo_host) (process_provision demo_host).
Proof.
  by split.
Qed.

Lemma adapter_calls_atomic_witness :
  (exists a rs w', overlap (gpu_attach_prog (fun _ => 3) demo_gpu demo_gpu_lease) (gap_call demo_gpus <$> [GReport])
       ∅ a rs w' /\ one_attach_among demo_gpus demo_gpu demo_gpu_lease [GReport] ∅ a rs w')
  /\ (exists a rs w', overlap (ch_attach_prog "/bin/ch" (ProcessLauncher demo_host) (process_provision demo_host)
                                 demo_vm demo_vm_lease) (gap_call demo_hypervisor <$> [GReport]) ∅ a rs w'
        /\ one_attach_among demo_hypervisor demo_vm demo_vm_lease [GReport] ∅ a rs w')
  /\ (exists a rs w', overlap (store_attach_prog demo_mkdir demo_store demo_store_lease)
                        (gap_call demo_adapter <$> [demo_detach; GReport]) ∅ a rs w'
        /\ one_attach_among demo_adapter demo_store demo_store_lease [demo_detach; GReport] ∅ a rs w').
Proof.
  destruct (adapter_calls_atomic (W1 := gmap string GpuReservation) (fun _ => 3) (fun _ => 1) "/bin/ch"
    (ProcessLauncher demo_host) (process_provision demo_host) demo_mkdir (fun _ => None)
    demo_binary_frame demo_dir_apart) as (Hgpu & Hch & Hstore).
  split_and!.
  - assert (exists a rs w', overlap (gpu_attach_prog (fun _ => 3) demo_gpu demo_gpu_lease)
      (gap_call demo_gpus <$> [GReport]) ∅ a rs w') as (a & rs & w' & H)
      by (eexists _, _, _; apply overlap_step, overlap_step, overlap_detach, overlap_alone).
    exists a, rs, w'. split; [exact H|]. exact (proj2 (Hgpu demo_gpu demo_gpu_lease) _ _ _ _ _ H).
  - assert (exists a rs w', overlap (ch_attach_prog "/bin/ch" (ProcessLauncher demo_host)
      (process_provision demo_host) demo_vm demo_vm_lease) (gap_call demo_hypervisor <$> [GReport]) ∅ a rs w')
      as (a & rs & w' & H)
      by (eexists _, _, _; apply overlap_step, overlap_step, overlap_step, overlap_detach, overlap_alone).
    exists a, rs, w'. split; [exact H|]. exact (proj2 (Hch demo_vm demo_vm_lease) _ _ _ _ _ H).
  - assert (exists a rs w', overlap (store_attach_prog demo_mkdir demo_store demo_store_lease)
      (gap_call demo_adapter <$> [demo_detach; GReport]) ∅ a rs w') as (a & rs & w' & H)
      by (eexists _, _, _; apply overlap_step, overlap_detach, overlap_detach, overlap_alone).
    exists a, rs, w'. split; [exact H|]. exact (proj2 (Hstore demo_store demo_store_lease) _ _ _ _ _ H).
Defined.
