(* ===== verification/Sysfs.v ===== *)
(** * Paths and the file system the discovery reads

    What [std::fs] answers at one moment ([Fs]) and the path and text helpers
    that gpu/discover.rs, gpu/rocm.rs, hwinfo.rs and vmm/vfio.rs share. Kernel
    file names and link targets are UTF-8, so the lossy conversions of the code
    are the identity. *)

From stdpp Require Import base tactics option list gmap strings fin_maps.
From Stdlib Require Import Ascii String.
From S2P Require Import Prelude Str.

#[local] Open Scope Z_scope.

(** [read_to_string], the names [read_dir] yields in its order, the target of
    [read_link], [exists], [canonicalize]. *)
Record Fs : Type := mkFs {
  fs_read : string -> option string;
  fs_dir : string -> option (list string);
  fs_link : string -> option string;
  fs_exists : string -> bool;
  fs_canon : string -> option string;
}.

(** [Path::join]. *)
Definition path_join (base p : string) : string :=
  if starts_with "/" p then p
  else if String.eqb base EmptyString then p
  else if starts_with "/" (String.rev base) then base +:+ p
  else base +:+ "/" +:+ p.

(** [Path::file_name]: the last component, if it is a normal one. *)
Definition file_name (p : string) : option string :=
  match last (filter (fun c => c <> EmptyString /\ c <> ".") (split_on "/" p)) with
  | Some c => if String.eqb c ".." then None else Some c
  | None => None
  end.

Definition link_name (fs : Fs) (p : string) : option string := fs_link fs p ≫= file_name.

(** [read] and [read_first_line]: the trimmed content. *)
Definition fs_read_trim (fs : Fs) (p : string) : option string := trim <$> fs_read fs p.

(** [entries]: the sorted content of a directory, empty when it cannot be read. *)
Definition entries (fs : Fs) (dir : string) : list string :=
  merge_sort String.le (default [] (fs_dir fs dir)).

(** [trim_start_matches("0x")]: every leading repetition. *)
Fixpoint trim_start_matches_0x (fuel : nat) (s : string) : string :=
  match fuel with
  | O => s
  | S f => match strip_prefix "0x" s with
           | Some r => trim_start_matches_0x f r
           | None => s
           end
  end.

Definition read_hex (fs : Fs) (p : string) : option Z :=
  fs_read fs p ≫= fun s => let s := trim s in parse_hex_u32 (trim_start_matches_0x (String.length s) s).
Definition read_u64 (fs : Fs) (p : string) : option Z := fs_read fs p ≫= fun s => parse_u64 (trim s).
Definition read_u32 (fs : Fs) (p : string) : option Z := fs_read fs p ≫= fun s => parse_u32 (trim s).

Lemma elem_of_entries fs dir n :
  n ∈ entries fs dir <-> exists l, fs_dir fs dir = Some l /\ n ∈ l.
Proof.
  unfold entries. rewrite merge_sort_Permutation.
  destruct (fs_dir fs dir) as [l|]; simpl; [naive_solver|].
  split; [by intros ?%elem_of_nil|naive_solver].
Qed.

Lemma entries_sorted fs dir : StronglySorted String.le (entries fs dir).
Proof. apply (StronglySorted_merge_sort _). Qed.

Lemma entries_NoDup fs dir l : fs_dir fs dir = Some l -> NoDup l -> NoDup (entries fs dir).
Proof. intros H Hl. unfold entries. rewrite merge_sort_Permutation, H. done. Qed.

Lemma read_u64_bounds fs p z : read_u64 fs p = Some z -> 0 <= z <= u64_max.
Proof.
  unfold read_u64. destruct (fs_read fs p); simpl; [|done].
  apply parse_unsigned_bounds; [apply dec_digit_nonneg|done..].
Qed.

(** ** PCI addresses as text *)

Lemma split_once_app c a b :
  contains_char c a = false -> split_once c (a +:+ String c b) = Some (a, b).
Proof.
  induction a as [|x a IH]; simpl.
  - intros _. by rewrite Ascii.eqb_refl.
  - rewrite orb_false_iff. intros [-> Ha]. by rewrite IH.
Qed.

Lemma lower_byte_idem a : lower_byte (lower_byte a) = lower_byte a.
Proof. by destruct a as [[] [] [] [] [] [] [] []]. Qed.
Lemma lower_byte_colon a : Ascii.eqb (lower_byte a) ":" = Ascii.eqb a ":".
Proof. by destruct a as [[] [] [] [] [] [] [] []]. Qed.
Lemma lower_byte_plus a : Ascii.eqb "+" (lower_byte a) = Ascii.eqb "+" a.
Proof. by destruct a as [[] [] [] [] [] [] [] []]. Qed.
Lemma lower_byte_hex a : hex_digit (lower_byte a) = hex_digit a.
Proof. by destruct a as [[] [] [] [] [] [] [] []]. Qed.
Lemma lower_byte_graphic a : graphic (lower_byte a) = graphic a.
Proof. by destruct a as [[] [] [] [] [] [] [] []]. Qed.

Lemma lower_idem s : to_ascii_lowercase (to_ascii_lowercase s) = to_ascii_lowercase s.
Proof. induction s as [|a s IH]; simpl; [done|]. by rewrite lower_byte_idem, IH. Qed.

Lemma lower_app a b : to_ascii_lowercase (a +:+ b) = to_ascii_lowercase a +:+ to_ascii_lowercase b.
Proof. induction a as [|x a IH]; simpl; [done|]. by rewrite IH. Qed.

Lemma lower_colon s : contains_char ":" (to_ascii_lowercase s) = contains_char ":" s.
Proof. induction s as [|a s IH]; simpl; [done|]. by rewrite lower_byte_colon, IH. Qed.

Lemma lower_graphic s : all_bytes graphic (to_ascii_lowercase s) = all_bytes graphic s.
Proof. induction s as [|a s IH]; simpl; [done|]. by rewrite lower_byte_graphic, IH. Qed.

Lemma lower_digits radix max acc s :
  digits_go hex_digit radix max acc (to_ascii_lowercase s) = digits_go hex_digit radix max acc s.
Proof.
  revert acc. induction s as [|a s IH]; intros acc; simpl; [done|]. rewrite lower_byte_hex.
  destruct (hex_digit a); [|done]. by rewrite IH.
Qed.

Lemma lower_parse_hex s : parse_hex_u32 (to_ascii_lowercase s) = parse_hex_u32 s.
Proof.
  unfold parse_hex_u32, parse_unsigned. destruct s as [|a s]; [done|].
  cbn [to_ascii_lowercase strip_prefix]. rewrite lower_byte_plus. destruct (Ascii.eqb "+" a).
  - destruct s as [|b s]; [done|]. apply (lower_digits 16 u32_max 0 (String b s)).
  - apply (lower_digits 16 u32_max 0 (String a s)).
Qed.

(** Lower-case hexadecimal digits. *)
Definition hex_lower (a : ascii) : bool :=
  bool_decide (is_Some (hex_digit a)) && Ascii.eqb (lower_byte a) a.

Lemma hex_lower_facts a :
  hex_lower a = true -> graphic a = true /\ Ascii.eqb a ":" = false /\ Ascii.eqb "+" a = false
    /\ lower_byte a = a.
Proof.
  destruct (ascii_dec (lower_byte a) a) as [Hl|Hl].
  - destruct a as [[] [] [] [] [] [] [] []]; vm_compute; done.
  - unfold hex_lower. intros [_ H]%andb_true_iff. by apply Ascii.eqb_eq in H.
Qed.

Lemma hex_char_lower d : 0 <= d < 16 -> hex_lower (hex_char d) = true.
Proof.
  intros Hd.
  assert (d = 0 \/ d = 1 \/ d = 2 \/ d = 3 \/ d = 4 \/ d = 5 \/ d = 6 \/ d = 7 \/ d = 8 \/ d = 9
    \/ d = 10 \/ d = 11 \/ d = 12 \/ d = 13 \/ d = 14 \/ d = 15) as Hcases by lia.
  destruct_or? Hcases; subst; reflexivity.
Qed.

Lemma hex_go_lower f z acc :
  all_bytes hex_lower acc = true -> all_bytes hex_lower (hex_go f z acc) = true.
Proof.
  revert z acc. induction f as [|f IH]; intros z acc Hacc; [done|]. cbn [hex_go].
  assert (all_bytes hex_lower (String (hex_char (z `mod` 16)) acc) = true) as Hs.
  { simpl. rewrite hex_char_lower, Hacc; [done|]. apply Z.mod_pos_bound. lia. }
  case_bool_decide; [done|]. by apply IH.
Qed.

Definition zeros (l : list nat) (s : string) : string := foldr (fun _ acc => String (byte_of 48) acc) s l.

Lemma zeros_lower l s : all_bytes hex_lower s = true -> all_bytes hex_lower (zeros l s) = true.
Proof. intros Hs. induction l as [|x l IH]; [done|]. by simpl. Qed.

Lemma show_hex04_lower z : all_bytes hex_lower (show_hex04 z) = true.
Proof. apply zeros_lower, hex_go_lower. done. Qed.

Lemma all_bytes_hex_lower s :
  all_bytes hex_lower s = true ->
  all_bytes graphic s = true /\ contains_char ":" s = false /\ to_ascii_lowercase s = s.
Proof.
  induction s as [|a s IH]; simpl; [done|].
  intros [(Hg & Hc & _ & Hl)%hex_lower_facts (-> & -> & ->)%IH]%andb_true_iff.
  by rewrite Hg, Hc, Hl.
Qed.

Lemma parse_show_hex04 z : 0 <= z <= u32_max -> parse_hex_u32 (show_hex04 z) = Some z.
Proof.
  intros Hz. unfold parse_hex_u32.
  assert (digits_go hex_digit 16 u32_max 0 (show_hex04 z) = Some z) as Hd.
  { unfold show_hex04. fold (zeros (seq 0 (4 - String.length (hex_go 8 z EmptyString))) (hex_go 8 z EmptyString)).
    generalize (seq 0 (4 - String.length (hex_go 8 z EmptyString))) as l. intros l.
    induction l as [|x l IH].
    - change (zeros [] ?s) with s. unfold u32_max in *. by rewrite digits_go_hex by (try done; lia).
    - change (zeros (x :: l) ?s) with (String (byte_of 48) (zeros l s)). cbn [digits_go].
      change (hex_digit (byte_of 48)) with (Some 0). cbn iota beta.
      by rewrite Z.mul_0_l, Z.add_0_l, bool_decide_eq_true_2 by (unfold u32_max; lia). }
  unfold parse_unsigned. pose proof (show_hex04_lower z) as Hlow.
  destruct (show_hex04 z) as [|a s] eqn:E.
  - exfalso. unfold show_hex04 in E. set (t := hex_go 8 z EmptyString) in E.
    destruct t as [|b t']; [done|]. destruct (seq 0 _) in E; done.
  - cbn [all_bytes] in Hlow. apply andb_true_iff in Hlow as [(_ & _ & Hp & _)%hex_lower_facts _].
    cbn [strip_prefix]. by rewrite Hp.
Qed.
