(* ===== verification/Vfio.v ===== *)
(** * VFIO passthrough (nauti-fabric/src/vmm/vfio.rs)

    The discovery of the host's VFIO state, the normal form of a PCI address
    and the adapter that re-discovers on every attachment. *)

From stdpp Require Import base tactics option list gmap strings fin_maps.
From Stdlib Require Import Ascii String.
From S2P Require Import Prelude Str Resource Adapters Sysfs.

#[local] Open Scope Z_scope.

Module Vfio.

Definition ADAPTER_NAME : string := "gpu-vfio".
Definition SCOPE : string := "gpu-vfio-passthrough".

Inductive VfioState : Type :=
  | Available (bdf : string) (iommu_group : Z) (device_path : string)
  | NotBound (bdf : string)
  | NoIommu (bdf : string)
  | NotPresent (bdf : string).

Definition bdf_of (s : VfioState) : string :=
  match s with Available bdf _ _ | NotBound bdf | NoIommu bdf | NotPresent bdf => bdf end.

Definition is_available (s : VfioState) : bool :=
  match s with Available _ _ _ => true | _ => false end.

Record VfioDiscovery : Type := mkVfioDiscovery {
  vd_gpus : list VfioState;
  vd_total_pci_devices : Z;
  vd_iommu_groups : gset Z;
}.

Definition vfio_available_count (d : VfioDiscovery) : nat :=
  length (filter (fun s => is_available s = true) (vd_gpus d)).
Definition total_gpu_count (d : VfioDiscovery) : nat := length (vd_gpus d).

(** ** Discovery *)

Definition normalize_bdf (raw : string) : string :=
  let raw := to_ascii_lowercase (trim raw) in
  match split_once ":" raw with
  | Some (domain, rest) =>
      if contains_char ":" rest then
        show_hex04 (default 0 (parse_hex_u32 domain)) +:+ ":" +:+ rest
      else "0000:" +:+ raw
  | None => "0000:" +:+ raw
  end.

Definition parse_hex (raw : string) : option Z :=
  let raw := trim raw in parse_hex_u32 (default raw (strip_prefix "0x" raw)).

Definition pci_dir : string := "/sys/bus/pci/devices".
Definition group_path (group : Z) : string := "/dev/vfio/" +:+ show group.

Definition is_gpu (fs : Fs) (device_path : string) : bool :=
  match fs_read_trim fs (path_join device_path "class") ≫= parse_hex with
  | Some class => bool_decide (Z.land (Z.shiftr class 16) 255 = 3)
  | None => false
  end.

(** The number after the last [/] of the link. *)
Definition iommu_group_of (fs : Fs) (device_path : string) : option Z :=
  target ← fs_link fs (path_join device_path "iommu_group");
  n ← last (split_on "/" target);
  parse_u32 n.

Definition bound_to_vfio (fs : Fs) (device_path : string) : bool :=
  match fs_link fs (path_join device_path "driver") ≫= file_name with
  | Some n => String.eqb n "vfio-pci"
  | None => false
  end.

Definition classify_gpu (fs : Fs) (device_path bdf : string) : VfioState :=
  if bool_decide (fs_read_trim fs (path_join device_path "vendor") ≫= parse_hex = Some 65535)
  then NotPresent bdf
  else
    match iommu_group_of fs device_path with
    | None => NoIommu bdf
    | Some iommu_group =>
        if negb (bound_to_vfio fs device_path) then NotBound bdf
        else if negb (fs_exists fs (group_path iommu_group)) then NoIommu bdf
        else Available bdf iommu_group (group_path iommu_group)
    end.

Definition discover_step (fs : Fs) (d : VfioDiscovery) (bdf : string) : VfioDiscovery :=
  let path := path_join pci_dir bdf in
  let total := vd_total_pci_devices d + 1 in
  if negb (is_gpu fs path) then mkVfioDiscovery (vd_gpus d) total (vd_iommu_groups d)
  else
    let state := classify_gpu fs path bdf in
    mkVfioDiscovery (vd_gpus d ++ [state]) total
      (match state with
       | Available _ iommu_group _ => {[ iommu_group ]} ∪ vd_iommu_groups d
       | _ => vd_iommu_groups d
       end).

Definition discover_vfio_state (fs : Fs) : VfioDiscovery :=
  foldl (discover_step fs) (mkVfioDiscovery [] 0 ∅) (default [] (fs_dir fs pci_dir)).

(** ** The adapter *)

Section adapter.
Context {W : Type}.
(** The host's file system in a world, and [VfioLauncher::open_passthrough]. *)
Context (fs_of : W -> Fs) (open_passthrough : string -> Z -> W -> result string string * W).

(** [RealVfioLauncher]. *)
Definition real_open_passthrough (bdf : string) (iommu_group : Z) (w : W) : result string string * W :=
  let device_path := group_path iommu_group in
  (if negb (fs_exists (fs_of w) device_path) then
     Err ("vfio group device " +:+ device_path +:+ " does not exist for bdf " +:+ bdf)
   else Ok device_path, w).

Definition unavailable (reason : string) : FabricError := AdapterBackendUnavailable ADAPTER_NAME reason.

(** The address the resource states. *)
Definition requested_bdf (r : Resource) : option string :=
  normalize_bdf <$> match r_attributes r !! "gpu.pci_bdf" with
                    | Some raw => Some raw
                    | None => r_attributes r !! "gpu.pci_bus_id"
                    end.

Definition find_state (d : VfioDiscovery) (bdf : string) : VfioState :=
  default (NotPresent bdf) (head (filter (fun s => bdf_of s = bdf) (vd_gpus d))).

Definition insert_attr (from to : string) (r : Resource) (details : gmap string string) :
    gmap string string :=
  match r_attributes r !! from with Some v => <[to := v]> details | None => details end.

Definition vfio_details (r : Resource) (bdf : string) (iommu_group : Z) (opened device_path : string) :
    gmap string string :=
  insert_attr "gpu.name" "vfio.gpu_name" r (
  insert_attr "gpu.uuid" "vfio.gpu_uuid" r (
  <["vfio.discovery_device_path" := device_path]>
  {[ "vfio.bdf" := bdf; "vfio.iommu_group" := show iommu_group; "vfio.device_path" := opened;
     "adapter.implementation" := ADAPTER_NAME;
     "vfio.note" := "real passthrough; pass this device to a VMM with --device vfio-pci=<bdf>" ]})).

Definition vfio_attach (r : Resource) (l : Lease) (w : W) : result FabricError Attachment * W :=
  if bool_decide (r_kind r <> Gpu) then (Err (IncompatibleResourceKind ADAPTER_NAME Gpu (r_kind r)), w)
  else
    match requested_bdf r with
    | None => (Err (MissingResourceAttribute "gpu.pci_bus_id"), w)
    | Some bdf =>
        match find_state (discover_vfio_state (fs_of w)) bdf with
        | NotBound bdf =>
            (Err (unavailable ("vfio-pci is not bound to " +:+ bdf
               +:+ "; run `driverctl set-override " +:+ bdf +:+ " vfio-pci` and unbind any current driver,"
               +:+ " or load the device via a custom allocator")), w)
        | NoIommu bdf =>
            (Err (unavailable ("no IOMMU group for " +:+ bdf
               +:+ "; enable intel_iommu / amd_iommu in kernel cmdline and verify the device is in an"
               +:+ " isolated group")), w)
        | NotPresent bdf =>
            (Err (unavailable ("no PCI device at bdf " +:+ bdf
               +:+ "; the GPU may have been hot-removed")), w)
        | Available _ iommu_group device_path =>
            match open_passthrough bdf iommu_group w with
            | (Err reason, w) => (Err (unavailable reason), w)
            | (Ok opened, w) =>
                (Ok (attachment r l ADAPTER_NAME (vfio_details r bdf iommu_group opened device_path)), w)
            end
        end
    end.

Definition vfio_capability_report (w : W) : AdapterReport :=
  let d := discover_vfio_state (fs_of w) in
  {| ar_name := ADAPTER_NAME; ar_scope := SCOPE;
     ar_healthy := bool_decide (0 < vfio_available_count d)%nat;
     ar_detail :=
       {[ "adapter.implementation" := ADAPTER_NAME;
          "vfio.devices_available" := show (Z.of_nat (vfio_available_count d));
          "vfio.devices_total" := show (Z.of_nat (total_gpu_count d));
          "pci.devices_total" := show (vd_total_pci_devices d);
          "iommu.groups" := join "," (show <$> merge_sort Z.le (elements (vd_iommu_groups d))) ]} |}.

Definition VfioGpuAdapter : ResourceAdapter W :=
  {| ad_name := ADAPTER_NAME; ad_attach := vfio_attach; ad_detach := default_detach;
     ad_capability_report := vfio_capability_report |}.

End adapter.
(** ** What discovery finds *)

Definition pci_names (fs : Fs) : list string := default [] (fs_dir fs pci_dir).
Definition pci_path (bdf : string) : string := path_join pci_dir bdf.

Lemma discover_gpus fs :
  vd_gpus (discover_vfio_state fs)
  = (fun bdf => classify_gpu fs (pci_path bdf) bdf) <$> filter (fun bdf => is_gpu fs (pci_path bdf) = true) (pci_names fs)
  /\ vd_total_pci_devices (discover_vfio_state fs) = Z.of_nat (length (pci_names fs)).
Proof.
  unfold discover_vfio_state. fold (pci_names fs).
  assert (forall d names,
    vd_gpus (foldl (discover_step fs) d names)
      = vd_gpus d ++ ((fun bdf => classify_gpu fs (pci_path bdf) bdf)
                      <$> filter (fun bdf => is_gpu fs (pci_path bdf) = true) names)
    /\ vd_total_pci_devices (foldl (discover_step fs) d names)
      = vd_total_pci_devices d + Z.of_nat (length names)) as H.
  { intros d names. revert d. induction names as [|n names IH]; intros d; cbn [foldl].
    - rewrite app_nil_r. simpl. split; [done|lia].
    - destruct (IH (discover_step fs d n)) as [-> ->]. unfold discover_step. fold (pci_path n).
      destruct (is_gpu fs (pci_path n)) eqn:E; cbn [negb vd_gpus vd_total_pci_devices].
      + rewrite filter_cons_True by done. rewrite <-app_assoc. split; [done|simpl; lia].
      + rewrite filter_cons_False by (by rewrite E). split; [done|simpl; lia]. }
  destruct (H (mkVfioDiscovery [] 0 ∅) (pci_names fs)) as [-> ->]. done.
Qed.

Lemma classify_bdf fs p bdf : bdf_of (classify_gpu fs p bdf) = bdf.
Proof.
  unfold classify_gpu. case_bool_decide; [done|]. destruct (iommu_group_of fs p); [|done].
  destruct (bound_to_vfio fs p); [|done]. by destruct (fs_exists _ _).
Qed.

Lemma find_state_spec fs bdf :
  find_state (discover_vfio_state fs) bdf
  = if decide (bdf ∈ pci_names fs /\ is_gpu fs (pci_path bdf) = true)
    then classify_gpu fs (pci_path bdf) bdf else NotPresent bdf.
Proof.
  unfold find_state. destruct (discover_gpus fs) as [-> _].
  induction (pci_names fs) as [|n names IH].
  { rewrite decide_False; [done|]. by intros [?%elem_of_nil _]. }
  destruct (is_gpu fs (pci_path n)) eqn:E.
  - rewrite filter_cons_True by done. rewrite fmap_cons.
    destruct (decide (n = bdf)) as [->|Hne].
    + rewrite filter_cons_True by apply classify_bdf. cbn [head]; unfold default.
      rewrite decide_True; [done|]. split; [by left|done].
    + rewrite filter_cons_False by (by rewrite classify_bdf). rewrite IH.
      apply decide_ext. rewrite elem_of_cons. split; [tauto|]. by intros [[->|?] ?].
  - rewrite filter_cons_False by (by rewrite E). rewrite IH.
    apply decide_ext. rewrite elem_of_cons. split; [tauto|]. intros [[->|?] ?]; [congruence|done].
Qed.

(** Every precondition of a passthrough, as the host's files state it. *)
Definition passthrough_ready (fs : Fs) (bdf : string) (group : Z) : Prop :=
  bdf ∈ pci_names fs /\ is_gpu fs (pci_path bdf) = true
  /\ fs_read_trim fs (path_join (pci_path bdf) "vendor") ≫= parse_hex <> Some 65535
  /\ iommu_group_of fs (pci_path bdf) = Some group
  /\ bound_to_vfio fs (pci_path bdf) = true
  /\ fs_exists fs (group_path group) = true.

Lemma find_state_available fs bdf b group p :
  find_state (discover_vfio_state fs) bdf = Available b group p
  <-> b = bdf /\ p = group_path group /\ passthrough_ready fs bdf group.
Proof.
  rewrite find_state_spec. unfold passthrough_ready, classify_gpu.
  case_decide as Hin; [|split; [done|tauto]]. case_bool_decide; [split; [done|tauto]|].
  destruct (iommu_group_of fs (pci_path bdf)) as [g|]; [|split; [done|by intros (_ & _ & _ & _ & _ & ? & _)]].
  destruct (bound_to_vfio fs (pci_path bdf)); cbn [negb];
    [|split; [done|by intros (_ & _ & _ & _ & _ & _ & ? & _)]].
  destruct (fs_exists fs (group_path g)) eqn:Eg; cbn [negb]; split.
  - intros [= <- <- <-]. by destruct Hin.
  - by intros (-> & -> & _ & _ & _ & [= ->] & _).
  - done.
  - intros (_ & _ & _ & _ & _ & [= ->] & _ & Hg). congruence.
Qed.

(** ** The normal form of an address *)

Lemma normalize_spelling dom rest d :
  all_bytes graphic (dom +:+ ":" +:+ rest) = true -> contains_char ":" dom = false ->
  contains_char ":" rest = true -> parse_hex_u32 dom = Some d ->
  normalize_bdf (dom +:+ ":" +:+ rest) = show_hex04 d +:+ ":" +:+ to_ascii_lowercase rest.
Proof.
  intros Hg Hd Hr Hp. unfold normalize_bdf. rewrite trim_graphic by done.
  rewrite lower_app. change (to_ascii_lowercase (":" +:+ rest)) with (String ":" (to_ascii_lowercase rest)).
  rewrite split_once_app by by rewrite lower_colon. by rewrite lower_colon, Hr, lower_parse_hex, Hp.
Qed.

Section facts.
Context {W : Type} (fs_of : W -> Fs) (open_passthrough : string -> Z -> W -> result string string * W).

(** C34. VFIO passthrough. An attachment succeeds exactly when, at that moment,
    the GPU is on the bus at the stated address under the display class, its
    configuration space answers, it has an IOMMU group, [vfio-pci] is its
    driver, the group is exposed, and the launcher opens it; the details then
    name that address and group. There is no fallback: where passthrough is not
    ready, a GPU with an address is refused with [AdapterBackendUnavailable],
    and nothing is reserved instead. With the real launcher the files alone
    decide: no group is opened and no device descriptor is taken, although the
    contract of the module says so, and a refusal changes nothing. The address may be spelled with any number of
    leading zeros in the domain and in either case - the sysfs and the NVML
    spelling give the same normal form, which is its own. *)
Theorem vfio_attach_spec r l w :
  (forall att w',
     vfio_attach fs_of open_passthrough r l w = (Ok att, w') <->
     r_kind r = Gpu /\ exists bdf group opened,
       requested_bdf r = Some bdf /\ passthrough_ready (fs_of w) bdf group
       /\ open_passthrough bdf group w = (Ok opened, w')
       /\ att = attachment r l ADAPTER_NAME (vfio_details r bdf group opened (group_path group)))
  /\ (is_ok (vfio_attach fs_of (real_open_passthrough fs_of) r l w).1 = true <->
       r_kind r = Gpu /\ exists bdf group,
         requested_bdf r = Some bdf /\ passthrough_ready (fs_of w) bdf group)
  /\ (vfio_attach fs_of (real_open_passthrough fs_of) r l w).2 = w
  /\ (forall bdf, r_kind r = Gpu -> requested_bdf r = Some bdf ->
       (forall group, ~ passthrough_ready (fs_of w) bdf group) ->
       exists reason, vfio_attach fs_of open_passthrough r l w
                      = (Err (AdapterBackendUnavailable ADAPTER_NAME reason), w))
  /\ (forall dom dom' rest d,
       all_bytes graphic (dom +:+ ":" +:+ rest) = true -> all_bytes graphic dom' = true ->
       contains_char ":" dom = false -> contains_char ":" dom' = false ->
       contains_char ":" rest = true ->
       parse_hex_u32 dom = Some d -> parse_hex_u32 dom' = Some d ->
       normalize_bdf (dom +:+ ":" +:+ rest) = normalize_bdf (dom' +:+ ":" +:+ rest)
       /\ normalize_bdf (normalize_bdf (dom +:+ ":" +:+ rest)) = normalize_bdf (dom +:+ ":" +:+ rest)).
Proof.
  split; [|split; [|split; [|split]]].
  - intros att w'. unfold vfio_attach. case_bool_decide as Hk; [split; [done|by intros [? _]]|].
    assert (r_kind r = Gpu) as Hgpu by (destruct (decide (r_kind r = Gpu)); [done|by destruct Hk]).
    destruct (requested_bdf r) as [bdf|]; [|split; [done|by intros (_ & ? & ? & ? & ? & _)]].
    destruct (find_state (discover_vfio_state (fs_of w)) bdf) as [b g p|b|b|b] eqn:Ef; last first.
    1-3: split; [done|]; intros (_ & bdf' & g & o & [= <-] & Hr & _);
      assert (find_state (discover_vfio_state (fs_of w)) bdf = Available bdf g (group_path g)) as Hf
        by (by apply find_state_available); congruence.
    apply find_state_available in Ef as (-> & -> & Hr).
    destruct (open_passthrough bdf g w) as [[o|e] w1] eqn:Eo; split.
    + intros [= <- <-]. split; [done|]. by exists bdf, g, o.
    + intros (_ & bdf' & g' & o' & [= <-] & Hr' & Ho & ->).
      assert (g' = g) as -> by (destruct Hr as (_ & _ & _ & H1 & _), Hr' as (_ & _ & _ & H2 & _); congruence).
      rewrite Eo in Ho. by injection Ho as -> ->.
    + done.
    + intros (_ & bdf' & g' & o' & [= <-] & Hr' & Ho & _).
      assert (g' = g) as -> by (destruct Hr as (_ & _ & _ & H1 & _), Hr' as (_ & _ & _ & H2 & _); congruence).
      congruence.
  - unfold vfio_attach. case_bool_decide as Hk; [split; [done|by intros [? _]]|].
    assert (r_kind r = Gpu) as Hgpu by (destruct (decide (r_kind r = Gpu)); [done|by destruct Hk]).
    destruct (requested_bdf r) as [bdf|]; [|split; [done|by intros (_ & ? & ? & ? & _)]].
    destruct (find_state (discover_vfio_state (fs_of w)) bdf) as [b g p|b|b|b] eqn:Ef; last first.
    1-3: split; [done|]; intros (_ & bdf' & g & [= <-] & Hr);
      assert (find_state (discover_vfio_state (fs_of w)) bdf = Available bdf g (group_path g)) as Hf
        by (by apply find_state_available); congruence.
    apply find_state_available in Ef as (-> & -> & Hr). unfold real_open_passthrough.
    pose proof Hr as (_ & _ & _ & _ & _ & ->). simpl. split; [|done]. intros _. split; [done|]. by exists bdf, g.
  - unfold vfio_attach. case_bool_decide; [done|]. destruct (requested_bdf r); [|done].
    destruct (find_state _ _) as [b g p|b|b|b]; [|done..]. unfold real_open_passthrough.
    by destruct (fs_exists _ _).
  - intros bdf Hk Hbdf Hnot. unfold vfio_attach. rewrite bool_decide_eq_false_2 by (by intros []). rewrite Hbdf.
    destruct (find_state (discover_vfio_state (fs_of w)) bdf) as [b g p|b|b|b] eqn:Ef; [|by eexists..].
    apply find_state_available in Ef as (_ & _ & Hr). by destruct (Hnot g).
  - intros dom dom' rest d Hg Hg' Hc Hc' Hr Hp Hp'.
    assert (all_bytes graphic rest = true) as Hgr.
    { rewrite !all_bytes_app in Hg. by apply andb_true_iff in Hg as [_ [_ ?]%andb_true_iff]. }
    rewrite (normalize_spelling dom rest d), (normalize_spelling dom' rest d) by
      (try done; rewrite !all_bytes_app, Hg', Hgr; done).
    split; [done|]. destruct (all_bytes_hex_lower _ (show_hex04_lower d)) as (Hs1 & Hs2 & Hs3).
    rewrite (normalize_spelling _ _ d).
    + by rewrite lower_idem.
    + rewrite !all_bytes_app, Hs1, lower_graphic, Hgr. done.
    + done.
    + by rewrite lower_colon.
    + apply parse_show_hex04. eapply parse_unsigned_bounds; [apply hex_digit_nonneg|..|exact Hp]; done.
Qed.

#[export] Instance VfioGpuAdapter_laws : AdapterLaws (VfioGpuAdapter fs_of open_passthrough).
Proof.
  split; [|done]. intros r l w a w'. simpl. unfold vfio_attach.
  case_bool_decide; [done|]. destruct (requested_bdf r) as [bdf|]; [|done].
  destruct (find_state _ _) as [b g p|b|b|b]; [|done..].
  destruct (open_passthrough bdf g w) as [[o|e] w1]; [|done]. by intros [= <- <-].
Qed.

End facts.

(** ** Concrete instances *)

(** A host whose only device is a GPU bound to [vfio-pci], and one with none. *)
Definition demo_passthrough : Fs :=
  {| fs_read := fun p => if String.eqb p "/sys/bus/pci/devices/0000:d8:00.0/class" then Some "0x030000"
                         else if String.eqb p "/sys/bus/pci/devices/0000:d8:00.0/vendor" then Some "0x10de" else None;
     fs_dir := fun p => if String.eqb p pci_dir then Some ["0000:d8:00.0"] else None;
     fs_link := fun p => if String.eqb p "/sys/bus/pci/devices/0000:d8:00.0/iommu_group"
                         then Some "/sys/kernel/iommu_groups/12"
                         else if String.eqb p "/sys/bus/pci/devices/0000:d8:00.0/driver"
                              then Some "/sys/bus/pci/drivers/vfio-pci" else None;
     fs_exists := fun p => String.eqb p "/dev/vfio/12";
     fs_canon := fun _ => None |}.
Definition demo_bare : Fs :=
  {| fs_read := fun _ => None; fs_dir := fun _ => None; fs_link := fun _ => None; fs_exists := fun _ => false;
     fs_canon := fun _ => None |}.

Definition demo_gpu : Resource :=
  {| r_id := "gpu.0"; r_kind := Gpu; r_capacity := 1; r_unit := "device"; r_node := "local";
     r_state := Resource.Available; r_exclusive := true; r_attributes := {[ "gpu.pci_bus_id" := "00000000:D8:00.0" ]} |}.

Lemma vfio_attach_spec_witness :
  let attach fs := vfio_attach (W := ()) (fun _ => fs) (real_open_passthrough (fun _ => fs)) demo_gpu
                     (mkLease 1 "gpu.0" "alice") tt in
  is_ok (attach demo_passthrough).1 = true
  /\ exists reason, attach demo_bare = (Err (AdapterBackendUnavailable ADAPTER_NAME reason), tt).
Proof.
  intros attach. split.
  - apply (vfio_attach_spec (fun _ => demo_passthrough) (real_open_passthrough (fun _ => demo_passthrough))).
    split; [reflexivity|]. exists "0000:d8:00.0", 12. split; [vm_compute; reflexivity|].
    split_and!; [by left|vm_compute; reflexivity|by vm_compute|vm_compute; reflexivity..].
  - apply (vfio_attach_spec (fun _ => demo_bare) (real_open_passthrough (fun _ => demo_bare))) with (bdf := "0000:d8:00.0");
      [reflexivity|vm_compute; reflexivity|]. by intros group (?%elem_of_nil & _).
Defined.

End Vfio.
