(* ===== verification/GpuDiscover.v ===== *)
(** * GPU discovery (nauti-fabric/src/gpu/discover.rs, gpu/rocm.rs)

    The walk over the DRM nodes, the enrichment by NVML and ROCm, the order of
    the result and the resources it becomes. NVML's answers, the output of
    [rocm-smi] and the parsers of the standard library and of serde_json are
    arguments. *)

From stdpp Require Import base tactics option list gmap strings fin_maps sorting.
From Stdlib Require Import Ascii String.
From S2P Require Import Prelude Str Utf8 Resource F64 Json Sysfs GpuLocal Vfio.

#[local] Open Scope Z_scope.

(** ** Devices *)

Inductive GpuVendor : Type :=
  | Nvidia
  | Amd
  | Intel
  | Unknown (id : string).

#[export] Instance GpuVendor_eq_dec : EqDecision GpuVendor.
Proof. solve_decision. Defined.

Definition from_pci_id (id : Z) : GpuVendor :=
  if bool_decide (id = 4318) then Nvidia
  else if bool_decide (id = 4098 \/ id = 4130) then Amd
  else if bool_decide (id = 32902) then Intel
  else Unknown ("0x" +:+ show_hex04 id).

Definition vendor_label (v : GpuVendor) : string :=
  match v with Nvidia => "NVIDIA" | Amd => "AMD" | Intel => "Intel" | Unknown s => s end.

Record GpuDevice : Type := mkGpuDevice {
  gd_stable_id : string;
  gd_vendor : GpuVendor;
  gd_device_name : string;
  gd_vram_total_bytes : Z;
  gd_vram_used_bytes : Z;
  gd_driver : string;
  gd_drm_card : option Z;
  gd_pci_bdf : string;
  gd_uuid : option string;
  gd_nvml_index : option Z;
  gd_temperature_c : option Z;
  gd_utilization_pct : option Z;
  gd_display_only : bool;
}.

(** The name of a card node with its index; connectors have a dash. *)
Definition is_card_name (name : string) : bool := starts_with "card" name && negb (contains_char "-" name).
Definition card_index (name : string) : option Z :=
  if is_card_name name then strip_prefix "card" name ≫= parse_u32 else None.

(** ** AMD telemetry *)

Module Rocm.

Record AmdTelemetry : Type := mkAmdTelemetry {
  at_product_name : option string;
  at_unique_id : option string;
  at_vram_total_bytes : option Z;
  at_vram_used_bytes : option Z;
  at_utilization_pct : option Z;
  at_temperature_c : option Z;
  at_source : string;
}.

Definition empty_telemetry (source : string) : AmdTelemetry :=
  mkAmdTelemetry None None None None None None source.

(** The trimmed content of a file, when it is not empty. *)
Definition read_nonempty (fs : Fs) (p : string) : option string :=
  s ← fs_read_trim fs p; if String.eqb s EmptyString then None else Some s.

(** The first entry of the hwmon directory, in milli-degrees. *)
Definition hwmon_temperature (fs : Fs) (dev : string) : option Z :=
  names ← fs_dir fs (path_join dev "hwmon");
  hm ← head names;
  milli ← read_u64 fs (path_join (path_join (path_join dev "hwmon") hm) "temp1_input");
  Some (milli / 1000 `mod` 2 ^ 32).

Definition sysfs_card (fs : Fs) (drm_dir name : string) : option (string * AmdTelemetry) :=
  if negb (is_card_name name) then None
  else
    let dev := path_join drm_dir (name +:+ "/device") in
    let bdf := default EmptyString (link_name fs dev) in
    if String.eqb bdf EmptyString then None
    else
      let vendor := default 0 (read_hex fs (path_join dev "vendor")) in
      if bool_decide (vendor <> 4098 /\ vendor <> 4130) then None
      else Some (bdf, {| at_product_name := read_nonempty fs (path_join dev "product_name");
                         at_unique_id := read_nonempty fs (path_join dev "unique_id");
                         at_vram_total_bytes := read_u64 fs (path_join dev "mem_info_vram_total");
                         at_vram_used_bytes := read_u64 fs (path_join dev "mem_info_vram_used");
                         at_utilization_pct := None;
                         at_temperature_c := hwmon_temperature fs dev;
                         at_source := "rocm-sysfs" |}).

Definition sysfs_enrichment (fs : Fs) (drm_dir : string) : gmap string AmdTelemetry :=
  foldl (fun map name => match sysfs_card fs drm_dir name with
                         | Some (bdf, t) => <[bdf := t]> map
                         | None => map
                         end) ∅ (default [] (fs_dir fs drm_dir)).

Definition card_index_to_bdf (fs : Fs) : gmap Z string :=
  foldl (fun map name =>
           match card_index name, link_name fs (path_join (path_join "/sys/class/drm" name) "device") with
           | Some idx, Some bdf => <[idx := bdf]> map
           | _, _ => map
           end) ∅ (default [] (fs_dir fs "/sys/class/drm")).

Section smi.
Context (to_lowercase : string -> string) (parse_f64 : string -> option f64).

(** [split_once(char::is_whitespace)]. *)
Fixpoint split_once_ws (s : string) : option (string * string) :=
  match s with
  | EmptyString => None
  | String a s' =>
      match ws_len s with
      | O => '(l, r) ← split_once_ws s'; Some (String a l, r)
      | n => Some (EmptyString, str_drop n s)
      end
  end.

Definition parse_human_bytes (s : string) : option Z :=
  '(num, unit) ← split_once_ws (trim s);
  n ← parse_f64 (trim num);
  let mult := if contains_char "G" unit || contains_char "g" unit then 2 ^ 30 else 2 ^ 20 in
  Some (f64_as_unsigned u64_max (f64_mul n (f64_of_Z mult))).

Definition parse_pct (s : string) : option Z :=
  f ← parse_f64 (trim (trim_bytes_end (fun a => Ascii.eqb a "%") (trim s)));
  Some (f64_as_unsigned u32_max f).

(** A field that is still unset takes the parsed value. *)
Definition or_else {A} (o : option A) (applies : bool) (v : option A) : option A :=
  match o with Some _ => o | None => if applies then v else None end.

Definition nonempty_str (v : Json) : option string :=
  s ← as_str v; if String.eqb s EmptyString then None else Some s.

Definition merge_field (t : AmdTelemetry) (kv : string * Json) : AmdTelemetry :=
  let kl := to_lowercase kv.1 in
  let v := kv.2 in
  {| at_product_name := or_else (at_product_name t)
       (contains "product name" kl || contains "vbios" kl) (nonempty_str v);
     at_unique_id := or_else (at_unique_id t)
       (contains "unique_id" kl || contains "unique id" kl) (nonempty_str v);
     at_vram_total_bytes := or_else (at_vram_total_bytes t)
       (contains "total" kl && contains "vram" kl) (as_str v ≫= parse_human_bytes);
     at_vram_used_bytes := or_else (at_vram_used_bytes t)
       (contains "used" kl && contains "vram" kl) (as_str v ≫= parse_human_bytes);
     at_utilization_pct := or_else (at_utilization_pct t)
       (contains "gpu use" kl || contains "gpu utilization" kl) (as_str v ≫= parse_pct);
     at_temperature_c := or_else (at_temperature_c t) (contains "temperature" kl) (as_str v ≫= parse_pct);
     at_source := at_source t |}.

(** One table of the output. *)
Definition merge_table (card_to_bdf : gmap Z string) (map : gmap string AmdTelemetry)
    (kt : string * Json) : gmap string AmdTelemetry :=
  let bdf := match strip_prefix "card" kt.1 with
             | Some i => i ← parse_u32 i; card_to_bdf !! i
             | None => Some kt.1
             end in
  match bdf, as_object kt.2 with
  | Some bdf, Some obj =>
      let entry := default (empty_telemetry "rocm-smi") (map !! bdf) in
      let entry := if String.eqb (at_source entry) "rocm-sysfs"
                   then mkAmdTelemetry (at_product_name entry) (at_unique_id entry)
                          (at_vram_total_bytes entry) (at_vram_used_bytes entry)
                          (at_utilization_pct entry) (at_temperature_c entry) "rocm-smi"
                   else entry in
      <[bdf := foldl merge_field entry obj]> map
  | _, _ => map
  end.

(** [rocm_smi] is what a successful run printed, parsed. *)
Definition merge_rocm_smi (card_to_bdf : gmap Z string) (rocm_smi : option Json)
    (map : gmap string AmdTelemetry) : gmap string AmdTelemetry :=
  match rocm_smi ≫= as_object with
  | Some tables => foldl (merge_table card_to_bdf) map tables
  | None => map
  end.

Definition has_data (t : AmdTelemetry) : bool :=
  bool_decide (is_Some (at_product_name t)) || bool_decide (is_Some (at_unique_id t))
  || bool_decide (is_Some (at_vram_total_bytes t)) || bool_decide (is_Some (at_vram_used_bytes t))
  || bool_decide (is_Some (at_utilization_pct t)) || bool_decide (is_Some (at_temperature_c t)).

Definition collect (fs : Fs) (drm_dir : string) (rocm_smi : option Json) : gmap string AmdTelemetry :=
  filter (fun kv => has_data kv.2 = true)
    (merge_rocm_smi (card_index_to_bdf fs) rocm_smi (sysfs_enrichment fs drm_dir)).

End smi.

(** What the telemetry of a card does to its device. *)
Definition apply_telemetry (dev : GpuDevice) (t : AmdTelemetry) : GpuDevice :=
  {| gd_stable_id := gd_stable_id dev; gd_vendor := gd_vendor dev;
     gd_device_name := match at_product_name t with
                       | Some name => if String.eqb name EmptyString then gd_device_name dev else name
                       | None => gd_device_name dev
                       end;
     gd_vram_total_bytes := match at_vram_total_bytes t with
                            | Some v => if bool_decide (v > 0) then v else gd_vram_total_bytes dev
                            | None => gd_vram_total_bytes dev
                            end;
     gd_vram_used_bytes := default (gd_vram_used_bytes dev) (at_vram_used_bytes t);
     gd_driver := gd_driver dev; gd_drm_card := gd_drm_card dev; gd_pci_bdf := gd_pci_bdf dev;
     gd_uuid := match at_unique_id t with Some u => Some u | None => gd_uuid dev end;
     gd_nvml_index := gd_nvml_index dev;
     gd_temperature_c := match at_temperature_c t with Some c => Some c | None => gd_temperature_c dev end;
     gd_utilization_pct := match at_utilization_pct t with Some p => Some p | None => gd_utilization_pct dev end;
     gd_display_only := gd_display_only dev |}.

Definition enrich_device (telemetry : gmap string AmdTelemetry) (dev : GpuDevice) : GpuDevice :=
  if negb (bool_decide (gd_vendor dev = Amd)) || gd_display_only dev then dev
  else match telemetry !! gd_pci_bdf dev with
       | Some t => apply_telemetry dev t
       | None => dev
       end.

Definition enrich (devices : list GpuDevice) (telemetry : gmap string AmdTelemetry) : list GpuDevice :=
  enrich_device telemetry <$> devices.

End Rocm.

(** ** NVML *)

(** A device as the library reports it; [None] where a query failed. *)
Record NvmlDevice : Type := mkNvmlDevice {
  nv_name : option string;
  nv_uuid : option string;
  nv_memory : option (Z * Z);
  nv_utilization : option Z;
  nv_temperature : option Z;
  nv_bus_id : option string;
}.

Record NvmlInfo : Type := mkNvmlInfo {
  ni_name : string;
  ni_uuid : string;
  ni_index : Z;
  ni_total : Z;
  ni_used : Z;
  ni_utilization : option Z;
  ni_temperature : option Z;
}.

(** The last four characters of a longer domain. *)
Definition nvml_normalize_bdf (raw : string) : string :=
  let trimmed := to_ascii_lowercase (trim raw) in
  if String.eqb trimmed EmptyString then EmptyString
  else
    match split_on ":" trimmed with
    | [d; b; f] =>
        let domain := if bool_decide (4 < String.length d)%nat
                      then str_drop (String.length d - 4) d else d in
        domain +:+ ":" +:+ b +:+ ":" +:+ f
    | _ => trimmed
    end.

(** [devices] are the answers of [device_by_index], in order of the index. *)
Definition nvml_by_bdf (devices : list (option NvmlDevice)) : gmap string NvmlInfo :=
  foldl (fun map '(idx, device) =>
           match device with
           | None => map
           | Some d =>
               let bdf := match nv_bus_id d with Some b => nvml_normalize_bdf b | None => EmptyString end in
               if String.eqb bdf EmptyString then map
               else
                 let memory := default (0, 0) (nv_memory d) in
                 <[bdf := {| ni_name := default EmptyString (nv_name d);
                             ni_uuid := default EmptyString (nv_uuid d); ni_index := Z.of_nat idx;
                             ni_total := memory.1; ni_used := memory.2;
                             ni_utilization := nv_utilization d; ni_temperature := nv_temperature d |}]> map
           end) ∅ (imap pair devices).

Definition apply_nvml (dev : GpuDevice) (nvml : NvmlInfo) : GpuDevice :=
  {| gd_stable_id := gd_stable_id dev; gd_vendor := gd_vendor dev; gd_device_name := ni_name nvml;
     gd_vram_total_bytes := ni_total nvml; gd_vram_used_bytes := ni_used nvml;
     gd_driver := gd_driver dev; gd_drm_card := gd_drm_card dev; gd_pci_bdf := gd_pci_bdf dev;
     gd_uuid := Some (ni_uuid nvml); gd_nvml_index := Some (ni_index nvml);
     gd_temperature_c := ni_temperature nvml; gd_utilization_pct := ni_utilization nvml;
     gd_display_only := gd_display_only dev |}.

(** ** The walk *)

Definition drm_dir : string := "/sys/class/drm".

Definition uevent_driver (uevent : string) : string :=
  default EmptyString (head (omap (strip_prefix "DRIVER=") (lines uevent))).

Definition read_drm_card (fs : Fs) (card_idx : Z) : option GpuDevice :=
  let dev_dir := "/sys/class/drm/card" +:+ show card_idx +:+ "/device" in
  if negb (fs_exists fs dev_dir) then None
  else
    let vendor_id := default 0 (read_hex fs (path_join dev_dir "vendor")) in
    if bool_decide (vendor_id = 0) then None
    else
      let vendor := from_pci_id vendor_id in
      let driver := uevent_driver (default EmptyString (fs_read fs (path_join dev_dir "uevent"))) in
      let pci_bdf := default EmptyString (link_name fs dev_dir) in
      let busy_pct := default 0 (read_u32 fs (path_join dev_dir "gpu_busy_percent")) in
      Some {| gd_stable_id := pci_bdf; gd_vendor := vendor;
              gd_device_name := vendor_label vendor +:+ " GPU (" +:+ pci_bdf +:+ ")";
              gd_vram_total_bytes := default 0 (read_u64 fs (path_join dev_dir "mem_info_vram_total"));
              gd_vram_used_bytes := default 0 (read_u64 fs (path_join dev_dir "mem_info_vram_used"));
              gd_driver := driver; gd_drm_card := Some card_idx; gd_pci_bdf := pci_bdf;
              gd_uuid := None; gd_nvml_index := None; gd_temperature_c := None;
              gd_utilization_pct := if bool_decide (busy_pct > 0) then Some busy_pct else None;
              gd_display_only := String.eqb driver "ast" || String.eqb driver "mgag200" |}.

Definition rank (d : GpuDevice) : Z :=
  if gd_display_only d then 3
  else match gd_vendor d with Nvidia => 0 | Amd => 1 | _ => 2 end.

(** The order of the result: rank, then address. *)
Definition gpu_le (a b : GpuDevice) : Prop :=
  rank a < rank b \/ (rank a = rank b /\ String.le (gd_pci_bdf a) (gd_pci_bdf b)).

#[export] Instance gpu_le_dec : RelDecision gpu_le.
Proof. intros a b. unfold gpu_le. apply _. Defined.
#[export] Instance gpu_le_total : Total gpu_le.
Proof.
  intros a b. unfold gpu_le. destruct (Z.lt_trichotomy (rank a) (rank b)) as [|[|]]; [tauto| |tauto].
  destruct (total String.le (gd_pci_bdf a) (gd_pci_bdf b)); [left|right]; right; split; done || lia.
Qed.
#[export] Instance gpu_le_trans : Transitive gpu_le.
Proof.
  intros a b c. unfold gpu_le. intros [?|[? H1]] [?|[? H2]]; [left; lia..|].
  right. split; [lia|]. by transitivity (gd_pci_bdf b).
Qed.

Definition enrich_nvml (nvml : gmap string NvmlInfo) (dev : GpuDevice) : GpuDevice :=
  if bool_decide (gd_vendor dev = Nvidia) then
    match nvml !! gd_pci_bdf dev with Some info => apply_nvml dev info | None => dev end
  else dev.

(** [GpuDiscoveryError::Sysfs], without the operating system's text. *)
Inductive GpuDiscoveryError : Type := SysfsError.

(** [GpuDiscoveryResult::discover]; an empty [nvml] or [rocm] map is the build
    without that feature. *)
Definition discover (fs : Fs) (nvml : gmap string NvmlInfo) (rocm : gmap string Rocm.AmdTelemetry) :
    result GpuDiscoveryError (list GpuDevice) :=
  if negb (fs_exists fs drm_dir) then Ok []
  else
    names ← ok_or (fs_dir fs drm_dir) SysfsError;
    let found := omap (fun name => card_index name ≫= read_drm_card fs) names in
    Ok (merge_sort gpu_le ((fun dev => Rocm.enrich_device rocm (enrich_nvml nvml dev)) <$> found)).

(** [str::replace([':', '.'], "_")]. *)
Fixpoint replace_punct (s : string) : string :=
  match s with
  | EmptyString => EmptyString
  | String a s => String (if Ascii.eqb a ":" || Ascii.eqb a "." then "_" else a)%char (replace_punct s)
  end.

Definition gpu_attributes (gpu : GpuDevice) : gmap string string :=
  let attrs : gmap string string :=
    {[ "gpu.stable_id" := gd_stable_id gpu; "gpu.vendor" := vendor_label (gd_vendor gpu);
       "gpu.device_name" := gd_device_name gpu; "gpu.driver" := gd_driver gpu;
       "gpu.pci_bdf" := gd_pci_bdf gpu; "gpu.vram_total_bytes" := show (gd_vram_total_bytes gpu);
       "gpu.vram_used_bytes" := show (gd_vram_used_bytes gpu) ]} in
  let attrs := match gd_uuid gpu with Some u => <["gpu.uuid" := u]> attrs | None => attrs end in
  match gd_nvml_index gpu with Some i => <["gpu.nvml_index" := show i]> attrs | None => attrs end.

Definition gpu_resource (node : string) (gpu : GpuDevice) : Resource :=
  {| r_id := "local.gpu." +:+ replace_punct (gd_stable_id gpu); r_kind := Gpu;
     r_capacity := gd_vram_total_bytes gpu; r_unit := "bytes"; r_node := node;
     r_state := Available; r_exclusive := true; r_attributes := gpu_attributes gpu |}.

Definition as_resources (node : string) (devices : list GpuDevice) : list Resource :=
  gpu_resource node <$> filter (fun d => gd_display_only d = false) devices.

(** [grouped]: by vendor, the display controllers apart. *)
Definition grouped (devices : list GpuDevice) : gmap string (list GpuDevice) :=
  foldl (fun groups dev =>
           let key := if gd_display_only dev then "__display_only__" else vendor_label (gd_vendor dev) in
           <[key := app (default [] (groups !! key)) [dev]]> groups) ∅ devices.

(** ** Discovery is the authority *)

Definition enriched (nvml : gmap string NvmlInfo) (rocm : gmap string Rocm.AmdTelemetry)
    (dev : GpuDevice) : GpuDevice := Rocm.enrich_device rocm (enrich_nvml nvml dev).

(** What the DRM walk alone decides about a device. *)
Definition same_card (a b : GpuDevice) : Prop :=
  gd_stable_id a = gd_stable_id b /\ gd_vendor a = gd_vendor b /\ gd_driver a = gd_driver b
  /\ gd_drm_card a = gd_drm_card b /\ gd_pci_bdf a = gd_pci_bdf b
  /\ gd_display_only a = gd_display_only b.

Lemma enriched_same nvml rocm dev : same_card (enriched nvml rocm dev) dev.
Proof.
  unfold enriched, enrich_nvml, Rocm.enrich_device.
  repeat first [case_bool_decide | case_match]; repeat split.
Qed.

Lemma enriched_intel nvml rocm dev :
  gd_vendor dev <> Nvidia -> (gd_vendor dev = Amd -> gd_display_only dev = true) ->
  enriched nvml rocm dev = dev.
Proof.
  intros Hn Ha. unfold enriched, enrich_nvml. rewrite bool_decide_eq_false_2 by done.
  unfold Rocm.enrich_device. case_bool_decide as Hv; [|done]. by rewrite Ha.
Qed.

Lemma read_drm_card_fields fs idx dev :
  read_drm_card fs idx = Some dev ->
  gd_stable_id dev = gd_pci_bdf dev /\ gd_drm_card dev = Some idx /\ gd_uuid dev = None
  /\ 0 <= gd_vram_total_bytes dev <= u64_max
  /\ gd_display_only dev = (String.eqb (gd_driver dev) "ast" || String.eqb (gd_driver dev) "mgag200").
Proof.
  unfold read_drm_card. destruct (fs_exists _ _); [|done]. cbn [negb].
  case_bool_decide; [done|]. intros [= <-]. cbn. split; [done|split; [done|split; [done|split; [|done]]]].
  destruct (read_u64 _ _) as [z|] eqn:E; simpl; [by apply read_u64_bounds in E|unfold u64_max; lia].
Qed.

Lemma gpu_attributes_lookup gpu :
  gpu_attributes gpu !! "gpu.pci_bdf" = Some (gd_pci_bdf gpu)
  /\ gpu_attributes gpu !! "gpu.uuid" = gd_uuid gpu
  /\ gpu_attributes gpu !! "gpu.pci_bus_id" = None.
Proof. unfold gpu_attributes. destruct (gd_uuid gpu), (gd_nvml_index gpu); split_and!; reflexivity. Qed.

(** GPU discovery. The result has one device per readable card of the DRM
    walk, in order of rank and address. The walk alone decides which cards
    there are and what they are: enrichment changes neither identity, vendor,
    driver nor address, only an NVIDIA device by NVML and only an AMD device
    that drives no management console by ROCm. A display-only controller never
    becomes a resource; every other device becomes a leasable GPU whose address
    the VFIO adapter can use, and which the host-local adapter can name only
    if enrichment gave it a UUID. *)
Theorem gpu_discover_spec fs nvml rocm devs :
  discover fs nvml rocm = Ok devs ->
  StronglySorted gpu_le devs
  /\ (forall d, d ∈ devs <-> fs_exists fs drm_dir = true /\ exists names name idx base,
        fs_dir fs drm_dir = Some names /\ name ∈ names /\ card_index name = Some idx
        /\ read_drm_card fs idx = Some base /\ d = enriched nvml rocm base)
  /\ (forall base, same_card (enriched nvml rocm base) base
        /\ (gd_vendor base <> Nvidia -> (gd_vendor base = Amd -> gd_display_only base = true) ->
             enriched nvml rocm base = base))
  /\ (forall node r, r ∈ as_resources node devs <->
        exists d, d ∈ devs /\ gd_display_only d = false /\ r = gpu_resource node d)
  /\ (forall node d, let r := gpu_resource node d in
        r_kind r = Gpu /\ r_state r = Available /\ r_exclusive r = true
        /\ Vfio.requested_bdf r = Some (Vfio.normalize_bdf (gd_pci_bdf d))
        /\ gpu_id_of r = gd_uuid d).
Proof.
  intros Hd. split_and!.
  - unfold discover in Hd. destruct (fs_exists fs drm_dir); cbn [negb] in Hd;
      [|injection Hd as <-; constructor].
    destruct (fs_dir fs drm_dir); simpl in Hd; [|done]. injection Hd as <-.
    apply (StronglySorted_merge_sort _).
  - unfold discover in Hd. destruct (fs_exists fs drm_dir); cbn [negb] in Hd; last first.
    { injection Hd as <-. intros d. split; [by intros ?%elem_of_nil|by intros [? _]]. }
    destruct (fs_dir fs drm_dir) as [names|]; simpl in Hd; [|done]. injection Hd as <-.
    intros d. rewrite merge_sort_Permutation, list_elem_of_fmap. setoid_rewrite list_elem_of_omap. split.
    + intros (base & -> & name & Hn & Hb). split; [done|].
      destruct (card_index name) as [idx|] eqn:Ei; [|done]. by exists names, name, idx, base.
    + intros (_ & ns & name & idx & base & [= <-] & Hn & Hi & Hb & ->). exists base. split; [done|].
      exists name. by rewrite Hi.
  - intros base. split; [apply enriched_same|apply enriched_intel].
  - intros node r. unfold as_resources. rewrite list_elem_of_fmap.
    setoid_rewrite list_elem_of_filter. split; [intros (d & -> & ? & ?)|intros (d & ? & ? & ->)]; eauto.
  - intros node d r. destruct (gpu_attributes_lookup d) as (H1 & H2 & H3).
    unfold Vfio.requested_bdf, gpu_id_of. simpl. rewrite H1, H2, H3.
    split_and!; try done. by destruct (gd_uuid d).
Qed.

(** ** The sources of the AMD telemetry *)

(** Every value of [a] is still the value of [b]. *)
Definition keeps (a b : Rocm.AmdTelemetry) : Prop :=
  (forall v, Rocm.at_product_name a = Some v -> Rocm.at_product_name b = Some v)
  /\ (forall v, Rocm.at_unique_id a = Some v -> Rocm.at_unique_id b = Some v)
  /\ (forall v, Rocm.at_vram_total_bytes a = Some v -> Rocm.at_vram_total_bytes b = Some v)
  /\ (forall v, Rocm.at_vram_used_bytes a = Some v -> Rocm.at_vram_used_bytes b = Some v)
  /\ (forall v, Rocm.at_utilization_pct a = Some v -> Rocm.at_utilization_pct b = Some v)
  /\ (forall v, Rocm.at_temperature_c a = Some v -> Rocm.at_temperature_c b = Some v).

Lemma keeps_trans a b c : keeps a b -> keeps b c -> keeps a c.
Proof. unfold keeps. intuition. Qed.

Lemma or_else_keeps {A} (o : option A) b v x : o = Some x -> Rocm.or_else o b v = Some x.
Proof. by intros ->. Qed.

Lemma merge_fields_keep to_lowercase parse_f64 obj t :
  keeps t (foldl (Rocm.merge_field to_lowercase parse_f64) t obj).
Proof.
  revert t. induction obj as [|kv obj IH]; intros t; simpl; [by repeat split|].
  apply keeps_trans with (Rocm.merge_field to_lowercase parse_f64 t kv); [|apply IH].
  unfold keeps, Rocm.merge_field. cbn. split_and!; intros v Hv; by apply or_else_keeps.
Qed.

Lemma merge_table_keeps to_lowercase parse_f64 cards map kt bdf t :
  map !! bdf = Some t ->
  exists t', Rocm.merge_table to_lowercase parse_f64 cards map kt !! bdf = Some t' /\ keeps t t'.
Proof.
  intros Hb. unfold Rocm.merge_table.
  assert (exists t', map !! bdf = Some t' /\ keeps t t') as Hsame by (exists t; by repeat split).
  set (target := match strip_prefix "card" kt.1 with Some i => _ | None => _ end).
  destruct target as [b|]; [|done]. destruct (as_object kt.2) as [obj|]; [|done].
  destruct (decide (b = bdf)) as [->|Hne]; [|by rewrite lookup_insert_ne].
  rewrite lookup_insert_eq, Hb. eexists. split; [done|].
  eapply keeps_trans; [|apply merge_fields_keep]. simpl. case_match; by repeat split.
Qed.

(** [rocm-smi] only fills what sysfs left open: no value it prints replaces one
    that sysfs gave. *)
Lemma rocm_smi_only_fills to_lowercase parse_f64 cards smi map bdf t :
  map !! bdf = Some t ->
  exists t', Rocm.merge_rocm_smi to_lowercase parse_f64 cards smi map !! bdf = Some t' /\ keeps t t'.
Proof.
  intros Hb. unfold Rocm.merge_rocm_smi. destruct (smi ≫= as_object) as [tables|];
    [|exists t; by repeat split].
  revert map t Hb. induction tables as [|kt tables IH]; intros map t Hb; simpl.
  { exists t. by repeat split. }
  destruct (merge_table_keeps to_lowercase parse_f64 cards map kt bdf t Hb) as (t1 & H1 & Hk1).
  destruct (IH _ t1 H1) as (t2 & H2 & Hk2). exists t2. split; [done|]. by eapply keeps_trans.
Qed.

(** ** A concrete instance *)

(** An Intel card, a console controller and an NVIDIA card. *)
Definition demo_fs : Fs :=
  {| fs_read := fun p =>
       if String.eqb p "/sys/class/drm/card0/device/vendor" then Some "0x8086"
       else if String.eqb p "/sys/class/drm/card1/device/vendor" then Some "0x1a03"
       else if String.eqb p "/sys/class/drm/card1/device/uevent" then Some "DRIVER=ast"
       else if String.eqb p "/sys/class/drm/card2/device/vendor" then Some "0x10de"
       else None;
     fs_dir := fun p => if String.eqb p drm_dir
                        then Some ["card0"; "card0-DP-1"; "card1"; "card2"; "version"] else None;
     fs_link := fun p => if starts_with "/sys/class/drm/card" p
                         then Some ("../../0000:0" +:+ str_take 1 (str_drop 19 p) +:+ ":00.0") else None;
     fs_exists := fun p => negb (contains "version" p);
     fs_canon := fun _ => None |}.

Definition demo_discovery : result GpuDiscoveryError (list GpuDevice) :=
  discover demo_fs {[ "0000:02:00.0" := mkNvmlInfo "Tesla" "GPU-1" 0 (2 ^ 34) 0 (Some 3) None ]} ∅.

Lemma gpu_discover_spec_witness :
  (forall devs, demo_discovery = Ok devs ->
     ((fun d => (gd_device_name d, gd_display_only d)) <$> devs)
       = [("Tesla", false); ("Intel GPU (0000:00:00.0)", false); ("0x1a03 GPU (0000:01:00.0)", true)]
     /\ StronglySorted gpu_le devs)
  /\ is_ok demo_discovery = true.
Proof.
  split; [|vm_compute; reflexivity]. intros devs Hd. split.
  - assert (Ok devs = demo_discovery) as Hd' by done. vm_compute in Hd'. injection Hd' as ->. reflexivity.
  - exact (proj1 (gpu_discover_spec demo_fs _ _ devs Hd)).
Defined.
