(* ===== verification/Lemonade.v ===== *)
(** * What the Lemonade adapter asks and is told (nauti-fabric/src/adapters.rs)

    [Adapters] turns the answers into a report; this file is how they are
    obtained: the argument vector of the [lemonade] tool, the request for the
    health endpoint and the reading of its response, and the discovered AMD
    cards. Running the tool, the socket, the JSON parser and case folding are
    arguments. *)

From stdpp Require Import base tactics option list gmap strings.
From Stdlib Require Import Ascii String.
From S2P Require Import Prelude Str Utf8 F64 Json Resource Adapters PlanHttp PlanHttpProps GpuDiscover.

#[local] Open Scope Z_scope.

(** ** The tool *)

(** The arguments after the name of the tool. *)
Definition lemonade_argv (args base : string) (api_key : option string) : list string :=
  app ["--host"; option.default "127.0.0.1" (head (split_on ":" base));
       "--port"; option.default "13305" (split_on ":" base !! 1%nat)]
    (app match api_key with Some key => ["--api-key"; key] | None => [] end
      (split_on " " args)).

(** [exec argv]: whether it succeeded and what it printed, if it could be run. *)
Definition run_lemonade (exec : list string -> option (bool * string)) (args base : string)
    (api_key : option string) : option string :=
  '(success, stdout) ← exec (lemonade_argv args base api_key);
  if (success : bool) then Some (from_utf8_lossy stdout) else None.

(** ** The health endpoint *)

Definition health_request (path host : string) (api_key : option string) : string :=
  "GET " +:+ path +:+ " HTTP/1.1" +:+ CRLF +:+ "Host: " +:+ host +:+ CRLF +:+ "Connection: close" +:+ CRLF
  +:+ match api_key with Some key => "Authorization: Bearer " +:+ key +:+ CRLF | None => EmptyString end
  +:+ CRLF.

(** [split(sep).nth(1)]. *)
Definition second_part (sep s : string) : option string :=
  i ← find_subslice sep s;
  let rest := str_drop (i + String.length sep) s in
  Some match find_subslice sep rest with Some j => str_take j rest | None => rest end.

Section lemonade.
Context (to_lowercase : string -> string) (parse_f64 : string -> option f64).
Context (parse_json : string -> option Json).

(** [exchange host port request]: what resolving, connecting, writing and
    reading to the end gave. *)
Definition http_get_json (exchange : string -> Z -> string -> option string) (host : string) (port : Z)
    (path : string) (api_key : option string) : option Json :=
  raw ← exchange host port (health_request path host api_key);
  response ← (if utf8_valid raw then Some raw else None);
  line ← head (lines response);
  if negb (contains " 200 " line) then None else second_part (CRLF +:+ CRLF) response ≫= parse_json.

(** ** The report *)

Definition amd_gpus (discovery : result GpuDiscoveryError (list GpuDevice)) : list string :=
  match discovery with
  | Ok devices =>
      (fun d => gd_device_name d +:+ " (" +:+ gd_pci_bdf d +:+ ")")
        <$> filter (fun d => gd_vendor d = Amd /\ gd_display_only d = false) devices
  | Err _ => []
  end.

Definition lemonade_status (cfg : LemonadeConfig) (discovery : result GpuDiscoveryError (list GpuDevice))
    (exec : list string -> option (bool * string)) (exchange : string -> Z -> string -> option string) :
    LemonadeReport :=
  status to_lowercase parse_f64 parse_json (amd_gpus discovery)
    (fun args => run_lemonade exec args (lemonade_endpoint cfg) (lc_api_key cfg))
    (http_get_json exchange (lc_host cfg) (lc_port cfg) "/api/v1/health" (lc_api_key cfg)).

(** ** What is asked *)

(** A host without a colon reaches the tool as it is, with its port. *)
Lemma lemonade_argv_plain args cfg :
  contains_char ":" (lc_host cfg) = false -> 0 <= lc_port cfg ->
  lemonade_argv args (lemonade_endpoint cfg) (lc_api_key cfg) =
    app ["--host"; lc_host cfg; "--port"; show (lc_port cfg)]
      (app match lc_api_key cfg with Some key => ["--api-key"; key] | None => [] end (split_on " " args)).
Proof.
  intros Hh Hp. unfold lemonade_argv, lemonade_endpoint.
  change (":" +:+ show (lc_port cfg)) with (String ":" (show (lc_port cfg))).
  rewrite split_on_cons by done. rewrite split_on_absent by by apply show_not. done.
Qed.

(** Of a host with a colon the tool is told the part before it, and as the port
    what follows up to the next one. *)
Lemma lemonade_argv_colon args a b key port :
  contains_char ":" a = false ->
  take 4 (lemonade_argv args (lemonade_endpoint (mkLemonadeConfig (a +:+ ":" +:+ b) port key)) key) =
    ["--host"; a; "--port"; option.default "13305" (head (split_on ":" (b +:+ ":" +:+ show port)))].
Proof.
  intros Ha. unfold lemonade_argv, lemonade_endpoint. simpl.
  rewrite str_app_assoc. change ((":" +:+ b) +:+ (":" +:+ show port)) with (String ":" (b +:+ ":" +:+ show port)).
  rewrite split_on_cons by done. simpl. by destruct (split_on _ _).
Qed.

(** ** What is read *)

Lemma contains_app needle a b : contains needle (a +:+ needle +:+ b) = true.
Proof.
  assert (forall s, contains needle (needle +:+ s) = true) as Hhere.
  { intros s. assert (starts_with needle (needle +:+ s) = true) as H by (apply starts_with_spec; eauto).
    destruct (needle +:+ s); cbn [contains]; by rewrite H. }
  induction a as [|x a IH]; [apply Hhere|]. rewrite str_app_cons. cbn [contains]. by rewrite IH, orb_true_r.
Qed.

Lemma lines_status_line status phrase headers body :
  0 <= status -> all_bytes printable phrase = true -> Forall plain_header headers ->
  head (lines (http_response status phrase headers body)) = Some ("HTTP/1.1 " +:+ show status +:+ " " +:+ phrase).
Proof.
  intros Hst Hph Hh. pose proof (response_lines status phrase headers Hst Hph Hh) as Hls.
  apply Forall_cons in Hls as [[Hl _] _]. unfold http_response. rewrite header_block_cons.
  set (l := "HTTP/1.1 " +:+ show status +:+ " " +:+ phrase) in *. set (rest := header_block _ _).
  change (CRLF +:+ rest) with (str1 CR +:+ String LF rest). rewrite <-str_app_assoc. unfold lines.
  rewrite lines_go_line; [cbn [head]; by rewrite str_app_nil_l, strip_cr_line|].
  rewrite contains_char_app, (printable_not LF l) by done. done.
Qed.

(** A well-formed answer is read as its body. *)
Lemma http_get_json_answered exchange host port path key phrase headers body :
  let response := http_response 200 phrase headers body in
  all_bytes printable phrase = true -> Forall plain_header headers -> utf8_valid response = true ->
  find_subslice (CRLF +:+ CRLF) body = None ->
  exchange host port (health_request path host key) = Some response ->
  http_get_json exchange host port path key = parse_json body.
Proof.
  intros response Hph Hh Hutf Hbody Hex. unfold http_get_json. rewrite Hex. cbn [mbind option_bind].
  rewrite Hutf. cbn [mbind option_bind]. unfold response. rewrite lines_status_line by (done || lia).
  cbn [mbind option_bind]. change ("HTTP/1.1 " +:+ show 200 +:+ " " +:+ phrase) with ("HTTP/1.1" +:+ " 200 " +:+ phrase).
  rewrite contains_app. simpl negb. cbn iota.
  set (ls := ("HTTP/1.1" +:+ " 200 " +:+ phrase) :: (header_line <$> headers)).
  destruct (find_end_lines ls body) as (i & Hi & Hlen); [done|by apply (response_lines 200)|].
  unfold second_part, http_response. fold ls.
  change (("HTTP/1.1 " +:+ show 200 +:+ " " +:+ phrase) :: (header_line <$> headers)) with ls.
  rewrite Hi. cbn [mbind option_bind]. change (String.length (CRLF +:+ CRLF)) with 4%nat.
  rewrite Hlen, foldr_lines_app, str_drop_app. by rewrite Hbody.
Qed.

Lemma contains_suffix p n s : contains (p +:+ n) s = true -> contains n s = true.
Proof.
  assert (forall r, starts_with (p +:+ n) r = true -> contains n r = true) as Hhere.
  { intros r Hr. apply starts_with_spec in Hr as [r' ->]. rewrite str_app_assoc. apply contains_app. }
  induction s as [|a s IH]; cbn [contains]; intros [H|H]%orb_true_iff; [by apply (Hhere EmptyString)|done| |].
  - by apply (Hhere (String a s)).
  - by rewrite IH, orb_true_r.
Qed.

(** ** The report says what was said *)

Lemma status_fields gpus run health :
  let r := status to_lowercase parse_f64 parse_json gpus run health in
  lr_reachable r = match run "status" with
                   | Some out => contains "running" (to_lowercase out) || contains "server is running" (to_lowercase out)
                   | None => false
                   end
  /\ lr_models r = match run "list --downloaded" with
                   | Some out => omap (parse_model_row parse_f64) (drop 2 (lines out)) | None => [] end
  /\ lr_backends r = match health with Some h => backends_from_health to_lowercase h | None => [] end.
Proof.
  unfold status. destruct (run "status --json") as [o|]; [destruct (parse_status_json _ o)|]; by destruct (run "status").
Qed.

(** A report is empty of everything the outside did not say. *)
Definition silent_report (gpus : list string) : LemonadeReport :=
  {| lr_reachable := false; lr_version := None; lr_models := []; lr_amd_gpus := gpus;
     lr_loaded := []; lr_backends := [] |}.

(** For a host without a colon, the tool is asked about exactly the
    configured server, and the report never says more than was answered: the
    server is reachable only if [status] succeeded and its output speaks of
    running, a model was on a row of a successful listing, a backend is one of
    the five known ones, named once, and was read from an answer of the health
    endpoint. A well-formed answer with status 200 is read completely. With no
    answer at all - the tool missing or failing, the connection refused - the
    report holds the discovered cards and nothing else. *)
Theorem lemonade_status_spec cfg discovery exec exchange :
  contains_char ":" (lc_host cfg) = false -> 0 <= lc_port cfg ->
  let r := lemonade_status cfg discovery exec exchange in
  let argv args := app ["--host"; lc_host cfg; "--port"; show (lc_port cfg)]
    (app match lc_api_key cfg with Some key => ["--api-key"; key] | None => [] end (split_on " " args)) in
  let health := exchange (lc_host cfg) (lc_port cfg) (health_request "/api/v1/health" (lc_host cfg) (lc_api_key cfg)) in
  (lr_reachable r = true -> exists out, exec (argv "status") = Some (true, out)
    /\ contains "running" (to_lowercase (from_utf8_lossy out)) = true)
  /\ (forall m, m ∈ lr_models r -> exists out line, exec (argv "list --downloaded") = Some (true, out)
        /\ line ∈ drop 2 (lines (from_utf8_lossy out)) /\ parse_model_row parse_f64 line = Some m)
  /\ NoDup (lr_backends r)
  /\ (forall b, b ∈ lr_backends r -> b ∈ known_backends /\ is_Some health)
  /\ (forall phrase headers body v, all_bytes printable phrase = true -> Forall plain_header headers ->
        utf8_valid (http_response 200 phrase headers body) = true -> find_subslice (CRLF +:+ CRLF) body = None ->
        health = Some (http_response 200 phrase headers body) -> parse_json body = Some v ->
        lr_backends r = backends_from_health to_lowercase v)
  /\ ((forall args out, exec args <> Some (true, out)) -> health = None -> r = silent_report (amd_gpus discovery)).
Proof.
  intros Hhost Hport r argv health.
  assert (forall args, run_lemonade exec args (lemonade_endpoint cfg) (lc_api_key cfg)
            = ('(success, stdout) ← exec (argv args); if (success : bool) then Some (from_utf8_lossy stdout) else None))
    as Hrun by (intros args; unfold run_lemonade; by rewrite lemonade_argv_plain).
  assert (forall args text, run_lemonade exec args (lemonade_endpoint cfg) (lc_api_key cfg) = Some text ->
            exists out, exec (argv args) = Some (true, out) /\ text = from_utf8_lossy out) as Hsome.
  { intros args text. rewrite Hrun. destruct (exec (argv args)) as [[[] out]|]; simpl; [|done|done].
    intros [= <-]. eauto. }
  destruct (status_fields (amd_gpus discovery)
    (fun args => run_lemonade exec args (lemonade_endpoint cfg) (lc_api_key cfg))
    (http_get_json exchange (lc_host cfg) (lc_port cfg) "/api/v1/health" (lc_api_key cfg))) as (Hreach & Hmodels & Hback).
  fold (lemonade_status cfg discovery exec exchange) in Hreach, Hmodels, Hback. fold r in Hreach, Hmodels, Hback.
  split_and!.
  - rewrite Hreach. destruct (run_lemonade exec "status" _ _) as [text|] eqn:E; [|done].
    apply Hsome in E as (out & He & ->). intros Hr. exists out. split; [done|].
    apply orb_true_iff in Hr as [|Hr]; [done|]. by apply (contains_suffix "server is ").
  - intros m. rewrite Hmodels. destruct (run_lemonade exec "list --downloaded" _ _) as [text|] eqn:E; [|by intros ?%elem_of_nil].
    apply Hsome in E as (out & He & ->). intros (line & Hl & Hm)%list_elem_of_omap. eauto.
  - rewrite Hback. destruct (http_get_json _ _ _ _ _); [apply backends_from_health_spec|apply NoDup_nil_2].
  - intros b. rewrite Hback. destruct (http_get_json _ _ _ _ _) eqn:E; [|by intros ?%elem_of_nil].
    intros Hb. split; [by eapply backends_from_health_spec|]. unfold http_get_json in E. fold health in E.
    by destruct health.
  - intros phrase headers body v Hph Hh Hu Hb Hex Hp. rewrite Hback.
    rewrite (http_get_json_answered _ _ _ _ _ phrase headers body) by done. by rewrite Hp.
  - intros Hno Hnone. assert (forall args, run_lemonade exec args (lemonade_endpoint cfg) (lc_api_key cfg) = None) as Hn.
    { intros args. destruct (run_lemonade exec args _ _) eqn:E; [|done]. apply Hsome in E as (out & He & _).
      by destruct (Hno _ _ He). }
    unfold r, lemonade_status, status. rewrite !Hn. unfold http_get_json. fold health. by rewrite Hnone.
Qed.
End lemonade.

(** ** A concrete server *)

Definition demo_health : Json :=
  JObject [("all_models_loaded", JArray [JObject [("launch_command", JArray [JString "/opt/llamacpp/vulkan/llama-server"])]])].
Definition demo_exec (argv : list string) : option (bool * string) :=
  if bool_decide (argv = ["--host"; "127.0.0.1"; "--port"; "13305"; "status"]) then Some (true, "Server is running")
  else None.
Definition demo_exchange (host : string) (port : Z) (request : string) : option string :=
  if String.eqb request (health_request "/api/v1/health" "127.0.0.1" None)
  then Some (http_response 200 "OK" demo_headers "{}") else None.
Definition demo_report : LemonadeReport :=
  lemonade_status to_ascii_lowercase (fun _ => None) (fun _ => Some demo_health) LemonadeConfig_default (Ok [])
    demo_exec demo_exchange.

Lemma lemonade_status_spec_witness :
  lr_reachable demo_report = true /\ lr_backends demo_report = ["vulkan"]
  /\ exists out, demo_exec ["--host"; "127.0.0.1"; "--port"; "13305"; "status"] = Some (true, out).
Proof.
  pose proof (lemonade_status_spec to_ascii_lowercase (fun _ => None) (fun _ => Some demo_health)
    LemonadeConfig_default (Ok []) demo_exec demo_exchange eq_refl ltac:(simpl; lia)) as H. cbv zeta in H.
  destruct H as (Hr & _ & _ & _ & Hb & _). split; [vm_compute; reflexivity|]. split.
  - change (lr_backends demo_report = backends_from_health to_ascii_lowercase demo_health).
    apply (Hb "OK" demo_headers "{}" demo_health); [reflexivity|apply demo_headers_plain|vm_compute; reflexivity..].
  - destruct Hr as (out & He & _); [vm_compute; reflexivity|]. exists out. exact He.
Defined.

(** Any successful [status] whose text contains the word counts as reachable,
    the one that denies it included. *)
Lemma not_running_is_reachable :
  lr_reachable (lemonade_status to_ascii_lowercase (fun _ => None) (fun _ => None) LemonadeConfig_default (Ok [])
    (fun _ => Some (true, "Server is not running")) (fun _ _ _ => None)) = true.
Proof. vm_compute. reflexivity. Qed.
