(* ===== verification/Hwinfo.v ===== *)
(** * Hardware facts and the RDMA adapter (nauti-fabric/src/hwinfo.rs)

    NUMA nodes, network enrichment, RDMA ports and the adapter that re-reads
    them on attachment, over the file system of [Sysfs]. The output of [ip] and
    the standard library's float parser are arguments. *)

From stdpp Require Import base tactics option list gmap strings fin_maps sorting.
From Stdlib Require Import Ascii String.
From S2P Require Import Prelude Str Resource F64 Adapters Sysfs.

#[local] Open Scope Z_scope.

Definition pci_numa (fs : Fs) (device_dir : string) : option string :=
  n ← fs_read_trim fs (path_join device_dir "numa_node");
  if String.eqb n "-1" then None else Some n.

(** [kb * 1024] on [u64]; the release build wraps. *)
Definition node_meminfo (fs : Fs) (node_dir : string) : Z * Z :=
  foldl (fun '(total, free) line =>
           let parts := split_whitespace line in
           match parts !! 2%nat, parts !! 3%nat with
           | Some key, Some amount =>
               let kb := default 0 (parse_u64 amount) in
               if String.eqb key "MemTotal:" then (u64_wrap (kb * 1024), free)
               else if String.eqb key "MemFree:" then (total, u64_wrap (kb * 1024))
               else (total, free)
           | _, _ => (total, free)
           end) (0, 0) (lines (default EmptyString (fs_read_trim fs (path_join node_dir "meminfo")))).

Definition numa_resource (fs : Fs) (sys node name : string) : option Resource :=
  let dir := path_join (path_join sys "devices/system/node") name in
  index ← strip_prefix "node" name ≫= parse_u32;
  let '(total, free) := node_meminfo fs dir in
  Some {| r_id := "local.numa." +:+ show index; r_kind := Memory; r_capacity := total;
          r_unit := "bytes"; r_node := node; r_state := Available; r_exclusive := false;
          r_attributes := {[ "numa.node" := show index;
                             "numa.cpulist" := default EmptyString (fs_read_trim fs (path_join dir "cpulist"));
                             "numa.free_bytes" := show free ]} |}.

Definition numa_resources (fs : Fs) (sys node : string) : list Resource :=
  omap (numa_resource fs sys node) (entries fs (path_join sys "devices/system/node")).

(** ** Network interfaces *)

Definition infiniband (sys : string) : string := path_join sys "class/infiniband".

Definition rdma_by_netdev (fs : Fs) (sys : string) : gmap string (string * string) :=
  foldl (fun out name =>
           foldl (fun out netdev => <[netdev := (name, "1")]> out) out
             (entries fs (path_join (path_join (infiniband sys) name) "device/net")))
    ∅ (entries fs (infiniband sys)).

Definition insert_read (fs : Fs) (p key : string) (attrs : gmap string string) : gmap string string :=
  match fs_read_trim fs p with Some v => <[key := v]> attrs | None => attrs end.
Definition insert_some (key : string) (v : option string) (attrs : gmap string string) : gmap string string :=
  match v with Some v => <[key := v]> attrs | None => attrs end.

(** The link speed, when the kernel reports a positive one. *)
Definition link_speed (fs : Fs) (dir : string) : option Z :=
  s ← fs_read_trim fs (path_join dir "speed"); mbps ← parse_i64 s;
  if bool_decide (mbps > 0) then Some mbps else None.

Definition enrich_interface (fs : Fs) (sys : string) (rdma : gmap string (string * string))
    (ipv4 : gmap string (list string)) (iface : string) (r : Resource) : Resource :=
  let dir := path_join (path_join sys "class/net") iface in
  if negb (fs_exists fs dir) then r
  else
    let attrs := insert_read fs (path_join dir "operstate") "net.operstate" (r_attributes r) in
    let speed := link_speed fs dir in
    let attrs := insert_some "net.speed_mbps" (show <$> speed) attrs in
    let attrs := insert_read fs (path_join dir "mtu") "net.mtu" attrs in
    let device := path_join dir "device" in
    let attrs :=
      if fs_exists fs device then
        let attrs := insert_some "net.pci_bdf" (fs_canon fs device ≫= file_name) attrs in
        let attrs := insert_some "net.driver" (link_name fs (path_join device "driver")) attrs in
        insert_some "net.numa_node" (pci_numa fs device) attrs
      else <["net.virtual" := "true"]> attrs in
    let attrs := insert_some "net.ipv4" (join "," <$> ipv4 !! iface) attrs in
    let attrs := insert_some "net.rdma_device" (fst <$> rdma !! iface) attrs in
    {| r_id := r_id r; r_kind := r_kind r;
       r_capacity := match speed with Some mbps => u64_wrap (mbps * 10 ^ 6) | None => r_capacity r end;
       r_unit := match speed with Some _ => "bits/s" | None => r_unit r end;
       r_node := r_node r; r_state := r_state r; r_exclusive := r_exclusive r;
       r_attributes := attrs |}.

Definition enrich_network (fs : Fs) (sys : string) (resources : list Resource)
    (ipv4 : gmap string (list string)) : list Resource :=
  let rdma := rdma_by_netdev fs sys in
  (fun r => if bool_decide (r_kind r = Network) then
              match r_attributes r !! "interface" with
              | Some iface => enrich_interface fs sys rdma ipv4 iface r
              | None => r
              end
            else r) <$> resources.

Definition with_attributes (r : Resource) (attrs : gmap string string) : Resource :=
  {| r_id := r_id r; r_kind := r_kind r; r_capacity := r_capacity r; r_unit := r_unit r;
     r_node := r_node r; r_state := r_state r; r_exclusive := r_exclusive r; r_attributes := attrs |}.

Definition enrich_gpu_numa (fs : Fs) (sys : string) (resources : list Resource) : list Resource :=
  (fun r => if bool_decide (r_kind r = Gpu) then
              match r_attributes r !! "gpu.pci_bdf" with
              | Some bdf => with_attributes r (insert_some "gpu.numa_node"
                              (pci_numa fs (path_join (path_join sys "bus/pci/devices") bdf))
                              (r_attributes r))
              | None => r
              end
            else r) <$> resources.

(** The word after the first [inet]. *)
Fixpoint after_inet (parts : list string) : option string :=
  match parts with
  | [] => None
  | p :: parts => if String.eqb p "inet" then head parts else after_inet parts
  end.

(** [ip_output] is what [ip -4 -o addr show] printed, if it could be run. *)
Definition ipv4_by_interface (ip_output : option string) : gmap string (list string) :=
  match ip_output with
  | None => ∅
  | Some stdout =>
      foldl (fun out line =>
               let parts := split_whitespace line in
               match parts !! 1%nat, after_inet parts with
               | Some iface, Some addr =>
                   let key := trim_bytes_end (fun a => Ascii.eqb a ":") iface in
                   <[key := app (default [] (out !! key)) [addr]]> out
               | _, _ => out
               end) ∅ (lines stdout)
  end.

(** ** RDMA ports *)

Definition rdma_transport (name : string) : string :=
  if starts_with "roce" name || starts_with "bnxt_re" name || starts_with "mlx" name then "roce"
  else if starts_with "iw" name || starts_with "irdma" name then "iwarp"
  else if starts_with "ib" name || starts_with "hfi" name then "infiniband"
  else "unknown".

Section rdma.
Context (parse_f64 : string -> option f64).

Definition rate_bits (rate : string) : Z :=
  match head (split_whitespace rate) ≫= parse_f64 with
  | Some g => f64_as_unsigned u64_max (f64_mul g (f64_of_Z (10 ^ 9)))
  | None => 0
  end.

Definition port_state (fs : Fs) (port : string) : string :=
  default EmptyString (fs_read_trim fs (path_join port "state")).

Definition rdma_port_attributes (fs : Fs) (sys name port_num : string) : gmap string string :=
  let dev := path_join (infiniband sys) name in
  let device := path_join dev "device" in
  let port := path_join (path_join dev "ports") port_num in
  let netdevs := entries fs (path_join device "net") in
  insert_some "rdma.gid0" (fs_read_trim fs (path_join port "gids/0")) (
  insert_some "rdma.driver" (link_name fs (path_join device "driver")) (
  insert_some "rdma.numa_node" (pci_numa fs device) (
  insert_some "rdma.netdev" (head netdevs)
  {[ "rdma.device" := name; "rdma.port" := port_num;
     "rdma.state" := trim (default EmptyString (last (split_on ":" (port_state fs port))));
     "rdma.rate" := default EmptyString (fs_read_trim fs (path_join port "rate"));
     "rdma.link_layer" := default EmptyString (fs_read_trim fs (path_join port "link_layer"));
     "rdma.transport" := rdma_transport name ]}))).

Definition rdma_port (fs : Fs) (sys node name port_num : string) : Resource :=
  let port := path_join (path_join (path_join (infiniband sys) name) "ports") port_num in
  {| r_id := "local.rdma." +:+ name +:+ "." +:+ port_num; r_kind := Network;
     r_capacity := rate_bits (default EmptyString (fs_read_trim fs (path_join port "rate")));
     r_unit := "bits/s"; r_node := node;
     r_state := if contains "ACTIVE" (port_state fs port) then Available else Unavailable;
     r_exclusive := true;
     r_attributes := rdma_port_attributes fs sys name port_num |}.

Definition rdma_resources (fs : Fs) (sys node : string) : list Resource :=
  mjoin ((fun name =>
            rdma_port fs sys node name
              <$> entries fs (path_join (path_join (infiniband sys) name) "ports"))
         <$> entries fs (infiniband sys)).

Definition discover_hardware (fs : Fs) (ip_output : option string) (node : string)
    (resources : list Resource) : list Resource :=
  app (app (enrich_gpu_numa fs "/sys" (enrich_network fs "/sys" resources (ipv4_by_interface ip_output)))
        (numa_resources fs "/sys" node))
    (rdma_resources fs "/sys" node).

(** ** The adapter *)

Definition roce_v2_gid_index (fs : Fs) (sys device port : string) : option string :=
  let port_dir := path_join (path_join (path_join (infiniband sys) device) "ports") port in
  let indices := merge_sort Z.le (omap parse_u32 (entries fs (path_join port_dir "gids"))) in
  head (filter (fun i =>
          default EmptyString (fs_read_trim fs (path_join (path_join port_dir "gid_attrs/types") i)) = "RoCE v2"
          /\ starts_with "0000:0000:0000:0000:0000:ffff:"
               (default EmptyString (fs_read_trim fs (path_join (path_join port_dir "gids") i))) = true)
    (show <$> indices)).

Context {W : Type} (sys : string) (fs_of : W -> Fs) (ip_of : W -> option string).

Definition rdma_unavailable (reason : string) : FabricError := AdapterBackendUnavailable "rdma" reason.

Definition rdma_details (live : Resource) (device port : string) (w : W) : gmap string string :=
  let details := <["attachment.scope" := "rdma-port"]> (r_attributes live) in
  let details := insert_some "rdma.roce_v2_gid_index" (roce_v2_gid_index (fs_of w) sys device port) details in
  insert_some "rdma.ipv4"
    (join "," <$> (netdev ← r_attributes live !! "rdma.netdev"; ipv4_by_interface (ip_of w) !! netdev)) details.

Definition rdma_attach (r : Resource) (l : Lease) (w : W) : result FabricError Attachment * W :=
  if negb (starts_with "local.rdma." (r_id r)) then (Err (MissingResourceAttribute "rdma.device"), w)
  else
    match r_attributes r !! "rdma.device" with
    | None => (Err (MissingResourceAttribute "rdma.device"), w)
    | Some device =>
        let port := default "1" (r_attributes r !! "rdma.port") in
        match head (filter (fun live => r_id live = r_id r) (rdma_resources (fs_of w) sys (r_node r))) with
        | None => (Err (rdma_unavailable (device +:+ " port " +:+ port
                     +:+ " no longer in /sys/class/infiniband")), w)
        | Some live =>
            if bool_decide (r_state live <> Available) then
              (Err (rdma_unavailable (device +:+ " port " +:+ port +:+ " is "
                      +:+ default EmptyString (r_attributes live !! "rdma.state"))), w)
            else (Ok (attachment r l "rdma" (rdma_details live device port w)), w)
        end
    end.

Definition rdma_capability_report (w : W) : AdapterReport :=
  let ports := rdma_resources (fs_of w) sys "local" in
  let attr k r := default EmptyString (r_attributes r !! k) in
  let active := (fun r => attr "rdma.device" r +:+ ":" +:+ attr "rdma.rate" r)
                  <$> filter (fun r => r_state r = Available) ports in
  {| ar_name := "rdma"; ar_scope := "rdma-roce-iwarp-ib";
     ar_healthy := match active with [] => false | _ => true end;
     ar_detail := {[ "rdma.ports" := show (Z.of_nat (length ports));
                     "rdma.active" := match active with [] => "none" | _ => join "," active end ]} |}.

Definition RdmaAdapter : ResourceAdapter W :=
  {| ad_name := "rdma"; ad_attach := rdma_attach; ad_detach := default_detach;
     ad_capability_report := rdma_capability_report |}.

(** ** What attaching a port means *)

Definition port_dir (name port : string) : string :=
  path_join (path_join (path_join (infiniband sys) name) "ports") port.

(** The port is in the file system now, and whether it is up. *)
Definition listed (fs : Fs) (name port : string) : Prop :=
  name ∈ entries fs (infiniband sys)
  /\ port ∈ entries fs (path_join (path_join (infiniband sys) name) "ports").
Definition port_up (fs : Fs) (name port : string) : bool := contains "ACTIVE" (port_state fs (port_dir name port)).

Lemma elem_of_rdma_resources fs node r :
  r ∈ rdma_resources fs sys node <->
  exists name port, listed fs name port /\ r = rdma_port fs sys node name port.
Proof.
  unfold rdma_resources, listed. rewrite list_elem_of_join. setoid_rewrite list_elem_of_fmap. split.
  - intros (l' & Hr & name & -> & Hn). apply list_elem_of_fmap in Hr as (port & -> & Hp). eauto 6.
  - intros (name & port & [Hn Hp] & ->). eexists. split; [|by exists name].
    apply list_elem_of_fmap. by exists port.
Qed.

Lemma rdma_port_state fs node name port :
  r_state (rdma_port fs sys node name port) = Available <-> port_up fs name port = true.
Proof. unfold rdma_port, port_up, port_dir. simpl. by destruct (contains _ _). Qed.

Lemma rdma_port_ids fs node name port :
  r_attributes (rdma_port fs sys node name port) !! "rdma.device" = Some name
  /\ r_attributes (rdma_port fs sys node name port) !! "rdma.port" = Some port.
Proof.
  unfold rdma_port, rdma_port_attributes, insert_some. cbn [r_attributes].
  destruct (head _), (pci_numa _ _), (link_name _ _), (fs_read_trim fs (path_join _ "gids/0"));
    split; reflexivity.
Qed.

Lemma rdma_port_attrs fs node name port w :
  let details := rdma_details (rdma_port fs sys node name port) name port w in
  details !! "rdma.device" = Some name /\ details !! "rdma.port" = Some port
  /\ details !! "attachment.scope" = Some "rdma-port".
Proof.
  intros details. subst details. unfold rdma_details.
  set (live := rdma_port fs sys node name port).
  destruct (rdma_port_ids fs node name port) as [H1 H2]. fold live in H1, H2.
  unfold insert_some.
  destruct (roce_v2_gid_index _ _ _ _), (fmap (M := option) _ _);
    repeat (rewrite lookup_insert_ne by done); rewrite ?lookup_insert_eq;
    repeat (rewrite lookup_insert_ne by done); done.
Qed.

Lemma head_filter_none {A} (P : A -> Prop) `{!forall x, Decision (P x)} l :
  head (filter P l) = None <-> forall x, x ∈ l -> ~ P x.
Proof.
  split.
  - intros Hh x Hx HP. assert (x ∈ filter P l) as Hin by by apply list_elem_of_filter.
    destruct (filter P l); [by apply elem_of_nil in Hin|done].
  - intros Hl. by rewrite filter_false.
Qed.

Lemma head_filter_some {A} (P : A -> Prop) `{!forall x, Decision (P x)} l x :
  head (filter P l) = Some x -> x ∈ l /\ P x.
Proof.
  intros Hh. assert (x ∈ filter P l) as Hin by (destruct (filter P l); [done|injection Hh as ->; left]).
  apply list_elem_of_filter in Hin. tauto.
Qed.

(** An identifier names one port, when no device name has a dot. *)
Lemma rdma_id_inj (name port name' port' : string) :
  contains_char "." name = false -> contains_char "." name' = false ->
  "local.rdma." +:+ name +:+ "." +:+ port = "local.rdma." +:+ name' +:+ "." +:+ port' ->
  name = name' /\ port = port'.
Proof.
  intros Hn Hn' Heq. injection Heq as Heq.
  pose proof (split_once_app "." name port Hn) as H1. pose proof (split_once_app "." name' port' Hn') as H2.
  change (name +:+ String "." port = name' +:+ String "." port') in Heq. rewrite Heq in H1.
  rewrite H1 in H2. by injection H2 as -> ->.
Qed.

(** Attaching an RDMA port reads the file system again. It changes nothing,
    and succeeds only for a port that is listed and up at that moment under the
    identifier of the resource. For a resource of any earlier inventory it
    succeeds exactly then - whatever the inventory saw - and the details name
    the device and the port; a port that went down or away is refused. *)
Theorem rdma_attach_spec r l w :
  (forall att w', rdma_attach r l w = (Ok att, w') ->
     w' = w /\ exists name port, listed (fs_of w) name port /\ port_up (fs_of w) name port = true
       /\ r_id r = "local.rdma." +:+ name +:+ "." +:+ port)
  /\ (forall fs0 node name port,
        (forall n, n ∈ entries (fs_of w) (infiniband sys) -> contains_char "." n = false) ->
        contains_char "." name = false -> r = rdma_port fs0 sys node name port ->
        (is_ok (rdma_attach r l w).1 = true <->
           listed (fs_of w) name port /\ port_up (fs_of w) name port = true)
        /\ forall att, (rdma_attach r l w).1 = Ok att ->
             at_details att !! "rdma.device" = Some name /\ at_details att !! "rdma.port" = Some port).
Proof.
  split.
  - intros att w'. unfold rdma_attach. destruct (starts_with _ _); cbn [negb]; [|done].
    destruct (r_attributes r !! "rdma.device") as [device|]; [|done].
    destruct (head _) as [live|] eqn:Eh; [|done]. case_bool_decide as Hs; [done|].
    intros [= _ <-]. split; [done|]. apply head_filter_some in Eh as [Hin Hid].
    apply elem_of_rdma_resources in Hin as (name & port & Hl & ->). exists name, port.
    split_and!; [done| |done]. eapply rdma_port_state.
    destruct (decide (r_state (rdma_port (fs_of w) sys (r_node r) name port) = Available)) as [Ha|];
      [exact Ha|by destruct Hs].
  - intros fs0 node name port Hdots Hname ->.
    assert (forall live, live ∈ rdma_resources (fs_of w) sys node
              -> r_id live = r_id (rdma_port fs0 sys node name port) ->
              live = rdma_port (fs_of w) sys node name port /\ listed (fs_of w) name port) as Huniq.
    { intros live (n & p & Hl & ->)%elem_of_rdma_resources Hid.
      apply rdma_id_inj in Hid as [-> ->]; [by split|by apply Hdots, Hl|done]. }
    unfold rdma_attach. change (starts_with "local.rdma." (r_id (rdma_port fs0 sys node name port)))
      with (starts_with "" (name +:+ "." +:+ port)).
    replace (starts_with "" (name +:+ "." +:+ port)) with true by (by destruct (name +:+ "." +:+ port)).
    cbn [negb].
    destruct (rdma_port_ids fs0 node name port) as [-> ->].
    change (r_node (rdma_port fs0 sys node name port)) with node. cbn [default from_option].
    destruct (head _) as [live|] eqn:Eh.
    + apply head_filter_some in Eh as [Hin Hid]. destruct (Huniq live Hin Hid) as [-> Hl].
      case_bool_decide as Hs.
      * split; [|done]. split; [done|]. intros [_ Hup]. exfalso. apply Hs. by apply rdma_port_state.
      * split.
        -- split; [|done]. intros _. split; [done|]. apply (rdma_port_state (fs_of w) node).
           destruct (decide (r_state (rdma_port (fs_of w) sys node name port) = Available)) as [Ha|];
             [exact Ha|by destruct Hs].
        -- intros att [= <-]. cbn [attachment at_details].
           destruct (rdma_port_attrs (fs_of w) node name port w) as (H1 & H2 & _). by split.
    + split; [|done]. split; [done|]. intros [Hl _]. exfalso. rewrite head_filter_none in Eh.
      eapply Eh; [|]. { apply elem_of_rdma_resources. by exists name, port. } done.
Qed.

#[export] Instance RdmaAdapter_laws : AdapterLaws RdmaAdapter.
Proof.
  split; [|done]. intros r l w a w'. simpl. unfold rdma_attach. repeat case_match; try done.
  by intros [= <-].
Qed.

End rdma.
