(* ===== verification/Wgpu.v ===== *)
(** * Remote GPU jobs over Tailscale (nauti-fabric/src/gpu/wgpu_remote.rs)

    The address gate, the job and its reference result in [f32], the frames, the
    server's loop and the client. Sockets, JSON, the clock and the GPU kernel
    are arguments. *)

From stdpp Require Import base tactics option list gmap strings.
From Stdlib Require Import Ascii String SpecFloat.
From S2P Require Import Prelude Str Utf8 Resource F64 RpcAuth Rpc RpcProps Adapters.

#[local] Open Scope Z_scope.

Module Wgpu.

Definition ADAPTER_NAME : string := "gpu-wgpu-remote".
Definition SCOPE : string := "gpu-wgpu-remote-tailscale".
Definition DEFAULT_PORT : Z := 9110.
(** The elements of the correctness job. *)
Definition WORKLOAD_N : Z := 4096.

Record SocketAddr : Type := mkSocketAddr { sa_ip : IpAddr; sa_port : Z }.

Definition is_tailscale_ip (ip : IpAddr) : bool :=
  match ip with
  | V4 (a, b, _, _) => bool_decide (a = 100) && bool_decide (b >= 64) && bool_decide (b <= 127)
  | V6 _ => false
  end.

(** ** f32: binary32 *)

Definition f32 : Type := spec_float.
Definition f32_add : f32 -> f32 -> f32 := SFadd 24 128.
Definition f32_sub : f32 -> f32 -> f32 := SFsub 24 128.
(** [1e-4] as the nearest [f32]. *)
Definition f32_tolerance : f32 := S754_finite false 13743895 (-37).

(** ** Jobs *)

Record WgpuJob : Type := mkWgpuJob {
  wj_job_id : string;
  wj_op : string;
  wj_n : Z;
  wj_a : list f32;
  wj_b : list f32;
}.

Record WgpuResult : Type := mkWgpuResult {
  wr_job_id : string;
  wr_status : string;
  wr_backend : string;
  wr_adapter_name : string;
  wr_out : list f32;
  wr_elapsed_ms : Z;
  wr_server_local : string;
  wr_client_peer : string;
}.

Definition cpu_add (a b : list f32) : list f32 := zip_with f32_add a b.

Definition within (expect got : f32) : bool := SFleb (SFabs (f32_sub expect got)) f32_tolerance.

Definition correctness_ok (job : WgpuJob) (out : list f32) : bool :=
  if bool_decide (length out <> length (wj_a job) \/ length out <> length (wj_b job)) then false
  else forallb (fun '(expect, got) => within expect got) (zip (cpu_add (wj_a job) (wj_b job)) out).

Section remote.
(** [Display] of an address, the JSON codecs, and the wgpu kernel of a build
    that has it. *)
Context (show_addr : SocketAddr -> string).
Context (job_to_vec : WgpuJob -> result string string) (job_from_slice : string -> result string WgpuJob).
Context (result_to_vec : WgpuResult -> result string string)
  (result_from_slice : string -> result string WgpuResult).
Context (kernel : option (list f32 -> list f32 -> result string (list f32 * string * string))).

Definition require_tailscale (addr : SocketAddr) (role : string) : result string () :=
  if is_tailscale_ip (sa_ip addr) then Ok tt
  else Err (role +:+ " " +:+ show_addr addr
            +:+ " is not a Tailscale CGNAT address (100.64.0.0/10); off-routing proof refuses LAN fallback").

Definition wgpu_write_frame (payload : string) : result string string :=
  let len := Z.of_nat (String.length payload) in
  if bool_decide (len <= u32_max) then Ok (to_le_bytes len +:+ payload)
  else Err "out of range integral type conversion attempted".

Definition wgpu_read_frame (s : Stream) : result string (string * Stream) :=
  '(header, s) ← map_err (fun _ : bool => "read") (read_exact 4 s);
  let len := from_le_bytes header in
  if bool_decide (len > 16 * 1024 * 1024) then Err "frame too large"
  else map_err (fun _ : bool => "read") (read_exact (Z.to_nat len) s).

Definition execute_add (job : WgpuJob) : result string (list f32 * string * string) :=
  if negb (String.eqb (wj_op job) "add_f32") then Err ("unknown op " +:+ wj_op job)
  else if bool_decide (Z.of_nat (length (wj_a job)) <> wj_n job \/ Z.of_nat (length (wj_b job)) <> wj_n job)
  then Err "job length mismatch"
  else match kernel with
       | Some add_f32 => add_f32 (wj_a job) (wj_b job)
       | None => Ok (cpu_add (wj_a job) (wj_b job), "cpu-reference", "none")
       end.

(** A connection: the addresses of both ends, what the peer sends, whether the
    answer can be sent, and how long the work took. *)
Record Conn : Type := mkConn {
  cn_peer : result string SocketAddr;
  cn_local : result string SocketAddr;
  cn_stream : Stream;
  cn_write : result string ();
  cn_elapsed_ms : Z;
}.

Definition answer (job : WgpuJob) (local peer : SocketAddr) (elapsed_ms : Z) : WgpuResult :=
  let mk status backend adapter_name out :=
    {| wr_job_id := wj_job_id job; wr_status := status; wr_backend := backend;
       wr_adapter_name := adapter_name; wr_out := out; wr_elapsed_ms := elapsed_ms;
       wr_server_local := show_addr local; wr_client_peer := show_addr peer |} in
  match execute_add job with
  | Ok (out, backend, adapter_name) =>
      mk (if correctness_ok job out then "ok" else "incorrect") backend adapter_name out
  | Err error => mk "error" "error" error []
  end.

(** One connection: whom the server wrote what, or why it stops. *)
Definition serve_one (conn : Conn) : result string (option (SocketAddr * WgpuResult)) :=
  peer ← cn_peer conn;
  match require_tailscale peer "peer" with
  | Err _ => Ok None
  | Ok _ =>
      local ← cn_local conn;
      '(bytes, _) ← wgpu_read_frame (cn_stream conn);
      job ← job_from_slice bytes;
      let res := answer job local peer (cn_elapsed_ms conn) in
      payload ← result_to_vec res;
      _ ← wgpu_write_frame payload;
      _ ← cn_write conn;
      Ok (Some (peer, res))
  end.

(** [listener.incoming()] never ends; these are the connections that came. *)
Fixpoint serve_loop (incoming : list (result string Conn)) :
    result string () * list (SocketAddr * WgpuResult) :=
  match incoming with
  | [] => (Ok tt, [])
  | conn :: incoming =>
      match conn ≫= serve_one with
      | Err e => (Err e, [])
      | Ok written =>
          let '(res, out) := serve_loop incoming in
          (res, app (option_list written) out)
      end
  end.

Definition serve (bind : SocketAddr) (bound : result string ()) (incoming : list (result string Conn)) :
    result string () * list (SocketAddr * WgpuResult) :=
  match require_tailscale bind "bind" with
  | Err e => (Err e, [])
  | Ok _ =>
      match bound with
      | Err e => (Err ("bind " +:+ show_addr bind +:+ ": " +:+ e), [])
      | Ok _ => serve_loop incoming
      end
  end.

(** [connection] is the local address and what answers the request, or why the
    connection failed. *)
Definition submit (connect : SocketAddr) (job : WgpuJob)
    (connection : result string (result string SocketAddr * (string -> result string Stream))) :
    result string WgpuResult :=
  _ ← require_tailscale connect "connect";
  '(local, exchange) ← map_err (fun e => "connect " +:+ show_addr connect +:+ ": " +:+ e) connection;
  local ← local;
  _ ← require_tailscale local "client-local";
  payload ← job_to_vec job;
  frame ← wgpu_write_frame payload;
  stream ← exchange frame;
  '(bytes, _) ← wgpu_read_frame stream;
  res ← result_from_slice bytes;
  Ok (if String.eqb (wr_status res) "ok" && negb (correctness_ok job (wr_out res)) then
        {| wr_job_id := wr_job_id res; wr_status := "incorrect"; wr_backend := wr_backend res;
           wr_adapter_name := wr_adapter_name res; wr_out := wr_out res;
           wr_elapsed_ms := wr_elapsed_ms res; wr_server_local := wr_server_local res;
           wr_client_peer := wr_client_peer res |}
      else res).

End remote.

(** ** The resource and its adapter *)

Definition default_resource (node : string) : Resource :=
  {| r_id := "local.gpu.wgpu-remote"; r_kind := Gpu; r_capacity := 1; r_unit := "remote-job";
     r_node := node; r_state := Available; r_exclusive := true;
     r_attributes := {[ "gpu.transport" := "tailscale"; "gpu.protocol" := "wgpu-remote/1";
                        "gpu.port" := show DEFAULT_PORT ]} |}.

Definition wgpu_attach {W} (r : Resource) (l : Lease) (w : W) : result FabricError Attachment * W :=
  if bool_decide (r_kind r <> Gpu) then (Err (IncompatibleResourceKind ADAPTER_NAME Gpu (r_kind r)), w)
  else (Ok (attachment r l ADAPTER_NAME {[ "gpu.transport" := "tailscale";
                                           "gpu.protocol" := "wgpu-remote/1" ]}), w).

(** [feature]: the build has the [wgpu-remote] feature. *)
Definition WgpuRemoteAdapter {W} (feature : bool) : ResourceAdapter W :=
  {| ad_name := ADAPTER_NAME; ad_attach := wgpu_attach; ad_detach := default_detach;
     ad_capability_report := fun _ =>
       {| ar_name := ADAPTER_NAME; ar_scope := SCOPE; ar_healthy := feature;
          ar_detail := {[ "transport" := "tailscale-cgnat";
                          "wgpu" := if feature then "enabled" else "feature-off" ]} |} |}.

#[export] Instance WgpuRemoteAdapter_laws {W} feature : AdapterLaws (@WgpuRemoteAdapter W feature).
Proof. split; [|done]. intros r l w a w'. simpl. unfold wgpu_attach. case_bool_decide; [done|]. by intros [= <-]. Qed.

(** ** The reference result passes its own check *)

Lemma f32_sub_self s : is_finite s = true -> exists b, f32_sub s s = S754_zero b.
Proof.
  destruct s as [b|b| |b m e]; try done; intros _; unfold f32_sub, SFsub; [destruct b; simpl; eauto|].
  rewrite Z.sub_diag. simpl. eauto.
Qed.

Lemma within_self s : is_finite s = true -> within s s = true.
Proof. intros Hs. unfold within. by destruct (f32_sub_self s Hs) as [[] ->]. Qed.

Lemma correctness_ok_reference job :
  length (wj_a job) = length (wj_b job) -> Forall (fun s => is_finite s = true) (cpu_add (wj_a job) (wj_b job)) ->
  correctness_ok job (cpu_add (wj_a job) (wj_b job)) = true.
Proof.
  intros Hlen Hfin. unfold correctness_ok.
  rewrite bool_decide_eq_false_2 by (unfold cpu_add; rewrite length_zip_with; lia).
  induction Hfin as [|s l Hs _ IH]; [done|]. simpl. by rewrite within_self.
Qed.

Section facts.
Context (show_addr : SocketAddr -> string).
Context (job_to_vec : WgpuJob -> result string string) (job_from_slice : string -> result string WgpuJob).
Context (result_to_vec : WgpuResult -> result string string)
  (result_from_slice : string -> result string WgpuResult).
Context (kernel : option (list f32 -> list f32 -> result string (list f32 * string * string))).

Local Abbreviation serve := (serve show_addr job_from_slice result_to_vec kernel).
Local Abbreviation serve_loop := (serve_loop show_addr job_from_slice result_to_vec kernel).
Local Abbreviation serve_one := (serve_one show_addr job_from_slice result_to_vec kernel).
Local Abbreviation submit := (submit show_addr job_to_vec result_from_slice).

Lemma require_tailscale_ok addr role :
  require_tailscale show_addr addr role = Ok tt <-> is_tailscale_ip (sa_ip addr) = true.
Proof. unfold require_tailscale. by destruct (is_tailscale_ip _). Qed.

Lemma serve_one_peer conn peer res :
  serve_one conn = Ok (Some (peer, res)) ->
  cn_peer conn = Ok peer /\ is_tailscale_ip (sa_ip peer) = true
  /\ exists job local, res = answer show_addr kernel job local peer (cn_elapsed_ms conn).
Proof.
  unfold Wgpu.serve_one. destruct (cn_peer conn) as [p|]; cbn [mbind result_bind]; [|done].
  destruct (require_tailscale show_addr p "peer") as [[]|] eqn:Er; [|done].
  apply require_tailscale_ok in Er. destruct (cn_local conn) as [local|]; cbn [mbind result_bind]; [|done].
  destruct (wgpu_read_frame (cn_stream conn)) as [[bytes s]|]; cbn [mbind result_bind]; [|done].
  destruct (job_from_slice bytes) as [job|]; cbn [mbind result_bind]; [|done].
  destruct (result_to_vec _) as [payload|]; cbn [mbind result_bind]; [|done].
  destruct (wgpu_write_frame payload); cbn [mbind result_bind]; [|done].
  destruct (cn_write conn); cbn [mbind result_bind]; [|done].
  intros [= <- <-]. split_and!; [done..|]. by exists job, local.
Qed.

Lemma serve_loop_peers incoming :
  Forall (fun pr => is_tailscale_ip (sa_ip pr.1) = true) (serve_loop incoming).2.
Proof.
  induction incoming as [|conn incoming IH]; simpl; [constructor|].
  destruct (conn ≫= serve_one) as [written|e] eqn:E; [|constructor].
  destruct (serve_loop incoming) as [res out]. simpl in *. apply Forall_app. split; [|done].
  destruct written as [[peer r]|]; [|constructor]. constructor; [|constructor]. simpl.
  destruct conn as [conn|]; [|done]. by apply serve_one_peer in E as (_ & ? & _).
Qed.

(** C36. Remote GPU jobs. The server binds, and answers, only on Tailscale
    addresses; a well-formed job whose sums are finite is answered [ok] with
    exactly the element-wise sums by the reference build; and what the client
    returns as [ok] has the lengths of the job and every element within the
    tolerance, over a connection whose two ends are Tailscale addresses -
    whatever the server claims. One connection whose frame cannot be read ends
    the server, and nobody after it is served. *)
Theorem wgpu_remote_spec :
  (forall bind bound incoming,
     Forall (fun pr => is_tailscale_ip (sa_ip pr.1) = true) (serve bind bound incoming).2
     /\ (is_tailscale_ip (sa_ip bind) = false -> is_ok (serve bind bound incoming).1 = false))
  /\ (forall job local peer ms,
       kernel = None -> wj_op job = "add_f32" -> Z.of_nat (length (wj_a job)) = wj_n job ->
       Z.of_nat (length (wj_b job)) = wj_n job ->
       Forall (fun s => is_finite s = true) (cpu_add (wj_a job) (wj_b job)) ->
       wr_status (answer show_addr kernel job local peer ms) = "ok"
       /\ wr_out (answer show_addr kernel job local peer ms) = cpu_add (wj_a job) (wj_b job))
  /\ (forall connect job connection res, submit connect job connection = Ok res ->
       is_tailscale_ip (sa_ip connect) = true
       /\ (exists local exchange, connection = Ok (Ok local, exchange) /\ is_tailscale_ip (sa_ip local) = true)
       /\ (wr_status res = "ok" -> correctness_ok job (wr_out res) = true))
  /\ (forall conn peer incoming e,
       cn_peer conn = Ok peer -> is_tailscale_ip (sa_ip peer) = true -> is_ok (cn_local conn) = true ->
       wgpu_read_frame (cn_stream conn) = Err e -> serve_loop (Ok conn :: incoming) = (Err e, [])).
Proof.
  split_and!.
  - intros bind bound incoming. unfold Wgpu.serve, require_tailscale.
    destruct (is_tailscale_ip (sa_ip bind)); [|split; [constructor|done]].
    destruct bound; [|split; [constructor|done]]. split; [apply serve_loop_peers|done].
  - intros job local peer ms Hk Hop Ha Hb Hfin. unfold answer, execute_add. rewrite Hop, Hk.
    change (negb (String.eqb "add_f32" "add_f32")) with false. cbn [negb].
    rewrite bool_decide_eq_false_2 by lia. simpl. by rewrite correctness_ok_reference by (done || lia).
  - intros connect job connection res. unfold Wgpu.submit.
    destruct (require_tailscale show_addr connect "connect") as [[]|] eqn:Ec; cbn [mbind result_bind]; [|done].
    apply require_tailscale_ok in Ec.
    destruct connection as [[[local|] exchange]|]; cbn [map_err mbind result_bind]; [|done..].
    destruct (require_tailscale show_addr local "client-local") as [[]|] eqn:El; cbn [mbind result_bind]; [|done].
    apply require_tailscale_ok in El.
    destruct (job_to_vec job); cbn [mbind result_bind]; [|done].
    destruct (wgpu_write_frame _); cbn [mbind result_bind]; [|done].
    destruct (exchange _); cbn [mbind result_bind]; [|done].
    destruct (wgpu_read_frame _) as [[bytes s']|]; cbn [mbind result_bind]; [|done].
    destruct (result_from_slice bytes) as [r|]; cbn [mbind result_bind]; [|done].
    intros [= <-]. split_and!; [done|by exists local, exchange|].
    destruct (String.eqb_spec (wr_status r) "ok") as [Hs|Hs]; simpl; [|done].
    destruct (correctness_ok job (wr_out r)) eqn:Eok; simpl; [by rewrite Eok|done].
  - intros conn peer incoming e Hp Ht Hl Hr. cbn [Wgpu.serve_loop mbind result_bind].
    unfold Wgpu.serve_one. rewrite Hp. cbn [mbind result_bind].
    assert (require_tailscale show_addr peer "peer" = Ok tt) as -> by by apply require_tailscale_ok.
    destruct (cn_local conn); [|done]. cbn [mbind result_bind]. by rewrite Hr.
Qed.

End facts.

End Wgpu.
