(* ===== verification/WgpuKernel.v ===== *)
(** * The add kernel (nauti-fabric/src/gpu/wgpu_kernel.rs, gpu/add.wgsl)

    The shader is one invocation on the bound buffers, a dispatch is all the
    invocations of its workgroups in some order, and around them the host code
    of [add_f32]. What wgpu answers - the adapter, the device, whether its
    validation accepts a binding or a dispatch, the mapping - is an argument; a
    call its validation refuses panics, as wgpu's default error handler does. *)

From stdpp Require Import base tactics option list gmap strings.
From Stdlib Require Import SpecFloat.
From S2P Require Import Prelude Str Resource F64 RpcAuth Rpc Wgpu.

#[local] Open Scope Z_scope.

Import Wgpu.

(** ** Buffers and bindings *)

Inductive Usage : Type := STORAGE | COPY_SRC | COPY_DST | MAP_READ.

Record Buffer : Type := mkBuffer {
  bu_label : string;
  bu_size : Z;
  bu_usage : list Usage;
  bu_contents : list f32;
}.

(** [bytemuck::cast_slice] to bytes: four for every element. *)
Definition byte_len (l : list f32) : Z := 4 * Z.of_nat (length l).

Definition create_buffer_init (label : string) (contents : list f32) (usage : list Usage) : Buffer :=
  {| bu_label := label; bu_size := byte_len contents; bu_usage := usage; bu_contents := contents |}.

(** A new buffer holds zeros. *)
Definition create_buffer (label : string) (size : Z) (usage : list Usage) : Buffer :=
  {| bu_label := label; bu_size := size; bu_usage := usage;
     bu_contents := replicate (Z.to_nat (size / 4)) (S754_zero false) |}.

Record LayoutEntry : Type := mkLayoutEntry { le_binding : Z; le_read_only : bool }.
Definition storage_entry (binding : Z) (read_only : bool) : LayoutEntry :=
  {| le_binding := binding; le_read_only := read_only |}.

Definition add_layout : list LayoutEntry := [storage_entry 0 true; storage_entry 1 true; storage_entry 2 false].

Definition add_bind (a_buf b_buf out_buf : Buffer) : list (Z * Buffer) := [(0, a_buf); (1, b_buf); (2, out_buf)].

(** The three buffers of a sum, bound. *)
Definition add_buffers (a b : list f32) : list (Z * Buffer) :=
  let a_buf := create_buffer_init "a" a [STORAGE] in
  let b_buf := create_buffer_init "b" b [STORAGE] in
  let out_buf := create_buffer "out" (byte_len a) [STORAGE; COPY_SRC] in
  add_bind a_buf b_buf out_buf.

(** The contents the shader sees under each binding. *)
Abbreviation Memory := (gmap Z (list f32)) (only parsing).
Definition bound (entries : list (Z * Buffer)) : Memory :=
  list_to_map ((fun e => (e.1, bu_contents e.2)) <$> entries).

(** [copy_buffer_to_buffer] from and to offset 0. *)
Definition copy_contents (src dst : list f32) (size : Z) : list f32 :=
  let n := Z.to_nat (size / 4) in app (take n src) (drop n dst).

Section kernel.
(** The sum the device computes. *)
Context (gpu_add : f32 -> f32 -> f32).

(** ** add.wgsl *)

Definition WORKGROUP_SIZE : Z := 64.

Definition binding (k : Z) (mem : Memory) : list f32 := default [] (mem !! k).

Definition shader_main (gid : Z) (mem : Memory) : Memory :=
  let i := Z.to_nat gid in
  if bool_decide (Z.of_nat (length (binding 0 mem)) <= gid) then mem
  else match binding 0 mem !! i, binding 1 mem !! i with
       | Some x, Some y => <[2 := <[i := gpu_add x y]> (binding 2 mem)]> mem
       | _, _ => mem
       end.

(** Every invocation of every workgroup, in the order the device takes. *)
Definition dispatch_workgroups (order : list Z) (mem : Memory) : Memory :=
  foldl (fun mem gid => shader_main gid mem) mem order.

(** ** The host *)

(** [(a.len() as u32 + 63) / 64]; the addition panics when overflow is checked
    and wraps otherwise. *)
Definition workgroups (overflow_checks : bool) (len : Z) : outcome Z :=
  let sum := len mod 2 ^ 32 + 63 in
  if overflow_checks && bool_decide (2 ^ 32 <= sum) then Panicked else Done (sum mod 2 ^ 32 / 64).

Record AdapterInfo : Type := mkAdapterInfo { ai_name : string; ai_backend : string }.

Context (overflow_checks : bool).
Context (request_adapter : option AdapterInfo) (request_device : result string ()).
Context (bindable : Buffer -> bool) (dispatchable : Z -> bool) (order : Z -> list Z).
Context (mapped : result string (result string ())).

Definition add_f32_async (a b : list f32) : outcome (result string (list f32 * string * string)) :=
  match request_adapter with
  | None => Done (Err "no wgpu adapter (Vulkan/GPU missing)")
  | Some info =>
      match request_device with
      | Err e => Done (Err e)
      | Ok _ =>
          let out_size := byte_len a in
          let read_buf := create_buffer "read" out_size [MAP_READ; COPY_DST] in
          let bind := add_buffers a b in
          if negb (forallb (fun e => bindable e.2) bind) then Panicked
          else
            match workgroups overflow_checks (Z.of_nat (length a)) with
            | Panicked => Panicked
            | Done groups =>
                if negb (dispatchable groups) then Panicked
                else
                  let mem := dispatch_workgroups (order groups) (bound bind) in
                  let data := copy_contents (binding 2 mem) (bu_contents read_buf) out_size in
                  Done (received ← mapped;
                        _ ← received;
                        Ok (data, ai_backend info, ai_name info +:+ " (" +:+ ai_backend info +:+ ")"))
            end
      end
  end.

Definition add_f32 (a b : list f32) : outcome (result string (list f32 * string * string)) :=
  if bool_decide (length a <> length b) then Done (Err "a/b length mismatch") else add_f32_async a b.

(** ** The dispatch computes the sums *)

(** After the invocations [seen]: the inputs are untouched and the output holds
    the sum exactly where an invocation has been. *)
Record computed (a b : list f32) (seen : list Z) (mem : Memory) : Prop := {
  co_a : mem !! 0 = Some a;
  co_b : mem !! 1 = Some b;
  co_out : exists out, mem !! 2 = Some out /\ length out = length a
    /\ forall gid x y, gid ∈ seen -> 0 <= gid -> a !! Z.to_nat gid = Some x -> b !! Z.to_nat gid = Some y ->
       out !! Z.to_nat gid = Some (gpu_add x y);
}.

Lemma shader_computed a b seen mem gid :
  length a = length b -> 0 <= gid -> computed a b seen mem -> computed a b (gid :: seen) (shader_main gid mem).
Proof.
  intros Hlen Hgid [Ha Hb (out & Hout & Hl & Hs)]. unfold shader_main, binding. rewrite Ha, Hb, Hout. simpl.
  case_bool_decide as Hi.
  - split; [done..|]. exists out. split_and!; [done..|]. intros g x y Hin Hg Hx Hy.
    apply elem_of_cons in Hin as [->|Hin]; [|by apply Hs]. apply lookup_lt_Some in Hx. lia.
  - destruct (lookup_lt_is_Some_2 a (Z.to_nat gid)) as [x0 Hx0]; [lia|].
    destruct (lookup_lt_is_Some_2 b (Z.to_nat gid)) as [y0 Hy0]; [lia|]. rewrite Hx0, Hy0.
    split; [by rewrite lookup_insert_ne..|]. exists (<[Z.to_nat gid:=gpu_add x0 y0]> out).
    split_and!; [by rewrite lookup_insert_eq|by rewrite length_insert|].
    intros g x y Hin Hg Hx Hy. destruct (decide (g = gid)) as [->|Hne].
    + simplify_eq. apply list_lookup_insert_eq. lia.
    + rewrite list_lookup_insert_ne by lia. apply Hs; try done. by apply elem_of_cons in Hin as [->|].
Qed.

Lemma dispatch_computed a b order' seen mem :
  length a = length b -> Forall (fun gid => 0 <= gid) order' -> computed a b seen mem ->
  computed a b (app (reverse order') seen) (dispatch_workgroups order' mem).
Proof.
  intros Hlen. revert seen mem. induction order' as [|gid order' IH]; intros seen mem Hpos Hc; [done|].
  apply Forall_cons in Hpos as [Hgid Hpos]. rewrite reverse_cons, <-app_assoc. simpl.
  apply IH; [done|]. by apply shader_computed.
Qed.

(** Enough invocations, in any order, compute every sum. *)
Lemma dispatch_sums a b order' :
  length a = length b -> Forall (fun gid => 0 <= gid) order' ->
  (forall gid, 0 <= gid < Z.of_nat (length a) -> gid ∈ order') ->
  binding 2 (dispatch_workgroups order' (bound (add_buffers a b)))
  = zip_with gpu_add a b.
Proof.
  intros Hlen Hpos Hall.
  destruct (dispatch_computed a b order' []
    (bound (add_buffers a b)) Hlen Hpos) as [_ _ (out & Hout & Hl & Hs)].
  { split; [done|done|]. eexists. split; [reflexivity|]. split; [|by intros ??? []%not_elem_of_nil].
    simpl. rewrite length_replicate. unfold byte_len. rewrite Z.mul_comm, Z.div_mul by done. lia. }
  unfold binding. rewrite Hout. simpl. apply list_eq_same_length with (n := length a); [|done|].
  { rewrite length_zip_with. lia. }
  intros i x y Hi Hx Hy. apply lookup_zip_with_Some in Hy as (p & q & -> & Hp & Hq).
  specialize (Hs (Z.of_nat i) p q). rewrite Nat2Z.id in Hs. rewrite Hs in Hx; try done; [by injection Hx|..].
  - rewrite app_nil_r, elem_of_reverse. apply Hall. lia.
  - lia.
Qed.

Lemma copy_all src dst : length dst = length src -> copy_contents src dst (byte_len src) = src.
Proof.
  intros Hl. unfold copy_contents, byte_len. rewrite Z.mul_comm, Z.div_mul, Nat2Z.id by done.
  by rewrite take_ge, drop_ge, app_nil_r by lia.
Qed.

(** The workgroups cover the input. *)
Lemma workgroups_cover len :
  0 <= len -> len + 63 < 2 ^ 32 ->
  exists groups, workgroups overflow_checks len = Done groups /\ 0 <= groups /\ len <= 64 * groups < len + 64.
Proof.
  intros H0 Hb. unfold workgroups. rewrite (Z.mod_small len) by lia.
  rewrite bool_decide_eq_false_2, andb_false_r by lia. rewrite (Z.mod_small (len + 63)) by lia.
  eexists. split; [reflexivity|]. pose proof (Z.div_mod (len + 63) 64). pose proof (Z.mod_pos_bound (len + 63) 64). lia.
Qed.

(** wgpu's validation refused a binding or the number of workgroups. *)
Definition refused_by_wgpu (a b : list f32) : Prop :=
  (exists e, e ∈ add_buffers a b /\ bindable e.2 = false)
  \/ dispatchable ((Z.of_nat (length a) + 63) / 64) = false.

Lemma add_f32_cases a b :
  length a = length b -> Z.of_nat (length a) + 63 < 2 ^ 32 ->
  (forall groups, order groups ≡ₚ seqZ 0 (WORKGROUP_SIZE * groups)) ->
  match add_f32 a b with
  | Done (Ok (out, _, _)) => out = zip_with gpu_add a b
  | Done (Err _) => request_adapter = None \/ is_ok request_device = false \/ is_ok (mapped ≫= id) = false
  | Panicked => refused_by_wgpu a b
  end.
Proof.
  intros Hlen Hb Horder. unfold add_f32. rewrite bool_decide_eq_false_2 by lia. unfold add_f32_async.
  destruct request_adapter as [info|]; [|by left]. destruct request_device as [[]|e]; [|by right; left].
  destruct (forallb _ (add_buffers a b)) eqn:Hbind.
  2:{ left. destruct (decide (Exists (fun e => bindable e.2 = false) (add_buffers a b))) as [He|He].
      - apply Exists_exists in He as (e & ? & ?). by exists e.
      - apply not_true_iff_false in Hbind. destruct Hbind. apply forallb_forall. intros e Hin.
        apply not_false_is_true. intros Hf. apply He, Exists_exists. exists e. by rewrite list_elem_of_In. }
  destruct (workgroups_cover (Z.of_nat (length a))) as (groups & Hg & H0 & Hcov); [lia..|]. rewrite Hg. simpl.
  destruct (dispatchable groups) eqn:Hd; simpl.
  - destruct mapped as [[[]|e]|e]; simpl; [|by right; right..].
    rewrite dispatch_sums; [..|done| |].
    + rewrite <-(copy_all (zip_with gpu_add a b) (replicate (Z.to_nat (byte_len a / 4)) (S754_zero false))) at 2.
      * f_equal. unfold byte_len. rewrite length_zip_with. lia.
      * rewrite length_replicate, length_zip_with. unfold byte_len. rewrite Z.mul_comm, Z.div_mul by done. lia.
    + apply Forall_forall. intros gid Hin. rewrite Horder in Hin. apply elem_of_seqZ in Hin. unfold WORKGROUP_SIZE in *. lia.
    + intros gid Hgid. rewrite Horder. apply elem_of_seqZ. unfold WORKGROUP_SIZE in *. lia.
  - right. replace ((Z.of_nat (length a) + 63) / 64) with groups; [done|].
    apply Z.div_unique with (r := Z.of_nat (length a) + 63 - 64 * groups); lia.
Qed.
End kernel.

(** C35. The GPU kernel computes the reference sum. For inputs of one length
    below 2^32-63, whatever order the device runs the invocations of the
    dispatched workgroups - [WORKGROUP_SIZE] each - in: a result is the element-wise sum of the device's
    addition, complete and in place; an error is wgpu's own - no adapter, no
    device, a mapping that failed - and a panic means that wgpu's validation
    refused one of the three bindings or the number of workgroups, the length
    divided by 64 and rounded up. Inputs of different lengths are refused before
    wgpu is asked for anything. On a device that adds as the processor does, a
    well-formed job with finite sums is therefore answered [ok] with exactly
    [cpu_add], as the build without a GPU answers it. *)
Theorem kernel_is_cpu_add gpu_add checks adapter device bindable dispatchable order mapped a b :
  let run := add_f32 gpu_add checks adapter device bindable dispatchable order mapped in
  (length a <> length b -> run a b = Done (Err "a/b length mismatch"))
  /\ (length a = length b -> Z.of_nat (length a) + 63 < 2 ^ 32 ->
      (forall groups, order groups ≡ₚ seqZ 0 (WORKGROUP_SIZE * groups)) ->
      match run a b with
      | Done (Ok (out, _, _)) => out = zip_with gpu_add a b
      | Done (Err _) => adapter = None \/ is_ok device = false \/ is_ok (mapped ≫= id) = false
      | Panicked => refused_by_wgpu bindable dispatchable a b
      end
      /\ forall show_addr kernel out job local peer ms,
           (forall x y, gpu_add x y = f32_add x y) -> run a b = Done (Ok out) -> kernel a b = Ok out ->
           wj_a job = a -> wj_b job = b -> wj_op job = "add_f32" -> Z.of_nat (length a) = wj_n job ->
           Forall (fun s => is_finite s = true) (cpu_add a b) ->
           wr_status (answer show_addr (Some kernel) job local peer ms) = "ok"
           /\ wr_out (answer show_addr (Some kernel) job local peer ms) = cpu_add a b).
Proof.
  intros run. split.
  { intros Hne. unfold run, add_f32. by rewrite bool_decide_eq_true_2. }
  intros Hlen Hb Horder.
  pose proof (add_f32_cases gpu_add checks adapter device bindable dispatchable order mapped a b Hlen Hb Horder) as Hrun.
  split; [exact Hrun|]. intros show_addr kernel [[out backend] name] job local peer ms Hadd Hr Hk <- <- Hop Hn Hfin.
  unfold run in Hr. rewrite Hr in Hrun. subst out.
  assert (zip_with gpu_add (wj_a job) (wj_b job) = cpu_add (wj_a job) (wj_b job)) as Hz.
  { unfold cpu_add. clear -Hadd. generalize (wj_b job). induction (wj_a job) as [|x l IH]; intros [|y l']; simpl; [done..|].
    by rewrite Hadd, IH. }
  unfold answer, execute_add. rewrite Hop. cbn [String.eqb Ascii.eqb Bool.eqb negb].
  rewrite bool_decide_eq_false_2 by lia. rewrite Hk, Hz.
  rewrite correctness_ok_reference by done. done.
Qed.

(** ** A concrete run

    A device that runs the invocations backwards. *)

Definition demo_order (groups : Z) : list Z := reverse (seqZ 0 (WORKGROUP_SIZE * groups)).
Definition demo_a : list f32 := replicate 70 f32_tolerance.
Definition demo_run : list f32 -> list f32 -> outcome (result string (list f32 * string * string)) :=
  add_f32 f32_add true (Some (mkAdapterInfo "demo" "Vulkan")) (Ok tt) (fun _ => true) (fun _ => true) demo_order
    (Ok (Ok tt)).

Lemma kernel_is_cpu_add_witness :
  exists out, demo_run demo_a demo_a = Done (Ok (out, "Vulkan", "demo (Vulkan)"))
    /\ out = zip_with f32_add demo_a demo_a
    /\ wr_status (answer (fun _ => "") (Some (fun _ _ => Ok (out, "Vulkan", "demo (Vulkan)")))
                    (mkWgpuJob "j" "add_f32" 70 demo_a demo_a) (mkSocketAddr (V4 (100, 64, 0, 1)) 1)
                    (mkSocketAddr (V4 (100, 64, 0, 2)) 2) 0) = "ok".
Proof.
  eexists. split; [vm_compute; reflexivity|].
  destruct (kernel_is_cpu_add f32_add true (Some (mkAdapterInfo "demo" "Vulkan")) (Ok tt) (fun _ => true)
              (fun _ => true) demo_order (Ok (Ok tt)) demo_a demo_a) as [_ Hk].
  destruct Hk as [Hk Hok]; [done|by vm_compute|intros g; apply reverse_Permutation|].
  split; [vm_compute; reflexivity|].
  eapply Hok; try reflexivity.
  apply Forall_forall. intros s. vm_compute. intros Hin. apply list_elem_of_In in Hin. simpl in Hin.
  repeat (destruct Hin as [<-|Hin]; [reflexivity|]). destruct Hin.
Defined.
