(* ===== verification/Regex.v ===== *)
(** * Regular expressions

    What the corpus validator relies on in the [regex] crate: the syntax its two
    patterns use, the words a pattern matches in context ([\b] looks at the
    characters around), and the documented meaning of [is_match] and of
    [find_iter] - leftmost first, alternatives and repetitions in the order of
    preference. The crate is a [Class] with these as laws; an executable matcher,
    proved to find exactly the matches, is an instance. *)

From stdpp Require Import base tactics option list strings.
From Stdlib Require Import Ascii String.
From S2P Require Import Prelude Str Utf8.

#[local] Open Scope Z_scope.

(** ** Characters *)

Definition byte_val (i : nat) (s : string) : Z :=
  match str_drop i s with String a _ => Z.of_nat (nat_of_ascii a) | EmptyString => 0 end.

(** The scalar value of the first character, [n] bytes long. *)
Definition scalar (n : nat) (s : string) : Z :=
  let low i := byte_val i s `mod` 64 in
  match n with
  | 2%nat => (byte_val 0 s `mod` 32) * 64 + low 1%nat
  | 3%nat => (byte_val 0 s `mod` 16) * 4096 + low 1%nat * 64 + low 2%nat
  | 4%nat => (byte_val 0 s `mod` 8) * 262144 + low 1%nat * 4096 + low 2%nat * 64 + low 3%nat
  | _ => byte_val 0 s
  end.

Fixpoint chars_go (skip : nat) (s : string) : list Z :=
  match s with
  | EmptyString => []
  | String _ s' =>
      match skip with
      | S k => chars_go k s'
      | O => let n := (utf8_step s).2 in scalar n s :: chars_go (pred n) s'
      end
  end.

(** [str::chars] of well-formed text. *)
Definition chars (s : string) : list Z := chars_go 0 s.

Definition byte (z : Z) : ascii := byte_of (Z.to_nat z).

(** [char::encode_utf8]. *)
Definition encode_char (z : Z) : string :=
  if bool_decide (z < 128) then str1 (byte z)
  else if bool_decide (z < 2048) then String (byte (192 + z / 64)) (str1 (byte (128 + z `mod` 64)))
  else if bool_decide (z < 65536) then
    String (byte (224 + z / 4096)) (String (byte (128 + z / 64 `mod` 64)) (str1 (byte (128 + z `mod` 64))))
  else String (byte (240 + z / 262144)) (String (byte (128 + z / 4096 `mod` 64))
         (String (byte (128 + z / 64 `mod` 64)) (str1 (byte (128 + z `mod` 64))))).

Definition encode (cs : list Z) : string := foldr (fun z s => encode_char z +:+ s) EmptyString cs.

(** ** Syntax *)

(** A class: ranges of ASCII characters, or [\s]. *)
Inductive Cls : Type :=
  | Ranges (rs : list (Z * Z))
  | Space.

(** A repetition is of one class, greedy, at most [hi] times. *)
Inductive Re : Type :=
  | Eps
  | Bound
  | Rep (lo : nat) (hi : option nat) (c : Cls)
  | Seq (a b : Re)
  | Alt (a b : Re).

(** A pattern and whether [(?i)] is set. *)
Record Pattern : Type := mkPattern {
  re_body : Re;
  re_ignore_case : bool;
}.

Definition char_in (rs : list (Z * Z)) : Re := Rep 1 (Some 1%nat) (Ranges rs).
Definition at_most_one (c : Cls) : Re := Rep 0 (Some 1%nat) c.
Definition seqs (l : list Re) : Re := foldr Seq Eps l.
Definition lit (s : string) : Re := seqs ((fun z => char_in [(z, z)]) <$> chars s).
Fixpoint alts (r : Re) (l : list Re) : Re :=
  match l with [] => r | r' :: l => Alt r (alts r' l) end.

(** ** Classes *)

Definition in_ranges (rs : list (Z * Z)) (z : Z) : bool :=
  existsb (fun '(lo, hi) => bool_decide (lo <= z <= hi)) rs.

(** [White_Space]. *)
Definition is_space (z : Z) : bool :=
  in_ranges [(9, 13); (32, 32); (133, 133); (160, 160); (5760, 5760); (8192, 8202);
             (8232, 8233); (8239, 8239); (8287, 8287); (12288, 12288)] z.

(** The characters that case folding identifies with [z], as far as an ASCII
    class can tell: the two cases of a letter, the Kelvin sign with [k], the long
    s with [s]. *)
Definition lower (z : Z) : Z :=
  if bool_decide (65 <= z <= 90) then z + 32
  else if bool_decide (z = 8490) then 107 else if bool_decide (z = 383) then 115 else z.
Definition variants (z : Z) : list Z :=
  let l := lower z in if bool_decide (97 <= l <= 122) then [l; l - 32] else [l].

Definition in_cls (ignore_case : bool) (c : Cls) (z : Z) : bool :=
  match c with
  | Ranges rs => if ignore_case then existsb (in_ranges rs) (variants z) else in_ranges rs z
  | Space => is_space z
  end.

(** The word characters of ASCII. *)
Definition ascii_word (z : Z) : bool := in_ranges [(48, 57); (65, 90); (95, 95); (97, 122)] z.

(** ** Matches *)

Section matching.
(** [\w]: beyond ASCII, Unicode's tables. *)
Context (word : Z -> bool).

Definition word_opt (o : option Z) : bool := from_option word false o.

(** The character before [w], after [p]; the character at its start, before [n]. *)
Definition last_or (p : option Z) (w : list Z) : option Z :=
  match last w with Some z => Some z | None => p end.
Definition head_or (w : list Z) (n : option Z) : option Z :=
  match w with z :: _ => Some z | [] => n end.

Definition at_most (hi : option nat) (k : nat) : Prop :=
  match hi with Some h => (k <= h)%nat | None => True end.

(** [Matches i r p w n]: between the characters [p] and [n], [r] matches [w]. *)
Inductive Matches (i : bool) : Re -> option Z -> list Z -> option Z -> Prop :=
  | M_eps p n : Matches i Eps p [] n
  | M_bound p n : word_opt p <> word_opt n -> Matches i Bound p [] n
  | M_rep lo hi c p w n : (lo <= length w)%nat -> at_most hi (length w) ->
      Forall (fun z => in_cls i c z = true) w -> Matches i (Rep lo hi c) p w n
  | M_seq a b p w1 w2 n : Matches i a p w1 (head_or w2 n) -> Matches i b (last_or p w1) w2 n ->
      Matches i (Seq a b) p (w1 ++ w2) n
  | M_alt_l a b p w n : Matches i a p w n -> Matches i (Alt a b) p w n
  | M_alt_r a b p w n : Matches i b p w n -> Matches i (Alt a b) p w n.

(** The pattern matches somewhere in the text. *)
Definition occurs (r : Pattern) (text : list Z) : Prop :=
  exists a w b, text = app a (app w b)
    /\ Matches (re_ignore_case r) (re_body r) (last a) w (head b).

(** *** The matcher *)

Definition cap (hi : option nat) (k : nat) : nat := match hi with Some h => Nat.min h k | None => k end.

Fixpoint prefix_len (f : Z -> bool) (s : list Z) : nat :=
  match s with z :: s' => if f z then S (prefix_len f s') else O | [] => O end.

(** The lengths of the matches at the head of [s], the preferred one first. *)
Fixpoint ends (i : bool) (r : Re) (p : option Z) (s : list Z) : list nat :=
  match r with
  | Eps => [O]
  | Bound => if bool_decide (word_opt p = word_opt (head s)) then [] else [O]
  | Rep lo hi c => let n := cap hi (prefix_len (in_cls i c) s) in reverse (seq lo (S n - lo))
  | Seq a b => ends i a p s ≫= fun k => Nat.add k <$> ends i b (last_or p (take k s)) (drop k s)
  | Alt a b => app (ends i a p s) (ends i b p s)
  end.

(** Does it match at or after the head of [s]? *)
Fixpoint search (r : Pattern) (p : option Z) (s : list Z) : bool :=
  match ends (re_ignore_case r) (re_body r) p s with
  | _ :: _ => true
  | [] => match s with z :: s' => search r (Some z) s' | [] => false end
  end.

(** The successive matches, leftmost first and none inside another, of a
    pattern that matches no empty word. *)
Fixpoint find_from (r : Pattern) (skip : nat) (p : option Z) (s : list Z) : list (list Z) :=
  match s with
  | [] => []
  | z :: s' =>
      match skip with
      | S k => find_from r k (Some z) s'
      | O => match ends (re_ignore_case r) (re_body r) p s with
             | S k :: _ => take (S k) s :: find_from r k (Some z) s'
             | _ => find_from r O (Some z) s'
             end
      end
  end.
Definition find_all (r : Pattern) (s : list Z) : list (list Z) := find_from r O None s.

Definition never_empty (r : Pattern) : Prop :=
  forall p w n, Matches (re_ignore_case r) (re_body r) p w n -> w <> [].

End matching.

(** ** The crate *)

(** The tables, on ASCII and on the two characters that fold to it, and the
    documented meaning of the two searches. *)
Class RegexCrate (word : Z -> bool) (is_match : Pattern -> string -> bool)
    (find_iter : Pattern -> string -> list string) : Prop := {
  word_ascii z : 0 <= z < 128 -> word z = ascii_word z;
  word_kelvin : word 8490 = true;
  word_long_s : word 383 = true;
  is_match_occurs r t : is_match r t = true <-> occurs word r (chars t);
  find_iter_all r t : never_empty word r -> find_iter r t = encode <$> find_all word r (chars t);
}.

(** ** The matcher finds exactly the matches *)

Section correct.
Context (word : Z -> bool).
Implicit Types (r : Re) (p n : option Z) (s w b : list Z).

Lemma prefix_len_le f s : (prefix_len f s <= length s)%nat.
Proof. induction s as [|z s IH]; simpl; [done|]. destruct (f z); lia. Qed.

Lemma prefix_len_app f w b :
  (length w <= prefix_len f (app w b))%nat <-> Forall (fun z => f z = true) w.
Proof.
  induction w as [|z w IH]; cbn [length app prefix_len]; [split; [constructor|lia]|].
  rewrite Forall_cons. destruct (f z); [rewrite <-Nat.succ_le_mono, IH; naive_solver|split; [lia|naive_solver]].
Qed.

Lemma cap_le hi k m : (k <= cap hi m)%nat <-> at_most hi k /\ (k <= m)%nat.
Proof. destruct hi; simpl; lia. Qed.

Lemma head_app w b : head (app w b) = head_or w (head b).
Proof. by destruct w. Qed.

Lemma last_or_cons p z w : last_or p (z :: w) = last_or (Some z) w.
Proof. unfold last_or. rewrite last_cons. by destruct (last w). Qed.

Lemma last_or_app p w1 w2 : last_or p (app w1 w2) = last_or (last_or p w1) w2.
Proof. unfold last_or. rewrite last_app. by destruct (last w2). Qed.

Lemma ends_rep i lo hi c p s k :
  k ∈ ends word i (Rep lo hi c) p s <->
  (lo <= k)%nat /\ at_most hi k /\ (k <= prefix_len (in_cls i c) s)%nat.
Proof. cbn [ends]. rewrite elem_of_reverse, elem_of_seq, <-cap_le. lia. Qed.

Lemma ends_seq i r1 r2 p s k :
  k ∈ ends word i (Seq r1 r2) p s <->
  exists k1 k2, k = (k1 + k2)%nat /\ k1 ∈ ends word i r1 p s
    /\ k2 ∈ ends word i r2 (last_or p (take k1 s)) (drop k1 s).
Proof.
  cbn [ends]. rewrite list_elem_of_bind. split.
  - intros (k1 & (k2 & -> & H2)%list_elem_of_fmap & H1). by exists k1, k2.
  - intros (k1 & k2 & -> & H1 & H2). exists k1. split; [|done]. apply list_elem_of_fmap. by exists k2.
Qed.

Lemma ends_le i r p s k : k ∈ ends word i r p s -> (k <= length s)%nat.
Proof.
  revert p s k. induction r as [| |lo hi c|r1 IH1 r2 IH2|r1 IH1 r2 IH2]; intros p s k.
  - intros ->%list_elem_of_singleton. lia.
  - cbn [ends]. case_bool_decide; [by intros ?%elem_of_nil|]. intros ->%list_elem_of_singleton. lia.
  - rewrite ends_rep. pose proof (prefix_len_le (in_cls i c) s). lia.
  - rewrite ends_seq. intros (k1 & k2 & -> & H1%IH1 & H2%IH2). rewrite length_drop in H2. lia.
  - cbn [ends]. rewrite elem_of_app. naive_solver.
Qed.

(** A length is found exactly when that much of the text is a match in its context. *)
Lemma ends_spec i r p w b :
  length w ∈ ends word i r p (app w b) <-> Matches word i r p w (head b).
Proof.
  revert p w b. induction r as [| |lo hi c|r1 IH1 r2 IH2|r1 IH1 r2 IH2]; intros p w b.
  - cbn [ends]. rewrite list_elem_of_singleton. split.
    + intros ->%length_zero_iff_nil. constructor.
    + by inversion 1.
  - cbn [ends]. case_bool_decide as Hb.
    + split; [by intros ?%elem_of_nil|]. inversion 1; subst. done.
    + rewrite list_elem_of_singleton. split.
      * intros ->%length_zero_iff_nil. by constructor.
      * by inversion 1.
  - rewrite ends_rep, prefix_len_app. split; [intros (?&?&?); by constructor|by inversion 1].
  - rewrite ends_seq. split.
    + intros (k1 & k2 & Hk & H1 & H2).
      assert (k1 <= length w)%nat as Hle by lia.
      rewrite take_app_le in H2 by done. rewrite drop_app_le in H2 by done.
      rewrite <-(take_drop k1 w) in H1 |- *. rewrite <-app_assoc in H1.
      assert (length (take k1 w) = k1) as Ht by (rewrite length_take; lia).
      assert (length (drop k1 w) = k2) as Hd by (rewrite length_drop; lia).
      constructor.
      * rewrite <-head_app. apply IH1. by rewrite Ht.
      * apply IH2. by rewrite Hd.
    + inversion 1 as [| | |? ? ? w1 w2 ? H1 H2| |]; subst. exists (length w1), (length w2).
      rewrite length_app, <-app_assoc. split; [done|]. rewrite take_app_length, drop_app_length.
      split; [|by apply IH2]. apply IH1. by rewrite head_app.
  - cbn [ends]. rewrite elem_of_app, IH1, IH2. split.
    + intros [?|?]; [by apply M_alt_l|by apply M_alt_r].
    + inversion 1; auto.
Qed.

Lemma ends_none i r p s :
  ends word i r p s = [] <-> forall w b, s = app w b -> ~ Matches word i r p w (head b).
Proof.
  split.
  - intros Hn w b -> Hm%ends_spec. rewrite Hn in Hm. by apply elem_of_nil in Hm.
  - intros Hno. apply elem_of_nil_inv. intros k Hk. pose proof (ends_le _ _ _ _ _ Hk) as Hl.
    apply (Hno (take k s) (drop k s)); [by rewrite take_drop|]. apply ends_spec.
    rewrite take_drop, length_take. by replace (k `min` length s)%nat with k by lia.
Qed.

(** [search] finds a match exactly when there is one. *)
Lemma search_spec (r : Pattern) p s :
  search word r p s = true <-> exists a w b, s = app a (app w b)
    /\ Matches word (re_ignore_case r) (re_body r) (last_or p a) w (head b).
Proof.
  revert p. induction s as [|z s IH]; intros p; cbn [search];
    destruct (ends word (re_ignore_case r) (re_body r) p _) as [|k ks] eqn:E.
  - split; [done|]. intros (a & w & b & Heq & Hm). rewrite ends_none in E.
    destruct a; [|done]. by destruct (E w b).
  - split; [|done]. intros _. exists [], [], []. split; [done|]. apply (ends_spec _ _ p [] []).
    assert (k ∈ k :: ks) as Hk by by left. rewrite <-E in Hk. pose proof (ends_le _ _ _ _ _ Hk).
    simpl in *. by replace k with 0%nat in * by lia.
  - rewrite IH. split.
    + intros (a & w & b & -> & Hm). exists (z :: a), w, b. split; [done|].
      by rewrite last_or_cons.
    + intros ([|z' a] & w & b & Heq & Hm).
      { rewrite ends_none in E. by destruct (E w b). }
      injection Heq as <- ->. exists a, w, b. split; [done|]. by rewrite <-(last_or_cons p).
  - split; [|done]. intros _. exists [], (take k (z :: s)), (drop k (z :: s)).
    split; [by rewrite take_drop|]. apply ends_spec. rewrite take_drop, length_take.
    assert (k ∈ k :: ks) as Hk by by left. rewrite <-E in Hk. pose proof (ends_le _ _ _ _ _ Hk).
    by replace (k `min` length (z :: s))%nat with k by lia.
Qed.

Lemma search_occurs (r : Pattern) s : search word r None s = true <-> occurs word r s.
Proof.
  rewrite search_spec. unfold occurs.
  assert (forall a : list Z, last_or None a = last a) as Hl by (intros a; unfold last_or; by destruct (last a)).
  by setoid_rewrite Hl.
Qed.

End correct.

(** Two tables that agree on a text agree on the matches in it. *)
Lemma ends_ext word word' i r p s :
  (forall z, z ∈ s \/ p = Some z -> word z = word' z) -> ends word i r p s = ends word' i r p s.
Proof.
  revert p s. induction r as [| |lo hi c|r1 IH1 r2 IH2|r1 IH1 r2 IH2]; intros p s H; cbn [ends]; try done.
  - replace (word_opt word p) with (word_opt word' p) by (destruct p; simpl; [rewrite H|]; auto).
    replace (word_opt word (head s)) with (word_opt word' (head s)); [done|].
    destruct s as [|z s]; simpl; [done|]. rewrite H; [done|]. left. by left.
  - rewrite (IH1 p s H). apply list_bind_ext; [|done]. intros k. f_equal. apply IH2.
    intros z [Hz|Hz]; apply H.
    + left. eapply elem_of_subseteq; [|exact Hz]. apply subseteq_drop.
    + unfold last_or in Hz. destruct (last (take k s)) as [x|] eqn:E; [|by right].
      left. injection Hz as ->. apply last_Some_elem_of in E.
      eapply elem_of_subseteq; [|exact E]. apply subseteq_take.
  - by rewrite (IH1 p s H), (IH2 p s H).
Qed.

Lemma search_ext word word' r p s :
  (forall z, z ∈ s \/ p = Some z -> word z = word' z) -> search word r p s = search word' r p s.
Proof.
  revert p. induction s as [|z s IH]; intros p H; cbn [search];
    rewrite (ends_ext word word') by done; case_match; try done.
  apply IH. intros y [Hy|[= ->]]; apply H; left; [by right|by left].
Qed.

(** ** The executable crate *)

(** The tables cut to what the laws say. *)
Definition demo_word (z : Z) : bool := ascii_word z || bool_decide (z = 8490 \/ z = 383).

#[export] Instance matcher_crate :
  RegexCrate demo_word (fun r t => search demo_word r None (chars t))
    (fun r t => encode <$> find_all demo_word r (chars t)).
Proof.
  split; [|done|done| |done].
  - intros z Hz. unfold demo_word. rewrite bool_decide_eq_false_2 by lia. apply orb_false_r.
  - intros r t. apply search_occurs.
Qed.
