(* ===== verification/PatternNames.v ===== *)
(** * Names the secret marker misses (tools/dataset-validate/src/lib.rs)

    [Patterns] says which shapes [SECRET_MARKER_REGEX] recognises. Here: which
    names, standing in a text as whole words, are flagged because of them - bare,
    before a sign, and in quotes before a sign - and so which of the usual forms
    of a secret are not. *)

From stdpp Require Import base tactics option list gmap strings.
From Stdlib Require Import Ascii String.
From S2P Require Import Prelude Str Utf8 Regex Patterns.

#[local] Open Scope Z_scope.

(** The pairs as one word. *)
Definition PAIR_NAMES : list (list Z) :=
  flat_map (fun '(pre, post) => [app (chars pre) (chars post); app (chars pre) (95 :: chars post)]) SECRET_PAIRS.
Definition ASSIGNED_NAMES : list (list Z) := chars <$> ASSIGNED.

Definition aws_key (name : list Z) : Prop :=
  exists k body, name = app k body /\ spells k "akia" /\ length body = 16%nat
    /\ Forall (fun z => aws_char z = true) body.

(** A name that is flagged wherever it is a whole word, and one that is flagged
    before a sign. Both up to case. *)
Definition standing_name (name : list Z) : Prop := lower <$> name ∈ PAIR_NAMES \/ aws_key name.
Definition assigned_name (name : list Z) : Prop := lower <$> name ∈ ASSIGNED_NAMES.

Lemma pair_names w :
  w ∈ PAIR_NAMES <-> exists pre post sp, (pre, post) ∈ SECRET_PAIRS /\ (sp = [] \/ sp = [95])
    /\ w = app (chars pre) (app sp (chars post)).
Proof.
  unfold PAIR_NAMES. rewrite list_elem_of_In, in_flat_map. split.
  - intros ([pre post] & Hin%list_elem_of_In & Hw). exists pre, post.
    destruct Hw as [<-|[<-|[]]]; [exists []|exists [95]]; auto.
  - intros (pre & post & sp & Hin & Hsp & ->). exists (pre, post). split; [by apply list_elem_of_In|].
    destruct Hsp as [->| ->]; [by left|right; by left].
Qed.

Section names.
Context {word : Z -> bool} {is_match : Pattern -> string -> bool} {find_iter : Pattern -> string -> list string}
  `{!RegexCrate word is_match find_iter}.
(** White space is not a word character. *)
Context (word_space : forall z, is_space z = true -> word z = false).
Implicit Types (w a b s : list Z).

Notation words := (Forall (fun z => word z = true)).
#[local] Notation flagged := (flagged (word := word)).

(** ** What a shape is made of *)

Lemma spelled_words k kw : kw ∈ ASSIGNED -> spells k kw -> k <> [] /\ words k.
Proof.
  intros Hin. apply spells_word. revert kw Hin. apply Forall_forall. by repeat constructor.
Qed.

Lemma space_plain z : is_space z = true -> z <> 45 /\ z <> 34 /\ ~ 97 <= lower z <= 122.
Proof.
  intros Hz. pose proof (word_space z Hz) as Hw. split_and!; [by intros ->|by intros ->|].
  intros Hl. apply letter_word in Hl. congruence.
Qed.

Lemma sign_word c : c = 61 \/ c = 58 -> word c = false.
Proof. intros [->| ->]; by rewrite word_ascii. Qed.

Lemma quote_word : word 34 = false.
Proof. by rewrite word_ascii. Qed.

(** The pairs: their parts are letters. *)
Lemma pair_letters pre post :
  (pre, post) ∈ SECRET_PAIRS ->
  (chars pre <> [] /\ Forall (fun z => 97 <= z <= 122) (chars pre))
  /\ chars post <> [] /\ Forall (fun z => 97 <= z <= 122) (chars post).
Proof.
  intros Hin. assert (plain pre = true /\ plain post = true) as [Hpre Hpost].
  { revert Hin. set (ok := fun '(pre, post) => plain pre = true /\ plain post = true).
    intros Hin. assert (Forall ok SECRET_PAIRS) as H by (by repeat constructor).
    exact (proj1 (Forall_forall ok SECRET_PAIRS) H _ Hin). }
  assert (forall t, plain t = true -> chars t <> []) as Hne.
  { intros t Ht E. by destruct (spells_word (word := word) [] t Ht) as [? _]; [unfold spells; rewrite E|]. }
  auto using plain_letters.
Qed.

Lemma lower_letters_words w : Forall (fun z => 97 <= lower z <= 122) w -> words w.
Proof. intros H. eapply Forall_impl; [exact H|]. intros z. apply letter_word. Qed.

Lemma lower_in w l : lower <$> w = l -> Forall (fun z => 97 <= z <= 122) l -> words w.
Proof. intros <- H. apply lower_letters_words. by rewrite Forall_fmap in H. Qed.

Lemma lower_is c z : lower z = c -> c = 45 \/ c = 95 -> z = c.
Proof. unfold lower. repeat case_bool_decide; lia. Qed.

(** A shape is a flagged name, a pair with a hyphen, or an assigned name, white
    space and a sign. *)
Lemma shape_cases whole w :
  secret_shape whole w ->
  (whole = true /\ w <> [] /\ words w /\ standing_name w)
  \/ (whole = true /\ exists u t, w = app u (45 :: t) /\ u <> [] /\ t <> [] /\ words u /\ words t)
  \/ (whole = false /\ exists u gap c, w = app u (app gap [c]) /\ u <> [] /\ words u /\ assigned_name u
       /\ Forall (fun z => is_space z = true) gap /\ (c = 61 \/ c = 58)).
Proof.
  destruct 1 as [pre post sp w Hin Hsp Heq|kw k gap c Hin Hs Hg Hc|k body Hs Hl Hf].
  - pose proof (pair_letters _ _ Hin) as ([Hn1 Hl1] & Hn2 & Hl2).
    apply fmap_app_inv in Heq as (u & w2 & Hu & Hw2 & ->).
    symmetry in Hw2. apply fmap_app_inv in Hw2 as (m & t & Hm & Ht & ->).
    assert (u <> []) by (intros ->; by destruct (chars pre)).
    assert (t <> []) by (intros ->; by destruct (chars post)).
    assert (words u /\ words t) as [Hwu Hwt] by (split; by eapply lower_in; [symmetry|]).
    unfold SEPARATORS in Hsp. rewrite !elem_of_cons, elem_of_nil in Hsp. destruct Hsp as [->|[->|[->|[]]]].
    + left. destruct m; [|done]. cbn [app]. split_and!; [done|by destruct u|by apply Forall_app|].
      left. apply pair_names. exists pre, post, []. rewrite fmap_app, <-Hu, <-Ht. auto.
    + left. destruct m as [|z [|? ?]]; try done. injection Hm as Hz. symmetry in Hz.
      apply lower_is in Hz as ->; [|by right]. split_and!; [done|by destruct u|..].
      * apply Forall_app. split; [done|]. constructor; [by rewrite word_ascii|done].
      * left. apply pair_names. exists pre, post, [95]. rewrite !fmap_app, <-Hu, <-Ht. auto.
    + right. left. split; [done|]. destruct m as [|z [|? ?]]; try done. injection Hm as Hz. symmetry in Hz.
      apply lower_is in Hz as ->; [|by left]. by exists u, t.
  - right. right. split; [done|]. exists k, gap, c. destruct (spelled_words k kw Hin Hs) as [Hk Hw]. split_and!; try done.
    unfold assigned_name, spells in *. rewrite Hs. by apply list_elem_of_fmap_2.
  - left. assert (k <> [] /\ words k) as [Hk Hw] by (by apply (spells_word (word := word)) with "akia"%string).
    split_and!; [done|by destruct k|..].
    + apply Forall_app. split; [done|]. eapply Forall_impl; [exact Hf|]. intros z. by apply aws_word.
    + right. by exists k, body.
Qed.

(** A shape begins with a letter and, when a word must end after it, ends in a
    word character. *)
Lemma shape_head whole w : secret_shape whole w -> exists z w', w = z :: w' /\ word z = true.
Proof.
  intros [(_ & Hne & Hw & _)|[(_ & u & t & -> & Hne & _ & Hw & _)|(_ & u & gap & c & -> & Hne & Hw & _)]]%shape_cases;
    [destruct w as [|z w]|destruct u as [|z u]..]; try done; apply Forall_cons in Hw as [Hz _]; by eexists _, _.
Qed.

Lemma words_last w : w <> [] -> words w -> word_opt word (last w) = true.
Proof.
  intros Hne Hw. destruct (last w) as [z|] eqn:E; [|by apply last_None in E].
  apply last_Some_elem_of in E. by eapply Forall_forall in Hw.
Qed.

Lemma last_app_ne {A} (l1 l2 : list A) : l2 <> [] -> last (app l1 l2) = last l2.
Proof. intros H. rewrite last_app. destruct (last l2) eqn:E; [done|]. by apply last_None in E. Qed.

Lemma head_app_ne {A} (l1 l2 : list A) : l1 <> [] -> head (app l1 l2) = head l1.
Proof. by destruct l1. Qed.

Lemma shape_last w : secret_shape true w -> word_opt word (last w) = true.
Proof.
  intros [(_ & Hne & Hw & _)|[(_ & u & t & -> & _ & Hne & _ & Hw)|(? & _)]]%shape_cases; [by apply words_last| |done].
  rewrite last_app_ne by done. change (45 :: t) with (app [45] t). rewrite last_app_ne by done. by apply words_last.
Qed.

(** ** Where a text can be taken apart *)

(** No shape lies across the place between [a] and [b]. *)
Definition apart a b : Prop :=
  forall whole w1 w2, w1 <> [] -> w2 <> [] -> secret_shape whole (app w1 w2) ->
    last w1 = last a -> head w2 = head b -> False.

Lemma flagged_left a b :
  word_opt word (last a) = false \/ word_opt word (head b) = false -> flagged a -> flagged (app a b).
Proof.
  intros Hb (x & w & y & whole & -> & Hs & Hx & Hy). exists x, w, (app y b), whole.
  split; [by rewrite <-!app_assoc|]. split_and!; [done..|]. intros Hwh. specialize (Hy Hwh). subst whole.
  destruct y as [|z y]; [|done]. destruct Hb as [Hb|Hb]; [|done]. exfalso.
  destruct (shape_head _ _ Hs) as (z & w' & -> & _). rewrite app_nil_r in Hb.
  rewrite last_app_ne in Hb by done. by rewrite (shape_last _ Hs) in Hb.
Qed.

Lemma flagged_right a b :
  word_opt word (last a) = false \/ word_opt word (head b) = false -> flagged b -> flagged (app a b).
Proof.
  intros Hb (x & w & y & whole & -> & Hs & Hx & Hy). exists (app a x), w, y, whole.
  split; [by rewrite <-!app_assoc|]. split_and!; [done| |done].
  destruct x as [|z x]; [|by rewrite last_app_ne]. rewrite app_nil_r.
  destruct Hb as [Hb|Hb]; [done|]. destruct (shape_head _ _ Hs) as (z & w' & -> & Hz). cbn in Hb. congruence.
Qed.

Lemma flagged_split a b :
  word_opt word (last a) = false \/ word_opt word (head b) = false -> apart a b ->
  flagged (app a b) <-> flagged a \/ flagged b.
Proof.
  intros Hb Hap. split; [|intros [?|?]; [by apply flagged_left|by apply flagged_right]].
  intros (x & w & y & whole & Heq & Hs & Hx & Hy).
  apply app_eq_inv in Heq as [(k & -> & Heq)|(k & -> & ->)].
  - apply app_eq_inv in Heq as [(k2 & -> & ->)|(k2 & -> & ->)].
    + destruct k as [|z k].
      { right. exists [], k2, y, whole. rewrite app_nil_r in *. by split_and!. }
      left. destruct k2 as [|z2 k2].
      { exists x, (z :: k), [], whole. rewrite !app_nil_r in *. by split_and!. }
      exfalso. eapply (Hap whole (z :: k) (z2 :: k2)); try done. by rewrite last_app_ne.
    + left. exists x, w, k2, whole. split_and!; try done. intros Hwh. specialize (Hy Hwh). by destruct k2.
  - right. exists k, w, y, whole. split_and!; try done.
    destruct k as [|z k]; [done|]. by rewrite last_app_ne in Hx.
Qed.

(** *** After a sign *)

Lemma shape_sign whole w1 c w2 :
  c = 61 \/ c = 58 -> w2 <> [] -> secret_shape whole (app w1 w2) -> c ∈ w1 -> False.
Proof.
  intros Hc Hne Hs Hin. pose proof (sign_word c Hc) as Hw.
  assert (forall l, words l -> c ∉ l) as Hnot.
  { intros l Hl Hcl. eapply Forall_forall in Hl; [|exact Hcl]. simpl in Hl. congruence. }
  apply shape_cases in Hs as [(_ & _ & Hws & _)|[(_ & u & t & Heq & _ & _ & Hu & Ht)
    |(_ & u & gap & c' & Heq & _ & Hu & _ & Hg & _)]].
  - apply Forall_app in Hws as [Hws _]. by eapply Hnot.
  - assert (c ∈ app u (45 :: t)) as H by (rewrite <-Heq; apply elem_of_app; by left).
    rewrite elem_of_app, elem_of_cons in H. destruct H as [H|[->|H]]; [exact (Hnot _ Hu H)|lia|exact (Hnot _ Ht H)].
  - rewrite app_assoc in Heq. destruct w2 as [|z w2 _] using rev_ind; [done|]. rewrite app_assoc in Heq.
    apply app_inj_tail in Heq as [Heq _].
    assert (c ∈ app u gap) as [H|H]%elem_of_app by (rewrite <-Heq; apply elem_of_app; by left); [exact (Hnot _ Hu H)|].
    eapply Forall_forall in Hg; [|exact H]. simpl in Hg. destruct Hc as [->| ->]; done.
Qed.

Lemma split_after_sign a c b :
  c = 61 \/ c = 58 -> flagged (app (app a [c]) b) <-> flagged (app a [c]) \/ flagged b.
Proof.
  intros Hc. apply flagged_split; [left; rewrite last_snoc; by apply sign_word|].
  intros whole w1 w2 _ Hne Hs Hl _. rewrite last_snoc in Hl. eapply shape_sign; [exact Hc|exact Hne|exact Hs|].
  by apply last_Some_elem_of.
Qed.

(** *** At a quote *)

Lemma shape_quote whole w : secret_shape whole w -> 34 ∈ w -> False.
Proof.
  intros Hs Hin. assert (forall l, words l -> 34 ∉ l) as Hnot.
  { intros l Hl Hcl. eapply Forall_forall in Hl; [|exact Hcl]. simpl in Hl. by rewrite quote_word in Hl. }
  apply shape_cases in Hs as [(_ & _ & Hws & _)|[(_ & u & t & -> & _ & _ & Hu & Ht)
    |(_ & u & gap & c & -> & _ & Hu & _ & Hg & Hc)]].
  - by eapply Hnot.
  - rewrite elem_of_app, elem_of_cons in Hin. destruct Hin as [H|[?|H]]; [exact (Hnot _ Hu H)|done|exact (Hnot _ Ht H)].
  - rewrite !elem_of_app, elem_of_cons, elem_of_nil in Hin.
    destruct Hin as [H|[H|[<-|[]]]]; [exact (Hnot _ Hu H)| |lia].
    eapply Forall_forall in Hg; [|exact H]. done.
Qed.

Lemma split_at_quote a b : flagged (app a (34 :: b)) <-> flagged a \/ flagged b.
Proof.
  rewrite flagged_split; [|right; by apply quote_word|].
  - change (34 :: b) with (app [34] b). rewrite flagged_split; [|left; by apply quote_word|].
    + assert (~ flagged [34]) as Hno; [|tauto].
      intros (x & w & y & whole & Heq & Hs & _). destruct (shape_head _ _ Hs) as (z & w' & -> & _).
      eapply shape_quote; [exact Hs|]. destruct x as [|? [|? ?]]; try done. injection Heq as <- _. by left.
    + intros whole w1 w2 _ _ Hs Hl _. eapply shape_quote; [exact Hs|]. apply elem_of_app. left.
      by apply last_Some_elem_of.
  - intros whole w1 w2 _ _ Hs _ Hh. eapply shape_quote; [exact Hs|]. apply elem_of_app. right.
    by apply head_Some_elem_of.
Qed.

(** *** Before a word *)

(** The text ends where a word can begin, and not in a hyphen. *)
Definition word_may_follow a : Prop :=
  match last a with Some z => word z = false /\ z <> 45 | None => True end.

Lemma split_before_word a b :
  word_may_follow a -> word_opt word (head b) = true -> flagged (app a b) <-> flagged a \/ flagged b.
Proof.
  unfold word_may_follow. intros Ha Hb. apply flagged_split.
  { left. by destruct (last a); [apply Ha|]. }
  intros whole w1 w2 Hn1 Hn2 Hs Hl Hh. rewrite <-Hl in Ha. rewrite <-Hh in Hb.
  destruct (last w1) as [z|] eqn:Ez; [|by apply last_None in Ez].
  destruct (head w2) as [x|] eqn:Ex; [|done]. destruct Ha as [Hz H45]. cbn in Hb.
  apply last_Some_elem_of in Ez. apply head_Some_elem_of in Ex.
  assert (forall l, words l -> z ∉ l) as Hnot.
  { intros l Hw Hzl. eapply Forall_forall in Hw; [|exact Hzl]. simpl in Hw. congruence. }
  apply shape_cases in Hs as [(_ & _ & Hws & _)|[(_ & u & t & Heq & _ & _ & Hu & Ht)
    |(_ & u & gap & c & Heq & _ & Hu & _ & Hg & Hc)]].
  - apply Forall_app in Hws as [Hws _]. exact (Hnot _ Hws Ez).
  - assert (z ∈ app u (45 :: t)) as H by (rewrite <-Heq; apply elem_of_app; by left).
    rewrite elem_of_app, elem_of_cons in H. destruct H as [H|[?|H]]; [exact (Hnot _ Hu H)|done|exact (Hnot _ Ht H)].
  - symmetry in Heq. apply app_eq_inv in Heq as [(k & -> & _)|(k & _ & Heq)].
    + apply Forall_app in Hu as [Hu _]. exact (Hnot _ Hu Ez).
    + assert (x ∈ app gap [c]) as [H|H]%elem_of_app by (rewrite Heq; apply elem_of_app; by right).
      * eapply Forall_forall in Hg; [|exact H]. apply word_space in Hg. congruence.
      * apply list_elem_of_singleton in H as ->. apply sign_word in Hc. congruence.
Qed.

(** ** Names as whole words *)

(** A stretch of word characters that has ended is determined by the text. *)
Lemma run_unique u w a b :
  words u -> words w -> word_opt word (head a) = false -> word_opt word (head b) = false ->
  app u a = app w b -> u = w /\ a = b.
Proof.
  intros Hu Hw Ha Hb [(k & -> & ->)|(k & -> & ->)]%app_eq_inv;
    (destruct k as [|z k]; [by rewrite app_nil_r|]); exfalso.
  - apply Forall_app in Hu as [_ [Hz _]%Forall_cons]. cbn in Hb. congruence.
  - apply Forall_app in Hw as [_ [Hz _]%Forall_cons]. cbn in Ha. congruence.
Qed.

(** White space and a sign, or nothing: what may follow a name here. *)
Definition no_words b : Prop := Forall (fun z => word z = false) b.

Lemma no_words_head b : no_words b -> word_opt word (head b) = false.
Proof. intros H. destruct H; done. Qed.

Lemma gap_no_words gap c :
  Forall (fun z => is_space z = true) gap -> c = 61 \/ c = 58 -> no_words (app gap [c]).
Proof.
  intros Hg Hc. apply Forall_app. split; [|constructor; [by apply sign_word|done]].
  eapply Forall_impl; [exact Hg|]. intros z. apply word_space.
Qed.

(** A shape in a name and what follows it starts with the name. *)
Lemma flagged_name_inv w b :
  w <> [] -> words w -> no_words b -> flagged (app w b) ->
  exists whole sh y, app w b = app sh y /\ secret_shape whole sh
    /\ (whole = true -> word_opt word (head y) = false).
Proof.
  intros Hne Hw Hb (x & sh & y & whole & Heq & Hs & Hx & Hy).
  destruct x as [|z x]; [by exists whole, sh, y|exfalso].
  destruct (shape_head _ _ Hs) as (v & sh' & -> & Hv).
  apply app_eq_inv in Heq as [(k & -> & Heq)|(k & Heq & Heq2)].
  - apply Forall_app in Hw as [Hw _]. rewrite (words_last (z :: x) ltac:(done) Hw) in Hx. done.
  - assert (word v = false) as Hv'; [|congruence].
    assert (v ∈ b) as Hin by (rewrite Heq2; apply elem_of_app; right; by left).
    by eapply Forall_forall in Hb.
Qed.

(** Alone, or before something else than a sign, and before a sign. *)
Lemma flagged_name w b :
  w <> [] -> words w -> no_words b -> head b <> Some 45 ->
  flagged (app w b) <->
  standing_name w
  \/ assigned_name w /\ exists gap c y, b = app gap (c :: y) /\ Forall (fun z => is_space z = true) gap /\ (c = 61 \/ c = 58).
Proof.
  intros Hne Hw Hb H45. pose proof (no_words_head b Hb) as Hhb. split.
  - intros (whole & sh & y & Heq & Hs & Hy)%flagged_name_inv; [|done..].
    apply shape_cases in Hs as [(-> & _ & Hws & Hst)|[(-> & u & t & -> & _ & _ & Hu & _)
      |(_ & u & gap & c & -> & _ & Hu & Has & Hg & Hc)]].
    + symmetry in Heq. apply run_unique in Heq as [-> _]; auto.
    + rewrite <-app_assoc in Heq. apply run_unique in Heq as [_ ->]; auto; [done|].
      cbn. by rewrite word_ascii.
    + rewrite <-!app_assoc in Heq. pose proof (gap_no_words gap c Hg Hc) as Hgc.
      apply run_unique in Heq as [<- ->]; auto.
      * right. split; [done|]. exists gap, c, y. by split_and!.
      * apply no_words_head in Hgc. destruct gap; done.
  - intros [[Hp|(k & body & -> & Hk & Hl & Hf)]|[Has (gap & c & y & -> & Hg & Hc)]].
    + apply pair_names in Hp as (pre & post & sp & Hin & Hsp & Heq). exists [], w, b, true. split_and!; try done.
      eapply shape_pair; [exact Hin| |exact Heq]. destruct Hsp as [->| ->]; [by left|right; by left].
    + exists [], (app k body), b, true. split_and!; try done. by apply shape_aws.
    + apply list_elem_of_fmap in Has as (kw & Hkw & Hin). exists [], (app w (app gap [c])), y, false.
      split_and!; try done; [by rewrite <-!app_assoc|]. by eapply shape_assign.
Qed.

(** ** Longer names *)

Definition ends_in (l k : list Z) : bool :=
  bool_decide (length k < length l)%nat && bool_decide (drop (length l - length k) l = k).

Lemma ends_in_app lead k : lead <> [] -> ends_in (app lead k) k = true.
Proof.
  intros Hne. unfold ends_in. rewrite length_app, Nat.add_sub, drop_app_length.
  rewrite !bool_decide_eq_true_2; [done..|]. destruct lead; [done|simpl; lia].
Qed.

(** No name of the lists ends in a shorter one. *)
Lemma no_longer_name l k :
  l ∈ app PAIR_NAMES ASSIGNED_NAMES -> k ∈ app PAIR_NAMES ASSIGNED_NAMES -> ends_in l k = false.
Proof.
  assert (forallb (fun l => forallb (fun k => negb (ends_in l k)) (app PAIR_NAMES ASSIGNED_NAMES))
            (app PAIR_NAMES ASSIGNED_NAMES) = true) as H by (vm_compute; reflexivity).
  intros Hl Hk. rewrite forallb_forall in H. apply list_elem_of_In in Hl, Hk.
  specialize (H l Hl). rewrite forallb_forall in H. specialize (H k Hk). by apply negb_true_iff in H.
Qed.

Lemma longer_name lead k :
  lead <> [] -> lower <$> k ∈ app PAIR_NAMES ASSIGNED_NAMES ->
  ~ assigned_name (app lead k) /\ (standing_name (app lead k) -> aws_key (app lead k)).
Proof.
  intros Hne Hk.
  assert (lower <$> app lead k ∉ app PAIR_NAMES ASSIGNED_NAMES) as Hno.
  { intros Hl. pose proof (no_longer_name _ _ Hl Hk) as H. rewrite fmap_app in H.
    rewrite ends_in_app in H; [done|]. by destruct lead. }
  rewrite elem_of_app in Hno. unfold assigned_name, standing_name. tauto.
Qed.

(** C39. Which names of secrets are seen, and which of the usual forms are not.
    Take a name - word characters, standing as a whole word - followed by white
    space, a sign and a value. Beyond what the text before it and the value hold
    themselves, a bare name is flagged exactly if it is, up to case, a pair of
    the list joined directly or by [_], an AWS key, or one of the password,
    secret and credential words; in quotes, as in JSON, exactly if it is one of
    the first two. So [password] in quotes is missed, whatever the value; and a
    longer name that ends in any of these words, as those of environment
    variables do, is missed too, unless it is an AWS key by itself. *)
Theorem secret_forms_missed text before name gap c value :
  name <> [] -> words name -> Forall (fun z => is_space z = true) gap -> c = 61 \/ c = 58 ->
  (word_may_follow (chars before) ->
   chars text = app (chars before) (app name (app gap (c :: chars value))) ->
   secret_marker is_match text = true <->
     secret_marker is_match before = true \/ (standing_name name \/ assigned_name name)
     \/ secret_marker is_match value = true)
  /\ (chars text = app (chars before) (34 :: app name (34 :: app gap (c :: chars value))) ->
      secret_marker is_match text = true <->
        secret_marker is_match before = true \/ standing_name name \/ secret_marker is_match value = true)
  /\ (forall lead k, name = app lead k -> lead <> [] -> lower <$> k ∈ app PAIR_NAMES ASSIGNED_NAMES ->
       ~ assigned_name name /\ (standing_name name -> aws_key name)).
Proof.
  intros Hne Hw Hg Hc. pose proof (gap_no_words gap c Hg Hc) as Hgc. split_and!.
  - intros Hbefore Ht. rewrite !secret_marker_flagged, Ht.
    rewrite split_before_word; [|done|rewrite head_app_ne by done; destruct Hw; done].
    replace (app name (app gap (c :: chars value))) with (app (app (app name gap) [c]) (chars value))
      by by rewrite <-!app_assoc.
    rewrite split_after_sign, <-app_assoc by done. rewrite (flagged_name name (app gap [c])); [|done..|].
    + assert (exists gap0 c0 y, app gap [c] = app gap0 (c0 :: y) /\ Forall (fun z => is_space z = true) gap0
              /\ (c0 = 61 \/ c0 = 58)) as Hex by (by exists gap, c, []).
      tauto.
    + intros H. apply head_Some_elem_of in H. eapply Forall_forall in Hgc; [|exact H]. simpl in Hgc.
      apply elem_of_app in H as [H|H]; [|apply list_elem_of_singleton in H; lia].
      eapply Forall_forall in Hg; [|exact H]. by apply space_plain in Hg as [? _].
  - intros Ht. rewrite !secret_marker_flagged, Ht, !split_at_quote.
    replace (app gap (c :: chars value)) with (app (app gap [c]) (chars value)) by by rewrite <-!app_assoc.
    rewrite split_after_sign by done.
    assert (no_words []) as Hnil by constructor.
    pose proof (flagged_name name [] Hne Hw Hnil ltac:(done)) as Hname. rewrite app_nil_r in Hname. rewrite Hname.
    assert (~ flagged (app gap [c])) as Hno.
    { intros (x & w & y & whole & Heq & Hs & _). destruct (shape_head _ _ Hs) as (z & w' & -> & Hz).
      assert (z ∈ app gap [c]) as Hin by (rewrite Heq, !elem_of_app; right; left; by left).
      eapply Forall_forall in Hgc; [|exact Hin]. simpl in Hgc. congruence. }
    assert (~ exists gap c0 y, [] = app gap (c0 :: y) /\ Forall (fun z => is_space z = true) gap
            /\ (c0 = 61 \/ c0 = 58)) as Hemp by (by intros ([|] & ? & ? & ? & _)).
    tauto.
  - intros lead k -> Hl Hk. by apply longer_name.
Qed.

End names.

(** ** A concrete instance *)

Lemma demo_word_space z : is_space z = true -> demo_word z = false.
Proof.
  unfold is_space, demo_word, ascii_word, in_ranges. cbn [existsb].
  rewrite !orb_true_iff, !orb_false_iff, !bool_decide_eq_true, !bool_decide_eq_false. lia.
Qed.

(** A name that is not twenty characters long is not an AWS key. *)
Lemma not_aws_key name : length name <> 20%nat -> ~ aws_key name.
Proof.
  intros Hne (k & body & -> & Hk & Hl & _). apply Hne. rewrite length_app, Hl.
  apply (f_equal length) in Hk. rewrite length_fmap in Hk. rewrite Hk. reflexivity.
Qed.

(** The name of an environment variable, and a password in JSON. *)
Lemma secret_forms_missed_witness :
  let marker := secret_marker (fun r t => search demo_word r None (chars t)) in
  marker "OPENAI_API_KEY=sk-abc123" = false
  /\ marker (str1 "034" +:+ "password" +:+ str1 "034" +:+ ": hunter2") = false.
Proof.
  intros marker.
  pose proof (secret_forms_missed (word := demo_word)
    (find_iter := fun r t => encode <$> find_all demo_word r (chars t)) demo_word_space) as Hspec.
  split; apply not_true_is_false; intros H.
  - destruct (Hspec "OPENAI_API_KEY=sk-abc123" "" (chars "OPENAI_API_KEY") [] 61 "sk-abc123") as (Hbare & _ & Hlong);
      [done|by repeat constructor|constructor|by left|].
    destruct (Hlong (chars "OPENAI_") (chars "API_KEY") eq_refl) as [Hna Hst]; [done| |].
    { apply (bool_decide_eq_true_1 _). vm_compute. reflexivity. }
    apply Hbare in H; [|done|reflexivity]. destruct H as [H|[[H|H]|H]]; [by vm_compute in H| |done|by vm_compute in H].
    apply Hst in H. by apply not_aws_key in H.
  - destruct (Hspec (str1 "034" +:+ "password" +:+ str1 "034" +:+ ": hunter2") "" (chars "password") [] 58 " hunter2")
      as (_ & Hquoted & _); [done|by repeat constructor|constructor|by right|].
    apply Hquoted in H; [|reflexivity]. destruct H as [H|[[H|H]|H]]; [by vm_compute in H| | |by vm_compute in H].
    + revert H. apply (bool_decide_eq_false_1 _). vm_compute. reflexivity.
    + by apply not_aws_key in H.
Defined.
