(* ===== verification/Dataset.v ===== *)
(** * The corpus validator (tools/dataset-validate/src/lib.rs)

    Lines, records and the rules of one record. The JSON parser and printer, the
    searches of the [regex] crate and Unicode case folding are arguments; the
    patterns are those of [Patterns]; the file system is [Sysfs.Fs] with
    [is_file]. *)

From stdpp Require Import base tactics option list gmap strings sorting.
From Stdlib Require Import Ascii String.
From S2P Require Import Prelude Str Json Sysfs Regex Patterns.

#[local] Open Scope Z_scope.

Record DatasetIssue : Type := mkDatasetIssue {
  di_record : nat;
  di_message : string;
}.

Record DatasetReport : Type := mkDatasetReport {
  dr_record_count : nat;
  dr_issues : list DatasetIssue;
}.

Definition report_is_ok (r : DatasetReport) : bool :=
  match dr_issues r with [] => true | _ => false end.

Inductive DatasetError : Type :=
  | DatasetNotFound (path : string)
  | DatasetUnreadable (path : string).

Definition EXPECTED_ROLES : list string := ["system"; "user"; "assistant"].
Definition FORBIDDEN_MARKERS : list string := ["TBD"; "TODO"; "FIXME"; "unverified"; "placeholder"].
Definition FORBIDDEN_HOST_MARKERS : list string := ["127.0.0.1"; "192.168."; "10.0.0."].

Definition blank (line : string) : bool := String.eqb (trim line) EmptyString.

(** [value.get(key)] of a [Value]. *)
Definition get_field (v : Json) (key : string) : option Json := as_object v ≫= map_get key.

(** [Path::components] has a [..]. *)
Definition has_parent_dir (path : string) : bool := bool_decide (".." ∈ split_on "/" path).

Section dataset.
Context (parse_json : string -> result string Json) (show_json : Json -> string).
Context (is_match : Pattern -> string -> bool) (find_iter : Pattern -> string -> list string).
Context (to_lowercase : string -> string).
(** The files; [is_file] of those that exist. *)
Context (fs : Fs) (is_file : string -> bool).
(** The text of the error when a file cannot be read. *)
Context (read_error : string -> string).

Definition debug_opt_str (o : option string) : string :=
  match o with Some s => "Some(" +:+ debug_str s +:+ ")" | None => "None" end.

Definition check_message (record offset : nat) (message : Json) (expected_role : string) : list DatasetIssue :=
  let actual_role := get_field message "role" ≫= as_str in
  let content := get_field message "content" ≫= as_str in
  let at_msg := "message[" +:+ show (Z.of_nat offset) +:+ "]: " in
  app (if bool_decide (actual_role = Some expected_role) then []
       else [mkDatasetIssue record (at_msg +:+ "expected role " +:+ debug_str expected_role
                                    +:+ ", got " +:+ debug_opt_str actual_role)])
      (if match content with Some c => String.eqb c EmptyString | None => true end
       then [mkDatasetIssue record (at_msg +:+ "empty or non-string content")] else []).

Definition check_grounding (record : nat) (grounding : option string) (assistant_content : string) :
    list DatasetIssue :=
  let issue m := [mkDatasetIssue record m] in
  match grounding with
  | None => issue "missing required `grounding` field"
  | Some path =>
      if String.eqb path "legacy" then []
      else if String.eqb path EmptyString then issue "empty `grounding` value"
      else if has_parent_dir path then
        issue ("`grounding` " +:+ debug_str path +:+ " escapes the repository root")
      else if negb (fs_exists fs path) then
        issue ("`grounding` file " +:+ debug_str path +:+ " does not exist")
      else if is_file path then
        match fs_read fs path with
        | Some file_text =>
            let file_tokens := identifier_tokens find_iter file_text in
            let content_tokens := identifier_tokens find_iter assistant_content in
            if bool_decide (file_tokens = ∅ \/ content_tokens = ∅) then
              issue ("either the grounding file " +:+ debug_str path
                     +:+ " or the assistant content is empty; the soft grounding check is vacuous")
            else if bool_decide (file_tokens ## content_tokens) then
              issue ("assistant content shares no identifier tokens with `" +:+ path
                     +:+ "`; the answer may be ungrounded")
            else []
        | None => issue ("cannot read grounding file " +:+ debug_str path +:+ ": " +:+ read_error path)
        end
      else []
  end.

Definition check_markers (record : nat) (assistant_content : string) : list DatasetIssue :=
  app (omap (fun marker =>
         if contains (to_lowercase marker) (to_lowercase assistant_content)
         then Some (mkDatasetIssue record ("assistant content contains forbidden marker " +:+ debug_str marker))
         else None) FORBIDDEN_MARKERS)
  (app (omap (fun marker =>
         if contains marker assistant_content
         then Some (mkDatasetIssue record ("assistant content contains forbidden host marker " +:+ debug_str marker))
         else None) FORBIDDEN_HOST_MARKERS)
   (if secret_marker is_match assistant_content
    then [mkDatasetIssue record "assistant content references a secret/password/token keyword"] else [])).

Definition assistant_content_of (messages : list Json) : string :=
  match (messages !! 2%nat ≫= fun m => get_field m "content") ≫= as_str with
  | Some c => c | None => EmptyString end.

Definition check_record (record : nat) (object : list (string * Json)) : list DatasetIssue :=
  let messages := map_get "messages" object in
  match messages ≫= as_array with
  | Some array =>
      if bool_decide (length array = length EXPECTED_ROLES) then
        let content := assistant_content_of array in
        app (mjoin (imap (fun offset '(message, role) => check_message record offset message role)
                      (zip array EXPECTED_ROLES)))
          (app (check_grounding record (map_get "grounding" object ≫= as_str) content)
             (check_markers record content))
      else [mkDatasetIssue record ("expected exactly 3 messages, got "
              +:+ match messages with Some v => show_json v | None => "missing" end)]
  | None => [mkDatasetIssue record ("expected exactly 3 messages, got "
              +:+ match messages with Some v => show_json v | None => "missing" end)]
  end.

(** One non-blank line. *)
Definition check_line (record_number : nat) (line : string) : list DatasetIssue :=
  match parse_json line with
  | Err error => [mkDatasetIssue record_number ("invalid JSON (" +:+ error +:+ ")")]
  | Ok value =>
      match as_object value with
      | None => [mkDatasetIssue record_number "top-level value is not a JSON object"]
      | Some object => check_record record_number object
      end
  end.

Definition validate_dataset_text (text : string) : DatasetReport :=
  let ls := lines text in
  {| dr_record_count := length (filter (fun l => blank l = false) ls);
     dr_issues := mjoin (imap (fun idx line => if blank line then [] else check_line (S idx) line) ls) |}.

(** [read path] is the text, or whether the file is missing. *)
Definition validate_dataset_file (read : string -> result bool string) (path : string) :
    result DatasetError DatasetReport :=
  match read path with
  | Ok text => Ok (validate_dataset_text text)
  | Err true => Err (DatasetNotFound path)
  | Err false => Err (DatasetUnreadable path)
  end.

Definition dataset_path_for_workspace (workspace_root : string) : string :=
  path_join (path_join workspace_root "training") "adapter_creator_dataset.jsonl".

(** [main]'s exit code, for its arguments. *)
Definition validate_main (read : string -> result bool string) (args : list string) : Z :=
  match args with
  | [path] =>
      match validate_dataset_file read path with
      | Ok report => if report_is_ok report then 0 else 1
      | Err _ => 2
      end
  | _ => 2
  end.

(** ** What a clean report means *)

(** A grounding that raises no issue. *)
Definition grounding_ok (grounding : option string) (content : string) : Prop :=
  exists path, grounding = Some path /\
    (path = "legacy" \/
     (path <> EmptyString /\ ".." ∉ split_on "/" path /\ fs_exists fs path = true
      /\ (is_file path = true -> exists text tok, fs_read fs path = Some text
            /\ tok ∈ identifier_tokens find_iter text /\ tok ∈ identifier_tokens find_iter content))).

(** A record in the shape and with the content the rules ask for. *)
Definition record_ok (object : list (string * Json)) : Prop :=
  exists array, map_get "messages" object ≫= as_array = Some array
    /\ Forall2 (fun message role =>
         get_field message "role" ≫= as_str = Some role
         /\ exists c, get_field message "content" ≫= as_str = Some c /\ c <> EmptyString)
         array EXPECTED_ROLES
    /\ (let content := assistant_content_of array in
        grounding_ok (map_get "grounding" object ≫= as_str) content
        /\ (forall m, m ∈ FORBIDDEN_MARKERS -> contains (to_lowercase m) (to_lowercase content) = false)
        /\ (forall m, m ∈ FORBIDDEN_HOST_MARKERS -> contains m content = false)
        /\ secret_marker is_match content = false).

Lemma check_grounding_ok record grounding content :
  check_grounding record grounding content = [] <-> grounding_ok grounding content.
Proof.
  unfold check_grounding, grounding_ok. destruct grounding as [path|]; [|split; [done|by intros (? & ? & _)]].
  destruct (String.eqb_spec path "legacy") as [->|Hl]; [split; [eauto|done]|].
  assert (forall P : Prop, (exists p, Some path = Some p /\ (p = "legacy" \/ P)) <-> P) as Hp.
  { intros P. split; [intros (p & [= <-] & [?|?]); done|eauto]. }
  destruct (String.eqb_spec path EmptyString) as [->|Hne].
  { split; [done|]. by intros (p & [= <-] & [?|(? & _)]). }
  unfold has_parent_dir. case_bool_decide as Epd.
  { split; [done|]. by intros (p & [= <-] & [?|(_ & ? & _)]); [|congruence]. }
  destruct (fs_exists fs path) eqn:Eex; cbn [negb]; last first.
  { split; [done|]. by intros (p & [= <-] & [?|(_ & _ & ? & _)]); [|congruence]. }
  destruct (is_file path) eqn:Ef; last first.
  { split; [|done]. intros _. exists path. split; [done|]. right. by rewrite Ef. }
  destruct (fs_read fs path) as [text|] eqn:Er; last first.
  { split; [done|]. intros (p & [= <-] & [?|(_ & _ & _ & H)]); [done|].
    destruct (H Ef) as (t & _ & Ht & _). congruence. }
  case_bool_decide as Hempty; [|case_bool_decide as Hdisj].
  - split; [done|]. intros (p & [= <-] & [?|(_ & _ & _ & H)]); [done|].
    destruct (H Ef) as (t & tok & Ht & H1 & H2). rewrite Er in Ht. injection Ht as <-.
    destruct Hempty as [Hz|Hz]; [rewrite Hz in H1|rewrite Hz in H2]; set_solver.
  - split; [done|]. intros (p & [= <-] & [?|(_ & _ & _ & H)]); [done|].
    destruct (H Ef) as (t & tok & Ht & H1 & H2). rewrite Er in Ht. injection Ht as <-. set_solver.
  - split; [|done]. intros _. exists path. split; [done|]. right. split_and!; try done. intros _.
    exists text. destruct (set_choose_or_empty (identifier_tokens find_iter text ∩ identifier_tokens find_iter content))
      as [[tok Htok]|Hz]; [exists tok; set_solver|set_solver].
Qed.

Lemma check_message_ok record offset message role :
  check_message record offset message role = [] <->
  get_field message "role" ≫= as_str = Some role
  /\ exists c, get_field message "content" ≫= as_str = Some c /\ c <> EmptyString.
Proof.
  unfold check_message. case_bool_decide as Hr.
  - destruct (get_field message "content" ≫= as_str) as [c|]; [|split; [done|by intros (_ & ? & ? & _)]].
    destruct (String.eqb_spec c EmptyString) as [->|Hc]; simpl.
    + split; [done|]. by intros (_ & ? & [= <-] & ?).
    + split; [|done]. intros _. split; [done|]. by exists c.
  - split; [done|]. tauto.
Qed.

Lemma omap_nil {A B} (f : A -> option B) l : omap f l = [] <-> forall x, x ∈ l -> f x = None.
Proof.
  induction l as [|x l IH]; simpl; [split; [by intros _ ? ?%elem_of_nil|done]|].
  destruct (f x) eqn:E.
  - split; [done|]. intros H. rewrite (H x) in E; [done|by left].
  - rewrite IH. setoid_rewrite elem_of_cons. split; [intros H y [->|?]; auto|auto].
Qed.

Lemma check_markers_ok record content :
  check_markers record content = [] <->
  (forall m, m ∈ FORBIDDEN_MARKERS -> contains (to_lowercase m) (to_lowercase content) = false)
  /\ (forall m, m ∈ FORBIDDEN_HOST_MARKERS -> contains m content = false)
  /\ secret_marker is_match content = false.
Proof.
  unfold check_markers.
  assert (forall {A} (l l' : list A), l ++ l' = [] <-> l = [] /\ l' = []) as Happ.
  { intros A l l'. split; [apply app_nil|by intros [-> ->]]. }
  rewrite !Happ, !omap_nil.
  assert (forall {B} (b : bool) (x : B), (if b then Some x else None) = None <-> b = false) as Hif.
  { by intros B [] x. }
  setoid_rewrite Hif.
  assert (forall {B} (b : bool) (x : B), (if b then [x] else []) = [] <-> b = false) as Hil.
  { by intros B [] x. }
  by rewrite Hil.
Qed.

Lemma mjoin_imap_nil {A B} (f : nat -> A -> list B) l :
  mjoin (imap f l) = [] <-> forall i x, l !! i = Some x -> f i x = [].
Proof.
  revert f. induction l as [|x l IH]; intros f; [done|]. cbn [imap].
  change (mjoin (f 0%nat x :: imap (f ∘ S) l)) with (f 0%nat x ++ mjoin (imap (f ∘ S) l)).
  split.
  - intros [H0 H]%app_nil i y. destruct i as [|i]; [by intros [= <-]|].
    by apply (proj1 (IH (f ∘ S)) H).
  - intros H. rewrite (H 0%nat x) by done. apply (proj2 (IH (f ∘ S))). intros i y Hi. by apply (H (S i) y).
Qed.

Lemma elem_of_mjoin_imap {A B} (f : nat -> A -> list B) l y :
  y ∈ mjoin (imap f l) <-> exists i x, l !! i = Some x /\ y ∈ f i x.
Proof.
  revert f. induction l as [|x l IH]; intros f.
  { split; [by intros ?%elem_of_nil|by intros (? & ? & ? & _)]. }
  cbn [imap]. change (mjoin (f 0%nat x :: imap (f ∘ S) l)) with (f 0%nat x ++ mjoin (imap (f ∘ S) l)).
  rewrite elem_of_app, IH. split.
  - intros [H|(i & z & Hi & H)]; [by exists 0%nat, x|by exists (S i), z].
  - intros ([|i] & z & Hi & H); [left; by injection Hi as ->|right; by exists i, z].
Qed.

Lemma check_record_ok record object : check_record record object = [] <-> record_ok object.
Proof.
  unfold check_record, record_ok.
  destruct (map_get "messages" object ≫= as_array) as [array|]; [|split; [done|by intros (? & ? & _)]].
  case_bool_decide as Hlen; last first.
  { split; [done|]. intros (a & [= <-] & H%Forall2_length & _). done. }
  assert (forall {A} (l l' : list A), l ++ l' = [] <-> l = [] /\ l' = []) as Happ.
  { intros A l l'. split; [apply app_nil|by intros [-> ->]]. }
  rewrite !Happ, check_markers_ok, mjoin_imap_nil.
  assert ((forall i x, zip array EXPECTED_ROLES !! i = Some x ->
             (let '(message, role) := x in check_message record i message role) = [])
    <-> Forall2 (fun message role =>
         get_field message "role" ≫= as_str = Some role
         /\ exists c, get_field message "content" ≫= as_str = Some c /\ c <> EmptyString)
         array EXPECTED_ROLES) as ->.
  { split.
    - intros H. apply Forall2_same_length_lookup_2; [done|]. intros i m r Hm Hr.
      apply (check_message_ok record i). apply (H i (m, r)).
      apply lookup_zip_with_Some. eauto 6.
    - intros H i [m r] Hi. apply lookup_zip_with_Some in Hi as (m' & r' & [= -> ->] & Hm & Hr).
      apply check_message_ok. by apply (Forall2_lookup_lr _ _ _ _ _ _ H Hm Hr). }
  rewrite !(check_grounding_ok record). split.
  - intros (Hm & Hg & Hk). exists array. tauto.
  - intros (a & [= <-] & Hm & Hg & Hk). tauto.
Qed.

Lemma check_line_record n line issue : issue ∈ check_line n line -> di_record issue = n.
Proof.
  unfold check_line. destruct (parse_json line) as [v|]; [|by intros ->%list_elem_of_singleton].
  destruct (as_object v) as [o|]; [|by intros ->%list_elem_of_singleton]. unfold check_record.
  destruct (map_get "messages" o ≫= as_array) as [array|]; [|by intros ->%list_elem_of_singleton].
  case_bool_decide as Hlen; [|by intros ->%list_elem_of_singleton].
  rewrite !elem_of_app. intros [H|[H|H]].
  - apply elem_of_mjoin_imap in H as (i & [m r] & _ & Hi). unfold check_message in Hi.
    rewrite elem_of_app in Hi. destruct Hi as [Hi|Hi]; revert Hi; repeat case_match;
      first [by intros ->%list_elem_of_singleton | by intros ?%elem_of_nil].
  - unfold check_grounding in H. revert H.
    repeat case_match; first [by intros ->%list_elem_of_singleton | by intros ?%elem_of_nil].
  - unfold check_markers in H. rewrite !elem_of_app, !list_elem_of_omap in H.
    destruct H as [(m & _ & Hi)|[(m & _ & Hi)|Hi]]; revert Hi; case_match;
      first [by intros [= <-] | done | by intros ->%list_elem_of_singleton | by intros ?%elem_of_nil].
Qed.

(** C40. The corpus validator. It counts exactly the non-blank lines; a report
    is clean exactly when each of those lines is a JSON object with the three
    roles in order, non-empty contents, an existing grounding inside the
    repository that shares an identifier with the answer (or [legacy]), and none
    of the forbidden markers; every issue names the line it is about, blank
    lines counted; and the exit code is 0, 1 or 2 for clean, issues and no
    report. *)
Theorem validate_dataset_spec text :
  dr_record_count (validate_dataset_text text) = length (filter (fun l => blank l = false) (lines text))
  /\ (report_is_ok (validate_dataset_text text) = true <->
       forall line, line ∈ lines text -> blank line = false ->
         exists value object, parse_json line = Ok value /\ as_object value = Some object /\ record_ok object)
  /\ (forall issue, issue ∈ dr_issues (validate_dataset_text text) ->
       exists i line, di_record issue = S i /\ lines text !! i = Some line /\ blank line = false)
  /\ (forall read path,
       (validate_main read [path] = 0 <->
          exists t, read path = Ok t /\ report_is_ok (validate_dataset_text t) = true)
       /\ (validate_main read [path] = 2 <-> is_ok (read path) = false)).
Proof.
  assert (forall n line, check_line n line = [] <->
    exists value object, parse_json line = Ok value /\ as_object value = Some object /\ record_ok object) as Hline.
  { intros n line. unfold check_line. destruct (parse_json line) as [v|]; [|split; [done|by intros (? & ? & ? & _)]].
    destruct (as_object v) as [o|] eqn:Eo.
    - rewrite check_record_ok. split; [by exists v, o|]. by intros (v' & o' & [= <-] & Ho & ?); simplify_eq.
    - split; [done|]. intros (v' & o' & [= <-] & Ho & _). congruence. }
  split_and!; [done|..].
  - unfold report_is_ok.
    transitivity (dr_issues (validate_dataset_text text) = []).
    { by destruct (dr_issues (validate_dataset_text text)). }
    cbn [dr_issues validate_dataset_text]. rewrite mjoin_imap_nil. split.
    + intros H line (i & Hi)%list_elem_of_lookup Hb. specialize (H i line Hi). rewrite Hb in H.
      by apply (Hline (S i)).
    + intros H i line Hi. destruct (blank line) eqn:Hb; [done|]. apply Hline, H; [|done].
      by eapply list_elem_of_lookup_2.
  - intros issue. cbn [dr_issues validate_dataset_text].
    intros (i & line & Hi & Hin)%elem_of_mjoin_imap.
    destruct (blank line) eqn:Hb; [by apply elem_of_nil in Hin|]. exists i, line. split_and!; try done.
    by apply check_line_record in Hin.
  - intros read path. unfold validate_main, validate_dataset_file.
    destruct (read path) as [t|[]]; simpl.
    + destruct (report_is_ok _) eqn:E; split; split; try done; eauto. by intros (? & [= <-] & ?); congruence.
    + split; [split; [done|by intros (? & ? & _)]|done].
    + split; [split; [done|by intros (? & ? & _)]|done].
Qed.

End dataset.
