(* ===== verification/Cli.v ===== *)
(** * The command line's own logic (nauti-fabric/src/bin/nauti.rs)

    Launching a VM through the registry, the query of [find], the labels of
    paths, the output of ping and the round-trip report of a probed node. The
    sessions with an agent are in Session, the adapter planes in Planes, the
    address and key files in AgentFiles, the fleet view in Fleet, the plan
    commands in PlanCli and the listings in Listing. *)

From stdpp Require Import base tactics option list gmap strings fin_maps sorting.
From Stdlib Require Import Ascii String SpecFloat.
From S2P Require Import Prelude Str Json Resource Fabric FabricInv F64 Adapters Hypervisor.

#[local] Open Scope Z_scope.

(** What a command prints, and on which stream. *)
Inductive Output : Type :=
  | PrintJson (v : Json)
  | Println (line : string)
  | Eprintln (line : string).

(** ** [vm launch] *)

Record VmLaunchArgs : Type := mkVmLaunchArgs {
  va_resource_id : string;
  va_binary : string;
  va_api_socket : string;
  va_kernel : string;
  va_rootfs : string;
  va_vm_name : option string;
  va_vcpus : string;
  va_memory_mib : string;
  va_virtio_blk : option string;
  va_net : option string;
  va_user_device : option string;
  va_fs : option string;
  va_vsock : option string;
  va_watchdog : bool;
  va_cmdline : option string;
  va_initramfs : option string;
  va_rng_src : option string;
  va_shared : bool;
  va_ttl_secs : Z;
}.

Definition then_on (b : bool) : option string := if b then Some "on" else None.

Definition launch_spec (args : VmLaunchArgs) : VmResourceSpec :=
  {| vs_api_socket := va_api_socket args; vs_kernel := va_kernel args; vs_rootfs := va_rootfs args;
     vs_vm_name := va_vm_name args; vs_vcpus := Some (va_vcpus args);
     vs_memory_mib := Some (va_memory_mib args); vs_virtio_blk := va_virtio_blk args;
     vs_net := va_net args; vs_user_device := va_user_device args; vs_user_device_type := None;
     vs_user_device_queue_sizes := None; vs_fs := va_fs args; vs_vsock := va_vsock args;
     vs_watchdog := then_on (va_watchdog args); vs_cmdline := va_cmdline args;
     vs_initramfs := va_initramfs args; vs_rng_src := va_rng_src args;
     vs_shared := then_on (va_shared args) |}.

Definition vm_resource (args : VmLaunchArgs) : Resource :=
  {| r_id := va_resource_id args; r_kind := Device; r_capacity := 1; r_unit := "vm"; r_node := "local";
     r_state := Available; r_exclusive := true;
     r_attributes := <["vmm.binary" := va_binary args]> (into_attributes (launch_spec args)) |}.

Section launch.
Context {W : Type} `{HL : Lens W ManagedVms} (la : Launcher W) (net : NetProvisioner W).

(** [vm_launch] on the fresh registry it makes; the clocks are those of the
    lease and of the attachment. *)
Definition vm_launch (args : VmLaunchArgs) (c_lease c_attach : Clock) :
    ST (Fabric W) (result FabricError Attachment) :=
  _ ← register (vm_resource args);
  _ ← register_adapter (CloudHypervisorAdapter (va_binary args) la net);
  let? lease := lease_exclusive c_lease (va_resource_id args) "nauti-vm" (from_secs (va_ttl_secs args)) in
  attach c_attach "cloud-hypervisor" lease.

Definition vm_lease (args : VmLaunchArgs) : Lease := mkLease 1 (va_resource_id args) "nauti-vm".

(** The manifest of a launch always has an argument vector. *)
Lemma vm_resource_argv args : exists argv, build_argv (vm_resource args) = Ok argv.
Proof.
  apply build_argv_ok. cbn [r_attributes vm_resource].
  destruct (into_attributes_fields (launch_spec args)) as ((H1 & H2 & H3 & _) & _).
  rewrite !lookup_insert_ne by done. rewrite H1, H2, H3. eauto.
Qed.

Lemma vm_resource_socket args : r_attributes (vm_resource args) !! "vmm.api_socket" = Some (va_api_socket args).
Proof.
  cbn [r_attributes vm_resource]. rewrite lookup_insert_ne by done.
  by destruct (into_attributes_fields (launch_spec args)) as ((H1 & _) & _).
Qed.

(** What the host has to do for the VM to run. *)
Definition host_runs_vm (args : VmLaunchArgs) (w : W) : Prop :=
  exists binary, locate_binary la (va_binary args) w = Some binary
    /\ (already_managed (vm_resource args) (vm_name_of (vm_resource args)) w = true
        \/ (vm_is_running la (va_api_socket args) w).1 = true
        \/ exists w', launched_with la net (vm_resource args) binary
                        (vm_is_running la (va_api_socket args) w).2 w').

Lemma ch_attach_vm_ok args w :
  is_ok (ch_attach (va_binary args) la net (vm_resource args) (vm_lease args) w).1 = true
  <-> host_runs_vm args w.
Proof.
  split.
  - destruct (ch_attach _ _ _ _ _ _) as [[att|] w'] eqn:E; [|done]. intros _.
    apply ch_attach_ok in E as (b & so & al & _ & Hb & Hso & _ & Hcase).
    rewrite vm_resource_socket in Hso. injection Hso as <-. exists b. split; [done|].
    destruct Hcase as [(_ & ? & _)|[(_ & _ & w1 & Hr & _)|(_ & _ & w1 & w2 & Hr & Hl & _)]];
      [by left|right; left|right; right]; rewrite Hr; [done|]. by exists w2.
  - intros (b & Hb & Hcase). unfold ch_attach, require_attr. rewrite bool_decide_eq_false_2 by (by intros []).
    rewrite Hb, vm_resource_socket. cbn [ok_or]. fold (vm_name_of (vm_resource args)).
    destruct (already_managed (vm_resource args) (vm_name_of (vm_resource args)) w); [done|].
    destruct (vm_is_running la (va_api_socket args) w) as [running w1]. simpl in Hcase.
    destruct running; [done|]. destruct Hcase as [?|[?|(w2 & argv & w3 & Hn & Ha & Hl)]]; [done..|].
    unfold tap_ready in Hn. unfold launch_new.
    case_bool_decide; [rewrite Hn|subst w3]; simpl; rewrite Ha, Hl; done.
Qed.

(** [vm launch] end to end. On its fresh registry the lease is granted
    unless the expiry cannot be represented, which panics; if the lease has run
    out when the attachment is made - at once, for a zero TTL - the launch is
    refused before the adapter is called and nothing happens on the host;
    otherwise the outcome and the world are those of attaching the VM of the
    manifest under lease 1, which succeeds exactly when the host can run it -
    the argument vector never fails - and the attachment is then recorded. *)
Theorem vm_launch_spec args c_lease c_attach w :
  let ttl := from_secs (va_ttl_secs args) in
  let '(out, fab) := vm_launch args c_lease c_attach (default w) in
  match instant_add (now c_lease) ttl with
  | None => out = Panicked /\ world fab = w
  | Some expires =>
      if bool_decide (now c_attach < expires) then
        let '(res, w') := ch_attach (va_binary args) la net (vm_resource args) (vm_lease args) w in
        out = Done res /\ world fab = w'
        /\ (is_ok res = true <-> host_runs_vm args w)
        /\ (is_ok res = true -> attachments fab !! va_resource_id args = Some "cloud-hypervisor")
      else out = Done (Err LeaseNotFound) /\ world fab = w
  end.
Proof.
  intros ttl. pose proof (ch_attach_vm_ok args w) as Hok. unfold vm_launch.
  destruct (ch_attach (va_binary args) la net (vm_resource args) (vm_lease args) w) as [res w'] eqn:Ech.
  unfold register, register_adapter, lease_exclusive, lease_check, lease_grant, lock_leases, resource. st_unfold.
  change (r_id (vm_resource args)) with (va_resource_id args).
  rewrite lookup_insert_eq. simpl.
  rewrite decide_False by (rewrite retain_active_empty, lookup_empty; by intros []).
  fold ttl. destruct (instant_add (now c_lease) ttl) as [expires|]; [simpl|by split].
  unfold attach, lock_leases, resource. st_unfold. rewrite lookup_insert_eq. simpl.
  unfold authorized. simpl. rewrite !lookup_insert_eq. simpl.
  case_bool_decide; simpl; [|by split].
  change (mkLease (u64_wrap (0 + 1)) (va_resource_id args) "nauti-vm") with (vm_lease args). rewrite Ech.
  destruct res as [att|e]; simpl.
  - split_and!; try apply Hok; try done. intros _. apply lookup_insert_eq.
  - split_and!; try apply Hok; done.
Qed.

End launch.

(** ** The query of [find] *)

Definition parse_kind (raw : string) : result string ResourceKind :=
  let k := to_ascii_lowercase raw in
  if String.eqb k "cpu" then Ok Cpu else if String.eqb k "gpu" then Ok Gpu
  else if String.eqb k "memory" then Ok Memory else if String.eqb k "storage" then Ok Storage
  else if String.eqb k "network" then Ok Network else if String.eqb k "device" then Ok Device
  else Err ("unknown kind " +:+ debug_str k +:+ " (cpu|gpu|memory|storage|network|device)").

Fixpoint parse_attrs (attrs : list string) (required : gmap string string) :
    result string (gmap string string) :=
  match attrs with
  | [] => Ok required
  | attr :: attrs =>
      '(key, value) ← ok_or (split_once "=" attr) ("--attr expects key=value, got " +:+ debug_str attr);
      parse_attrs attrs (<[key := value]> required)
  end.

Definition find_request (kind : option string) (min_capacity : option Z) (node : option string)
    (attrs : list string) (exclusive : bool) : result string ResourceRequest :=
  required ← parse_attrs attrs ∅;
  kind ← match kind with
         | None => Ok None
         | Some raw => Some <$> parse_kind raw
         end;
  Ok {| rq_kind := kind; rq_minimum_capacity := min_capacity; rq_node := node;
        rq_required_attributes := required; rq_exclusive := exclusive |}.

(** ** The fleet *)

Definition path_label (ip : string) : option string :=
  if starts_with "10.0.10." ip then Some "25g"
  else if starts_with "10.44.0." ip then Some "lan-10.44"
  else if starts_with "192.168." ip then Some "lan"
  else if starts_with "100." ip then Some "tailscale"
  else None.

Definition parse_ping_rtt (parse_f64 : string -> option f64) (output : string) : option (f64 * f64 * f64) :=
  line ← head (filter (fun l => contains "min/avg/max" l = true) (lines output));
  rest ← split_on "=" line !! 1%nat;
  nums ← head (split_whitespace (trim rest));
  match omap parse_f64 (split_on "/" nums) with
  | min :: avg :: max :: _ => Some (min, avg, max)
  | _ => None
  end.

(** [f64::round]: half away from zero; the value of an integer-valued float. *)
Definition f64_round_Z (f : f64) : Z :=
  match f with
  | S754_finite s m e =>
      let v := if bool_decide (0 <= e) then Zpos m * 2 ^ e
               else (Zpos m + 2 ^ (- e - 1)) / 2 ^ (- e) in
      if s then - v else v
  | _ => 0
  end.

Definition f64_zero : f64 := S754_zero false.
Definition or_zero (o : option f64) : f64 := match o with Some f => f | None => f64_zero end.
Definition p50 : f64 := S754_finite false 4503599627370496 (-53).
(** [0.95] as the nearest [f64]. *)
Definition p95 : f64 := S754_finite false 8556839292003942 (-53).

(** [((len - 1) as f64 * p).round() as usize]; the percentages used are finite
    and not negative. *)
Definition percentile_index (len : nat) (p : f64) : nat :=
  Z.to_nat (f64_round_Z (f64_mul (f64_of_Z (Z.of_nat len - 1)) p)).

Definition percentile (sorted : list f64) (p : f64) : f64 :=
  match sorted with
  | [] => f64_zero
  | _ => or_zero (sorted !! Nat.min (percentile_index (length sorted) p) (length sorted - 1)%nat)
  end.

(** The order [partial_cmp] gives round-trip times, which are never NaN. *)
Definition rtt_le (a b : f64) : Prop := rank_le (rank a) (rank b).
#[export] Instance rtt_le_dec : RelDecision rtt_le.
Proof. intros a b. unfold rtt_le, rank_le. apply _. Defined.
#[export] Instance rtt_le_total : Total rtt_le.
Proof. intros a b. unfold rtt_le, rank_le. lia. Qed.
#[export] Instance rtt_le_trans : Transitive rtt_le.
Proof. intros a b c. unfold rtt_le, rank_le. lia. Qed.

Record RttReport : Type := mkRttReport {
  rt_online : bool;
  rt_samples : nat;
  rt_min : f64;
  rt_median : f64;
  rt_p95 : f64;
  rt_max : f64;
}.

(** What [probe_node] reports of the pings that were answered. *)
Definition rtt_report (rtts : list f64) : RttReport :=
  let rtts := merge_sort rtt_le rtts in
  {| rt_online := match rtts with [] => false | _ => true end; rt_samples := length rtts;
     rt_min := or_zero (head rtts); rt_median := percentile rtts p50;
     rt_p95 := percentile rtts p95; rt_max := or_zero (last rtts) |}.

Lemma percentile_in l p : l <> [] -> percentile l p ∈ l.
Proof.
  intros Hl. unfold percentile. destruct l as [|x l]; [done|].
  destruct ((x :: l) !! Nat.min _ _) as [y|] eqn:E; [by eapply list_elem_of_lookup_2|].
  apply lookup_ge_None in E. simpl in E. lia.
Qed.

Lemma percentile_at l p :
  l <> [] -> l !! Nat.min (percentile_index (length l) p) (length l - 1)%nat = Some (percentile l p).
Proof.
  intros Hl. unfold percentile. destruct l as [|x l]; [done|].
  destruct ((x :: l) !! Nat.min _ _) as [y|] eqn:E; [done|].
  apply lookup_ge_None in E. simpl in E. lia.
Qed.

Lemma sorted_lookup l i j a b :
  StronglySorted rtt_le l -> (i <= j)%nat -> l !! i = Some a -> l !! j = Some b -> rtt_le a b.
Proof.
  intros Hs. revert i j. induction Hs as [|x l Hs IH Hall]; intros i j Hij Ha Hb; [done|].
  destruct i as [|i], j as [|j]; simpl in *; simplify_eq; [|..|].
  - unfold rtt_le, rank_le. lia.
  - rewrite Forall_forall in Hall. apply Hall. by eapply list_elem_of_lookup_2.
  - lia.
  - eapply IH; [|done..]. lia.
Qed.

(** The two indices never cross, for any number of samples up to the bound. *)
Definition MAX_SAMPLES : nat := 1024.

Lemma percentile_indices :
  forallb (fun n => Nat.leb (percentile_index n p50) (percentile_index n p95)) (seq 1 MAX_SAMPLES) = true.
Proof. vm_compute. reflexivity. Qed.

Lemma percentile_index_le n :
  (1 <= n <= MAX_SAMPLES)%nat -> (percentile_index n p50 <= percentile_index n p95)%nat.
Proof.
  intros Hn. assert (In n (seq 1 MAX_SAMPLES)) as Hin by (apply in_seq; lia).
  apply Nat.leb_le. exact (proj1 (forallb_forall _ _) percentile_indices n Hin).
Qed.

Lemma percentile_mono l :
  StronglySorted rtt_le l -> l <> [] -> (length l <= MAX_SAMPLES)%nat ->
  rtt_le (percentile l p50) (percentile l p95).
Proof.
  intros Hs Hl Hlen. assert (1 <= length l)%nat by (destruct l; [done|cbn [length]; lia]).
  eapply (sorted_lookup l); [exact Hs| |exact (percentile_at l p50 Hl)|exact (percentile_at l p95 Hl)].
  pose proof (percentile_index_le (length l)). lia.
Qed.

(** The round-trip report of a node. With answered pings, up to the bound,
    the node is online and minimum, median, 95th percentile and maximum are
    four of the measured times, in that order, around all of them; with none it
    is offline - and the four are 0.0, although nothing was measured. *)
Theorem rtt_report_spec rtts :
  Forall (fun t => is_nan t = false) rtts -> (length rtts <= MAX_SAMPLES)%nat ->
  let r := rtt_report rtts in
  (rtts <> [] ->
     rt_online r = true
     /\ rt_min r ∈ rtts /\ rt_median r ∈ rtts /\ rt_p95 r ∈ rtts /\ rt_max r ∈ rtts
     /\ f64_le (rt_min r) (rt_median r) = true /\ f64_le (rt_median r) (rt_p95 r) = true
     /\ f64_le (rt_p95 r) (rt_max r) = true
     /\ Forall (fun t => f64_le (rt_min r) t = true /\ f64_le t (rt_max r) = true) rtts)
  /\ (rtts = [] ->
     rt_online r = false /\ rt_min r = f64_zero /\ rt_median r = f64_zero /\ rt_p95 r = f64_zero
     /\ rt_max r = f64_zero).
Proof.
  intros Hnan Hlen r. split; [|by intros ->]. intros Hne. unfold r, rtt_report.
  set (l := merge_sort rtt_le rtts).
  assert (l ≡ₚ rtts) as Hperm by apply merge_sort_Permutation.
  assert (StronglySorted rtt_le l) as Hs by apply (StronglySorted_merge_sort _).
  assert (l <> []) as Hl by (intros Hz; rewrite Hz in Hperm; by apply Permutation_nil_l in Hperm).
  assert (length l <= MAX_SAMPLES)%nat as Hlen' by by rewrite Hperm.
  assert (exists a z, l !! 0%nat = Some a /\ head l = Some a /\ last l = Some z
            /\ l !! (length l - 1)%nat = Some z) as (a & z & Ha & Hh & Hz & Hzl).
  { destruct l as [|a l']; [done|]. rewrite last_lookup.
    destruct (lookup_lt_is_Some_2 (a :: l') (length (a :: l') - 1)) as [z Hz]; [simpl; lia|].
    exists a, z. split_and!; try done. by replace (pred (length (a :: l'))) with (length (a :: l') - 1)%nat by lia. }
  assert (forall x, x ∈ l -> is_nan x = false) as Hn.
  { intros x. rewrite Hperm. by rewrite Forall_forall in Hnan; apply Hnan. }
  assert (forall x y, x ∈ l -> y ∈ l -> rtt_le x y -> f64_le x y = true) as Hle.
  { intros x y Hx Hy Hxy. by apply f64_le_rank; [apply Hn..|]. }
  assert (a ∈ l /\ z ∈ l) as [Hain Hzin] by (split; by eapply list_elem_of_lookup_2).
  assert (forall x, x ∈ l -> rtt_le a x /\ rtt_le x z) as Hbounds.
  { intros x [i Hi]%list_elem_of_lookup. pose proof (lookup_lt_Some _ _ _ Hi).
    split; [eapply (sorted_lookup l 0 i)|eapply (sorted_lookup l i (length l - 1))]; try done; lia. }
  pose proof (percentile_in l p50 Hl) as H50. pose proof (percentile_in l p95 Hl) as H95.
  cbn [rt_online rt_min rt_median rt_p95 rt_max]. rewrite Hh, Hz. cbn [or_zero].
  rewrite <-!Hperm. split_and!; try done.
  - by destruct l.
  - apply Hle; [done..|]. by apply Hbounds.
  - apply Hle; [done..|]. by apply percentile_mono.
  - apply Hle; [done..|]. by apply Hbounds.
  - rewrite Forall_forall. intros x Hx. split; apply Hle; try done; by apply Hbounds.
Qed.

Lemma rtt_report_spec_witness :
  let rtts := [f64_of_Z 3; f64_of_Z 1; f64_of_Z 2] in
  Forall (fun t => is_nan t = false) rtts
  /\ rt_median (rtt_report rtts) = f64_of_Z 2
  /\ f64_le (rt_median (rtt_report rtts)) (rt_p95 (rtt_report rtts)) = true.
Proof.
  intros rtts. assert (Forall (fun t => is_nan t = false) rtts) as Hn by (repeat constructor).
  assert (length rtts <= MAX_SAMPLES)%nat as Hl by (unfold MAX_SAMPLES; simpl; lia).
  split; [exact Hn|]. split; [vm_compute; reflexivity|].
  destruct (rtt_report_spec rtts Hn Hl) as [H _].
  destruct (H ltac:(discriminate)) as (_ & _ & _ & _ & _ & _ & H95 & _). exact H95.
Defined.
