(* ===== verification/Session.v ===== *)
(** * Agents and their callers (nauti-fabric/src/bin/nauti.rs)

    The registry [agent_serve] serves, the two lease proofs ([demo] in one
    process, [agent_connect] against an agent) and the verbs of [nauti fabric].
    Serializers, [Debug] and the connection are arguments. *)

From stdpp Require Import base tactics option list gmap strings fin_maps.
From Stdlib Require Import Ascii String.
From S2P Require Import Prelude Str Resource Fabric FabricInv FabricOps RpcAuth Rpc RpcProps RpcClient Cli.

#[local] Open Scope Z_scope.

(** ** The registry an agent serves *)

Definition PROOF_GPU : string := "gpu.virtual.0".

Definition proof_gpu (node : string) : Resource :=
  {| r_id := PROOF_GPU; r_kind := Gpu; r_capacity := 1; r_unit := "device"; r_node := node;
     r_state := Available; r_exclusive := true; r_attributes := {[ "adapter" := "proof" ]} |}.

Section session.
Context {W : Type}.

(** The registry of [agent_serve], on what discovery found; [others] are the
    adapters registered after the proof adapter. *)
Definition agent_setup (discovered : list Resource) (node : string) (others : list (ResourceAdapter W)) :
    ST (Fabric W) () :=
  _ ← discover_local discovered;
  _ ← register (proof_gpu node);
  _ ← register_adapter LocalProofAdapter;
  st_iter register_adapter others.

(** [demo]: the whole life of a lease in one process. *)
Definition demo (c_lease c_attach : Clock) : ST (Fabric W) (result FabricError Attachment) :=
  _ ← register (proof_gpu "local");
  _ ← register_adapter LocalProofAdapter;
  let? lease := lease_exclusive c_lease PROOF_GPU "forge-demo" (from_secs 30) in
  let? attachment := attach c_attach "local-proof" lease in
  let? _ := release lease in
  mret (Ok attachment).

(** A registry ready for the proof: the GPU, the adapter, nothing leased. *)
Record proof_ready (fab : Fabric W) : Prop := {
  pr_gpu : exists r, resources fab !! PROOF_GPU = Some r /\ r_id r = PROOF_GPU
             /\ r_state r = Available /\ r_exclusive r = true;
  pr_adapter : adapters fab !! "local-proof" = Some LocalProofAdapter;
  pr_leases : leases fab = ∅;
  pr_attachments : attachments fab !! PROOF_GPU = None;
  pr_poison : leases_poisoned fab = false;
}.

Lemma register_adapters_get (ads : list (ResourceAdapter W)) fab :
  exists g, st_iter register_adapter ads fab = (Done tt, with_adapters g fab)
    /\ (forall k, Forall (fun ad => ad_name ad <> k) ads -> g (adapters fab) !! k = adapters fab !! k).
Proof.
  revert fab. induction ads as [|ad ads IH]; intros fab.
  - exists (fun m => m). split; [by destruct fab|done].
  - destruct (IH (with_adapters (insert (ad_name ad) ad) fab)) as (g & Hg & Hk).
    exists (fun m => g (insert (ad_name ad) ad m)). split.
    + etrans; [exact Hg|]. by destruct fab.
    + intros k Hall. inversion Hall as [|? ? Hne Hall']; subst. simpl in Hk.
      rewrite (Hk k Hall'). by rewrite lookup_insert_ne.
Qed.

Lemma register_all_get rs (fab : Fabric W) :
  exists f, register_all rs fab = (Done tt, with_resources f fab).
Proof.
  revert fab. induction rs as [|r rs IH]; intros fab; [exists (fun m => m); by destruct fab|].
  destruct (IH (with_resources (insert (r_id r) r) fab)) as [f Hf].
  exists (fun m => f (insert (r_id r) r m)). etrans; [exact Hf|]. by destruct fab.
Qed.

Lemma agent_setup_ready discovered node others (w : W) :
  Forall (fun ad => ad_name ad <> "local-proof") others ->
  exists fab, agent_setup discovered node others (default w) = (Done tt, fab)
    /\ proof_ready fab /\ next_lease_id fab = 0.
Proof.
  intros Hothers. destruct (register_all_get discovered (default w)) as [f Hf].
  set (fab := with_adapters (insert "local-proof" LocalProofAdapter)
                (with_resources (insert PROOF_GPU (proof_gpu node)) (with_resources f (default w)))).
  assert (agent_setup discovered node others (default w) = st_iter register_adapter others fab) as ->.
  { unfold agent_setup, discover_local, mbind, st_bind. by rewrite Hf. }
  destruct (register_adapters_get others fab) as (g & Hg & Hk).
  rewrite Hg. eexists. split; [done|]. split; [|done]. split; simpl; try done.
  - eexists. rewrite lookup_insert_eq. done.
  - simpl in Hk. rewrite (Hk "local-proof" Hothers). apply lookup_insert_eq.
Qed.

(** ** One lease, from grant to release *)

Definition proof_lease (owner : string) (fab : Fabric W) : Lease :=
  {| l_id := u64_wrap (next_lease_id fab + 1); l_resource_id := PROOF_GPU; l_owner := owner |}.

Definition proof_attachment (lease : Lease) : Attachment :=
  {| at_resource_id := PROOF_GPU; at_lease_id := l_id lease; at_adapter := "local-proof"; at_details := ∅ |}.

(** The registry while the lease is held, and once it is released. *)
Definition proof_held (c : Clock) (owner : string) (ttl : duration) (fab : Fabric W) : Fabric W :=
  after_grant c PROOF_GPU owner ttl fab.
Definition proof_done (fab : Fabric W) : Fabric W := with_next_lease_id (u64_wrap (next_lease_id fab + 1)) fab.

Lemma proof_lease_step c owner ttl fab :
  proof_ready fab ->
  lease_exclusive c PROOF_GPU owner ttl fab =
    match instant_add (now c) ttl with
    | Some _ => (Done (Ok (proof_lease owner fab)), proof_held c owner ttl fab)
    | None => (Panicked, with_poison true (proof_done fab))
    end.
Proof.
  intros [(r & Hr & _ & Ha & He) _ Hl _ Hp].
  destruct (instant_add (now c) ttl) as [e|] eqn:Hd.
  - rewrite lease_exclusive_ok; [done|]. split; [by exists r|]. split; [done|].
    split; [|by rewrite Hd]. unfold live_lease. by rewrite Hl, (retain_active_empty c), lookup_empty.
  - unfold lease_exclusive, st_try. unfold mbind, st_bind. rewrite (lease_check_ok _ _ r) by done.
    unfold lease_grant, lock_leases, panic_holding_leases. st_unfold. rewrite Hp. simpl.
    rewrite decide_False by (rewrite Hl, retain_active_empty, lookup_empty; by intros []).
    rewrite Hd. unfold proof_done. destruct fab. simpl in *. subst.
    unfold with_leases. simpl. by rewrite retain_active_empty.
Qed.

Lemma proof_attach_step c c' owner ttl fab :
  proof_ready fab ->
  attach c' "local-proof" (proof_lease owner fab) (proof_held c owner ttl fab) =
    if bool_decide (now c' < now c + ttl) then
      (Done (Ok (proof_attachment (proof_lease owner fab))),
       with_attachments (insert PROOF_GPU "local-proof") (proof_held c owner ttl fab))
    else (Done (Err LeaseNotFound), proof_held c owner ttl fab).
Proof.
  intros [(r & Hr & Hid & _) Had _ _ Hp]. unfold attach, lock_leases, resource, authorized. st_unfold.
  unfold proof_held, after_grant. simpl. rewrite Hr. simpl. rewrite Hp. simpl.
  rewrite lookup_insert_eq. simpl. rewrite bool_decide_eq_true_2 by done. simpl.
  case_bool_decide; simpl; [|done]. rewrite Had. simpl. unfold local_proof_attach. simpl.
  rewrite bool_decide_eq_false_2 by (rewrite Hid; by intros []). simpl. unfold proof_attachment.
  rewrite Hid. by destruct fab.
Qed.

Lemma proof_release_step c owner ttl fab (attached : bool) :
  proof_ready fab ->
  release (proof_lease owner fab)
    (if attached then with_attachments (insert PROOF_GPU "local-proof") (proof_held c owner ttl fab)
     else proof_held c owner ttl fab)
  = (Done (Ok tt), proof_done fab).
Proof.
  intros [(r & Hr & _) Had Hl Hat Hp].
  unfold release, release_check, release_detach, release_remove, lock_leases, st_try, resource. st_unfold.
  assert (Hret : retain_active c (leases fab) = ∅) by (by rewrite Hl, retain_active_empty).
  unfold proof_held, after_grant, proof_done. rewrite Hret.
  destruct attached; simpl; rewrite Hp; simpl; unfold holds_lease; simpl; rewrite lookup_insert_eq; simpl;
    rewrite bool_decide_eq_true_2 by done; simpl.
  - rewrite lookup_insert_eq. simpl. rewrite Hr. simpl. rewrite Had. simpl. rewrite Hp. simpl.
    rewrite lookup_insert_eq. simpl. rewrite bool_decide_eq_true_2 by done. simpl.
    destruct fab. unfold with_leases, with_next_lease_id, with_attachments. simpl in *. subst.
    by rewrite !delete_insert_eq, delete_empty, delete_id.
  - rewrite Hat. simpl. rewrite Hp. simpl.
    rewrite lookup_insert_eq. simpl. rewrite bool_decide_eq_true_2 by done. simpl.
    destruct fab. unfold with_leases, with_next_lease_id, with_attachments. simpl in *. subst.
    by rewrite delete_insert_eq, delete_empty, delete_id.
Qed.
(** [demo] on its own registry. *)
Lemma demo_runs c c' (w : W) :
  is_Some (instant_add (now c) (from_secs 30)) -> now c' < now c + from_secs 30 ->
  exists fab, demo c c' (default w) = (Done (Ok (proof_attachment (mkLease 1 PROOF_GPU "forge-demo"))), fab)
    /\ leases fab = ∅ /\ attachments fab = ∅ /\ world fab = w.
Proof.
  intros [e He] Hin. destruct (agent_setup_ready [] "local" [] w (Forall_nil_2 _)) as (fab & Hset & Hready & Hn).
  injection Hset as Hfab. exists (proof_done fab). split; [|by subst fab].
  transitivity ((let? lease := lease_exclusive c PROOF_GPU "forge-demo" (from_secs 30) in
                 let? attachment := attach c' "local-proof" lease in
                 let? _ := release lease in mret (Ok attachment)) fab); [by subst fab|].
  unfold st_try, mbind, st_bind, mret, st_ret. rewrite proof_lease_step by done. rewrite He.
  rewrite proof_attach_step, bool_decide_eq_true_2 by done.
  rewrite (proof_release_step _ _ _ _ true) by done. unfold proof_lease. by rewrite Hn.
Qed.
End session.

(** ** Against an agent *)

(** The verbs of [nauti fabric], without the address all of them take. *)
Inductive FabricAction : Type :=
  | FPing
  | FInventory
  | FFind (kind : option string) (min_capacity : option Z) (node : option string) (attrs : list string)
      (exclusive : bool)
  | FLease (resource_id owner : string) (ttl_secs : Z)
  | FAttach (adapter lease_json : string)
  | FRelease (lease_json : string).

Section remote.
Context {W : Type}.
Context (encode_request : RpcRequest -> result string string) (decode_request : string -> result string RpcRequest).
Context (encode_response : RpcResponse -> result string string)
  (decode_response : string -> result string RpcResponse).
Context (lost_cleanly : bool)
  (stale : RpcRequest -> Fabric W -> result RpcTransportError RpcResponse * Fabric W).
Context (agent : FabricAgent) (ctx : RequestContext).
(** [{:?}], the pretty printer, the reader of a lease, and [AgentClient::close]. *)
Context (debug_response : RpcResponse -> string) (pretty_resources : list Resource -> result string string)
  (pretty_lease : Lease -> result string string) (pretty_attachment : Attachment -> result string string)
  (parse_lease : string -> result string Lease) (close : result RpcTransportError ()).

(** A call, on a connection that is kept, whose transport error is turned into
    text. *)
Definition remote (c : Clock) (request : RpcRequest) : ST (@Conn W) (result string RpcResponse) :=
  r ← call encode_request decode_request encode_response decode_response lost_cleanly stale agent ctx c request;
  mret (map_err transport_display r).

Definition close_client : ST (@Conn W) (result string ()) := mret (map_err transport_display close).

(** [agent_connect], once connected: what it prints. *)
Definition agent_connect (clocks : nat -> Clock) : ST (@Conn W) (result string (list RpcResponse)) :=
  let? pong := remote (clocks 0%nat) Ping in
  let? inventory := remote (clocks 1%nat) Inventory in
  let? lease_response := remote (clocks 2%nat) (LeaseExclusive PROOF_GPU "agent-connect-proof" 30) in
  match lease_response with
  | Leased lease =>
      let? attach_response := remote (clocks 3%nat) (Attach "local-proof" lease) in
      let? release_response := remote (clocks 4%nat) (Release lease) in
      let? _ := close_client in
      mret (Ok [pong; inventory; Leased lease; attach_response; release_response])
  | other => mret (Err ("expected Leased response, got " +:+ debug_response other))
  end.

Definition expected (what : string) (other : RpcResponse) : result string string :=
  Err ("expected " +:+ what +:+ " response, got " +:+ debug_response other).

Definition lease_of_json (lease_json : string) : result string Lease :=
  map_err (fun error => "lease JSON is not a Lease: " +:+ error) (parse_lease lease_json).

(** The verb of [fabric_action], before the connection is closed. *)
Definition run_verb (c : Clock) (action : FabricAction) : ST (@Conn W) (result string string) :=
  match action with
  | FPing => let? pong := remote c Ping in mret (Ok ("pong -> " +:+ debug_response pong))
  | FInventory =>
      let? response := remote c Inventory in
      mret (match response with
            | InventoryResp resources => pretty_resources resources
            | other => expected "Inventory" other
            end)
  | FFind kind min_capacity node attrs exclusive =>
      let? request := mret (find_request kind min_capacity node attrs exclusive) in
      let? response := remote c (FindAvailable request) in
      mret (match response with
            | FindAvailableResp resources => pretty_resources resources
            | other => expected "FindAvailable" other
            end)
  | FLease resource_id owner ttl_secs =>
      let? response := remote c (LeaseExclusive resource_id owner ttl_secs) in
      mret (match response with
            | Leased lease => pretty_lease lease
            | Error error => Err ("lease rejected: " +:+ message error)
            | other => expected "Leased" other
            end)
  | FAttach adapter lease_json =>
      let? lease := mret (lease_of_json lease_json) in
      let? response := remote c (Attach adapter lease) in
      mret (match response with
            | Attached attachment => pretty_attachment attachment
            | Error error => Err ("attach rejected: " +:+ message error)
            | other => expected "Attached" other
            end)
  | FRelease lease_json =>
      let? lease := mret (lease_of_json lease_json) in
      let? response := remote c (Release lease) in
      mret (match response with
            | Released => Ok "released=true"
            | Error error => Err ("release rejected: " +:+ message error)
            | other => expected "Released" other
            end)
  end.

(** [fabric_action]: a bad address and an agent that cannot be reached end it,
    and so does a failing close, whatever the verb gave. *)
Definition fabric_action {Addr} (parse_addr : string -> result string Addr) (connect : Addr -> result string ())
    (addr : string) (c : Clock) (action : FabricAction) : ST (@Conn W) (result string string) :=
  let? addr := mret (map_err (fun error => "--addr is not a JSON EndpointAddr: " +:+ error) (parse_addr addr)) in
  let? _ := mret (map_err (fun error => "agent unreachable: " +:+ error) (connect addr)) in
  result ← run_verb c action;
  let? _ := close_client in
  mret result.

(** ** The same verb on the registry itself *)

Definition local_verb (c : Clock) (action : FabricAction) : ST (Fabric W) (result string string) :=
  match action with
  | FPing => mret (Ok ("pong -> " +:+ debug_response Pong))
  | FInventory => fab ← st_get; mret (pretty_resources (resources_sorted fab))
  | FFind kind min_capacity node attrs exclusive =>
      let? request := mret (find_request kind min_capacity node attrs exclusive) in
      resources ← find_available request; mret (pretty_resources resources)
  | FLease resource_id owner ttl_secs =>
      r ← lease_exclusive c resource_id owner (from_secs ttl_secs);
      mret (match r with
            | Ok lease => pretty_lease lease
            | Err e => Err ("lease rejected: " +:+ fabric_error_display e)
            end)
  | FAttach adapter lease_json =>
      let? lease := mret (lease_of_json lease_json) in
      r ← attach c adapter lease;
      mret (match r with
            | Ok attachment => pretty_attachment attachment
            | Err e => Err ("attach rejected: " +:+ fabric_error_display e)
            end)
  | FRelease lease_json =>
      let? lease := mret (lease_of_json lease_json) in
      r ← release lease;
      mret (match r with
            | Ok _ => Ok "released=true"
            | Err e => Err ("release rejected: " +:+ fabric_error_display e)
            end)
  end.

(** The request a verb sends, unless its arguments are refused first. *)
Definition verb_request (action : FabricAction) : option RpcRequest :=
  match action with
  | FPing => Some Ping
  | FInventory => Some Inventory
  | FFind kind min_capacity node attrs exclusive =>
      match find_request kind min_capacity node attrs exclusive with
      | Ok request => Some (FindAvailable request) | Err _ => None end
  | FLease resource_id owner ttl_secs => Some (LeaseExclusive resource_id owner ttl_secs)
  | FAttach adapter lease_json =>
      match lease_of_json lease_json with Ok lease => Some (Attach adapter lease) | Err _ => None end
  | FRelease lease_json =>
      match lease_of_json lease_json with Ok lease => Some (Release lease) | Err _ => None end
  end.

(** The request and what the agent answers to it both travel. *)
Definition exchange_travels (c : Clock) (fab : Fabric W) (request : RpcRequest) : Prop :=
  travels encode_request decode_request request
  /\ match handle agent ctx c request fab with
     | (Done response, _) => travels encode_response decode_response response
     | (Panicked, _) => True
     end.

Lemma remote_dispatch c request fab :
  agent_auth agent = NoAuth -> exchange_travels c fab request ->
  remote c request (mkConn fab true) =
    match dispatch c request fab with
    | (Done response, fab') => (Done (Ok response), mkConn fab' true)
    | (Panicked, fab') => (Done (Err (transport_display (hung_up lost_cleanly))), mkConn fab' false)
    end.
Proof.
  intros Hauth [Hreq Hresp]. unfold remote, mbind, st_bind.
  destruct (handle agent ctx c request fab) as [[response|] fab'] eqn:Hh.
  - rewrite (call_ok _ _ _ _ _ _ _ _ _ _ fab response fab') by done.
    unfold handle in Hh. rewrite Hauth in Hh. simpl in Hh. by rewrite Hh.
  - rewrite (call_panics _ _ _ _ _ _ _ _ _ _ fab fab') by done.
    unfold handle in Hh. rewrite Hauth in Hh. simpl in Hh. by rewrite Hh.
Qed.

(** What a verb against the agent gives, from what it gives on the registry. *)
Definition over_wire (r : outcome (result string string) * Fabric W) :
    outcome (result string string) * Conn :=
  match r with
  | (Done res, fab') => (Done res, mkConn fab' true)
  | (Panicked, fab') => (Done (Err (transport_display (hung_up lost_cleanly))), mkConn fab' false)
  end.

Lemma run_verb_local c action fab :
  agent_auth agent = NoAuth ->
  (forall request, verb_request action = Some request -> exchange_travels c fab request) ->
  run_verb c action (mkConn fab true) = over_wire (local_verb c action fab).
Proof.
  intros Hauth Htr.
  destruct action as [| |kind cap nd attrs ex|id owner ttl|nm json|json]; cbn [run_verb local_verb verb_request] in *;
    unfold st_try, mbind, st_bind, mret, st_ret, st_get, over_wire.
  - by rewrite (remote_dispatch c Ping fab Hauth (Htr _ eq_refl)).
  - by rewrite (remote_dispatch c Inventory fab Hauth (Htr _ eq_refl)).
  - destruct (find_request kind cap nd attrs ex) as [request|e]; [|done].
    rewrite (remote_dispatch c _ fab Hauth (Htr _ eq_refl)). cbn [dispatch]. unfold mbind, st_bind.
    by destruct (find_available request fab) as [[rs|] fab'].
  - rewrite (remote_dispatch c _ fab Hauth (Htr _ eq_refl)). cbn [dispatch]. unfold mbind, st_bind.
    by destruct (lease_exclusive c id owner (from_secs ttl) fab) as [[[l|e]|] fab'].
  - destruct (lease_of_json json) as [lease|e]; [|done].
    rewrite (remote_dispatch c _ fab Hauth (Htr _ eq_refl)). cbn [dispatch]. unfold mbind, st_bind.
    by destruct (attach c nm lease fab) as [[[att|e]|] fab'].
  - destruct (lease_of_json json) as [lease|e]; [|done].
    rewrite (remote_dispatch c _ fab Hauth (Htr _ eq_refl)). cbn [dispatch]. unfold mbind, st_bind.
    by destruct (release lease fab) as [[[[]|e]|] fab'].
Qed.

End remote.

(** C26. The verbs of [nauti fabric] are the registry's calls. Against an agent
    that can be reached and serves without a provider, on a connection that is
    kept, and when the request and its answer travel, every verb - with its arguments parsed before anything is
    sent - prints exactly what the same call made on the agent's own registry
    gives, refusals in their texts included, and leaves that registry as the
    call does; where the registry's call panics the verb fails with a lost
    connection. *)
Theorem fabric_verbs_local {W} encode_request decode_request encode_response decode_response lost stale
    agent ctx debug_response pretty_resources pretty_lease pretty_attachment parse_lease
    {Addr} (parse_addr : string -> result string Addr) connect addr a c action (fab : Fabric W) :
  agent_auth agent = NoAuth -> parse_addr addr = Ok a -> connect a = Ok tt ->
  (forall request, verb_request parse_lease action = Some request ->
     exchange_travels encode_request decode_request encode_response decode_response agent ctx c fab request) ->
  fabric_action encode_request decode_request encode_response decode_response lost stale agent ctx
    debug_response pretty_resources pretty_lease pretty_attachment parse_lease (Ok tt)
    parse_addr connect addr c action (mkConn fab true)
  = over_wire lost
      (local_verb debug_response pretty_resources pretty_lease pretty_attachment parse_lease c action fab).
Proof.
  intros Hauth Ha Hc Htr. unfold fabric_action. rewrite Ha. unfold st_try, mbind, st_bind, mret, st_ret.
  cbn [map_err]. rewrite Hc. cbn [map_err]. rewrite run_verb_local by done.
  destruct (local_verb _ _ _ _ _ _ _ _) as [[res|] fab']; done.
Qed.

Section proof_session.
Context {W : Type}.
Context (encode_request : RpcRequest -> result string string) (decode_request : string -> result string RpcRequest).
Context (encode_response : RpcResponse -> result string string)
  (decode_response : string -> result string RpcResponse).

(** The session of [agent_connect] against the registry [fab], from the clocks
    of its five calls: the requests it sends and the answers it gets. *)
Definition proof_requests (fab : Fabric W) : list RpcRequest :=
  let lease := proof_lease "agent-connect-proof" fab in
  [Ping; Inventory; LeaseExclusive PROOF_GPU "agent-connect-proof" 30; Attach "local-proof" lease; Release lease].

Definition proof_answers (clocks : nat -> Clock) (fab : Fabric W) : list RpcResponse :=
  let lease := proof_lease "agent-connect-proof" fab in
  [Pong; InventoryResp (resources_sorted fab); Leased lease;
   if bool_decide (now (clocks 3%nat) < now (clocks 2%nat) + from_secs 30)
   then Attached (proof_attachment lease)
   else Error {| message := fabric_error_display LeaseNotFound |};
   Released].

Definition session_travels (clocks : nat -> Clock) (fab : Fabric W) : Prop :=
  Forall (travels encode_request decode_request) (proof_requests fab)
  /\ Forall (travels encode_response decode_response) (proof_answers clocks fab).
End proof_session.

Section proof_theorem.
Context {W : Type} (encode_request : RpcRequest -> result string string)
  (decode_request : string -> result string RpcRequest) (encode_response : RpcResponse -> result string string)
  (decode_response : string -> result string RpcResponse) (lost : bool)
  (stale : RpcRequest -> Fabric W -> result RpcTransportError RpcResponse * Fabric W).
Context (agent : FabricAgent) (ctx : RequestContext) (Hauth : agent_auth agent = NoAuth).

#[local] Abbreviation remote_call :=
  (remote encode_request decode_request encode_response decode_response lost stale agent ctx).

Lemma remote_answer c request (fab : Fabric W) response fab' :
  travels encode_request decode_request request -> travels encode_response decode_response response ->
  dispatch c request fab = (Done response, fab') ->
  remote_call c request (mkConn fab true) = (Done (Ok response), mkConn fab' true).
Proof.
  intros Hreq Hresp Hd.
  rewrite remote_dispatch; [by rewrite Hd|done|].
  split; [done|]. unfold handle. rewrite Hauth. cbn [authorize NoAuth]. by rewrite Hd.
Qed.

Lemma agent_connect_runs debug_response close clocks (fab : Fabric W) :
  proof_ready fab -> is_Some (instant_add (now (clocks 2%nat)) (from_secs 30)) ->
  session_travels encode_request decode_request encode_response decode_response clocks fab ->
  agent_connect encode_request decode_request encode_response decode_response lost stale agent ctx
    debug_response close clocks (mkConn fab true)
  = (Done ((fun _ => proof_answers clocks fab) <$> map_err transport_display close), mkConn (proof_done fab) true).
Proof.
  intros Hready [e He] [Hreqs Hresps].
  unfold proof_requests, proof_answers in *. cbv zeta in *.
  set (lease := proof_lease "agent-connect-proof" fab) in *.
  set (attached := bool_decide (now (clocks 3%nat) < now (clocks 2%nat) + from_secs 30)) in *.
  set (held := proof_held (clocks 2%nat) "agent-connect-proof" (from_secs 30) fab).
  rewrite !Forall_cons in Hreqs. rewrite !Forall_cons in Hresps.
  destruct Hreqs as (Q0 & Q1 & Q2 & Q3 & Q4 & _), Hresps as (R0 & R1 & R2 & R3 & R4 & _).
  unfold agent_connect, close_client, st_try. unfold mbind, st_bind, mret, st_ret.
  rewrite (remote_answer _ Ping fab Pong fab Q0 R0 eq_refl).
  rewrite (remote_answer _ Inventory fab (InventoryResp (resources_sorted fab)) fab Q1 R1 eq_refl).
  rewrite (remote_answer _ _ fab (Leased lease) held Q2 R2).
  2:{ cbn [dispatch]. unfold mbind, st_bind. rewrite proof_lease_step by done. by rewrite He. }
  rewrite (remote_answer _ _ held _ (if attached then with_attachments (insert PROOF_GPU "local-proof") held else held) Q3 R3).
  2:{ cbn [dispatch]. unfold mbind, st_bind, held, lease. rewrite proof_attach_step by done. fold attached. by destruct attached. }
  rewrite (remote_answer _ _ _ Released (proof_done fab) Q4 R4).
  2:{ cbn [dispatch]. unfold mbind, st_bind, held, lease. by rewrite proof_release_step. }
  by destruct close.
Qed.
End proof_theorem.

(** The two-process proof, end to end. Whatever discovery finds, the registry
    [agent_serve] sets up lets [agent_connect] run to its end: the agent answers
    ping, inventory, lease, attach and release in order; the lease is number 1 on
    the proof GPU, the attachment names it - or, when the attach is handled thirty
    seconds or more after the grant, is refused as [LeaseNotFound] without ending
    the session - and after the release the registry is what it was, but for the
    counter of leases. The same cycle in one process, [demo], gives the
    attachment and ends likewise. *)
Theorem two_process_proof {W} encode_request decode_request encode_response decode_response lost stale
    agent ctx debug_response close discovered node others (w : W) (clocks : nat -> Clock) :
  agent_auth agent = NoAuth -> Forall (fun ad => ad_name ad <> "local-proof") others ->
  is_Some (instant_add (now (clocks 2%nat)) (from_secs 30)) ->
  exists fab, agent_setup discovered node others (default w) = (Done tt, fab)
    /\ l_id (proof_lease "agent-connect-proof" fab) = 1
    /\ (session_travels encode_request decode_request encode_response decode_response clocks fab ->
        agent_connect encode_request decode_request encode_response decode_response lost stale agent ctx
          debug_response close clocks (mkConn fab true)
        = (Done ((fun _ => proof_answers clocks fab) <$> map_err transport_display close),
           mkConn (with_next_lease_id 1 fab) true))
    /\ (now (clocks 3%nat) < now (clocks 2%nat) + from_secs 30 ->
        exists fab', demo (clocks 2%nat) (clocks 3%nat) (default w)
          = (Done (Ok (proof_attachment (mkLease 1 PROOF_GPU "forge-demo"))), fab')
          /\ leases fab' = ∅ /\ attachments fab' = ∅ /\ world fab' = w).
Proof.
  intros Hauth Hothers He.
  destruct (agent_setup_ready discovered node others w Hothers) as (fab & Hset & Hready & Hnext).
  exists fab. split; [done|]. split; [unfold proof_lease; simpl; by rewrite Hnext|]. split.
  - intros Htr. rewrite agent_connect_runs by done. unfold proof_done. by rewrite Hnext.
  - intros Hin. destruct (demo_runs (clocks 2%nat) (clocks 3%nat) w He Hin) as (fab' & ? & ? & ? & ?). eauto.
Qed.

(** ** Concrete instances *)

Definition demo_connect_lease : Lease := mkLease 1 PROOF_GPU "agent-connect-proof".

(** A wire format for the five exchanges of the proof. *)
Definition wire_request (r : RpcRequest) : result string string :=
  Ok (match r with Ping => "p" | Inventory => "i" | LeaseExclusive _ _ _ => "l" | Attach _ _ => "a" | _ => "r" end).
Definition unwire_request (s : string) : result string RpcRequest :=
  if String.eqb s "p" then Ok Ping else if String.eqb s "i" then Ok Inventory
  else if String.eqb s "l" then Ok (LeaseExclusive PROOF_GPU "agent-connect-proof" 30)
  else if String.eqb s "a" then Ok (Attach "local-proof" demo_connect_lease)
  else Ok (Release demo_connect_lease).
Definition wire_response (r : RpcResponse) : result string string :=
  Ok (match r with Pong => "P" | InventoryResp _ => "I" | Leased _ => "L" | Attached _ => "A"
      | Error _ => "E" | _ => "R" end).
Definition unwire_response (s : string) : result string RpcResponse :=
  if String.eqb s "P" then Ok Pong else if String.eqb s "I" then Ok (InventoryResp [proof_gpu "n"])
  else if String.eqb s "L" then Ok (Leased demo_connect_lease)
  else if String.eqb s "A" then Ok (Attached (proof_attachment demo_connect_lease))
  else if String.eqb s "E" then Ok (Error {| message := fabric_error_display LeaseNotFound |})
  else Ok Released.

Ltac travel := eexists; split; [reflexivity|split; [by vm_compute|vm_compute; reflexivity]].

Lemma two_process_proof_witness :
  let clocks (n : nat) := clock_at (Z.of_nat n) in
  exists fab : Fabric (), agent_setup [] "n" [] (default ()) = (Done tt, fab)
    /\ agent_connect wire_request unwire_request wire_response unwire_response true
         (fun _ f => (Err ConnectionClosed, f)) agent_new (agent_context agent_new "peer") (fun _ => "") (Ok tt)
         clocks (mkConn fab true)
       = (Done (Ok [Pong; InventoryResp [proof_gpu "n"]; Leased demo_connect_lease;
                    Attached (proof_attachment demo_connect_lease); Released]),
          mkConn (with_next_lease_id 1 fab) true).
Proof.
  intros clocks.
  destruct (two_process_proof wire_request unwire_request wire_response unwire_response true
              (fun _ f => (Err ConnectionClosed, f)) agent_new (agent_context agent_new "peer") (fun _ => "") (Ok tt)
              [] "n" [] () clocks eq_refl (Forall_nil_2 _)) as (fab & Hset & _ & Hrun & _);
    [by eexists|].
  exists fab. split; [done|]. injection Hset as <-. rewrite Hrun.
  - vm_compute. reflexivity.
  - split; repeat constructor; travel.
Defined.

Lemma fabric_verbs_local_witness :
  let fab := (agent_setup (W := ()) [] "n" [] (default ())).2 in
  exists fab',
    fabric_action wire_request unwire_request wire_response unwire_response true
      (fun _ f => (Err ConnectionClosed, f)) agent_new (agent_context agent_new "peer") (fun _ => "")
      (fun _ => Ok "[]") (fun l => Ok (l_owner l)) (fun _ => Ok "{}") (fun _ => Err "bad") (Ok tt)
      (fun s => Ok s) (fun _ => Ok tt) "node" (clock_at 0) (FLease PROOF_GPU "agent-connect-proof" 30)
      (mkConn fab true)
    = (Done (Ok "agent-connect-proof"), mkConn fab' true)
    /\ leases fab' !! PROOF_GPU = Some (mkActiveLease demo_connect_lease (from_secs 30)).
Proof.
  intros fab. eexists. rewrite (fabric_verbs_local _ _ _ _ _ _ _ _ _ _ _ _ _ _ _ _ "node").
  - split; [vm_compute; reflexivity|vm_compute; reflexivity].
  - reflexivity.
  - reflexivity.
  - reflexivity.
  - intros request [= <-]. split; travel.
Defined.
