(* ===== verification/Inventory.v ===== *)
(** * The host inventory (nauti-fabric/src/lib.rs, memory.rs, peer.rs)

    [HostInventory::discover] over what the sysinfo library reports, the
    research-memory report and its adapter, and the peer job envelope. *)

From stdpp Require Import base tactics option list gmap strings fin_maps.
From Stdlib Require Import Ascii String.
From S2P Require Import Prelude Str Json Resource Fabric FabricInv Adapters Store Sysfs Wgpu.

#[local] Open Scope Z_scope.

(** ** Research memory *)

Module Memory.

Definition ADAPTER_NAME : string := "memory-research".
Definition SCOPE : string := "cxl-dax-famfs-drust-research".

Record ResearchMemoryReport : Type := mkResearchMemoryReport {
  rm_cxl_bus : bool;
  rm_cxl_devices : list string;
  rm_dax_nodes : list string;
  rm_famfs_mounts : list string;
  rm_drust_present : bool;
  rm_claimed_as_live_ram : bool;
  rm_notes : string;
}.

(** [is_dir] of a path, and whether [DRUST_HOME] is set. *)
Definition discover (fs : Fs) (is_dir : string -> bool) (drust_home : bool) : ResearchMemoryReport :=
  let cxl_root := "/sys/bus/cxl" in
  {| rm_cxl_bus := is_dir cxl_root;
     rm_cxl_devices := if is_dir cxl_root then option.default [] (fs_dir fs (path_join cxl_root "devices")) else [];
     rm_dax_nodes := (fun name => "/dev/" +:+ name)
                       <$> filter (fun name => starts_with "dax" name = true) (option.default [] (fs_dir fs "/dev"));
     rm_famfs_mounts := filter (fun line => contains "famfs" line = true)
                          (lines (option.default EmptyString (fs_read fs "/proc/mounts")));
     rm_drust_present := fs_exists fs "/opt/drust" || fs_exists fs "/usr/local/lib/libdrust.so" || drust_home;
     rm_claimed_as_live_ram := false;
     rm_notes := "Research only. Fabric will not attach these as coherent live memory." |}.

Definition as_resource (report : ResearchMemoryReport) (node : string) : Resource :=
  {| r_id := "local.memory.research"; r_kind := Memory; r_capacity := 0; r_unit := "research";
     r_node := node; r_state := Unavailable; r_exclusive := true;
     r_attributes := {[ "memory.kind" := "research"; "memory.cxl" := show_bool (rm_cxl_bus report);
                        "memory.dax_count" := show (Z.of_nat (length (rm_dax_nodes report)));
                        "memory.famfs_count" := show (Z.of_nat (length (rm_famfs_mounts report)));
                        "memory.drust" := show_bool (rm_drust_present report);
                        "memory.claimed" := "false" ]} |}.

Definition memory_attach {W} (report_of : W -> ResearchMemoryReport) (r : Resource) (l : Lease) (w : W) :
    result FabricError Attachment * W :=
  let report := report_of w in
  (Err (AdapterBackendUnavailable ADAPTER_NAME
     ("refusing live attach of " +:+ r_id r +:+ " (cxl=" +:+ show_bool (rm_cxl_bus report)
      +:+ " dax=" +:+ show (Z.of_nat (length (rm_dax_nodes report)))
      +:+ " famfs=" +:+ show (Z.of_nat (length (rm_famfs_mounts report)))
      +:+ " drust=" +:+ show_bool (rm_drust_present report)
      +:+ "); research bucket is typed, never claimed")), w).

Definition ResearchMemoryAdapter {W} (report_of : W -> ResearchMemoryReport) : ResourceAdapter W :=
  {| ad_name := ADAPTER_NAME; ad_attach := memory_attach report_of; ad_detach := default_detach;
     ad_capability_report := fun w =>
       let report := report_of w in
       {| ar_name := ADAPTER_NAME; ar_scope := SCOPE; ar_healthy := true;
          ar_detail := {[ "claimed_as_live_ram" := "false"; "cxl_bus" := show_bool (rm_cxl_bus report);
                          "dax_nodes" := show (Z.of_nat (length (rm_dax_nodes report)));
                          "famfs_mounts" := show (Z.of_nat (length (rm_famfs_mounts report)));
                          "drust_present" := show_bool (rm_drust_present report) ]} |} |}.

#[export] Instance ResearchMemoryAdapter_laws {W} report_of : AdapterLaws (@ResearchMemoryAdapter W report_of).
Proof. by split. Qed.

End Memory.

(** ** The inventory *)

(** What sysinfo says of a disk and of an interface. *)
Record Disk : Type := mkDisk {
  dk_name : string;
  dk_mount_point : string;
  dk_total : Z;
  dk_available : Z;
}.

Definition disk_resource (node : string) (index : nat) (d : Disk) : Resource :=
  {| r_id := "local.storage." +:+ show (Z.of_nat index); r_kind := Storage; r_capacity := dk_total d;
     r_unit := "bytes"; r_node := node; r_state := Available; r_exclusive := false;
     r_attributes := {[ "name" := dk_name d; "mount_point" := dk_mount_point d;
                        "available_bytes" := show (dk_available d) ]} |}.

Definition network_resource (node : string) (n : string * string) : Resource :=
  {| r_id := "local.network." +:+ n.1; r_kind := Network; r_capacity := 0;
     r_unit := "unknown-bandwidth"; r_node := node; r_state := Available; r_exclusive := false;
     r_attributes := {[ "interface" := n.1; "mac_address" := n.2 ]} |}.

(** [networks]: interface name and address, in the order the map is iterated. *)
Definition host_inventory (node : string) (parallelism : option Z) (total_memory : Z)
    (disks : list Disk) (memory : Memory.ResearchMemoryReport) (networks : list (string * string)) :
    list Resource :=
  app [local_cpu node parallelism; local_memory node total_memory]
    (app (imap (disk_resource node) disks)
      (app [default_store_resource node; Wgpu.default_resource node; Memory.as_resource memory node]
        (network_resource node <$> networks))).

(** ** Peers *)

Inductive PeerKind : Type := Bare | Vm.

Record PeerIdentity : Type := mkPeerIdentity {
  pi_node : string;
  pi_kind : PeerKind;
  pi_endpoint : string;
}.

Record PeerJob : Type := mkPeerJob {
  pj_job_id : string;
  pj_domain : PeerIdentity;
  pj_op : string;
  pj_store_input : option string;
  pj_payload : Json;
}.

Record PeerResult : Type := mkPeerResult {
  pr_job_id : string;
  pr_domain : PeerIdentity;
  pr_status : string;
  pr_output : Json;
}.

Definition run_peer_job (job : PeerJob) (output : Json) : PeerResult :=
  {| pr_job_id := pj_job_id job; pr_domain := pj_domain job; pr_status := "ok"; pr_output := output |}.

Definition default_vsock_spec (socket : string) : string := "cid=3,socket=" +:+ socket.

(** ** The inventory in the registry *)

Lemma disk_ids_lookup node disks i x :
  (r_id <$> imap (disk_resource node) disks) !! i = Some x -> x = "local.storage." +:+ show (Z.of_nat i).
Proof.
  rewrite list_lookup_fmap, list_lookup_imap.
  destruct (disks !! i); simpl; [by intros [= <-]|done].
Qed.

Lemma disk_ids_NoDup node disks : NoDup (r_id <$> imap (disk_resource node) disks).
Proof.
  apply NoDup_alt. intros i j x Hi%disk_ids_lookup Hj%disk_ids_lookup. subst x.
  apply (inj (String.append "local.storage.")) in Hj. unfold show in Hj. apply (inj pretty) in Hj. lia.
Qed.

Lemma network_ids_NoDup node (networks : list (string * string)) :
  NoDup networks.*1 -> NoDup (r_id <$> (network_resource node <$> networks)).
Proof.
  intros Hn. rewrite <-list_fmap_compose.
  change (NoDup ((String.append "local.network." ∘ fst) <$> networks)).
  rewrite list_fmap_compose. apply NoDup_fmap_2; [apply _|done].
Qed.

(** Every resource of the inventory has its own identifier when the interfaces
    have their own names. *)
Lemma inventory_ids_NoDup node parallelism total disks memory networks :
  NoDup networks.*1 -> NoDup (r_id <$> host_inventory node parallelism total disks memory networks).
Proof.
  intros Hn. unfold host_inventory. rewrite !fmap_app, !NoDup_app.
  assert (forall x, x ∈ r_id <$> imap (disk_resource node) disks ->
            exists i : nat, x = "local.storage." +:+ show (Z.of_nat i)) as Hd.
  { intros x (i & Hi)%list_elem_of_lookup. apply disk_ids_lookup in Hi. by exists i. }
  assert (forall x, x ∈ r_id <$> (network_resource node <$> networks) ->
            exists s, x = "local.network." +:+ s) as Hnet.
  { intros x. rewrite <-list_fmap_compose. intros (n & -> & _)%list_elem_of_fmap. by exists n.1. }
  split_and!.
  - cbn [fmap list_fmap local_cpu local_memory r_id]. apply NoDup_cons. split; [|apply NoDup_singleton].
    by rewrite list_elem_of_singleton.
  - intros x Hx. rewrite !elem_of_app. intros [(i & ->)%Hd|[H|(s & ->)%Hnet]]; revert Hx;
      cbn [fmap list_fmap]; rewrite ?elem_of_cons, elem_of_nil; [by intros [?|[?|?]]| |by intros [?|[?|?]]].
    intros [->|[->|?]]; [..|done]; revert H; cbn [fmap list_fmap];
      rewrite ?elem_of_cons, elem_of_nil; by intros [?|[?|[?|?]]].
  - apply disk_ids_NoDup.
  - intros x (i & ->)%Hd. rewrite elem_of_app. intros [H|(s & H)%Hnet]; [|done].
    revert H. cbn [fmap list_fmap]; rewrite ?elem_of_cons, elem_of_nil. by intros [?|[?|[?|?]]].
  - cbn [fmap list_fmap]. repeat (apply NoDup_cons; split;
      [rewrite ?elem_of_cons, elem_of_nil; by intros ?; destruct_or?|]). apply NoDup_nil_2.
  - intros x Hx (s & ->)%Hnet. revert Hx. cbn [fmap list_fmap]; rewrite ?elem_of_cons, elem_of_nil.
    by intros [?|[?|[?|?]]].
  - by apply network_ids_NoDup.
Qed.

(** No call through the registry ever claims the research memory. *)
Lemma research_memory_refused {W} report node c owner ttl (fab : Fabric W) :
  resources fab !! "local.memory.research" = Some (Memory.as_resource report node) ->
  (lease_exclusive c "local.memory.research" owner ttl fab).1 = Done (Err ResourceUnavailable)
  /\ forall rq, matches rq (Memory.as_resource report node) = false.
Proof.
  intros Hr. split.
  - unfold lease_exclusive, lease_check, resource. st_unfold. by rewrite Hr.
  - intros rq. unfold matches. by rewrite bool_decide_eq_false_2.
Qed.
