(* ===== verification/Planes.v ===== *)
(** * The adapter planes (nauti-fabric/src/bin/nauti.rs, [tools], [adapters],
    [agent_serve])

    Which adapters a process registers, and the listing of their reports. The
    adapters' own host calls are arguments, as in their files. *)

From stdpp Require Import base tactics option list gmap strings fin_maps sorting.
From Stdlib Require Import Ascii String.
From S2P Require Import Prelude Str F64 Resource Fabric Adapters Store Sysfs Hwinfo Wgpu Vfio Inventory Session.

#[local] Open Scope Z_scope.

Record ToolInfo : Type := mkToolInfo { ti_name : string; ti_purpose : string }.

Definition tools : list ToolInfo :=
  [mkToolInfo "inventory" "discover host resources"; mkToolInfo "adapters" "list local and network adapter planes";
   mkToolInfo "demo" "prove lease, attach, and release"].

(** The Lemonade endpoint from the environment. *)
Definition lemonade_config (host port api_key : option string) : LemonadeConfig :=
  {| lc_host := option.default "127.0.0.1" host;
     lc_port := match port with Some p => option.default 13305 (parse_u16 p) | None => 13305 end;
     lc_api_key := api_key |}.

Section planes.
Context {W : Type} `{HL : Lens W LiveStores}.
Context (create_dir_all : string -> W -> result string () * W) (virtiofsd : W -> option string)
  (parse_f64 : string -> option f64) (fs_of : W -> Fs) (ip_of : W -> option string)
  (memory_of : W -> Memory.ResearchMemoryReport) (lemonade_of : W -> LemonadeReport)
  (open_passthrough : string -> Z -> W -> result string string * W).
(** The features [wgpu-remote] and, together, [vfio] and [cloud-hypervisor]. *)
Context (wgpu vfio : bool).

(** The planes both processes register, in their order. *)
Definition shared_planes : list (ResourceAdapter W) :=
  app [FabricStoreAdapter create_dir_all virtiofsd; Wgpu.WgpuRemoteAdapter wgpu;
       Memory.ResearchMemoryAdapter memory_of; RdmaAdapter parse_f64 "/sys" fs_of ip_of]
    (if vfio then [Vfio.VfioGpuAdapter fs_of open_passthrough] else []).

(** What [adapters] registers. *)
Definition cli_planes (host port api_key : option string) : list (ResourceAdapter W) :=
  app [LocalProofAdapter; LocalResourceAdapter; NetworkResourceAdapter;
       LemonadeAdapter lemonade_of (lemonade_config host port api_key)] shared_planes.

Definition list_adapters (host port api_key : option string) (w : W) : list AdapterReport :=
  adapter_reports (st_iter register_adapter (cli_planes host port api_key) (default w)).2.

(** [agent_serve]: the registry before the endpoint is bound. *)
Definition serve_setup (discovered : list Resource) (node : string) : ST (Fabric W) () :=
  agent_setup discovered node shared_planes.

(** ** The listing *)

Lemma registered_adapters (ads : list (ResourceAdapter W)) fab :
  NoDup (ad_name <$> ads) -> Forall (fun ad => adapters fab !! ad_name ad = None) ads ->
  (map_to_list (adapters (st_iter register_adapter ads fab).2)).*2 ≡ₚ app ads (map_to_list (adapters fab)).*2
  /\ world (st_iter register_adapter ads fab).2 = world fab.
Proof.
  revert fab. induction ads as [|ad ads IH]; intros fab Hnd Hnew; [done|].
  apply NoDup_cons in Hnd as [Hni Hnd]. apply Forall_cons in Hnew as [Had Hnew].
  change (st_iter register_adapter (ad :: ads) fab)
    with (st_iter register_adapter ads (with_adapters (insert (ad_name ad) ad) fab)).
  destruct (IH (with_adapters (insert (ad_name ad) ad) fab)) as [Hp Hw]; [done|..].
  - rewrite Forall_forall in Hnew |- *. intros ad' Hin. simpl. rewrite lookup_insert_ne; [by apply Hnew|].
    intros Heq. apply Hni. rewrite Heq. by apply list_elem_of_fmap_2.
  - split; [|done]. rewrite Hp. simpl. rewrite map_to_list_insert by done. simpl. by rewrite Permutation_middle.
Qed.

(** A listing is the reports of the registered planes, in the order of their
    names. *)
Lemma listing_perm (ads : list (ResourceAdapter W)) w :
  NoDup (ad_name <$> ads) ->
  adapter_reports (st_iter register_adapter ads (default w)).2
    ≡ₚ (fun ad => ad_capability_report ad w) <$> ads.
Proof.
  intros Hnd. destruct (registered_adapters ads (default w) Hnd) as [Hp Hw].
  { apply Forall_forall. intros ad _. apply lookup_empty. }
  unfold adapter_reports. rewrite merge_sort_Permutation, Hw. simpl. rewrite Hp. simpl.
  by rewrite map_to_list_empty, app_nil_r.
Qed.

Definition plane_names : list string :=
  app ["fabric-store"] (app (if vfio then ["gpu-vfio"] else [])
    ["gpu-wgpu-remote"; "lemonade"; "local-proof"; "local-resource"; "memory-research"; "network-resource"; "rdma"]).

Lemma cli_planes_names host port api_key : ad_name <$> cli_planes host port api_key ≡ₚ plane_names.
Proof. unfold cli_planes, shared_planes, plane_names. destruct vfio; simpl; solve_Permutation. Qed.

Lemma plane_names_NoDup : NoDup plane_names.
Proof. unfold plane_names. destruct vfio; by apply (bool_decide_unpack _); vm_compute. Qed.

Lemma plane_names_sorted : StronglySorted String.le plane_names.
Proof. apply Sorted_StronglySorted; [apply _|]. unfold plane_names. destruct vfio; repeat constructor; by vm_compute. Qed.

Lemma reports_sorted (l : list AdapterReport) : StronglySorted String.le (ar_name <$> merge_sort ar_name_le l).
Proof.
  assert (Total ar_name_le) by (intros a b; apply (total String.le)).
  assert (Transitive ar_name_le) by (intros a b c; unfold ar_name_le; apply (transitivity (R := String.le))).
  pose proof (StronglySorted_merge_sort ar_name_le l) as Hs.
  induction Hs as [|r l' Hs IH Hall]; [constructor|]. simpl. constructor; [done|].
  by rewrite Forall_fmap.
Qed.

(** Every adapter of a list keeps its laws. *)
#[local] Existing Instances Vfio.VfioGpuAdapter_laws Wgpu.WgpuRemoteAdapter_laws Memory.ResearchMemoryAdapter_laws.
Ltac each_law := repeat (apply Forall_cons; split; [apply _|]); apply Forall_nil_2.

Lemma cli_planes_laws host port api_key :
  (forall p w, lget (create_dir_all p w).2 = lget w) ->
  Forall AdapterLaws (cli_planes host port api_key).
Proof.
  intros Hframe. unfold cli_planes, shared_planes. rewrite !Forall_app.
  split; [each_law|]. split; [|destruct vfio; each_law].
  apply Forall_cons. split; [by apply (FabricStoreAdapter_laws create_dir_all virtiofsd Hframe)|each_law].
Qed.

End planes.

(** The listing of [nauti adapters]. Registering the planes loses none of
    them and overwrites none: the listing is, up to order, the report every
    plane gives of the host at that moment, one each, and it is printed in the
    order of the plane names - the Lemonade endpoint taken from the environment,
    13305 standing for a missing or unreadable port. *)
Theorem list_adapters_spec {W : Type} `{HL : Lens W LiveStores}
    (create_dir_all : string -> W -> result string () * W) virtiofsd parse_f64 fs_of ip_of memory_of
    (lemonade_of : W -> LemonadeReport) open_passthrough wgpu vfio host port api_key (w : W) :
  (forall p w, lget (create_dir_all p w).2 = lget w) ->
  let planes := cli_planes create_dir_all virtiofsd parse_f64 fs_of ip_of memory_of lemonade_of open_passthrough
                  wgpu vfio host port api_key in
  let listing := list_adapters create_dir_all virtiofsd parse_f64 fs_of ip_of memory_of lemonade_of
                   open_passthrough wgpu vfio host port api_key w in
  listing ≡ₚ (fun ad => ad_capability_report ad w) <$> planes
  /\ ar_name <$> listing = plane_names vfio.
Proof.
  intros Hframe planes listing.
  assert (Hnames : ad_name <$> planes ≡ₚ plane_names vfio) by apply cli_planes_names.
  assert (Hperm : listing ≡ₚ (fun ad => ad_capability_report ad w) <$> planes).
  { apply listing_perm. rewrite Hnames. apply plane_names_NoDup. }
  split; [done|]. apply (StronglySorted_unique String.le).
  - apply reports_sorted.
  - apply plane_names_sorted.
  - rewrite Hperm, <-Hnames, <-list_fmap_compose.
    assert (Hlaws : Forall AdapterLaws planes) by (by apply cli_planes_laws).
    clear -Hlaws. induction Hlaws as [|ad ads Had _ IH]; [done|]. simpl. rewrite IH.
    by rewrite (report_names_adapter (AdapterLaws := Had)).
Qed.

Lemma list_adapters_spec_witness :
  ar_name <$> list_adapters (W := gmap Z StoreResolution) (fun _ w => (Ok tt, w)) (fun _ => None) (fun _ => None)
    (fun _ => mkFs (fun _ => None) (fun _ => None) (fun _ => None) (fun _ => false) (fun _ => None)) (fun _ => None)
    (fun _ => Memory.discover (mkFs (fun _ => None) (fun _ => None) (fun _ => None) (fun _ => false) (fun _ => None))
                (fun _ => false) false)
    (fun _ => mkLemonadeReport false None [] [] [] []) (fun _ _ w => (Err "no vfio", w)) false true None (Some "x") None ∅
  = ["fabric-store"; "gpu-vfio"; "gpu-wgpu-remote"; "lemonade"; "local-proof"; "local-resource";
     "memory-research"; "network-resource"; "rdma"].
Proof.
  refine (proj2 (list_adapters_spec _ _ _ _ _ _ _ _ _ _ _ _ _ _ _)). done.
Defined.
