(* ===== verification/AgentFiles.v ===== *)
(** * The files of an agent (nauti-fabric/src/bin/nauti.rs)

    The identity of an agent and the address it announces: two files in the
    address directory, and the listing a fleet view starts from. A tree is the
    files of every directory; what the operating system refuses, and how much of
    a failed write reaches the disk, are arguments, as are the printer of an
    address and iroh's keys. Directories are told apart by their path without
    trailing slashes. *)

From stdpp Require Import base tactics option list gmap strings fin_maps sorting.
From Stdlib Require Import Ascii String.
From S2P Require Import Prelude Str Utf8 Sysfs.

#[local] Open Scope Z_scope.

(** ** Paths *)

Definition SLASH : ascii := byte_of 47.

(** [trim_end_matches('/')]. *)
Definition trim_slashes (s : string) : string := trim_bytes_end (fun a => Ascii.eqb a SLASH) s.

Definition addr_file_dir (env : option string) : string := option.default "/var/lib/nauti" env.

Definition agent_key_path (env : option string) (node : string) : string :=
  trim_slashes (addr_file_dir env) +:+ String SLASH (node +:+ "-secret.key").
Definition addr_file_path (env : option string) (node : string) : string :=
  trim_slashes (addr_file_dir env) +:+ String SLASH (node +:+ "-addr.json").

(** The directory a file is in, and its name there. *)
Definition locate (path : string) : string * string :=
  match rsplit_once SLASH path with
  | Some (dir, name) => (trim_slashes dir, name)
  | None => (".", path)
  end.

(** [Path::parent], of a path without [.] components. *)
Definition path_parent (path : string) : option string :=
  match rsplit_once SLASH (trim_slashes path) with
  | Some (dir, _) => Some (if String.eqb (trim_slashes dir) "" then "/" else trim_slashes dir)
  | None => if String.eqb (trim_slashes path) "" then None else Some EmptyString
  end.

(** ** A writable tree *)

Record Entry : Type := mkEntry { e_bytes : string; e_mode : Z }.

(** Directories by path, files by name. *)
Abbreviation Tree := (gmap string (gmap string Entry)) (only parsing).

Inductive FileOp : Type := ReadDir | ReadFile | MakeDir | CreateFile | WriteFile.

Section files.
Context (fault : FileOp -> string -> option string) (partial : string -> string).

Definition file_at (path : string) (t : Tree) : option Entry := t !! (locate path).1 ≫= (.!! (locate path).2).

Definition set_file (path : string) (e : Entry) (t : Tree) : Tree :=
  match t !! (locate path).1 with
  | Some files => <[(locate path).1 := <[(locate path).2 := e]> files]> t
  | None => t
  end.

(** What the operating system says of the operation, if the tree allows it. *)
Definition refused (op : FileOp) (path : string) (missing : bool) : option string :=
  match fault op path with
  | Some e => Some e
  | None => if missing then Some "No such file or directory" else None
  end.

(** [std::fs::read]. *)
Definition read_file (path : string) (t : Tree) : result string string :=
  match fault ReadFile path with
  | Some e => Err e
  | None => e_bytes <$> ok_or (file_at path t) "No such file or directory"
  end.

(** [std::fs::create_dir_all]. *)
Definition create_dir_all (path : string) (t : Tree) : result string () * Tree :=
  if String.eqb path "" then (Ok tt, t)
  else match fault MakeDir path with
       | Some e => (Err e, t)
       | None => (Ok tt, <[trim_slashes path := option.default ∅ (t !! trim_slashes path)]> t)
       end.

(** [OpenOptions::new().write(true).create_new(true).mode(mode).open]. *)
Definition create_new (path : string) (mode : Z) (t : Tree) : result string () * Tree :=
  match refused CreateFile path (bool_decide (t !! (locate path).1 = None)) with
  | Some e => (Err e, t)
  | None => match file_at path t with
            | Some _ => (Err "File exists", t)
            | None => (Ok tt, set_file path (mkEntry EmptyString mode) t)
            end
  end.

(** [write_all] to an open file: a failure leaves what was written. *)
Definition write_all (path bytes : string) (mode : Z) (t : Tree) : result string () * Tree :=
  match fault WriteFile path with
  | Some e => (Err e, set_file path (mkEntry (partial bytes) mode) t)
  | None => (Ok tt, set_file path (mkEntry bytes mode) t)
  end.

(** [std::fs::write]: an existing file is truncated and keeps its mode. *)
Definition write_file (path bytes : string) (t : Tree) : result string () * Tree :=
  match refused CreateFile path (bool_decide (t !! (locate path).1 = None)) with
  | Some e => (Err e, t)
  | None => write_all path bytes (match file_at path t with Some e => e_mode e | None => 438 end) t
  end.

Definition at_path {A} (path : string) (r : result string A) : result string A :=
  map_err (fun e => path +:+ ": " +:+ e) r.

(** The directory of a path, created. *)
Definition create_parent (path : string) (t : Tree) : result string () * Tree :=
  match path_parent path with
  | Some parent => let '(r, t) := create_dir_all parent t in (at_path parent r, t)
  | None => (Ok tt, t)
  end.

(** ** The agent's key *)

Section key.
Context {Key : Type} (from_bytes : string -> Key) (to_bytes : Key -> string).

Definition KEY_MODE : Z := 384.

(** [load_or_create_key_at]; [fresh] is the key [SecretKey::generate] gives. *)
Definition load_or_create_key_at (fresh : Key) (path : string) (t : Tree) : result string Key * Tree :=
  match read_file path t with
  | Ok bytes =>
      (if bool_decide (String.length bytes = 32%nat) then Ok (from_bytes bytes)
       else Err (path +:+ ": expected 32 bytes, found " +:+ show (Z.of_nat (String.length bytes))), t)
  | Err _ =>
      let '(r, t) := create_parent path t in
      match r with
      | Err e => (Err e, t)
      | Ok _ =>
          let '(r, t) := create_new path KEY_MODE t in
          match r with
          | Err e => (at_path path (Err e), t)
          | Ok _ =>
              let '(r, t) := write_all path (to_bytes fresh) KEY_MODE t in
              ((fun _ => fresh) <$> at_path path r, t)
          end
      end
  end.

Definition load_or_create_agent_key (fresh : Key) (env : option string) (node : string) (t : Tree) :
    result string Key * Tree :=
  load_or_create_key_at fresh (agent_key_path env node) t.

(** The identity [agent_serve] binds: [None] is an ephemeral one. *)
Definition agent_identity (fresh : Key) (env : option string) (node : string) (t : Tree) : option Key * Tree :=
  match load_or_create_agent_key fresh env node t with
  | (Ok key, t) => (Some key, t)
  | (Err _, t) => (None, t)
  end.
End key.

(** ** The address file *)

Definition persist_addr_json_to (path json : string) (t : Tree) : result string string * Tree :=
  let '(r, t) := create_parent path t in
  match r with
  | Err e => (Err e, t)
  | Ok _ => let '(r, t) := write_file path json t in ((fun _ => path) <$> at_path path r, t)
  end.

Definition persist_addr {Addr} (pretty : Addr -> result string string) (env : option string) (node : string)
    (addr : Addr) (t : Tree) : result string string * Tree :=
  match pretty addr with
  | Err e => (Err e, t)
  | Ok json => persist_addr_json_to (addr_file_path env node) json t
  end.

(** The node and the text of an address file. *)
Definition addr_entry (dir : string) (file : string * Entry) : option (string * string) :=
  node ← strip_suffix "-addr.json" (from_utf8_lossy file.1);
  match fault ReadFile (path_join dir file.1) with
  | Some _ => None
  | None => if utf8_valid (e_bytes file.2) then Some (node, e_bytes file.2) else None
  end.

Definition pair_le (a b : string * string) : Prop :=
  match String.compare a.1 b.1 with Lt => True | Eq => String.le a.2 b.2 | Gt => False end.
#[export] Instance pair_le_dec : RelDecision pair_le.
Proof. intros a b. unfold pair_le. destruct (String.compare a.1 b.1); apply _. Defined.

(** [fleet_addr_files]. *)
Definition fleet_addr_files (env : option string) (t : Tree) : list (string * string) :=
  let dir := addr_file_dir env in
  match fault ReadDir dir, (if String.eqb dir "" then None else t !! trim_slashes dir) with
  | None, Some files => merge_sort pair_le (omap (addr_entry dir) (map_to_list files))
  | _, _ => []
  end.

(** ** Paths of the two files *)

Lemma trim_start_head p a s : p a = false -> trim_bytes_start p (String a s) = String a s.
Proof. simpl. by intros ->. Qed.

Lemma trim_bytes_start_idem p s : trim_bytes_start p (trim_bytes_start p s) = trim_bytes_start p s.
Proof. induction s as [|a s IH]; [done|]. simpl. destruct (p a) eqn:E; [done|]. simpl. by rewrite E. Qed.

Lemma trim_slashes_idem s : trim_slashes (trim_slashes s) = trim_slashes s.
Proof. unfold trim_slashes, trim_bytes_end. by rewrite rev_str_involutive, trim_bytes_start_idem. Qed.

Lemma trim_slashes_name x name :
  contains_char SLASH name = false -> name <> EmptyString -> trim_slashes (x +:+ name) = x +:+ name.
Proof.
  intros Hc Hne. unfold trim_slashes, trim_bytes_end. rewrite rev_str_app.
  assert (Hrev : exists a s, String.rev name = String a s /\ Ascii.eqb a SLASH = false).
  { rewrite contains_char_all in Hc. apply negb_false_iff in Hc. rewrite <-all_bytes_rev in Hc.
    destruct (String.rev name) as [|a s] eqn:E.
    - destruct Hne. by rewrite <-(rev_str_involutive name), E.
    - exists a, s. split; [done|]. simpl in Hc. apply andb_true_iff in Hc as [Ha _]. by apply negb_true_iff. }
  destruct Hrev as (a & s & Hr & Ha). rewrite Hr, str_app_cons, trim_start_head by done.
  rewrite <-str_app_cons, <-Hr, <-rev_str_app. apply rev_str_involutive.
Qed.

Lemma locate_file dir name :
  contains_char SLASH name = false -> locate (dir +:+ String SLASH name) = (trim_slashes dir, name).
Proof. intros Hc. unfold locate. by rewrite rsplit_once_last. Qed.

(** The parent of a file is the directory it is located in. *)
Lemma path_parent_file dir name :
  contains_char SLASH name = false -> name <> EmptyString ->
  exists p, path_parent (dir +:+ String SLASH name) = Some p /\ p <> EmptyString
    /\ trim_slashes p = trim_slashes dir.
Proof.
  intros Hc Hne. unfold path_parent.
  assert (dir +:+ String SLASH name = (dir +:+ str1 SLASH) +:+ name) as Heq by (by rewrite str_app_assoc).
  rewrite Heq, trim_slashes_name, <-Heq, rsplit_once_last by done.
  eexists. split; [done|]. destruct (String.eqb_spec (trim_slashes dir) "") as [Hz|Hz].
  - rewrite Hz. done.
  - split; [done|]. apply trim_slashes_idem.
Qed.

Lemma create_parent_file dir name t t' :
  contains_char SLASH name = false -> name <> EmptyString ->
  create_parent (dir +:+ String SLASH name) t = (Ok tt, t') ->
  t' = <[trim_slashes dir := option.default ∅ (t !! trim_slashes dir)]> t.
Proof.
  intros Hc Hne. destruct (path_parent_file dir name Hc Hne) as (p & Hp & Hpe & Ht).
  unfold create_parent, create_dir_all. rewrite Hp. destruct (String.eqb_spec p ""); [done|].
  destruct (fault MakeDir p); [done|]. intros [= <-]. by rewrite Ht.
Qed.

(** ** What the two operations leave *)

Lemma set_file_get path e t : is_Some (t !! (locate path).1) -> file_at path (set_file path e t) = Some e.
Proof. intros [files Hf]. unfold file_at, set_file. rewrite Hf, lookup_insert_eq. simpl. apply lookup_insert_eq. Qed.

Lemma create_parent_keeps path path' t : file_at path' (create_parent path t).2 = file_at path' t.
Proof.
  unfold create_parent, create_dir_all. destruct (path_parent path) as [p|]; [|done].
  destruct (String.eqb p ""); [done|]. destruct (fault MakeDir p); [done|]. simpl. unfold file_at.
  destruct (decide (trim_slashes p = (locate path').1)) as [->|Hne].
  - rewrite lookup_insert_eq. by destruct (t !! (locate path').1).
  - by rewrite lookup_insert_ne.
Qed.

Lemma refused_dir op path (t : Tree) :
  refused op path (bool_decide (t !! (locate path).1 = None)) = None -> is_Some (t !! (locate path).1).
Proof.
  unfold refused. destruct (fault op path); [done|]. case_bool_decide as H; [done|]. intros _.
  by apply not_eq_None_Some.
Qed.

Lemma read_file_ok path bytes t :
  read_file path t = Ok bytes <->
  fault ReadFile path = None /\ exists e, file_at path t = Some e /\ e_bytes e = bytes.
Proof.
  unfold read_file. destruct (fault ReadFile path); [naive_solver|].
  destruct (file_at path t) as [e|]; simpl; naive_solver.
Qed.

Lemma read_file_err path e t :
  read_file path t = Err e -> fault ReadFile path <> None \/ file_at path t = None.
Proof.
  unfold read_file. destruct (fault ReadFile path); [by left|]. destruct (file_at path t); [done|by right].
Qed.

(** A file that is there is opened for creation in vain. *)
Lemma create_new_cases path mode t :
  (exists e, create_new path mode t = (Err e, t))
  \/ (create_new path mode t = (Ok tt, set_file path (mkEntry EmptyString mode) t)
      /\ file_at path t = None /\ is_Some (t !! (locate path).1)).
Proof.
  unfold create_new. destruct (refused CreateFile path _) as [e|] eqn:Hr; [left; by eexists|].
  apply refused_dir in Hr. destruct (file_at path t); [left; by eexists|by right].
Qed.

Section key_facts.
Context {Key : Type} (from_bytes : string -> Key) (to_bytes : Key -> string).
Context (key_bytes : forall k, from_bytes (to_bytes k) = k /\ String.length (to_bytes k) = 32%nat).

(** Every way a load can end. *)
Lemma load_key_cases fresh path t :
  let '(r, t') := load_or_create_key_at from_bytes to_bytes fresh path t in
  (t' = t /\ fault ReadFile path = None /\ exists e, file_at path t = Some e
     /\ r = (if bool_decide (String.length (e_bytes e) = 32%nat) then Ok (from_bytes (e_bytes e))
             else Err (path +:+ ": expected 32 bytes, found " +:+ show (Z.of_nat (String.length (e_bytes e))))))
  \/ ((exists e, r = Err e) /\ file_at path t' = file_at path t
      /\ (fault ReadFile path <> None \/ file_at path t = None))
  \/ (file_at path t = None /\ exists written, file_at path t' = Some (mkEntry written KEY_MODE)
        /\ ((r = Ok fresh /\ written = to_bytes fresh)
            \/ (exists e, r = Err e /\ fault WriteFile path <> None /\ written = partial (to_bytes fresh)))).
Proof.
  unfold load_or_create_key_at. destruct (read_file path t) as [bytes|err] eqn:Er.
  { apply read_file_ok in Er as (Hf & e & He & <-). left. eauto. }
  apply read_file_err in Er. pose proof (create_parent_keeps path path t) as Hkeep.
  destruct (create_parent path t) as [[[]|e] t1]; simpl in Hkeep; [|right; left; eauto].
  destruct (create_new_cases path KEY_MODE t1) as [[e Hc]|(Hc & Hnone & Hdir)];
    rewrite Hc; cbv beta iota.
  { right. left. eauto. }
  rewrite Hkeep in Hnone.
  assert (Hdir' : is_Some (set_file path (mkEntry EmptyString KEY_MODE) t1 !! (locate path).1)).
  { destruct Hdir as [files Hd]. unfold set_file. rewrite Hd, lookup_insert_eq. by eexists. }
  unfold write_all. destruct (fault WriteFile path) as [e|] eqn:Ew; simpl; right; right;
    (split; [done|]); eexists; rewrite set_file_get by done; (split; [done|]); [right|by left]; by eexists.
Qed.

(** A key that a load returned is what every later load returns, as long as the
    file is what that load left. *)
Lemma load_key_reload fresh fresh' path t key :
  (forall k, from_bytes (to_bytes k) = k /\ String.length (to_bytes k) = 32%nat) ->
  fault ReadFile path = None ->
  (load_or_create_key_at from_bytes to_bytes fresh path t).1 = Ok key ->
  forall t', file_at path t' = file_at path (load_or_create_key_at from_bytes to_bytes fresh path t).2 ->
    load_or_create_key_at from_bytes to_bytes fresh' path t' = (Ok key, t').
Proof.
  intros Hkey Hread. pose proof (load_key_cases fresh path t) as Hc.
  destruct (load_or_create_key_at _ _ fresh path t) as [r t1]. simpl. intros -> t' Hsame.
  assert (Hlater : forall e, file_at path t' = Some e -> load_or_create_key_at from_bytes to_bytes fresh' path t'
    = (if bool_decide (String.length (e_bytes e) = 32%nat) then Ok (from_bytes (e_bytes e))
       else Err (path +:+ ": expected 32 bytes, found " +:+ show (Z.of_nat (String.length (e_bytes e)))), t')).
  { intros e He. unfold load_or_create_key_at.
    assert (read_file path t' = Ok (e_bytes e)) as -> by (apply read_file_ok; eauto). done. }
  destruct Hc as [(-> & _ & e & He & Hr)|[([e He] & _)|(_ & written & Hw & Hcase)]]; [|done|].
  - rewrite (Hlater e) by (by rewrite Hsame). by rewrite <-Hr.
  - destruct Hcase as [[[= ->] ->]|(e & He & _)]; [|done]. destruct (Hkey fresh) as [Hid Hlen].
    rewrite (Hlater _ (eq_trans Hsame Hw)). simpl. by rewrite bool_decide_eq_true_2, Hid.
Qed.
End key_facts.

(** The directory of a file after its text was written there. *)
Lemma persist_ok dir name json t t' p :
  contains_char SLASH name = false -> name <> EmptyString ->
  persist_addr_json_to (dir +:+ String SLASH name) json t = (Ok p, t') ->
  p = dir +:+ String SLASH name
  /\ exists mode, t' !! trim_slashes dir
       = Some (<[name := mkEntry json mode]> (option.default ∅ (t !! trim_slashes dir))).
Proof.
  intros Hc Hne. unfold persist_addr_json_to.
  destruct (create_parent _ t) as [[[]|e] t1] eqn:Ep; [|done].
  apply create_parent_file in Ep; [|done..]. subst t1. unfold write_file, write_all.
  destruct (refused CreateFile _ _) as [e|]; [done|]. destruct (fault WriteFile _); [done|].
  intros [= <- <-]. split; [done|]. eexists. unfold set_file. rewrite locate_file by done. simpl.
  by rewrite !lookup_insert_eq.
Qed.

Lemma strip_suffix_app s p : strip_suffix p (s +:+ p) = Some s.
Proof.
  unfold strip_suffix. rewrite rev_str_app.
  assert (strip_prefix (String.rev p) (String.rev p +:+ String.rev s) = Some (String.rev s)) as ->
    by (by apply strip_prefix_Some).
  simpl. by rewrite rev_str_involutive.
Qed.

End files.

(** C29. The agent's identity is created once. Whatever the operating system
    refuses, a load never changes a key file that is there. When the file can be
    read, a key is returned exactly if it holds 32 bytes; a key that is returned
    is on disk - the bytes of the file, or the fresh key in a new file of mode
    0600 - so every later load returns that same key, whatever key it would
    generate, and changes nothing. A first write that failed half-way leaves a
    file that every later load refuses. *)
Theorem agent_key_once {Key} fault partial (from_bytes : string -> Key) to_bytes fresh fresh' path t :
  (forall k, from_bytes (to_bytes k) = k /\ String.length (to_bytes k) = 32%nat) ->
  let load := load_or_create_key_at fault partial from_bytes to_bytes in
  let r := (load fresh path t).1 in
  let t' := (load fresh path t).2 in
  (forall e, file_at path t = Some e -> file_at path t' = Some e)
  /\ (fault ReadFile path = None ->
      (forall e, file_at path t = Some e -> (is_ok r = true <-> String.length (e_bytes e) = 32%nat))
      /\ (forall key, r = Ok key -> load fresh' path t' = (Ok key, t')
           /\ (file_at path t = None -> key = fresh /\ file_at path t' = Some (mkEntry (to_bytes key) KEY_MODE)))
      /\ (forall e, r = Err e -> file_at path t = None -> is_Some (file_at path t') ->
           String.length (partial (to_bytes fresh)) <> 32%nat ->
           is_ok (load fresh' path t').1 = false /\ (load fresh' path t').2 = t')).
Proof.
  intros Hkey load r t'. unfold r, t', load.
  pose proof (load_key_cases fault partial from_bytes to_bytes fresh path t) as Hc.
  destruct (load_or_create_key_at _ _ _ _ fresh path t) as [r0 t0]. clear r t' load. cbn [fst snd].
  split; [by destruct Hc as [(-> & _)|[(_ & -> & _)|(-> & _)]]|]. intros Hread.
  assert (Hlater : forall t1 e, file_at path t1 = Some e ->
    load_or_create_key_at fault partial from_bytes to_bytes fresh' path t1
    = (if bool_decide (String.length (e_bytes e) = 32%nat) then Ok (from_bytes (e_bytes e))
       else Err (path +:+ ": expected 32 bytes, found " +:+ show (Z.of_nat (String.length (e_bytes e)))), t1)).
  { intros t1 e He. unfold load_or_create_key_at.
    assert (read_file fault path t1 = Ok (e_bytes e)) as -> by (apply read_file_ok; eauto). done. }
  destruct Hc as [(-> & _ & e & He & ->)|[([e ->] & Hsame & Hunread)|(Hnone & written & Hw & Hcase)]].
  - split_and!.
    + intros e' He'. simplify_eq. by case_bool_decide.
    + intros key Hk. rewrite (Hlater _ _ He), Hk. split; [done|]. by rewrite He.
    + intros e' _ Hn. by rewrite He in Hn.
  - destruct Hunread as [?|Hnone]; [done|]. rewrite Hnone in Hsame. split_and!; [by rewrite Hnone|done|].
    intros e' _ _ [w Hw]. by rewrite Hsame in Hw.
  - split_and!; [by rewrite Hnone| |].
    + intros key ->. destruct Hcase as [[[= ->] ->]|(e & Hr & _)]; [|done]. destruct (Hkey fresh) as [Hid Hlen].
      rewrite (Hlater _ _ Hw). simpl. by rewrite bool_decide_eq_true_2, Hid.
    + intros e -> _ _ Hpart. destruct Hcase as [[? _]|(e' & _ & _ & ->)]; [done|].
      rewrite (Hlater _ _ Hw). simpl. by rewrite bool_decide_eq_false_2.
Qed.

(** The fleet finds what an agent announces. When persisting an address
    succeeds, the listing of the address directory holds, up to order, the node
    with exactly that text, once, and besides it the entries of the other files
    as before: an agent replaces its own entry and nobody else's. It needs a
    directory the environment does not set to the empty string, a node name
    without a slash, and files that can be read. *)
Theorem announced_address_found {Addr} fault partial (pretty : Addr -> result string string) env node addr json
    (t t' : Tree) p :
  let dir := addr_file_dir env in
  let name := node +:+ "-addr.json" in
  dir <> EmptyString -> contains_char SLASH node = false ->
  utf8_valid name = true -> utf8_valid json = true ->
  fault ReadDir dir = None -> fault ReadFile (path_join dir name) = None ->
  pretty addr = Ok json -> persist_addr fault partial pretty env node addr t = (Ok p, t') ->
  let before := option.default ∅ (t !! trim_slashes dir) in
  let others := omap (addr_entry fault dir) (map_to_list (delete name before)) in
  p = addr_file_path env node
  /\ fleet_addr_files fault env t' ≡ₚ (node, json) :: others
  /\ fleet_addr_files fault env t
      ≡ₚ app (option_list (before !! name ≫= fun e => addr_entry fault dir (name, e))) others.
Proof.
  intros dir name Hdir Hnode Hname Hjson Hrd Hrf Hp Hper before others.
  unfold persist_addr in Hper. rewrite Hp in Hper. unfold addr_file_path in Hper. fold dir name in Hper.
  assert (Hc : contains_char SLASH name = false) by (unfold name; by rewrite contains_char_app, Hnode).
  apply persist_ok in Hper as [-> [mode Ht']]; [|done|unfold name; by destruct node].
  rewrite trim_slashes_idem in Ht'. fold dir before in Ht'. split; [done|].
  assert (Hlist : forall t0 files, option.default ∅ (t0 !! trim_slashes dir) = files ->
    fleet_addr_files fault env t0 ≡ₚ omap (addr_entry fault dir) (map_to_list files)).
  { intros t0 files Hfiles. unfold fleet_addr_files. fold dir. rewrite Hrd.
    destruct (String.eqb_spec dir ""); [done|]. destruct (t0 !! trim_slashes dir) as [fs|]; simpl in Hfiles; subst files.
    - apply merge_sort_Permutation.
    - by rewrite map_to_list_empty. }
  assert (Hentry : forall e, addr_entry fault dir (name, mkEntry json e) = Some (node, json)).
  { intros e. unfold addr_entry. simpl. rewrite lossy_valid by done. unfold name.
    rewrite strip_suffix_app. simpl. fold name. by rewrite Hrf, Hjson. }
  split.
  - rewrite (Hlist t' (<[name := mkEntry json mode]> before)) by (by rewrite Ht').
    rewrite <-insert_delete_eq, map_to_list_insert by apply lookup_delete_eq. simpl. by rewrite Hentry.
  - rewrite (Hlist t before) by done. destruct (before !! name) as [e|] eqn:He; simpl.
    + rewrite <-(insert_delete_id before name e) at 1 by done.
      rewrite map_to_list_insert by apply lookup_delete_eq. simpl. by destruct (addr_entry fault dir (name, e)).
    + unfold others. by rewrite delete_id.
Qed.

(** ** Concrete instances *)

(** Two keys, and an operating system that refuses nothing. *)
Definition demo_key_bytes (k : bool) : string :=
  bytes (repeat (if k then 97 else 98)%nat 32).
Definition demo_key_of (s : string) : bool := String.eqb s (demo_key_bytes true).
Definition no_fault (_ : FileOp) (_ : string) : option string := None.

Lemma agent_key_once_witness :
  (forall k, demo_key_of (demo_key_bytes k) = k /\ String.length (demo_key_bytes k) = 32%nat)
  /\ let load := load_or_create_key_at no_fault (fun s => s) demo_key_of demo_key_bytes in
     let path := agent_key_path (Some "/run/n/") "a" in
     (load true path ∅).1 = Ok true
     /\ load false path (load true path ∅).2 = (Ok true, (load true path ∅).2).
Proof.
  assert (forall k, demo_key_of (demo_key_bytes k) = k /\ String.length (demo_key_bytes k) = 32%nat) as Hk
    by (by intros []; vm_compute).
  split; [exact Hk|]. intros load path.
  assert ((load true path ∅).1 = Ok true) as Hfirst by (vm_compute; reflexivity).
  split; [exact Hfirst|].
  destruct (agent_key_once no_fault (fun s => s) demo_key_of demo_key_bytes true false path ∅ Hk) as [_ H].
  destruct (H eq_refl) as (_ & Hnext & _). exact (proj1 (Hnext true Hfirst)).
Defined.

Definition demo_tree : gmap string (gmap string Entry) := {[ "/run/n" := {[ "b-addr.json" := mkEntry "{}" 420 ]} ]}.
Definition demo_persist : result string string * gmap string (gmap string Entry) :=
  persist_addr no_fault (fun s => s) (fun s : string => Ok s) (Some "/run/n/") "a" "[1]" demo_tree.

Lemma announced_address_found_witness :
  demo_persist.1 = Ok "/run/n/a-addr.json"
  /\ fleet_addr_files no_fault (Some "/run/n/") demo_persist.2 ≡ₚ [("a", "[1]"); ("b", "{}")].
Proof.
  assert (demo_persist = (Ok "/run/n/a-addr.json", demo_persist.2)) as E by (vm_compute; reflexivity).
  split; [vm_compute; reflexivity|].
  destruct (announced_address_found no_fault (fun s => s) (fun s : string => Ok s) (Some "/run/n/") "a" "[1]"
    "[1]" demo_tree demo_persist.2 "/run/n/a-addr.json") as (_ & Hfleet & _);
    [discriminate|vm_compute; reflexivity..|exact E|].
  rewrite Hfleet.
  match goal with |- ?l ≡ₚ _ => assert (l = [("a", "[1]"); ("b", "{}")]) as -> by (vm_compute; reflexivity) end.
  reflexivity.
Defined.
