(* ===== verification/Serve.v ===== *)
(** * Starting an agent (nauti-fabric/src/bin/nauti.rs, [agent_serve])

    The identity, the endpoint and the address file of a start. The registry it
    serves is [Planes.serve_setup]. Binding and the text of an address are
    arguments; so is what [SecretKey::generate] would give. *)

From stdpp Require Import base tactics option list gmap strings.
From Stdlib Require Import Ascii String.
From S2P Require Import Prelude Str Utf8 Json RpcAuth Rpc RpcProps RpcClient Cli AgentFiles.

#[local] Open Scope Z_scope.

Section serve.
Context (fault : FileOp -> string -> option string) (partial : string -> string).
Context {Key Endpoint Addr : Type} (from_bytes : string -> Key) (to_bytes : Key -> string).
Context (addr_of : Endpoint -> Addr) (id_of : Endpoint -> string).
Context (to_json pretty : Addr -> result string string).

(** The key to bind under, and what is printed when there is none. *)
Definition secret_key (loaded : result string Key) : option Key :=
  match loaded with Ok key => Some key | Err _ => None end.
Definition identity_warning (loaded : result string Key) : list Output :=
  match loaded with
  | Ok _ => []
  | Err error => [Println ("warning: agent identity not persisted (" +:+ error +:+ "); using an ephemeral key")]
  end.

(** [agent_serve] up to waiting for ctrl-c: the agent that listens, what is
    printed, and the files. *)
Definition agent_serve (bind : option Key -> result string Endpoint) (fresh : Key) (env : option string)
    (node : string) (t : gmap string (gmap string Entry)) :
    result string (FabricAgent * Addr) * list Output * gmap string (gmap string Entry) :=
  let '(loaded, t) := load_or_create_agent_key fault partial from_bytes to_bytes fresh env node t in
  match serve_with_identity bind addr_of id_of NoAuth (secret_key loaded) with
  | Err e => (Err (transport_display e), identity_warning loaded, t)
  | Ok (agent, addr) =>
      let out := app (identity_warning loaded) [Println "nauti agent listening; endpoint address (paste into agent-connect):"] in
      match to_json addr with
      | Err e => (Err e, out, t)
      | Ok json =>
          let '(persisted, t) := persist_addr fault partial pretty env node addr t in
          (Ok (agent, addr),
           app out [Println json;
                    Println (match persisted with
                             | Ok path => "self-registered address file: " +:+ path
                             | Err error => "warning: could not persist address file: " +:+ error
                             end);
                    Println "press ctrl-c to stop"], t)
      end
  end.

(** The end of [agent_serve]. *)
Definition agent_stop (ctrl_c : result string ()) (shutdown : result string ()) : result string () :=
  _ ← ctrl_c;
  map_err (fun error => "router shutdown failed: " +:+ error) shutdown.

(** ** The two files of an agent do not touch *)

Lemma set_file_other p q e t : locate p <> locate q -> file_at q (set_file p e t) = file_at q t.
Proof.
  intros Hne. unfold file_at, set_file. destruct (t !! (locate p).1) as [files|] eqn:E; [|done].
  destruct (decide ((locate p).1 = (locate q).1)) as [Heq|Hd].
  - rewrite Heq, lookup_insert_eq. rewrite Heq in E. rewrite E. simpl. apply lookup_insert_ne.
    intros Hn. apply Hne. by rewrite (surjective_pairing (locate p)), (surjective_pairing (locate q)), Heq, Hn.
  - by rewrite lookup_insert_ne.
Qed.

Lemma key_and_addr_differ env node :
  contains_char SLASH node = false -> locate (addr_file_path env node) <> locate (agent_key_path env node).
Proof.
  intros Hs. unfold addr_file_path, agent_key_path.
  rewrite !locate_file by (by rewrite contains_char_app, Hs). intros [= Heq]. clear Hs.
  induction node as [|c node IH]; [discriminate Heq|]. injection Heq as Heq. by apply IH.
Qed.

Lemma persist_addr_keeps_key env node addr t :
  contains_char SLASH node = false ->
  file_at (agent_key_path env node) (persist_addr fault partial pretty env node addr t).2
  = file_at (agent_key_path env node) t.
Proof.
  intros Hs. pose proof (key_and_addr_differ env node Hs) as Hne. unfold persist_addr, persist_addr_json_to.
  destruct (pretty addr) as [json|e]; [|done].
  pose proof (create_parent_keeps fault (addr_file_path env node) (agent_key_path env node) t) as Hkeep.
  destruct (create_parent fault _ t) as [[[]|e] t1]; [|done]. simpl in Hkeep. rewrite <-Hkeep.
  unfold write_file, write_all. destruct (refused fault _ _ _); [done|].
  by destruct (fault WriteFile _); apply set_file_other.
Qed.

(** What a start tells of itself: it listens exactly if the endpoint binds under
    the identity of the files and the address has a text; its provider accepts
    everything; the key file is as loading it left it. *)
Lemma agent_serve_starts bind fresh env node t :
  contains_char SLASH node = false ->
  let '(loaded, t1) := load_or_create_agent_key fault partial from_bytes to_bytes fresh env node t in
  let '(started, _, t') := agent_serve bind fresh env node t in
  file_at (agent_key_path env node) t' = file_at (agent_key_path env node) t1
  /\ match started with
     | Ok (agent, addr) =>
         exists e, bind (secret_key loaded) = Ok e
           /\ agent = with_auth NoAuth (id_of e) /\ addr = addr_of e
     | Err _ => is_ok (bind (secret_key loaded)) = false
         \/ exists e, bind (secret_key loaded) = Ok e
              /\ is_ok (to_json (addr_of e)) = false
     end.
Proof.
  intros Hs. unfold agent_serve.
  destruct (load_or_create_agent_key fault partial from_bytes to_bytes fresh env node t) as [loaded t1].
  unfold serve_with_identity. destruct (bind (secret_key loaded)) as [e|e]; simpl; [|by eauto].
  destruct (to_json (addr_of e)) as [json|e1] eqn:Ej; simpl; 
    [|split; [done|]; right; exists e; split; [done|by rewrite Ej]].
  pose proof (persist_addr_keeps_key env node (addr_of e) t1 Hs) as Hk.
  destruct (persist_addr fault partial pretty env node (addr_of e) t1) as [r t2]; simpl in *.
  split; [done|]. by exists e.
Qed.
End serve.

(** C30. An agent keeps its identity across restarts. Once a start of a node has
    found or written a key, every later start - whatever happened to other
    files in between, whatever key it would generate, however that first start
    ended - binds the endpoint under that same key. So if endpoints derive their
    identifier from the key and their address names that identifier, the agent
    that listens has the identifier the first one had, and the address it
    announces names the same endpoint as the first one's, which clients may have
    kept; where on the network that endpoint is may have changed. A start that
    cannot keep a key listens all the same, under a fresh identity, which its
    address names, and with a warning. Every agent started so accepts every
    request. *)
Theorem restart_keeps_identity {Key Endpoint Addr} fault partial (from_bytes : string -> Key) to_bytes
    (addr_of : Endpoint -> Addr) id_of (addr_id : Addr -> string) to_json pretty public env node :
  (forall k, from_bytes (to_bytes k) = k /\ String.length (to_bytes k) = 32%nat) ->
  (forall e, addr_id (addr_of e) = id_of e) ->
  contains_char SLASH node = false ->
  let start := agent_serve fault partial from_bytes to_bytes addr_of id_of to_json pretty in
  let key_path := agent_key_path env node in
  (forall bind1 bind2 fresh1 fresh2 t t' key,
     fault ReadFile key_path = None ->
     (load_or_create_agent_key fault partial from_bytes to_bytes fresh1 env node t).1 = Ok key ->
     file_at key_path t' = file_at key_path (start bind1 fresh1 env node t).2 ->
     (forall k e, bind1 (Some k) = Ok e -> id_of e = public k) ->
     (forall k e, bind2 (Some k) = Ok e -> id_of e = public k) ->
     let again := start bind2 fresh2 env node t' in
     file_at key_path again.2 = file_at key_path t'
     /\ (forall agent1 addr1 agent2 addr2,
          (start bind1 fresh1 env node t).1.1 = Ok (agent1, addr1) -> again.1.1 = Ok (agent2, addr2) ->
          agent_endpoint_id agent1 = public key /\ agent_auth agent1 = NoAuth /\ agent2 = agent1
          /\ addr_id addr1 = public key /\ addr_id addr2 = public key))
  /\ (forall bind fresh t error e json,
        (load_or_create_agent_key fault partial from_bytes to_bytes fresh env node t).1 = Err error ->
        bind None = Ok e -> to_json (addr_of e) = Ok json ->
        (start bind fresh env node t).1.1 = Ok (with_auth NoAuth (id_of e), addr_of e)
        /\ head (start bind fresh env node t).1.2
           = Some (Println ("warning: agent identity not persisted (" +:+ error +:+ "); using an ephemeral key"))).
Proof.
  intros Hkey Haddr Hs start key_path. split.
  - intros bind1 bind2 fresh1 fresh2 t t' key Hread Hload Hsame Hpub1 Hpub2 again.
    unfold load_or_create_agent_key in Hload. fold key_path in Hload.
    pose proof (agent_serve_starts fault partial from_bytes to_bytes addr_of id_of to_json pretty bind1 fresh1 env
                  node t Hs) as H1.
    pose proof (load_key_reload fault partial from_bytes to_bytes fresh1 fresh2 key_path t key Hkey Hread Hload) as Hre.
    unfold load_or_create_agent_key in H1. fold key_path in H1. unfold start in Hsame.
    destruct (load_or_create_key_at fault partial from_bytes to_bytes fresh1 key_path t) as [loaded t1].
    simpl in Hload, Hre. subst loaded. unfold start.
    destruct (agent_serve _ _ _ _ _ _ _ _ bind1 fresh1 env node t) as [[started1 out1] t2]. simpl in *.
    destruct H1 as [Hk1 H1]. specialize (Hre t' (eq_trans Hsame Hk1)).
    pose proof (agent_serve_starts fault partial from_bytes to_bytes addr_of id_of to_json pretty bind2 fresh2 env
                  node t' Hs) as H2.
    unfold load_or_create_agent_key in H2. fold key_path in H2. rewrite Hre in H2. unfold again, start.
    destruct (agent_serve _ _ _ _ _ _ _ _ bind2 fresh2 env node t') as [[started2 out2] t3]. simpl in *.
    destruct H2 as [Hk2 H2]. split; [done|]. intros agent1 addr1 agent2 addr2 -> ->.
    destruct H1 as (e1 & Hb1 & -> & ->). destruct H2 as (e2 & Hb2 & -> & ->). simpl.
    by rewrite !Haddr, (Hpub1 _ _ Hb1), (Hpub2 _ _ Hb2).
  - intros bind fresh t error e json Hload Hbind Hjson. unfold start, agent_serve.
    destruct (load_or_create_agent_key fault partial from_bytes to_bytes fresh env node t) as [loaded t1].
    simpl in Hload. subst loaded. unfold serve_with_identity. simpl. rewrite Hbind. simpl. rewrite Hjson.
    by destruct (persist_addr fault partial pretty env node (addr_of e) t1).
Qed.

(** ** A concrete instance

    Endpoints are their keys; without one the endpoint is [false]. *)

Definition demo_bind (k : option bool) : result string bool := Ok (default false k).
Definition demo_start (fresh : bool) :=
  agent_serve no_fault (fun s => s) demo_key_of demo_key_bytes (fun e : bool => e) demo_key_bytes
    (fun _ => Ok "{}") (fun _ => Ok "{}") demo_bind fresh (Some "/run/n") "a".

Lemma restart_keeps_identity_witness :
  let first := demo_start true ∅ in
  let again := demo_start false first.2 in
  exists agent1 addr1 agent2 addr2, first.1.1 = Ok (agent1, addr1) /\ again.1.1 = Ok (agent2, addr2)
    /\ agent_endpoint_id agent1 = demo_key_bytes true /\ agent_auth agent1 = NoAuth /\ agent2 = agent1
    /\ demo_key_bytes addr1 = demo_key_bytes true /\ demo_key_bytes addr2 = demo_key_bytes true.
Proof.
  intros first again.
  destruct (restart_keeps_identity no_fault (fun s => s) demo_key_of demo_key_bytes (fun e : bool => e)
    demo_key_bytes demo_key_bytes (fun _ => Ok "{}") (fun _ => Ok "{}") demo_key_bytes (Some "/run/n") "a") as [H _].
  - intros []; split; vm_compute; reflexivity.
  - reflexivity.
  - vm_compute. reflexivity.
  - destruct (H demo_bind demo_bind true false ∅ first.2 true eq_refl) as [_ Hid].
    + vm_compute. reflexivity.
    + reflexivity.
    + by intros k e [= <-].
    + by intros k e [= <-].
    + assert (first.1.1 = Ok (with_auth NoAuth (demo_key_bytes true), true)) as H1 by (vm_compute; reflexivity).
      assert (again.1.1 = Ok (with_auth NoAuth (demo_key_bytes true), true)) as H2 by (vm_compute; reflexivity).
      do 4 eexists. split; [exact H1|]. split; [exact H2|]. exact (Hid _ _ _ _ H1 H2).
Defined.
