(* ===== verification/Fleet.v ===== *)
(** * The fleet view (nauti-fabric/src/bin/nauti.rs, [icmp_paths],
    [summarize_inventory], [probe_node], [fleet])

    A probe of every announced agent becomes one JSON object, and all of them one
    view with totals. What a probe observes - whether the agent could be reached,
    how long each call took and what it answered - is an argument, and so are
    [ping] and the JSON parsers. *)

From stdpp Require Import base tactics option list gmap strings fin_maps sorting.
From Stdlib Require Import Ascii String.
From S2P Require Import Prelude Str Utf8 F64 Json Resource Fabric RpcAuth Cli AgentFiles.

#[local] Open Scope Z_scope.

(** ** Paths *)

Definition is_bracket (a : ascii) : bool := Ascii.eqb a (byte_of 91) || Ascii.eqb a (byte_of 93).

(** The host part of a socket address, without the brackets of IPv6. *)
Definition sock_ip (sock : string) : string :=
  trim_matches is_bracket (match rsplit_once ":" sock with Some (host, _) => host | None => sock end).

Section icmp.
Context (parse_f64 : string -> option f64).
(** What [ping] prints for an address; [None]: it could not be run. *)
Context (ping : string -> option string).

Definition rtt_json (rtt : f64 * f64 * f64) : Json :=
  json_obj [("min", json_f64 rtt.1.1); ("avg", json_f64 rtt.1.2); ("max", json_f64 rtt.2)].

Definition path_json (label ip : string) : Json :=
  let output := match ping ip with Some stdout => from_utf8_lossy stdout | None => EmptyString end in
  let rtt := parse_ping_rtt parse_f64 output in
  json_obj [("path", JString label); ("ip", JString ip); ("reachable", JBool (bool_decide (is_Some rtt)));
            ("rtt_ms", match rtt with Some r => rtt_json r | None => JNull end)].

Fixpoint icmp_items (items : list Json) (seen : list string) : list Json :=
  match items with
  | [] => []
  | item :: items =>
      match as_str (index item "Ip") with
      | None => icmp_items items seen
      | Some sock =>
          let ip := sock_ip sock in
          match path_label ip with
          | None => icmp_items items seen
          | Some label =>
              if bool_decide (ip ∈ seen) then icmp_items items seen
              else path_json label ip :: icmp_items items (ip :: seen)
          end
      end
  end.

Definition icmp_paths (addr : Json) : list Json := icmp_items (json_items (index addr "addrs")) [].
End icmp.

(** ** The summary of an inventory *)

Definition attr (r : Resource) (k : string) : Json := JString (option.default EmptyString (r_attributes r !! k)).

Definition capacity_of (id : string) (resources : list Resource) : Z :=
  match head (filter (fun r => r_id r = id) resources) with Some r => r_capacity r | None => 0 end.

Definition hardware_gpus (resources : list Resource) : list Resource :=
  filter (fun r => r_kind r = Gpu /\ starts_with "local.gpu." (r_id r) = true
                   /\ r_attributes r !! "gpu.transport" = None) resources.
Definition rdma_ports (resources : list Resource) : list Resource :=
  filter (fun r => starts_with "local.rdma." (r_id r) = true) resources.
Definition links_up (resources : list Resource) : list Resource :=
  filter (fun r => r_attributes r !! "net.operstate" = Some "up")
    (filter (fun r => starts_with "local.network." (r_id r) = true /\ r_attributes r !! "net.virtual" = None)
       resources).

Definition gpu_json (r : Resource) : Json :=
  json_obj [("id", JString (r_id r)); ("name", attr r "gpu.device_name"); ("vendor", attr r "gpu.vendor");
            ("driver", attr r "gpu.driver"); ("pci_bdf", attr r "gpu.pci_bdf");
            ("numa_node", attr r "gpu.numa_node"); ("vram_bytes", json_int (r_capacity r))].
Definition rdma_json (r : Resource) : Json :=
  json_obj [("device", attr r "rdma.device"); ("state", attr r "rdma.state"); ("rate", attr r "rdma.rate");
            ("transport", attr r "rdma.transport"); ("netdev", attr r "rdma.netdev");
            ("numa_node", attr r "rdma.numa_node")].
Definition link_json (r : Resource) : Json :=
  json_obj [("interface", attr r "interface"); ("speed_mbps", attr r "net.speed_mbps");
            ("ipv4", attr r "net.ipv4"); ("rdma_device", attr r "net.rdma_device");
            ("numa_node", attr r "net.numa_node")].

Definition summarize_inventory (resources : list Resource) : Json :=
  json_obj [("logical_cpus", json_int (capacity_of "local.cpu.logical" resources));
            ("memory_bytes", json_int (capacity_of "local.memory" resources));
            ("numa_nodes", json_int (Z.of_nat (length (filter (fun r => starts_with "local.numa." (r_id r) = true)
                                                         resources))));
            ("gpus", JArray (gpu_json <$> hardware_gpus resources));
            ("rdma_ports", JArray (rdma_json <$> rdma_ports resources));
            ("links_up", JArray (link_json <$> links_up resources))].

(** ** Probing a node *)

(** What a probe sees of an agent: how connecting ended ([None] after 15
    seconds), and the answers to its pings and to its inventory request with
    their times in seconds ([None] after 5 and 10 seconds). *)
Record Peer : Type := mkPeer {
  pe_connect : option (result string ());
  pe_connect_secs : f64;
  pe_ping : nat -> option (result string RpcResponse) * f64;
  pe_inventory : option (result string RpcResponse);
}.

Definition to_ms (secs : f64) : f64 := f64_mul secs (f64_of_Z 1000).

(** The pings, up to the first that is not answered by a pong. *)
Fixpoint ping_loop (ping : nat -> option (result string RpcResponse) * f64) (i n : nat) : list f64 :=
  match n with
  | O => []
  | S n => match ping i with
           | (Some (Ok Pong), secs) => to_ms secs :: ping_loop ping (S i) n
           | _ => []
           end
  end.

Definition sample_count (samples : Z) : nat := Z.to_nat (Z.max samples 1).

Definition rtt_report_json (r : RttReport) : Json :=
  json_obj [("samples", json_int (Z.of_nat (rt_samples r))); ("min", json_f64 (rt_min r));
            ("median", json_f64 (rt_median r)); ("p95", json_f64 (rt_p95 r)); ("max", json_f64 (rt_max r))].

Definition offline_json (node error : string) (paths : list Json) : Json :=
  json_obj [("node", JString node); ("online", JBool false); ("error", JString error); ("paths", JArray paths)].

Section probe.
Context (parse_json : string -> option Json) (parse_f64 : string -> option f64)
  (ping : string -> option string).
Context {Addr : Type} (parse_addr : string -> result string Addr) (peer : Addr -> Peer).

Definition path_timings (paths : bool) (raw : string) : list Json :=
  if paths then icmp_paths parse_f64 ping (match parse_json raw with Some v => v | None => JNull end) else [].

Definition answered_pings (p : Peer) (samples : Z) : list f64 := ping_loop (pe_ping p) 0 (sample_count samples).

Definition inventory_json (p : Peer) : Json :=
  match pe_inventory p with
  | Some (Ok (InventoryResp resources)) => summarize_inventory resources
  | _ => JNull
  end.

Definition probe_node (samples : Z) (paths : bool) (file : string * string) : Json :=
  let '(node, raw) := file in
  let timings := path_timings paths raw in
  match parse_addr raw with
  | Err e => offline_json node ("bad addr file: " +:+ e) timings
  | Ok addr =>
      let p := peer addr in
      match pe_connect p with
      | Some (Err e) => offline_json node e timings
      | None => offline_json node "connect timeout 15s" timings
      | Some (Ok _) =>
          let report := rtt_report (answered_pings p samples) in
          json_obj [("node", JString node); ("online", JBool (rt_online report));
                    ("connect_ms", json_f64 (to_ms (pe_connect_secs p)));
                    ("rpc_rtt_ms", rtt_report_json report); ("paths", JArray timings);
                    ("resources", inventory_json p)]
      end
  end.

(** ** The view *)

(** A sum of [u64]s, as a build without overflow checks computes it. *)
Definition sum_u64 (l : list Z) : Z := foldl (fun acc z => u64_wrap (acc + z)) 0 l.

Definition online_nodes (nodes : list Json) : list Json :=
  filter (fun n => json_is_true (index n "online") = true) nodes.

Definition sum_over (f : Json -> Z) (nodes : list Json) : Json :=
  json_int (sum_u64 ((fun n => f (index n "resources")) <$> online_nodes nodes)).

Definition or_0 (o : option Z) : Z := match o with Some z => z | None => 0 end.

Definition active_ports (r : Json) : Z :=
  Z.of_nat (length (filter (fun p => json_is_str "ACTIVE" (index p "state") = true) (json_items (index r "rdma_ports")))).
Definition vram_of (r : Json) : Z :=
  sum_u64 ((fun g => or_0 (as_u64 (index g "vram_bytes"))) <$> json_items (index r "gpus")).

Definition totals (nodes : list Json) : Json :=
  json_obj [("nodes", json_int (Z.of_nat (length nodes)));
            ("online", json_int (Z.of_nat (length (online_nodes nodes))));
            ("logical_cpus", sum_over (fun r => or_0 (as_u64 (index r "logical_cpus"))) nodes);
            ("memory_bytes", sum_over (fun r => or_0 (as_u64 (index r "memory_bytes"))) nodes);
            ("gpus", sum_over (fun r => Z.of_nat (length (json_items (index r "gpus")))) nodes);
            ("vram_bytes", sum_over vram_of nodes);
            ("rdma_ports_active", sum_over active_ports nodes)].

Definition fleet_view (from : string) (generated_at : Z) (nodes : list Json) : Json :=
  json_obj [("kind", JString "nauti_fleet_view"); ("from", JString from); ("generated_at", json_int generated_at);
            ("totals", totals nodes); ("nodes", JArray nodes)].

Definition view_path (out : option string) (env : option string) (from : string) : string :=
  match out with
  | Some path => path
  | None => trim_slashes (addr_file_dir env) +:+ String SLASH ("fleet-view-" +:+ from +:+ ".json")
  end.

(** [fleet]: the view of the announced agents, and where it is written. *)
Definition fleet (samples : Z) (paths : bool) (out env : option string) (from : string) (generated_at : Z)
    (files : list (string * string)) : Json * string :=
  (fleet_view from generated_at (probe_node samples paths <$> files), view_path out env from).
End probe.

(** [hostname_short]. *)
Definition hostname_short (proc_hostname : option string) : string :=
  match proc_hostname with
  | Some h => option.default "local" (head (split_on "." (trim h)))
  | None => "local"
  end.
