(* ===== verification/FleetProps.v ===== *)
(** * What the fleet view says (nauti-fabric/src/bin/nauti.rs, plan.rs)

    The totals of a view are sums over the nodes that answered, and the planner
    that reads the view back gets the medians that were measured. *)

From stdpp Require Import base tactics option list gmap strings fin_maps sorting.
From Stdlib Require Import Ascii String SpecFloat.
From S2P Require Import Prelude Str F64 Json Resource Fabric RpcAuth Plan PlanProps PlanView Cli AgentFiles Fleet.

#[local] Open Scope Z_scope.

(** ** Sums of machine integers *)

Definition sum_Z (l : list Z) : Z := foldr Z.add 0 l.

Lemma u64_wrap_add a b : u64_wrap (u64_wrap a + b) = u64_wrap (a + b).
Proof. unfold u64_wrap. by rewrite Zplus_mod_idemp_l. Qed.

Lemma sum_u64_from acc l : foldl (fun acc z => u64_wrap (acc + z)) (u64_wrap acc) l = u64_wrap (acc + sum_Z l).
Proof.
  revert acc. induction l as [|z l IH]; intros acc; simpl; [by rewrite Z.add_0_r|].
  rewrite u64_wrap_add, IH. f_equal. lia.
Qed.

Lemma sum_u64_wrap l : sum_u64 l = u64_wrap (sum_Z l).
Proof. exact (sum_u64_from 0 l). Qed.

Lemma u64_wrap_add_r a b : u64_wrap (a + u64_wrap b) = u64_wrap (a + b).
Proof. unfold u64_wrap. by rewrite Zplus_mod_idemp_r. Qed.

Lemma sum_wrapped {A} (f : A -> Z) (l : list A) :
  u64_wrap (sum_Z ((fun x => u64_wrap (f x)) <$> l)) = u64_wrap (sum_Z (f <$> l)).
Proof.
  unfold sum_Z. induction l as [|x l IH]; [done|]. cbn [fmap list_fmap foldr].
  by rewrite u64_wrap_add, <-u64_wrap_add_r, IH, u64_wrap_add_r.
Qed.

(** In a list without duplicate images an image determines its element. *)
Lemma NoDup_fmap_elem {A B} (f : A -> B) (l : list A) x y :
  NoDup (f <$> l) -> x ∈ l -> y ∈ l -> f x = f y -> x = y.
Proof.
  intros Hnd [i Hi]%list_elem_of_lookup [j Hj]%list_elem_of_lookup Hxy.
  assert (i = j) as ->; [|congruence].
  apply (NoDup_lookup (f <$> l) i j (f x)); [done|..]; rewrite list_lookup_fmap; [by rewrite Hi|rewrite Hj; simpl; congruence].
Qed.

(** Reads a key of an object that [json!] built. *)
Ltac json_key := rewrite index_obj; cbn [map_get String.eqb Ascii.eqb Bool.eqb].

Section view.
Context (parse_json : string -> option Json) (parse_f64 : string -> option f64)
  (ping : string -> option string).
Context {Addr : Type} (parse_addr : string -> result string Addr) (peer : Addr -> Peer).
Context (samples : Z) (paths : bool).

#[local] Abbreviation probe := (probe_node parse_json parse_f64 ping parse_addr peer samples paths).

(** The agent an address file leads to, if it can be connected. *)
Definition node_peer (file : string * string) : option Peer :=
  match parse_addr file.2 with
  | Ok addr => match pe_connect (peer addr) with Some (Ok _) => Some (peer addr) | _ => None end
  | Err _ => None
  end.

Definition node_pings (file : string * string) : list f64 :=
  match node_peer file with Some p => answered_pings p samples | None => [] end.
Definition node_up (file : string * string) : bool := match node_pings file with [] => false | _ => true end.
Definition node_resources (file : string * string) : list Resource :=
  match node_peer file with
  | Some p => match pe_inventory p with Some (Ok (InventoryResp rs)) => rs | _ => [] end
  | None => []
  end.

(** ** One probe *)

Lemma probe_node_name file : index (probe file) "node" = JString file.1.
Proof.
  destruct file as [node raw]. unfold probe_node, offline_json. destruct (parse_addr raw) as [addr|e]; [|by rewrite index_obj].
  destruct (pe_connect (peer addr)) as [[[]|e]|]; by rewrite index_obj.
Qed.

Lemma median_measured rtts : rtts <> [] -> rt_median (rtt_report rtts) ∈ rtts.
Proof.
  intros Hne. unfold rtt_report. cbn [rt_median]. pose proof (merge_sort_Permutation rtt_le rtts) as Hp.
  rewrite <-Hp at 2. apply percentile_in. intros Hz. rewrite Hz in Hp. by apply Permutation_nil_l in Hp.
Qed.

Lemma report_online rtts : rt_online (rtt_report rtts) = match rtts with [] => false | _ => true end.
Proof.
  unfold rtt_report. cbn [rt_online]. pose proof (merge_sort_Permutation rtt_le rtts) as Hp.
  destruct (merge_sort rtt_le rtts) as [|x l], rtts as [|y k]; try done.
  - by apply Permutation_nil_l in Hp.
  - by apply Permutation_nil_r in Hp.
Qed.

Lemma probe_online file : json_is_true (index (probe file) "online") = node_up file.
Proof.
  destruct file as [node raw]. unfold node_up, node_pings, node_peer, probe_node, offline_json. cbn [fst snd].
  destruct (parse_addr raw) as [addr|e]; [|by rewrite index_obj].
  destruct (pe_connect (peer addr)) as [[[]|e]|]; json_key; [|done..]. rewrite report_online. by destruct (answered_pings (peer addr) samples).
Qed.

Lemma probe_median file :
  index (index (probe file) "rpc_rtt_ms") "median"
  = match node_peer file with
    | Some p => json_f64 (rt_median (rtt_report (answered_pings p samples)))
    | None => JNull
    end.
Proof.
  destruct file as [node raw]. unfold node_peer, probe_node, offline_json. cbn [fst snd].
  destruct (parse_addr raw) as [addr|e]; [|by rewrite index_obj].
  destruct (pe_connect (peer addr)) as [[[]|e]|]; json_key; [|done..]. unfold rtt_report_json. by rewrite index_obj.
Qed.

Lemma probe_resources file :
  index (probe file) "resources" = match node_peer file with Some p => inventory_json p | None => JNull end.
Proof.
  destruct file as [node raw]. unfold node_peer, probe_node, offline_json. cbn [fst snd].
  destruct (parse_addr raw) as [addr|e]; [|by rewrite index_obj].
  destruct (pe_connect (peer addr)) as [[[]|e]|]; by rewrite index_obj.
Qed.

Lemma online_probes files :
  online_nodes (probe <$> files) = probe <$> filter (fun file => node_up file = true) files.
Proof.
  unfold online_nodes. induction files as [|file files IH]; [done|]. rewrite fmap_cons, !filter_cons, IH.
  rewrite probe_online. by destruct (node_up file).
Qed.

(** ** What a summary says of an inventory *)

Definition active_ports_of (rs : list Resource) : Z :=
  Z.of_nat (length (filter (fun r => r_attributes r !! "rdma.state" = Some "ACTIVE") (rdma_ports rs))).
Definition vram_bytes_of (rs : list Resource) : Z := sum_Z (r_capacity <$> hardware_gpus rs).

Definition in_range (rs : list Resource) : Prop := Forall (fun r => in_u64 (r_capacity r)) rs.

Lemma capacity_in_range id rs : in_range rs -> in_u64 (capacity_of id rs).
Proof.
  intros Hrs. unfold capacity_of. destruct (head (filter (fun r => r_id r = id) rs)) as [r|] eqn:E.
  - apply head_Some_elem_of, list_elem_of_filter in E as [_ Hin]. unfold in_range in Hrs. rewrite Forall_forall in Hrs. by apply Hrs.
  - unfold in_u64, u64_max. lia.
Qed.

Lemma summary_capacity k id rs :
  in_range rs ->
  index (summarize_inventory rs) k = json_int (capacity_of id rs) ->
  or_0 (as_u64 (index (summarize_inventory rs) k)) = capacity_of id rs.
Proof. intros Hrs ->. rewrite as_u64_int by (by apply capacity_in_range). done. Qed.

Lemma summary_vram rs : in_range rs -> vram_of (summarize_inventory rs) = u64_wrap (vram_bytes_of rs).
Proof.
  intros Hrs. unfold vram_of, vram_bytes_of, summarize_inventory. json_key.
  cbn [json_items as_array]. rewrite sum_u64_wrap. do 2 f_equal.
  rewrite <-list_fmap_compose. apply list_fmap_ext. intros i r Hr. unfold compose, gpu_json.
  json_key. rewrite as_u64_int; [done|].
  apply list_elem_of_lookup_2 in Hr. unfold hardware_gpus in Hr. apply list_elem_of_filter in Hr as [_ Hr].
  unfold in_range in Hrs. rewrite Forall_forall in Hrs. by apply Hrs.
Qed.

Lemma port_active r :
  json_is_str "ACTIVE" (index (rdma_json r) "state") = bool_decide (r_attributes r !! "rdma.state" = Some "ACTIVE").
Proof.
  unfold rdma_json, json_is_str. json_key. unfold attr. cbn [as_str].
  destruct (r_attributes r !! "rdma.state") as [s|]; apply bool_decide_ext; simpl; naive_solver.
Qed.

Lemma summary_ports rs : active_ports (summarize_inventory rs) = active_ports_of rs.
Proof.
  unfold active_ports, active_ports_of, summarize_inventory. json_key.
  cbn [json_items as_array]. f_equal.
  induction (rdma_ports rs) as [|r l IH]; [done|]. rewrite fmap_cons, !filter_cons.
  case_decide as H1; case_decide as H2; rewrite port_active, bool_decide_eq_true in H1; simpl; naive_solver.
Qed.

Lemma summary_gpus rs :
  Z.of_nat (length (json_items (index (summarize_inventory rs) "gpus"))) = Z.of_nat (length (hardware_gpus rs)).
Proof.
  unfold summarize_inventory. json_key. cbn [json_items as_array]. by rewrite length_fmap.
Qed.

(** ** The totals *)

(** A total is the wrapped sum of a function of the inventories that were obtained. *)
Lemma total_spec (f : Json -> Z) (g : list Resource -> Z) files :
  (forall rs, in_range rs -> u64_wrap (f (summarize_inventory rs)) = u64_wrap (g rs)) ->
  f JNull = g [] -> Forall (fun file => in_range (node_resources file)) files ->
  sum_over f (probe <$> files)
  = json_int (u64_wrap (sum_Z ((fun file => g (node_resources file)) <$> filter (fun file => node_up file = true) files))).
Proof.
  intros Hf Hnull Hrs. unfold sum_over. rewrite online_probes, sum_u64_wrap, <-list_fmap_compose. f_equal.
  induction Hrs as [|file files Hfile _ IH]; [done|]. rewrite filter_cons. case_decide; [|done].
  rewrite !fmap_cons. unfold sum_Z in *. cbn [foldr].
  rewrite <-u64_wrap_add_r, IH, u64_wrap_add_r, <-u64_wrap_add, <-(u64_wrap_add (g _)). do 2 f_equal.
  unfold compose. rewrite probe_resources. unfold node_resources in *. destruct (node_peer file) as [p|]; [|by rewrite Hnull].
  unfold inventory_json. destruct (pe_inventory p) as [[[]|]|]; try (by rewrite Hnull). by apply Hf.
Qed.

Definition sum_up (g : list Resource -> Z) (files : list (string * string)) : Json :=
  json_int (u64_wrap (sum_Z ((fun file => g (node_resources file)) <$> filter (fun file => node_up file = true) files))).

(** The totals are sums over the nodes that answered. For a view of the
    announced agents, [nodes] counts them all and [online] those that were
    connected and answered the first ping; every other total is the sum, over
    exactly the online nodes, of what the node's own inventory states - logical
    processors, memory, hardware GPUs, their memory, active RDMA ports - an
    inventory that was not obtained counting nothing. The sums are those of
    [u64]: exact as long as they fit, modulo 2^64 beyond. *)
Theorem fleet_totals_spec files :
  Forall (fun file => in_range (node_resources file)) files ->
  let t := totals (probe <$> files) in
  index t "nodes" = json_int (Z.of_nat (length files))
  /\ index t "online" = json_int (Z.of_nat (length (filter (fun file => node_up file = true) files)))
  /\ index t "logical_cpus" = sum_up (capacity_of "local.cpu.logical") files
  /\ index t "memory_bytes" = sum_up (capacity_of "local.memory") files
  /\ index t "gpus" = sum_up (fun rs => Z.of_nat (length (hardware_gpus rs))) files
  /\ index t "vram_bytes" = sum_up vram_bytes_of files
  /\ index t "rdma_ports_active" = sum_up active_ports_of files
  /\ (forall g, in_u64 (sum_Z ((fun file => g (node_resources file)) <$> filter (fun file => node_up file = true) files)) ->
        sum_up g files = json_int (sum_Z ((fun file => g (node_resources file))
                                            <$> filter (fun file => node_up file = true) files))).
Proof.
  intros Hrs t. unfold t, totals. split_and!; [json_key..|]; unfold sum_up.
  - by rewrite length_fmap.
  - by rewrite online_probes, length_fmap.
  - apply (total_spec _ (capacity_of _)); [|done..]. intros rs Hin. f_equal. apply summary_capacity; [done|].
    unfold summarize_inventory. by json_key.
  - apply (total_spec _ (capacity_of _)); [|done..]. intros rs Hin. f_equal. apply summary_capacity; [done|].
    unfold summarize_inventory. by json_key.
  - apply (total_spec _ (fun rs => Z.of_nat (length (hardware_gpus rs)))); [|done..]. intros rs _. by rewrite summary_gpus.
  - apply (total_spec _ vram_bytes_of); [|done..]. intros rs Hin. rewrite summary_vram by done. unfold u64_wrap. by rewrite Zmod_mod.
  - apply (total_spec _ active_ports_of); [|done..]. intros rs _. by rewrite summary_ports.
  - intros g Hg. unfold u64_wrap, in_u64, u64_max in *. by rewrite Z.mod_small by lia.
Qed.

(** ** The view read back by the planner *)

Lemma matrix_row_probes files to o :
  NoDup files.*1 ->
  matrix_row (probe <$> files) !! to = Some o <->
  exists file, file ∈ files /\ file.1 = to /\ o = as_f64 (index (index (probe file) "rpc_rtt_ms") "median").
Proof.
  unfold matrix_row. induction files as [|file files IH] using rev_ind; intros Hnd.
  { simpl. rewrite lookup_empty. split; [done|]. by intros (? & ?%elem_of_nil & _). }
  rewrite fmap_app, NoDup_app in Hnd. destruct Hnd as (Hnd & Hnew & _).
  rewrite fmap_app. simpl. rewrite foldl_snoc. unfold matrix_entry at 1. rewrite probe_node_name. cbn [as_str mbind option_bind].
  destruct (decide (to = file.1)) as [->|Hne].
  - rewrite lookup_insert_eq. split.
    + intros [= <-]. exists file. rewrite elem_of_app, list_elem_of_singleton. auto.
    + intros (file' & Hin & Heq & ->). apply elem_of_app in Hin as [Hin| ->%list_elem_of_singleton]; [|done].
      exfalso. apply (Hnew file'.1); [by apply list_elem_of_fmap_2|]. rewrite Heq. by left.
  - rewrite lookup_insert_ne, IH by done. setoid_rewrite elem_of_app. setoid_rewrite list_elem_of_singleton. naive_solver.
Qed.

(** The planner's matrix is the view's own row: nothing else in the file is a
    matrix. *)
Definition no_matrix (decode_matrix : Json -> option LatencyMatrix) (v : Json) : Prop :=
  match decode_matrix v with Some m => rpc_median_ms m = ∅ | None => True end.

Lemma view_matrix decode_matrix from generated_at nodes :
  let v := fleet_view from generated_at nodes in
  from <> EmptyString -> no_matrix decode_matrix v ->
  matrix_from_json decode_matrix v
  = if decide (matrix_row nodes = ∅) then mkLatencyMatrix ∅ else mkLatencyMatrix {[ from := matrix_row nodes ]}.
Proof.
  intros v Hfrom Hno. unfold matrix_from_json, no_matrix in *.
  assert (matrix_from_view v = if decide (matrix_row nodes = ∅) then mkLatencyMatrix ∅
            else mkLatencyMatrix {[ from := matrix_row nodes ]}) as Hview.
  { unfold matrix_from_view, v, fleet_view. rewrite !index_obj. cbn [map_get String.eqb Ascii.eqb Bool.eqb as_str as_array].
    destruct (String.eqb_spec from ""); [done|]. done. }
  destruct (decode_matrix v) as [m|]; [|done]. by rewrite decide_True.
Qed.

(** The links of the matrix read from a view. *)
Lemma fleet_view_links decode_matrix from generated_at files :
  from <> EmptyString -> NoDup files.*1 -> no_matrix decode_matrix (fleet_view from generated_at (probe <$> files)) ->
  forall a b f, rtt_ms (matrix_from_json decode_matrix (fleet_view from generated_at (probe <$> files))) a b = Some f <->
    a = from /\ exists file p, file ∈ files /\ file.1 = b /\ node_peer file = Some p
      /\ f = rt_median (rtt_report (answered_pings p samples)) /\ is_finite f = true.
Proof.
  intros Hfrom Hnd Hno.
  intros a b f. unfold rtt_ms. rewrite view_matrix by done.
    pose proof (matrix_row_probes files b) as Hrow.
    assert (Hlink : forall row, matrix_row (probe <$> files) = row -> (row !! b ≫= fun r => r) = Some f <->
      exists file p, file ∈ files /\ file.1 = b /\ node_peer file = Some p
        /\ f = rt_median (rtt_report (answered_pings p samples)) /\ is_finite f = true).
    { intros row <-. rewrite bind_Some. setoid_rewrite Hrow; [|done]. setoid_rewrite probe_median. split.
      - intros (o & (file & Hin & Hb & ->) & Hf). exists file. simpl in Hf.
        destruct (node_peer file) as [p|]; [|done]. rewrite as_f64_json in Hf.
        destruct (is_finite _) eqn:Hfin; simplify_eq. by exists p.
      - intros (file & p & Hin & Hb & Hp & -> & Hfin). eexists. split; [by exists file|].
        rewrite Hp, as_f64_json, Hfin. done. }
    case_decide as Hrow0; simpl.
    - rewrite lookup_empty. simpl. split; [done|]. intros (-> & Hex). apply (Hlink _ Hrow0) in Hex. by rewrite lookup_empty in Hex.
    - destruct (decide (a = from)) as [->|Hne].
      + rewrite lookup_singleton_eq. simpl. rewrite (Hlink _ eq_refl). naive_solver.
      + rewrite lookup_singleton_ne by done. simpl. naive_solver.
Qed.

(** An agent that answered is reported with a time that was measured. *)
Lemma median_of_up file p :
  node_peer file = Some p -> node_up file = true ->
  rt_median (rtt_report (answered_pings p samples)) ∈ node_pings file.
Proof.
  intros Hp Hup. unfold node_up, node_pings in *. rewrite Hp in *. apply median_measured.
  by destruct (answered_pings p samples).
Qed.

(** The planner reads back what was measured. From the view of agents with
    different names, a node with a name of its own, the planner's latency matrix
    has exactly one row, its own; a link in it is the median of the answered
    pings of an agent that was connected - one of the times measured, if any
    ping was answered - and no link stands for an agent that was not. But an
    agent that is connected and answers no ping is entered with 0.0, as if that
    had been measured. *)
Theorem fleet_view_matrix decode_matrix from generated_at files :
  let v := fleet_view from generated_at (probe <$> files) in
  let rtt := rtt_ms (matrix_from_json decode_matrix v) in
  from <> EmptyString -> NoDup files.*1 -> no_matrix decode_matrix v ->
  (forall a b f, rtt a b = Some f <->
     a = from /\ exists file p, file ∈ files /\ file.1 = b /\ node_peer file = Some p
       /\ f = rt_median (rtt_report (answered_pings p samples)) /\ is_finite f = true)
  /\ (forall file f, file ∈ files -> node_up file = true -> rtt from file.1 = Some f -> f ∈ node_pings file)
  /\ (forall file, file ∈ files -> is_Some (node_peer file) -> node_up file = false ->
        rtt from file.1 = Some f64_zero).
Proof.
  intros v rtt Hfrom Hnd Hno.
  pose proof (fleet_view_links decode_matrix from generated_at files Hfrom Hnd Hno) as Hiff.
  split; [exact Hiff|]. split.
  - intros file f Hin Hup Hf. apply Hiff in Hf as (_ & file' & p & Hin' & Heq & Hp & -> & _).
    assert (file' = file) as -> by (eapply NoDup_fmap_elem; eauto). by apply median_of_up.
  - intros file Hin [p Hp] Hdown. apply Hiff. split; [done|]. exists file, p. split_and!; try done.
    unfold node_up, node_pings in Hdown. rewrite Hp in Hdown. by destruct (answered_pings p samples).
Qed.

End view.

(** ** Concrete instances *)

(** One agent that answers, one that only lets itself be connected. *)
Definition demo_files : list (string * string) := [("a", "1"); ("b", "2")].
Definition demo_inventory : list Resource := [local_cpu "a" (Some 8); local_memory "a" 4096].
Definition demo_peer (addr : string) : Peer :=
  {| pe_connect := Some (Ok tt); pe_connect_secs := f64_of_Z 1;
     pe_ping := fun i => (if String.eqb addr "1" then Some (Ok Pong) else None, f64_of_Z (Z.of_nat i + 1));
     pe_inventory := Some (Ok (InventoryResp demo_inventory)) |}.
Definition demo_parse (raw : string) : result string string := Ok raw.
Definition demo_view : Json :=
  fleet_view "a" 7
    (probe_node (fun _ => None) (fun _ => None) (fun _ => None) demo_parse demo_peer 3 false <$> demo_files).

Lemma fleet_totals_spec_witness :
  Forall (fun file => in_range (node_resources demo_parse demo_peer file)) demo_files
  /\ index (index demo_view "totals") "logical_cpus" = json_int 8
  /\ index (index demo_view "totals") "online" = json_int 1.
Proof.
  assert (Forall (fun file => in_range (node_resources demo_parse demo_peer file)) demo_files) as H.
  { repeat constructor; vm_compute; intuition discriminate. }
  split; [exact H|].
  destruct (fleet_totals_spec (fun _ => None) (fun _ => None) (fun _ => None) demo_parse demo_peer 3 false demo_files H)
    as (_ & Hon & Hcpu & _).
  unfold demo_view, fleet_view. json_key. rewrite Hon, Hcpu. split; vm_compute; reflexivity.
Defined.

Lemma fleet_view_matrix_witness :
  NoDup demo_files.*1
  /\ rtt_ms (matrix_from_json (fun _ => None) demo_view) "a" "a" = Some (f64_of_Z 2000)
  /\ rtt_ms (matrix_from_json (fun _ => None) demo_view) "a" "b" = Some f64_zero.
Proof.
  assert (NoDup demo_files.*1) as Hnd by (apply (bool_decide_unpack _); vm_compute; exact I).
  split; [exact Hnd|].
  destruct (fleet_view_matrix (fun _ => None) (fun _ => None) (fun _ => None) demo_parse demo_peer 3 false
              (fun _ => None) "a" 7 demo_files ltac:(discriminate) Hnd I) as (Hiff & _ & Hzero).
  split.
  - apply Hiff. split; [reflexivity|]. exists ("a", "1"), (demo_peer "1").
    split_and!; [by left|reflexivity|reflexivity|vm_compute; reflexivity|vm_compute; reflexivity].
  - apply (Hzero ("b", "2")); [by right; left|by eexists|vm_compute; reflexivity].
Defined.
