(* ===== verification/FleetPrint.v ===== *)
(** * [nauti fleet] (nauti-fabric/src/bin/nauti.rs, [fleet])

    The whole command around the view of [Fleet]: the file it writes and what it
    prints. The text of a float with a given number of digits and of a JSON
    value are arguments. *)

From stdpp Require Import base tactics option list gmap strings.
From Stdlib Require Import Ascii String SpecFloat.
From S2P Require Import Prelude Str Utf8 F64 Json Plan PlanView RpcAuth Rpc RpcProps Cli AgentFiles Fleet.

#[local] Open Scope Z_scope.

(** [{:<n}] and [{:>n}]: the width counts characters. *)
Definition spaces (n : nat) : string := Nat.iter n (String (byte_of 32)) EmptyString.
Definition pad_right (n : nat) (s : string) : string := s +:+ spaces (n - char_count s).
Definition pad_left (n : nat) (s : string) : string := spaces (n - char_count s) +:+ s.

Section print.
(** [{:.0}] and [{:.2}] of a float, [Display] and the pretty text of a value. *)
Context (show_f64_0 show_f64_2 : f64 -> string) (show_json : Json -> string) (pretty : Json -> result string string).

Definition gib (b : Z) : f64 := SFdiv prec emax (f64_of_Z b) (f64_of_Z (2 ^ 30)).

Definition summary_line (from : string) (totals : Json) : string :=
  let gib_of k := show_f64_0 (gib (or_0 (as_u64 (index totals k)))) in
  "fleet from " +:+ from +:+ ": " +:+ show_json (index totals "online") +:+ "/" +:+ show_json (index totals "nodes")
  +:+ " online | " +:+ show_json (index totals "logical_cpus") +:+ " cpus | " +:+ gib_of "memory_bytes"
  +:+ " GiB ram | " +:+ show_json (index totals "gpus") +:+ " gpus " +:+ gib_of "vram_bytes" +:+ " GiB vram | "
  +:+ show_json (index totals "rdma_ports_active") +:+ " rdma ports active".

Definition columns (node online rpc_min rpc_med rpc_p95 gpus rdma : string) (last : string) : string :=
  pad_right 14 node +:+ " " +:+ pad_left 6 online +:+ " " +:+ rpc_min +:+ " " +:+ rpc_med +:+ " " +:+ rpc_p95 +:+ " "
  +:+ pad_left 5 gpus +:+ " " +:+ pad_left 5 rdma +:+ "  " +:+ last.

Definition header_line : string :=
  columns "node" "online" (pad_left 9 "rpc_min") (pad_left 9 "rpc_med") (pad_left 9 "rpc_p95") "gpus" "rdma" "paths".

Definition path_text (p : Json) : string :=
  let label := option.default "?" (as_str (index p "path")) in
  match as_f64 (index (index p "rtt_ms") "avg") with
  | Some avg => label +:+ "=" +:+ show_f64_2 avg +:+ "ms"
  | None => label +:+ "=down"
  end.

Definition node_line (n : Json) : string :=
  let r := index n "rpc_rtt_ms" in
  let res := index n "resources" in
  let ms k := pad_left 8 (show_f64_2 (option.default f64_zero (as_f64 (index r k)))) +:+ "ms" in
  let online := json_is_true (index n "online") in
  columns (option.default "?" (as_str (index n "node"))) (if online then "yes" else "NO") (ms "min") (ms "median")
    (ms "p95") (show (Z.of_nat (length (json_items (index res "gpus"))))) (show (active_ports res))
    (if online then join " " (path_text <$> json_items (index n "paths"))
     else option.default EmptyString (as_str (index n "error"))).

Definition fleet_table (from : string) (nodes : list Json) : list Output :=
  Println (summary_line from (totals nodes)) :: Println header_line :: (Println ∘ node_line <$> nodes).

(** [fleet], once the nodes are probed. A view that cannot be written is a
    warning. *)
Definition fleet_command (fault : FileOp -> string -> option string) (partial : string -> string) (json : bool)
    (out env : option string) (from : string) (generated_at : Z) (nodes : list Json)
    (t : gmap string (gmap string Entry)) : list Output * result string () * gmap string (gmap string Entry) :=
  let view := fleet_view from generated_at nodes in
  match pretty view with
  | Err e => ([], Err e, t)
  | Ok text =>
      let '(written, t) := persist_addr_json_to fault partial (view_path out env from) text t in
      (app (match written with Ok _ => [] | Err e => [Eprintln ("warning: could not write fleet view: " +:+ e)] end)
           (if json then [PrintJson view] else fleet_table from nodes), Ok tt, t)
  end.

(** What the command leaves for the planner: unless it warned, the file at the
    default place holds the view it printed, and the planner's loader reads its
    matrix from there. *)
Theorem written_view_read_back fault partial json env from generated_at nodes t decode_matrix parse :
  let view := fleet_view from generated_at nodes in
  let path := view_path None env from in
  let '(outputs, res, t') := fleet_command fault partial json None env from generated_at nodes t in
  contains_char SLASH from = false -> fault ReadFile path = None ->
  (forall text, pretty view = Ok text -> parse text = Ok view) ->
  res = Ok tt -> (forall e, head outputs <> Some (Eprintln e)) ->
  load_matrix decode_matrix (fun p => read_file fault p t') parse id path
    = Ok (matrix_from_json decode_matrix view)
  /\ outputs = (if json then [PrintJson view] else fleet_table from nodes).
Proof.
  intros view path. unfold fleet_command. fold view. destruct (pretty view) as [text|e] eqn:Ep; [|done].
  destruct (persist_addr_json_to fault partial (view_path None env from) text t) as [[p|e] t'] eqn:Ew.
  2:{ intros _ _ _ _ Hno. by destruct (Hno ("warning: could not write fleet view: " +:+ e)). }
  intros Hs Hread Hparse _ _. split; [|done]. unfold view_path in Ew.
  apply persist_ok in Ew as (_ & mode & Ht); [|by rewrite !contains_char_app, Hs|done].
  rewrite trim_slashes_idem in Ht. unfold load_matrix, load_with.
  assert (read_file fault path t' = Ok text) as ->; [|simpl; by rewrite (Hparse _ eq_refl)].
  apply (read_file_ok fault partial). split; [done|]. exists (mkEntry text mode). split; [|done].
  unfold file_at, path, view_path. rewrite locate_file by (by rewrite !contains_char_app, Hs).
  simpl. rewrite trim_slashes_idem, Ht. simpl. by rewrite lookup_insert_eq.
Qed.
End print.
