(* ===== verification/PlanCli.v ===== *)
(** * [nauti plan] (nauti-fabric/src/bin/nauti.rs, plan.rs)

    Asking the head, planning offline from files, and the report of either with
    its exit status. The files, the JSON parser, the socket and the text of a
    float are arguments, as in the files about the planner. *)

From stdpp Require Import base tactics option list gmap strings fin_maps sorting.
From Stdlib Require Import Ascii String SpecFloat.
From S2P Require Import Prelude Str F64 Json Plan PlanProps PlanView PlanHttp RpcAuth Cli AgentFiles Fleet FleetProps.

#[local] Open Scope Z_scope.

(** [Display] of [PlanReject]. *)
Definition reject_display (r : PlanReject) : string :=
  match r with
  | UnknownRole role => "bad-enum: unknown role " +:+ debug_str role
  | EscalateNowhere constraint =>
      "escalate-nowhere: " +:+ option.default "no constraint recorded" constraint
  | MissingField field => "missing-field: " +:+ field
  | HeadUnreachable detail => "backend-down: head unreachable: " +:+ detail
  | BadResponse status token detail => token +:+ ": HTTP " +:+ show status +:+ ": " +:+ detail
  | UnknownPlanner kind =>
      "bad-enum: unknown planner kind " +:+ debug_str kind +:+ "; expected one of monolithic, federated"
  | BadHeadUrl detail => "bad-enum: unusable head url: " +:+ detail
  end.

(** The JSON of a fragment: the two extensions are left out when absent. *)
Definition fragment_fields (f : PlanFragment) : list (string * Json) :=
  app [("node_id", JString (pf_node_id f)); ("role", JString (pf_role f)); ("host_key", JString (pf_host_key f));
       ("slot", JString (pf_slot f)); ("model_id", JString (pf_model_id f)); ("reason", JString (pf_reason f))]
    (app (match pf_resource_id f with Some id => [("resource_id", JString id)] | None => [] end)
         (match pf_rtt_ms f with Some ms => [("rtt_ms", json_f64 ms)] | None => [] end)).

Section plan_cli.
Context (show_f64 show_f64_3 : f64 -> string).

(** [report_plan]: what is printed, and how the command exits. *)
Definition report_plan (r : result PlanReject PlanFragment) (json : bool) (planner : string) :
    list Output * result string () :=
  match r with
  | Ok fragment =>
      (if json then [PrintJson (json_obj (("planner", JString planner) :: fragment_fields fragment))]
       else [Println ("plan fragment role=" +:+ pf_role fragment +:+ " host=" +:+ pf_host_key fragment +:+ " slot="
               +:+ pf_slot fragment +:+ " model=" +:+ pf_model_id fragment
               +:+ match pf_rtt_ms fragment with
                   | Some ms => " rtt=" +:+ show_f64_3 ms +:+ "ms" | None => " rtt=not-measured" end);
             Println ("  lease to request: " +:+ option.default "(snapshot named none)" (pf_resource_id fragment));
             Println ("  reason: " +:+ pf_reason fragment); Println ("  planner: " +:+ planner)], Ok tt)
  | Err err =>
      (if json then
         [PrintJson (json_obj [("status", JString "rejected"); ("reason", JString (reason_token err));
                               ("http_status", match http_status err with Some s => json_int s | None => JNull end);
                               ("detail", JString (reject_display err)); ("planner", JString planner)])]
       else
         app [Eprintln ("plan rejected: "
                +:+ match http_status err with Some s => "http=" +:+ show s +:+ " " | None => EmptyString end
                +:+ reject_display err);
              Eprintln ("  reason token: " +:+ reason_token err)]
           (match err with
            | EscalateNowhere _ => [Eprintln "  no host in the fleet can take this role; not an empty plan"]
            | _ => [] end),
       Err ("plan rejected: " +:+ reason_token err))
  end.

(** [plan_ask]; [ask] is the client of [PlanHttp] with the socket's timeout. *)
Definition plan_ask (ask : string -> PlanRequest -> result PlanReject PlanFragment) (hostname : option string)
    (env_head : option string) (role : string) (head node : option string) (json : bool) :
    list Output * result string () :=
  match (match head with Some h => Some h | None => env_head end) with
  | None => ([], Err "need --head URL or NAUTI_PLAN_HEAD")
  | Some head =>
      let node_id := option.default (hostname_short hostname) node in
      report_plan (ask head (new_request node_id role)) json "head:/v1/plan"
  end.

Context (read : string -> result string string) (parse : string -> result string Json).
Context (decode_slot : Json -> option SlotView) (decode_matrix : Json -> option LatencyMatrix).

(** The roles: a JSON file, or a comma list when it is not one. *)
Definition offline_roles (roles_spec : string) : RoleCatalogue :=
  match read roles_spec with
  | Ok raw =>
      match parse raw with
      | Ok value => catalogue_from_json value
      | Err _ => trim <$> split_on "," roles_spec
      end
  | Err _ => trim <$> split_on "," roles_spec
  end.

(** The view the offline plan is made on. *)
Definition offline_view (view_path : string) (matrix_path : option string) : result PlanReject FleetView :=
  view ← load_snapshot decode_slot decode_matrix read parse (fun p => p) view_path;
  match matrix_path with
  | None => Ok view
  | Some path =>
      matrix ← load_matrix decode_matrix read parse (fun p => p) path;
      Ok (with_latency view matrix)
  end.

(** [plan_offline]. *)
Definition plan_offline (hostname : option string) (role view_path : string) (node : option string)
    (roles_spec : string) (matrix_path : option string) (planner_kind : string) (json : bool) :
    list Output * result string () :=
  match offline_view view_path matrix_path with
  | Err e => ([], Err (reject_display e))
  | Ok view =>
      let node_id := option.default (hostname_short hostname) node in
      report_plan (plan_by_kind show_f64 show_f64_3 planner_kind (new_request node_id role) view
                     (offline_roles roles_spec)) json planner_kind
  end.

(** ** Exit status *)

Lemma report_exit r json planner : is_ok (report_plan r json planner).2 = is_ok r.
Proof. by destruct r. Qed.

(** A refusal is never read as a plan. Offline, with a snapshot (and a matrix,
    when one is given) that loads, a known role and names that are not blank,
    the monolithic planner exits successfully exactly if some unlocked host of
    the snapshot has a healthy slot for the role; otherwise it exits with the
    reason [escalate-nowhere], status 403, in both forms of output. A snapshot
    or matrix that cannot be read or parsed is an error before anything is
    printed. *)
Theorem plan_offline_exit hostname role view_path node roles_spec matrix_path json :
  let node_id := option.default (hostname_short hostname) node in
  let run := plan_offline hostname role view_path node roles_spec matrix_path "monolithic" json in
  match offline_view view_path matrix_path with
  | Err e => run = ([], Err (reject_display e))
  | Ok view =>
      trim node_id <> EmptyString -> trim role <> EmptyString -> role ∈ offline_roles roles_spec ->
      (is_ok run.2 = true <->
         exists key host s, fv_hosts view !! key = Some host /\ can_serve host role s)
      /\ (is_ok run.2 = false ->
           run.2 = Err "plan rejected: escalate-nowhere"
           /\ (json = true -> exists v, run.1 = [PrintJson v] /\ index v "status" = JString "rejected"
                 /\ index v "reason" = JString "escalate-nowhere" /\ index v "http_status" = json_int 403))
  end.
Proof.
  intros node_id run. unfold run, plan_offline. destruct (offline_view view_path matrix_path) as [view|e]; [|done].
  intros Hnode Hrole Hknown. fold node_id. set (req := new_request node_id role).
  assert (Hv : validate_ask req (offline_roles roles_spec) = Ok tt).
  { unfold validate_ask. simpl. destruct (String.eqb_spec (trim node_id) ""); [done|].
    destruct (String.eqb_spec (trim role) ""); [done|].
    apply catalogue_contains_spec in Hknown. by rewrite Hknown. }
  unfold plan_by_kind. rewrite Hv. simpl.
  pose proof (head_plan_verdict show_f64 show_f64_3 req view _ Hv) as Hh. unfold satisfiable in Hh.
  destruct (head_plan _ _ req view _) as [fr|err]; simpl.
  - split; [|done]. split; [intros _; exact Hh|done].
  - destruct Hh as [-> Hno]. split; [by split|].
    intros _. split; [done|]. intros ->. eexists. split; [done|]. rewrite !index_obj.
    cbn [map_get String.eqb Ascii.eqb Bool.eqb]. done.
Qed.

(** The link of a fragment is one of the view's. *)
Lemma plan_by_kind_rtt kind req view roles fr ms :
  plan_by_kind show_f64 show_f64_3 kind req view roles = Ok fr -> pf_rtt_ms fr = Some ms ->
  rtt_ms (fv_latency view) (pr_node_id req) (pf_host_key fr) = Some ms.
Proof.
  intros Hp Hms. unfold plan_by_kind in Hp. destruct (validate_ask req roles) as [[]|] eqn:Hv; [|done]. simpl in Hp.
  destruct (String.eqb kind "monolithic").
  - unfold head_plan in Hp. rewrite Hv in Hp. simpl in Hp. destruct (best_slot _ _ _); simplify_eq/=.
    unfold monolithic_plan in Hp.
    pose proof (monolithic_loop_sound req view (bt_iter (fv_hosts view))) as Hs. fold (monolithic_best req view) in Hs.
    destruct (monolithic_best req view) as [[[[sc k] s] r]|]; simplify_eq/=. by destruct Hs as (_ & _ & <-).
  - destruct (String.eqb kind "federated"); [|done]. unfold plan_with in Hp. rewrite Hv in Hp. simpl in Hp.
    unfold federated_plan in Hp. destruct (fv_hosts view !! pr_node_id req); simplify_eq/=.
    destruct (best_slot_scored _ _ None) as [[? ?]|]; simplify_eq/=.
Qed.
End plan_cli.

(** From the fleet view to the plan. When the matrix given to [nauti plan
    offline] is a view [nauti fleet] wrote, a fragment states a latency only if
    the asking node is the one the view was taken from, and the latency is the
    median of that probe of the chosen host: one of the times of its answered
    pings, if it answered any. *)
Theorem offline_rtt_measured {Addr} show_f64 show_f64_3 read parse decode_slot decode_matrix parse_json parse_f64
    ping (parse_addr : string -> result string Addr) peer samples paths from generated_at files
    hostname role view_path node roles_spec matrix_path text view kind fr ms :
  let v := fleet_view from generated_at
             (probe_node parse_json parse_f64 ping parse_addr peer samples paths <$> files) in
  let req := new_request (option.default (hostname_short hostname) node) role in
  read matrix_path = Ok text -> parse text = Ok v ->
  from <> EmptyString -> NoDup files.*1 -> no_matrix decode_matrix v ->
  offline_view read parse decode_slot decode_matrix view_path (Some matrix_path) = Ok view ->
  plan_by_kind show_f64 show_f64_3 kind req view (offline_roles read parse roles_spec) = Ok fr ->
  pf_rtt_ms fr = Some ms ->
  pr_node_id req = from
  /\ exists file p, file ∈ files /\ file.1 = pf_host_key fr /\ node_peer parse_addr peer file = Some p
     /\ ms = rt_median (rtt_report (answered_pings p samples))
     /\ (node_up parse_addr peer samples file = true -> ms ∈ node_pings parse_addr peer samples file).
Proof.
  intros v req Hread Hparse Hfrom Hnd Hno Hview Hplan Hms.
  pose proof (plan_by_kind_rtt _ _ _ _ _ _ _ _ Hplan Hms) as Hrtt.
  assert (fv_latency view = matrix_from_json decode_matrix v) as Hlat.
  { unfold offline_view, load_snapshot, load_matrix, load_with in Hview. rewrite Hread in Hview.
    destruct (read view_path) as [raw|]; [|done]. simpl in Hview. destruct (parse raw) as [value|]; [|done].
    simpl in Hview. rewrite Hparse in Hview. simpl in Hview. by injection Hview as <-. }
  rewrite Hlat in Hrtt. unfold v in Hrtt.
  destruct (fleet_view_links parse_json parse_f64 ping parse_addr peer samples paths decode_matrix from generated_at
              files Hfrom Hnd Hno (pr_node_id req) (pf_host_key fr) ms) as [Hlink _].
  destruct (Hlink Hrtt) as (Hnode & file & p & Hin & Hkey & Hp & -> & _). split; [done|].
  exists file, p. split_and!; try done. intros Hup. by apply median_of_up.
Qed.

(** ** A concrete instance *)

Definition demo_fleet : Json :=
  fleet_view "h" 7
    (probe_node (fun _ => None) (fun _ => None) (fun _ => None) demo_parse demo_peer 3 false <$> demo_files).
Definition demo_snapshot : Json := json_obj [("a", json_obj [("slots", JArray [JNull])])].
Definition demo_read (path : string) : result string string :=
  if String.eqb path "roles" then Err "no file" else Ok path.
Definition demo_parse_json (raw : string) : result string Json :=
  if String.eqb raw "matrix" then Ok demo_fleet else Ok demo_snapshot.
Definition demo_decode_slot (_ : Json) : option SlotView :=
  Some (mkSlotView "s0" "m" ["roles"] true (f64_of_Z 8000) None).

Definition demo_offline : list Output * result string () :=
  plan_offline demo_show demo_show demo_read demo_parse_json demo_decode_slot (fun _ => None) None
    "roles" "snapshot" (Some "h") "roles" (Some "matrix") "monolithic" true.

Lemma offline_rtt_measured_witness :
  is_ok demo_offline.2 = true
  /\ exists file, file ∈ demo_files /\ file.1 = "a"
     /\ f64_of_Z 2000 ∈ node_pings demo_parse demo_peer 3 file.
Proof.
  split; [vm_compute; reflexivity|].
  destruct (offline_view demo_read demo_parse_json demo_decode_slot (fun _ => None) "snapshot" (Some "matrix"))
    as [view|] eqn:Hview; [|vm_compute in Hview; discriminate].
  destruct (plan_by_kind demo_show demo_show "monolithic" (new_request "h" "roles") view
              (offline_roles demo_read demo_parse_json "roles")) as [fr|] eqn:Hplan.
  2:{ revert Hplan. vm_compute in Hview. injection Hview as <-. vm_compute. discriminate. }
  assert (pf_rtt_ms fr = Some (f64_of_Z 2000) /\ pf_host_key fr = "a") as [Hms Hkey].
  { revert Hplan. vm_compute in Hview. injection Hview as <-. vm_compute. intros [= <-]. split; reflexivity. }
  destruct (offline_rtt_measured demo_show demo_show demo_read demo_parse_json demo_decode_slot (fun _ => None)
    (fun _ => None) (fun _ => None) (fun _ => None) demo_parse demo_peer 3 false "h" 7 demo_files None "roles"
    "snapshot" (Some "h") "roles" "matrix" "matrix" view "monolithic" fr (f64_of_Z 2000)) as (_ & file & p & Hin & Hf & Hp & _ & Hup).
  all: try done.
  - apply (bool_decide_unpack _). vm_compute. exact I.
  - exists file. split; [exact Hin|]. split; [by rewrite Hf|]. apply Hup.
    unfold demo_files in Hin. rewrite Hkey in Hf. set_unfold. destruct Hin as [->|[->|[]]]; [by vm_compute|discriminate].
Defined.
