(* ===== verification/Topology.v ===== *)
(** * NUMA topology and the NVML listing (nauti-fabric/src/topology.rs,
    gpu/mod.rs)

    What hwloc and NVML report is an argument: the objects of the topology with
    the nodesets above them, and the answers to the queries of a device. *)

From stdpp Require Import base tactics option list gmap strings fin_maps sorting.
From S2P Require Import Prelude Str Resource.

#[local] Open Scope Z_scope.

(** ** NUMA nodes and PCI devices *)

Record PciDeviceReport : Type := mkPciDeviceReport {
  pci_name : string;
  pci_vendor_id : option string;
  pci_device_id : option string;
}.

Record NumaNodeReport : Type := mkNumaNodeReport {
  nn_os_index : Z;
  nn_local_memory_bytes : Z;
  nn_logical_cpus : Z;
  nn_pci_devices : list PciDeviceReport;
}.

Section topology.
(** A set of NUMA nodes and its first member, as hwloc gives them. *)
Context {Nodeset : Type} (first_set : Nodeset -> option Z).

(** A PCI device: its name, its two info strings, and the nodesets of itself
    and of its ancestors, from the inside out. *)
Record PciObject : Type := mkPciObject {
  po_name : option string;
  po_vendor : option string;
  po_device : option string;
  po_nodesets : list (option Nodeset);
}.

(** A NUMA node: its index, memory, and the weight of its cpuset ([None] in the
    inner option for an infinite set). *)
Record NumaObject : Type := mkNumaObject {
  no_os_index : option Z;
  no_total_memory : Z;
  no_cpuset : option (option Z);
}.

Definition pci_report (obj : PciObject) : PciDeviceReport :=
  {| pci_name := default "unknown-pci-device" (po_name obj);
     pci_vendor_id := po_vendor obj; pci_device_id := po_device obj |}.

(** The first nodeset on the way up, and its first node. *)
Definition local_node_index (obj : PciObject) : option Z :=
  head (omap id (po_nodesets obj)) ≫= first_set.

(** The devices by node, and those without. *)
Definition attribute_pci (objs : list PciObject) : gmap Z (list PciDeviceReport) * list PciDeviceReport :=
  foldl (fun acc obj =>
           match local_node_index obj with
           | Some index => (<[index := app (default [] (acc.1 !! index)) [pci_report obj]]> acc.1, acc.2)
           | None => (acc.1, app acc.2 [pci_report obj])
           end) (∅, []) objs.

Definition numa_index (obj : NumaObject) : Z := default 0 (no_os_index obj).

(** Every node takes the devices of its index out of the map. *)
Fixpoint numa_nodes (objs : list NumaObject) (by_index : gmap Z (list PciDeviceReport)) :
    list NumaNodeReport * gmap Z (list PciDeviceReport) :=
  match objs with
  | [] => ([], by_index)
  | obj :: objs =>
      let os_index := numa_index obj in
      let node := {| nn_os_index := os_index; nn_local_memory_bytes := no_total_memory obj;
                     nn_logical_cpus := match no_cpuset obj with Some w => default 0 w | None => 0 end;
                     nn_pci_devices := default [] (by_index !! os_index) |} in
      let '(nodes, rest) := numa_nodes objs (delete os_index by_index) in
      (node :: nodes, rest)
  end.

Definition index_le (a b : Z * list PciDeviceReport) : Prop := a.1 <= b.1.
#[local] Instance index_le_dec : RelDecision index_le.
Proof. intros a b. unfold index_le. apply _. Defined.

(** The devices of indices no node has, in the order of the map. *)
Definition leftovers (by_index : gmap Z (list PciDeviceReport)) : list PciDeviceReport :=
  mjoin (merge_sort index_le (map_to_list by_index)).*2.

Definition add_devices (extra : list PciDeviceReport) (node : NumaNodeReport) : NumaNodeReport :=
  {| nn_os_index := nn_os_index node; nn_local_memory_bytes := nn_local_memory_bytes node;
     nn_logical_cpus := nn_logical_cpus node; nn_pci_devices := app (nn_pci_devices node) extra |}.

Definition attach_unassigned (nodes : list NumaNodeReport) (unassigned : list PciDeviceReport) :
    list NumaNodeReport :=
  match unassigned with
  | [] => nodes
  | _ => match nodes with
         | first :: nodes => add_devices unassigned first :: nodes
         | [] => [{| nn_os_index := 0; nn_local_memory_bytes := 0; nn_logical_cpus := 0;
                     nn_pci_devices := unassigned |}]
         end
  end.

(** [NumaTopology::discover], once the topology is loaded. *)
Definition numa_discover (pci : list PciObject) (numa : list NumaObject) : list NumaNodeReport :=
  let '(by_index, unassigned) := attribute_pci pci in
  let '(nodes, rest) := numa_nodes numa by_index in
  attach_unassigned nodes (app unassigned (leftovers rest)).

Definition load_topology (loaded : result string (list PciObject * list NumaObject)) :
    result string (list NumaNodeReport) :=
  (fun t => numa_discover t.1 t.2) <$> map_err (fun e => "failed to load hwloc topology: " +:+ e) loaded.

Definition numa_resource (node : string) (numa : NumaNodeReport) : Resource :=
  {| r_id := "local.numa." +:+ show (nn_os_index numa); r_kind := Memory;
     r_capacity := nn_local_memory_bytes numa; r_unit := "bytes"; r_node := node;
     r_state := Available; r_exclusive := false;
     r_attributes := {[ "topology.scope" := "numa-node"; "numa.os_index" := show (nn_os_index numa);
                        "numa.logical_cpus" := show (nn_logical_cpus numa);
                        "numa.pci_device_count" := show (Z.of_nat (length (nn_pci_devices numa))) ]} |}.

Definition numa_resources (node : string) (nodes : list NumaNodeReport) : list Resource :=
  numa_resource node <$> nodes.

(** ** No device is dropped *)

Definition all_devices (nodes : list NumaNodeReport) : list PciDeviceReport := mjoin (nn_pci_devices <$> nodes).
Definition map_devices (m : gmap Z (list PciDeviceReport)) : list PciDeviceReport := mjoin (map_to_list m).*2.

Lemma map_devices_insert m i l :
  m !! i = None -> map_devices (<[i := l]> m) ≡ₚ app l (map_devices m).
Proof.
  intros Hi. unfold map_devices. rewrite map_to_list_insert by done. done.
Qed.

Lemma map_devices_delete m i : map_devices m ≡ₚ app (default [] (m !! i)) (map_devices (delete i m)).
Proof.
  destruct (m !! i) as [l|] eqn:E; simpl.
  - rewrite <-(insert_delete_id m i l) at 1 by done. apply map_devices_insert, lookup_delete_eq.
  - by rewrite delete_id.
Qed.

Lemma leftovers_perm m : leftovers m ≡ₚ map_devices m.
Proof. unfold leftovers, map_devices. by rewrite merge_sort_Permutation. Qed.

Lemma attribute_pci_perm objs :
  app (map_devices (attribute_pci objs).1) (attribute_pci objs).2 ≡ₚ pci_report <$> objs.
Proof.
  induction objs as [|obj objs IH] using rev_ind; [done|].
  unfold attribute_pci. rewrite foldl_snoc, fmap_app. fold (attribute_pci objs). rewrite <-IH.
  destruct (attribute_pci objs) as [m un]. cbn [fst snd]. destruct (local_node_index obj) as [i|]; cbn [fst snd].
  - rewrite (map_devices_delete (<[i := _]> m) i), lookup_insert_eq, delete_insert_eq.
    rewrite (map_devices_delete m i). cbn [option.default]. simpl. solve_Permutation.
  - simpl. solve_Permutation.
Qed.

Lemma numa_nodes_perm numa m :
  app (all_devices (numa_nodes numa m).1) (map_devices (numa_nodes numa m).2) ≡ₚ map_devices m.
Proof.
  revert m. induction numa as [|obj numa IH]; intros m; simpl; [done|].
  specialize (IH (delete (numa_index obj) m)). destruct (numa_nodes numa _) as [nodes rest]. simpl in *.
  unfold all_devices in *. simpl. rewrite <-app_assoc, IH. by rewrite <-map_devices_delete.
Qed.

Lemma attach_unassigned_perm nodes unassigned :
  all_devices (attach_unassigned nodes unassigned) ≡ₚ app (all_devices nodes) unassigned.
Proof.
  unfold attach_unassigned, all_devices. destruct unassigned as [|d ds]; [by rewrite app_nil_r|].
  destruct nodes as [|first nodes]; simpl; [by rewrite app_nil_r|]. solve_Permutation.
Qed.

(** ** Every device under its node *)

Lemma attribute_pci_index objs i :
  default [] ((attribute_pci objs).1 !! i)
  = pci_report <$> filter (fun obj => local_node_index obj = Some i) objs.
Proof.
  induction objs as [|obj objs IH] using rev_ind; [done|].
  unfold attribute_pci. rewrite foldl_snoc, filter_app, fmap_app. fold (attribute_pci objs). rewrite <-IH.
  rewrite filter_cons, filter_nil. destruct (attribute_pci objs) as [m un]. cbn [fst snd].
  destruct (local_node_index obj) as [j|] eqn:Ej; cbn [fst snd].
  - destruct (decide (i = j)) as [<-|Hij].
    + rewrite lookup_insert_eq, decide_True by done. done.
    + rewrite lookup_insert_ne, decide_False by congruence. by rewrite app_nil_r.
  - rewrite decide_False by done. by rewrite app_nil_r.
Qed.

(** A node whose index no earlier node has takes what the map holds for it. *)
Lemma numa_nodes_lookup numa m k obj :
  numa !! k = Some obj ->
  (forall j earlier, (j < k)%nat -> numa !! j = Some earlier -> numa_index earlier <> numa_index obj) ->
  exists node, (numa_nodes numa m).1 !! k = Some node /\ nn_os_index node = numa_index obj
    /\ nn_local_memory_bytes node = no_total_memory obj
    /\ nn_pci_devices node = default [] (m !! numa_index obj).
Proof.
  revert m k. induction numa as [|o numa IH]; intros m [|k] Hk Hnew; simplify_eq/=.
  - destruct (numa_nodes numa _) as [nodes rest]. by eexists.
  - destruct (IH (delete (numa_index o) m) k Hk) as (node & Hn & Hi & Hm & Hd).
    { intros j earlier Hj. apply (Hnew (S j)). lia. }
    destruct (numa_nodes numa _) as [nodes rest]. simpl in *. exists node.
    rewrite Hd, lookup_delete_ne by (apply (Hnew 0%nat); [lia|done]). done.
Qed.

Lemma attach_unassigned_lookup nodes unassigned k node :
  nodes !! k = Some node ->
  exists extra, attach_unassigned nodes unassigned !! k = Some (add_devices extra node)
    /\ (k <> 0%nat -> extra = []).
Proof.
  intros Hk.
  assert (Hid : add_devices [] node = node) by (destruct node; unfold add_devices; simpl; by rewrite app_nil_r).
  destruct unassigned as [|d ds]; [exists []; by rewrite Hid|].
  destruct nodes as [|first nodes]; [done|]. destruct k as [|k]; simplify_eq/=; [by eexists|].
  exists []. by rewrite Hid.
Qed.

(** The capture drops no PCI device and puts every one where it belongs: the
    devices of the nodes are, up to order, exactly those the host reports, and a
    node whose index no earlier node has carries, in their order, the devices
    whose closest nodeset starts with it; only the first node may carry more. *)
Theorem numa_discover_spec (pci : list PciObject) (numa : list NumaObject) :
  all_devices (numa_discover pci numa) ≡ₚ pci_report <$> pci
  /\ (forall k obj, numa !! k = Some obj ->
        (forall j earlier, (j < k)%nat -> numa !! j = Some earlier -> numa_index earlier <> numa_index obj) ->
        exists node extra, numa_discover pci numa !! k = Some node
          /\ nn_os_index node = numa_index obj /\ nn_local_memory_bytes node = no_total_memory obj
          /\ nn_pci_devices node
             = app (pci_report <$> filter (fun o => local_node_index o = Some (numa_index obj)) pci) extra
          /\ (k <> 0%nat -> extra = [])).
Proof.
  unfold numa_discover. pose proof (attribute_pci_perm pci) as Hperm.
  pose proof (attribute_pci_index pci) as Hindex.
  destruct (attribute_pci pci) as [m un]. cbn [fst snd] in *. split.
  - pose proof (numa_nodes_perm numa m) as Hn. destruct (numa_nodes numa m) as [nodes rest].
    cbn [fst snd] in Hn. rewrite attach_unassigned_perm, leftovers_perm, <-Hperm, <-Hn. solve_Permutation.
  - intros k obj Hk Hnew. destruct (numa_nodes_lookup numa m k obj Hk Hnew) as (node & Hn & Hi & Hm & Hd).
    destruct (numa_nodes numa m) as [nodes rest]. cbn [fst] in Hn.
    destruct (attach_unassigned_lookup nodes (app un (leftovers rest)) k node Hn) as (extra & Ha & Hex).
    exists (add_devices extra node), extra. rewrite Ha. simpl. by rewrite Hd, Hindex.
Qed.

End topology.

(** ** The NVML listing

    What NVML answers is an argument; a query that fails ends the listing with
    the index of its device. *)

Record GpuDeviceReport : Type := mkGpuDeviceReport {
  nv_index : Z;
  nv_name : string;
  nv_uuid : string;
  nv_total_memory_bytes : Z;
  nv_free_memory_bytes : Z;
  nv_pci_bus_id : string;
}.

Inductive GpuError : Type :=
  | GpuLoad (reason : string)
  | GpuDeviceFailed (index : Z) (reason : string).

Section nvml.
Context {Device : Type} (device_by_index : Z -> result string Device)
  (name uuid pci_bus_id : Device -> result string string) (memory_info : Device -> result string (Z * Z)).

(** One turn of the loop. *)
Definition query_device (index : Z) : result GpuError GpuDeviceReport :=
  map_err (GpuDeviceFailed index) (
    device ← device_by_index index;
    name ← name device;
    uuid ← uuid device;
    memory ← memory_info device;
    bus_id ← pci_bus_id device;
    Ok {| nv_index := index; nv_name := name; nv_uuid := uuid; nv_total_memory_bytes := memory.1;
          nv_free_memory_bytes := memory.2; nv_pci_bus_id := bus_id |}).

Fixpoint query_devices (indices : list Z) : result GpuError (list GpuDeviceReport) :=
  match indices with
  | [] => Ok []
  | index :: indices =>
      report ← query_device index;
      reports ← query_devices indices;
      Ok (report :: reports)
  end.

(** [GpuTopology::discover]. *)
Definition nvml_discover (init : result string unit) (device_count : result string Z) :
    result GpuError (list GpuDeviceReport) :=
  _ ← map_err GpuLoad init;
  count ← map_err GpuLoad device_count;
  query_devices (seqZ 0 count).

Lemma query_devices_ok indices reports :
  query_devices indices = Ok reports <-> Forall2 (fun i r => query_device i = Ok r) indices reports.
Proof.
  revert reports. induction indices as [|i indices IH]; intros reports; simpl.
  - split; [intros [= <-]; constructor|by intros ->%Forall2_nil_inv_l].
  - split.
    + destruct (query_device i) eqn:Ei; [|done]. simpl. destruct (query_devices indices) eqn:Er; [|done].
      intros [= <-]. constructor; [done|]. by apply IH.
    + intros (r & rs & Hr & Hrs & ->)%Forall2_cons_inv_l. rewrite Hr. simpl. apply IH in Hrs. by rewrite Hrs.
Qed.

Lemma query_devices_err indices e :
  query_devices indices = Err e ->
  exists before i after, indices = app before (i :: after) /\ query_device i = Err e
    /\ Forall (fun j => exists r, query_device j = Ok r) before.
Proof.
  induction indices as [|i indices IH]; [done|]. simpl.
  destruct (query_device i) as [r|e'] eqn:Ei; simpl.
  - destruct (query_devices indices) as [rs|e''] eqn:Er; [done|]. intros [= ->].
    destruct IH as (before & j & after & -> & Hj & Hb); [done|].
    exists (i :: before), j, after. split; [done|]. split; [done|]. constructor; [by eexists|done].
  - intros [= ->]. by exists [], i, indices.
Qed.

Lemma query_device_index i r : query_device i = Ok r -> nv_index r = i.
Proof.
  unfold query_device, map_err. destruct (device_by_index i) as [d|]; [|done]. simpl.
  destruct (name d); [|done]. simpl. destruct (uuid d); [|done]. simpl.
  destruct (memory_info d); [|done]. simpl. destruct (pci_bus_id d); [|done]. by intros [= <-].
Qed.

Lemma query_device_err i e : query_device i = Err e -> exists reason, e = GpuDeviceFailed i reason.
Proof. unfold query_device, map_err. destruct (_ : result string _); [done|]. intros [= <-]. by eexists. Qed.
End nvml.

Definition nvml_resource (node : string) (gpu : GpuDeviceReport) : Resource :=
  {| r_id := "local.gpu." +:+ show (nv_index gpu); r_kind := Gpu; r_capacity := nv_total_memory_bytes gpu;
     r_unit := "bytes"; r_node := node; r_state := Available; r_exclusive := true;
     r_attributes := {[ "gpu.name" := nv_name gpu; "gpu.uuid" := nv_uuid gpu;
                        "gpu.pci_bus_id" := nv_pci_bus_id gpu;
                        "gpu.free_memory_bytes" := show (nv_free_memory_bytes gpu) ]} |}.

Definition nvml_resources (node : string) (devices : list GpuDeviceReport) : list Resource :=
  nvml_resource node <$> devices.

(** The NVML listing is all or nothing: when it succeeds, its reports are
    those of the devices [0 .. count-1] in their order, each queried without an
    error, and the resources made of them have pairwise different identifiers;
    when it fails after NVML has answered the count, the error names the first
    device a query of which failed, every earlier one having answered. *)
Theorem nvml_discover_spec {Device : Type} (device_by_index : Z -> result string Device)
    (name uuid bus : Device -> result string string) (memory : Device -> result string (Z * Z)) (count : Z) :
  match nvml_discover device_by_index name uuid bus memory (Ok tt) (Ok count) with
  | Ok reports =>
      nv_index <$> reports = seqZ 0 count
      /\ (forall r, r ∈ reports -> query_device device_by_index name uuid bus memory (nv_index r) = Ok r)
      /\ (forall node, NoDup (r_id <$> nvml_resources node reports))
  | Err e =>
      exists i reason, e = GpuDeviceFailed i reason /\ 0 <= i < count
        /\ query_device device_by_index name uuid bus memory i = Err e
        /\ (forall j, 0 <= j < i ->
              exists r, query_device device_by_index name uuid bus memory j = Ok r)
  end.
Proof.
  unfold nvml_discover. cbn. destruct (query_devices _ _ _ _ _ (seqZ 0 count)) as [reports|e] eqn:E.
  - apply query_devices_ok in E.
    assert (Hidx : nv_index <$> reports = seqZ 0 count).
    { clear -E. revert reports E. induction (seqZ 0 count) as [|i idx IH]; intros reports E.
      - apply Forall2_nil_inv_l in E as ->. done.
      - apply Forall2_cons_inv_l in E as (r & rs & Hr & Hrs & ->). simpl.
        f_equal; [by eapply query_device_index|by apply IH]. }
    split; [done|]. split.
    + intros r Hr. apply list_elem_of_lookup in Hr as [k Hk].
      destruct (Forall2_lookup_r _ _ _ _ _ E Hk) as (i & _ & Hq).
      by rewrite (query_device_index _ _ _ _ _ _ _ Hq).
    + intros node. unfold nvml_resources. rewrite <-list_fmap_compose.
      change (_ <$> reports) with (((fun i : Z => "local.gpu." +:+ show i) ∘ nv_index) <$> reports).
      rewrite list_fmap_compose, Hidx. apply NoDup_fmap_2; [|apply NoDup_seqZ].
      intros i j Hij. by simplify_eq.
  - apply query_devices_err in E as (before & i & after & Hseq & Hi & Hb).
    destruct (query_device_err _ _ _ _ _ _ _ Hi) as [reason ->]. exists i, reason. split; [done|].
    assert (Hk : seqZ 0 count !! length before = Some i) by (rewrite Hseq; by apply list_lookup_middle).
    apply lookup_seqZ in Hk as [Hik Hlt]. split; [lia|]. split; [done|].
    intros j Hj. rewrite Forall_forall in Hb. apply Hb.
    apply list_elem_of_lookup. exists (Z.to_nat j).
    rewrite <-(lookup_app_l _ (i :: after)) by lia. rewrite <-Hseq. apply lookup_seqZ. lia.
Qed.
