(* ===== verification/Listing.v ===== *)
(** * The listings of the command line (nauti-fabric/src/bin/nauti.rs)

    [inventory], [gpus], [topology], [research discover] and the two [wgpu]
    commands: what they print and how they exit. The text of JSON and [serde]'s
    derived encoders are arguments. *)

From stdpp Require Import base tactics option list gmap strings fin_maps sorting.
From Stdlib Require Import Ascii String SpecFloat.
From S2P Require Import Prelude Str Json Resource Fabric FabricInv FabricSync Sysfs GpuDiscover Inventory Topology Wgpu Cli.

#[local] Open Scope Z_scope.

Definition TAB : string := bytes [9%nat].
Definition tabbed (columns : list string) : string := join TAB columns.

(** ** [nauti inventory] *)

Section inventory.
Context {W : Type} (resources_json : list Resource -> Json) (report_json : RefreshReport -> Json)
  (debug_state : ResourceState -> string).

Definition resource_line (r : Resource) : string :=
  tabbed [r_id r; debug_kind (r_kind r); show (r_capacity r); r_unit r; r_node r; debug_state (r_state r)].

(** One section of the refresh report, left out when empty. *)
Definition report_section (title mark : string) (ids : list string) : list Output :=
  match ids with [] => [] | _ => Println title :: ((fun id => Println ("  " +:+ mark +:+ " " +:+ id)) <$> ids) end.

Definition refresh_output (json : bool) (report : RefreshReport) : list Output :=
  if json then [PrintJson (report_json report)]
  else Println ("REPORT: added=" +:+ show (Z.of_nat (length (rr_added report)))
          +:+ " removed=" +:+ show (Z.of_nat (length (rr_removed report)))
          +:+ " blocked_by_lease=" +:+ show (Z.of_nat (length (rr_blocked_by_lease report))))
       :: app (report_section "ADDED:" "+" (rr_added report))
            (app (report_section "REMOVED:" "-" (rr_removed report))
               (report_section "BLOCKED_BY_LEASE (will be removed once lease expires or is released):" "!"
                  (rr_blocked_by_lease report))).

(** [inventory], on what discovery finds; a fresh registry each time. *)
Definition inventory (w : W) (discovered : list Resource) (json refresh : bool) : outcome (list Output) :=
  if refresh then
    match refresh_local discovered (default w) with
    | (Done report, _) => Done (refresh_output json report)
    | (Panicked, _) => Panicked
    end
  else
    match discover_local discovered (default w) with
    | (Done _, fab) =>
        let resources := resources_sorted fab in
        Done (if json then [PrintJson (resources_json resources)]
              else Println (tabbed ["ID"; "KIND"; "CAPACITY"; "UNIT"; "NODE"; "STATE"])
                     :: (Println ∘ resource_line <$> resources))
    | (Panicked, _) => Panicked
    end.
End inventory.

(** ** [nauti gpus] *)

Section gpus.
Context (to_lowercase : string -> string) (devices_json : list GpuDevice -> Json)
  (groups_json : gmap string (list GpuDevice) -> Json).

Definition gpu_line (gpu : GpuDevice) : string :=
  tabbed [vendor_label (gd_vendor gpu); gd_device_name gpu; option.default "-" (gd_uuid gpu);
          show (gd_vram_total_bytes gpu `div` (1024 * 1024)) +:+ "MB"; gd_driver gpu; gd_pci_bdf gpu;
          match gd_utilization_pct gpu with Some u => show u +:+ "%" | None => "-" end
          +:+ (if gd_display_only gpu then " [display-only]" else EmptyString)].

(** Does the vendor filter let a label through? *)
Definition passes (filter : option string) (label : string) : bool :=
  match filter with Some f => contains f (to_lowercase label) | None => true end.

Definition DISPLAY_GROUP : string := "__display_only__".

Definition group_output (filter : option string) (group : string * list GpuDevice) : list Output :=
  if negb (passes filter group.1) then []
  else if String.eqb group.1 DISPLAY_GROUP then []
  else Println ("=== " +:+ group.1 +:+ " (" +:+ show (Z.of_nat (length group.2)) +:+ " devices) ===")
         :: (Println ∘ gpu_line <$> group.2).

Definition listed_gpu (filter : option string) (gpu : GpuDevice) : Prop :=
  gd_display_only gpu = false /\ passes filter (vendor_label (gd_vendor gpu)) = true.

Definition gpus (discovery : result GpuDiscoveryError (list GpuDevice)) (json grouped_ : bool)
    (type_filter : option string) : result GpuDiscoveryError (list Output) :=
  devices ← discovery;
  let filter_ := to_lowercase <$> type_filter in
  Ok (if json then [PrintJson (if grouped_ then groups_json (grouped devices) else devices_json devices)]
      else if grouped_ then concat (group_output filter_ <$> bt_iter (grouped devices))
      else Println ∘ gpu_line <$> filter (listed_gpu filter_) devices).
End gpus.

(** ** [nauti topology], [nauti research discover] *)

Section facts.
Context (nodes_json : list NumaNodeReport -> Json) (report_json : Memory.ResearchMemoryReport -> Json)
  (debug_option : option string -> string).

Definition pci_line (pci : PciDeviceReport) : string :=
  "  - " +:+ pci_name pci +:+ " (vendor=" +:+ debug_option (pci_vendor_id pci)
    +:+ " device=" +:+ debug_option (pci_device_id pci) +:+ ")".

Definition numa_lines (node : NumaNodeReport) : list Output :=
  Println (tabbed [show (nn_os_index node); show (nn_local_memory_bytes node); show (nn_logical_cpus node);
                   show (Z.of_nat (length (nn_pci_devices node)))])
    :: (Println ∘ pci_line <$> nn_pci_devices node).

Definition topology (loaded : result string (list NumaNodeReport)) (json : bool) : result string (list Output) :=
  nodes ← loaded;
  Ok (if json then [PrintJson (nodes_json nodes)]
      else Println (tabbed ["NODE"; "MEMORY_BYTES"; "LOGICAL_CPUS"; "PCI_DEVICES"]) :: concat (numa_lines <$> nodes)).

Definition research_discover (report : Memory.ResearchMemoryReport) (json : bool) : list Output :=
  if json then [PrintJson (report_json report)]
  else [Println ("cxl_bus=" +:+ show_bool (Memory.rm_cxl_bus report)
          +:+ " dax=" +:+ show (Z.of_nat (length (Memory.rm_dax_nodes report)))
          +:+ " famfs=" +:+ show (Z.of_nat (length (Memory.rm_famfs_mounts report)))
          +:+ " drust=" +:+ show_bool (Memory.rm_drust_present report)
          +:+ " claimed=" +:+ show_bool (Memory.rm_claimed_as_live_ram report))].
End facts.

(** ** [nauti wgpu] *)

Definition f32_of_Z (z : Z) : Wgpu.f32 := binary_normalize 24 128 z 0 false.
Definition f32_mul : Wgpu.f32 -> Wgpu.f32 -> Wgpu.f32 := SFmul 24 128.
Definition f32_half : Wgpu.f32 := S754_finite false 8388608 (-24).

Definition sample_job (n : nat) : Wgpu.WgpuJob :=
  {| Wgpu.wj_job_id := "m10-add"; Wgpu.wj_op := "add_f32"; Wgpu.wj_n := Z.of_nat n;
     Wgpu.wj_a := (fun i => f32_of_Z (Z.of_nat i)) <$> seq 0 n;
     Wgpu.wj_b := (fun i => f32_mul (f32_of_Z (Z.of_nat i)) f32_half) <$> seq 0 n |}.

Section wgpu.
Context (parse_socket : string -> result string Wgpu.SocketAddr)
  (submit : Wgpu.SocketAddr -> Wgpu.WgpuJob -> result string Wgpu.WgpuResult) (result_json : Wgpu.WgpuResult -> Json)
  (serve : Wgpu.SocketAddr -> result string ()).

Definition parse_bind (raw : string) : result string Wgpu.SocketAddr :=
  map_err (fun e => "not a socket addr: " +:+ e) (parse_socket raw).

Definition wgpu_serve (bind : string) : result string () := addr ← parse_bind bind; serve addr.

(** What is printed, and how the command exits. *)
Definition wgpu_run (connect : string) (n : nat) : list Output * result string () :=
  match (addr ← parse_bind connect; submit addr (sample_job n)) with
  | Err e => ([], Err e)
  | Ok res =>
      ([PrintJson (result_json res)],
       if String.eqb (Wgpu.wr_status res) "ok" then Ok tt
       else Err ("wgpu-remote job status " +:+ Wgpu.wr_status res))
  end.
End wgpu.

(** ** What the listings show *)

Lemma insert_all_values rs (m : gmap string Resource) :
  NoDup (r_id <$> rs) -> (forall r, r ∈ rs -> m !! r_id r = None) ->
  (map_to_list (insert_all rs m)).*2 ≡ₚ app rs (map_to_list m).*2.
Proof.
  revert m. induction rs as [|r rs IH]; intros m Hnd Hnew; [done|].
  apply NoDup_cons in Hnd as [Hni Hnd]. cbn [insert_all foldl]. fold (insert_all rs (<[r_id r := r]> m)).
  rewrite IH; [|done|].
  - rewrite map_to_list_insert by (apply Hnew; by left). simpl. by rewrite Permutation_middle.
  - intros r' Hr'. rewrite lookup_insert_ne; [apply Hnew; by right|].
    intros Heq. apply Hni. rewrite Heq. by apply list_elem_of_fmap_2.
Qed.

Lemma register_all_eq {W} rs (fab : Fabric W) : register_all rs fab = (Done tt, with_resources (insert_all rs) fab).
Proof.
  revert fab. induction rs as [|r rs IH]; intros fab; [by destruct fab|].
  etrans; [exact (IH (with_resources (insert (r_id r) r) fab))|]. by destruct fab.
Qed.

(** [nauti inventory] lists the whole discovery, and its [--refresh] compares
    with nothing. When the discovered resources have their own identifiers the
    listing is, up to order, exactly the discovery - nothing merged or lost - in
    the order of the identifiers. With [--refresh] the registry is as fresh as
    the process: every identifier is reported as added, and nothing is ever
    removed or blocked. Neither form panics. *)
Theorem inventory_listing {W} resources_json report_json debug_state (w : W) discovered json :
  NoDup (r_id <$> discovered) ->
  (exists listed, listed ≡ₚ discovered /\ StronglySorted String.le (r_id <$> listed)
     /\ inventory resources_json report_json debug_state w discovered json false
        = Done (if json then [PrintJson (resources_json listed)]
                else Println (tabbed ["ID"; "KIND"; "CAPACITY"; "UNIT"; "NODE"; "STATE"])
                       :: (Println ∘ resource_line debug_state <$> listed)))
  /\ inventory resources_json report_json debug_state w discovered json true
     = Done (refresh_output report_json json
               {| rr_added := bt_elements (ids_of discovered); rr_removed := []; rr_blocked_by_lease := [] |}).
Proof.
  intros Hnd. split.
  - set (fab := with_resources (insert_all discovered) (default w)).
    exists (resources_sorted fab). split_and!.
    + unfold resources_sorted. rewrite merge_sort_Permutation. unfold fab. simpl.
      rewrite insert_all_values by (done || (intros; apply lookup_empty)). by rewrite map_to_list_empty, app_nil_r.
    + apply resources_sorted_order.
    + unfold inventory, discover_local. unfold mbind, st_bind, mret, st_ret. rewrite register_all_eq. done.
  - unfold inventory. rewrite refresh_local_eq by done. simpl.
    rewrite dom_empty_L, difference_empty_L.
    assert (bt_elements (∅ ∖ ids_of discovered) = []) as -> by (apply bt_elements_empty; set_solver). done.
Qed.

Lemma grouped_lookup devices k :
  option.default [] (grouped devices !! k)
  = filter (fun d => (if gd_display_only d then DISPLAY_GROUP else vendor_label (gd_vendor d)) = k) devices.
Proof.
  induction devices as [|d devices IH] using rev_ind; [done|].
  unfold grouped. rewrite foldl_snoc, filter_app, filter_cons, filter_nil. fold (grouped devices). rewrite <-IH.
  destruct (decide ((if gd_display_only d then DISPLAY_GROUP else vendor_label (gd_vendor d)) = k)) as [<-|Hne].
  - by rewrite lookup_insert_eq.
  - rewrite lookup_insert_ne by done. by rewrite app_nil_r.
Qed.

(** [nauti gpus] in text prints, flat, one line per GPU that is not a
    display controller and whose vendor matches the filter, in the order of
    discovery; grouped, it prints for a vendor name exactly the devices of that
    vendor, and the display controllers in no case. In JSON the filter is
    ignored and display controllers are included. *)
Theorem gpus_listing to_lowercase devices_json groups_json devices grouped_ type_filter :
  let run := gpus to_lowercase devices_json groups_json (Ok devices) in
  run false false type_filter
    = Ok (Println ∘ gpu_line <$> filter (fun d => gd_display_only d = false
            /\ passes to_lowercase (to_lowercase <$> type_filter) (vendor_label (gd_vendor d)) = true) devices)
  /\ run true grouped_ type_filter
     = Ok [PrintJson (if grouped_ then groups_json (grouped devices) else devices_json devices)]
  /\ (forall vendor members, (vendor, members) ∈ bt_iter (grouped devices) -> vendor <> DISPLAY_GROUP ->
        members = filter (fun d => (if gd_display_only d then DISPLAY_GROUP else vendor_label (gd_vendor d)) = vendor)
                    devices)
  /\ (forall filter members, group_output to_lowercase filter (DISPLAY_GROUP, members) = []).
Proof.
  intros run. split_and!; [done|done|..].
  - intros vendor members Hin _. apply elem_of_bt_iter in Hin. rewrite <-grouped_lookup. by rewrite Hin.
  - intros f members. unfold group_output. by destruct (passes to_lowercase f _).
Qed.

(** A remote job that exits successfully was computed correctly. *)
Lemma wgpu_run_ok parse_socket submit result_json connect n :
  is_ok (wgpu_run parse_socket submit result_json connect n).2 = true ->
  (forall addr job res, submit addr job = Ok res -> Wgpu.wr_status res = "ok" ->
     Wgpu.correctness_ok job (Wgpu.wr_out res) = true) ->
  exists addr res, parse_socket connect = Ok addr /\ submit addr (sample_job n) = Ok res
    /\ Wgpu.correctness_ok (sample_job n) (Wgpu.wr_out res) = true.
Proof.
  unfold wgpu_run, parse_bind. intros Hok Hsub. destruct (parse_socket connect) as [addr|]; [|done]. simpl in Hok.
  destruct (submit addr (sample_job n)) as [res|] eqn:Hres; [|done]. simpl in Hok.
  destruct (String.eqb_spec (Wgpu.wr_status res) "ok"); [|done]. exists addr, res. eauto.
Qed.

Lemma inventory_listing_witness :
  NoDup (r_id <$> [local_memory "n" 4096; local_cpu "n" (Some 8)])
  /\ inventory (fun _ => JNull) (fun _ => JNull) (fun _ => "") () [local_memory "n" 4096; local_cpu "n" (Some 8)]
       false true
     = Done [Println "REPORT: added=2 removed=0 blocked_by_lease=0"; Println "ADDED:";
             Println "  + local.cpu.logical"; Println "  + local.memory"].
Proof.
  assert (NoDup (r_id <$> [local_memory "n" 4096; local_cpu "n" (Some 8)])) as Hnd
    by (apply (bool_decide_unpack _); vm_compute; exact I).
  split; [exact Hnd|].
  destruct (inventory_listing (fun _ => JNull) (fun _ => JNull) (fun _ => "") () _ false Hnd) as [_ ->].
  vm_compute. reflexivity.
Defined.
