(* ===== verification/Discovery.v ===== *)
(** * Local discovery, as an agent runs it (nauti-fabric/src/lib.rs)

    [discover_local] and [refresh_local] each assemble the list of resources of
    the machine before they touch the registry: the host inventory, the GPUs,
    and the hardware facts. The registry part of both is in [Fabric]; this file
    composes it with the parts that read the machine, so that the two lists can
    be compared. *)

From stdpp Require Import base tactics option list gmap strings fin_maps fin_map_dom.
From Stdlib Require Import Ascii String.
From S2P Require Import Prelude Str F64 Resource Fabric FabricInv FabricSync Sysfs Adapters GpuDiscover Hwinfo Inventory Listing.

#[local] Open Scope Z_scope.

(** What one reading of the machine gives: its files, what sysinfo reports, the
    vendor telemetry and the output of [ip]. *)
Record Machine : Type := mkMachine {
  mc_fs : Fs;
  mc_is_dir : string -> bool;
  mc_drust_home : bool;
  mc_parallelism : option Z;
  mc_total_memory : Z;
  mc_disks : list Disk;
  mc_networks : list (string * string);
  mc_nvml : gmap string NvmlInfo;
  mc_rocm : gmap string Rocm.AmdTelemetry;
  mc_ip_output : option string;
}.

(** The environment, one variable at a time. *)
Definition node_for_resources (env : string -> option string) : string :=
  match env "NAUTI_NODE" with
  | Some node => node
  | None => option.default "local" (env "HOSTNAME")
  end.

Definition inventory_of (m : Machine) (node : string) : list Resource :=
  host_inventory node (mc_parallelism m) (mc_total_memory m) (mc_disks m)
    (Memory.discover (mc_fs m) (mc_is_dir m) (mc_drust_home m)) (mc_networks m).

(** [if let Ok(discovery)]: a failed walk adds no GPU. *)
Definition gpus_of (m : Machine) (node : string) : list Resource :=
  match GpuDiscover.discover (mc_fs m) (mc_nvml m) (mc_rocm m) with
  | Ok devices => as_resources node devices
  | Err _ => []
  end.

Section machine.
Context (parse_f64 : string -> option f64).

(** What both methods register: [gpu_node] is the node the GPUs are tagged with. *)
Definition resources_of (m : Machine) (node gpu_node : string) : list Resource :=
  discover_hardware parse_f64 (mc_fs m) (mc_ip_output m) node
    (app (inventory_of m node) (gpus_of m gpu_node)).

Definition discover_on {W} (env : string -> option string) (m : Machine) (node : string) :
    ST (Fabric W) (list Resource) :=
  discover_local (resources_of m node (node_for_resources env)).

Definition refresh_on {W} (m : Machine) (node : string) : ST (Fabric W) RefreshReport :=
  refresh_local (resources_of m node node).

(** ** The two lists have the same identifiers *)

(** Enrichment leaves what identifies a resource alone. *)
Definition identity (r : Resource) : string * ResourceKind * string := (r_id r, r_kind r, r_node r).

Lemma enrich_network_identity fs sys rs ipv4 : identity <$> enrich_network fs sys rs ipv4 = identity <$> rs.
Proof.
  unfold enrich_network. rewrite <-list_fmap_compose. apply list_fmap_ext. intros i r _. simpl.
  case_bool_decide; [|done]. destruct (r_attributes r !! "interface"); [|done].
  unfold enrich_interface. by destruct (negb _).
Qed.

Lemma enrich_gpu_numa_identity fs sys rs : identity <$> enrich_gpu_numa fs sys rs = identity <$> rs.
Proof.
  unfold enrich_gpu_numa. rewrite <-list_fmap_compose. apply list_fmap_ext. intros i r _. simpl.
  case_bool_decide; [|done]. by destruct (r_attributes r !! "gpu.pci_bdf").
Qed.

(** The hardware facts of the machine, which come after the enriched list. *)
Definition facts_of (m : Machine) (node : string) : list Resource :=
  app (numa_resources (mc_fs m) "/sys" node) (rdma_resources parse_f64 (mc_fs m) "/sys" node).

Lemma resources_of_identity m node n :
  identity <$> resources_of m node n =
    identity <$> app (inventory_of m node) (app (gpus_of m n) (facts_of m node)).
Proof.
  unfold resources_of, discover_hardware, facts_of.
  by rewrite !fmap_app, enrich_gpu_numa_identity, enrich_network_identity, fmap_app, <-!app_assoc.
Qed.

Lemma ids_of_identity (rs rs' : list Resource) :
  identity <$> rs = identity <$> rs' -> r_id <$> rs = r_id <$> rs'.
Proof.
  intros H. assert (forall l : list Resource, r_id <$> l = (fun x : string * ResourceKind * string => x.1.1) <$> (identity <$> l)) as Hid.
  { intros l. by rewrite <-list_fmap_compose. }
  by rewrite !Hid, H.
Qed.

Lemma gpus_of_id m n n' : r_id <$> gpus_of m n = r_id <$> gpus_of m n'.
Proof.
  unfold gpus_of. destruct (GpuDiscover.discover _ _ _) as [devices|]; [|done].
  unfold as_resources. by rewrite <-!list_fmap_compose.
Qed.

Lemma resources_of_ids m node n n' : r_id <$> resources_of m node n = r_id <$> resources_of m node n'.
Proof.
  rewrite !(ids_of_identity _ _ (resources_of_identity _ _ _)), !fmap_app. by rewrite (gpus_of_id m n n').
Qed.

(** A discovered GPU keeps the node it was tagged with. *)
Lemma discovered_gpu_node m node n r g :
  NoDup (r_id <$> resources_of m node n) -> r ∈ resources_of m node n -> g ∈ gpus_of m n ->
  r_id r = r_id g -> r_node r = n.
Proof.
  intros Hnd Hr Hg Hid.
  assert (identity g ∈ identity <$> resources_of m node n) as Hin.
  { rewrite resources_of_identity. apply list_elem_of_fmap_2. set_solver. }
  apply list_elem_of_fmap in Hin as (r' & Heq & Hr'). injection Heq as Hid' _ Hnode.
  assert (r_node g = n) as <-.
  { unfold gpus_of in Hg. destruct (GpuDiscover.discover _ _ _); [|by apply elem_of_nil in Hg].
    by apply list_elem_of_fmap in Hg as (? & -> & _). }
  assert (r = r') as ->; [|done].
  apply list_elem_of_lookup in Hr as (i & Hi), Hr' as (j & Hj).
  assert (i = j) as ->; [|by simplify_eq].
  eapply NoDup_lookup; [exact Hnd| |]; rewrite list_lookup_fmap; [by rewrite Hi|].
  rewrite Hj. simpl. by rewrite <-Hid', <-Hid.
Qed.

(** Discovery and refresh agree on what is on the machine, and disagree on
    whose it is. After [discover_local] a [refresh_local] of the same machine
    under the same node reports nothing and leaves the registry exactly as it
    is, whatever the environment: the two assemble the same identifiers. But
    every GPU discovery registered belongs to the node the environment names and
    not to the caller's, so while the two names differ no query for the caller's
    node returns one, and the refresh, which would tag them with the caller's
    node, never corrects it. *)
Theorem refresh_after_discovery {W} env m node (fab : Fabric W) :
  leases_poisoned fab = false ->
  (forall k, is_Some (resources fab !! k) -> k ∈ r_id <$> resources_of m node node) ->
  NoDup (r_id <$> resources_of m node node) ->
  exists rs fab', discover_on env m node fab = (Done rs, fab')
    /\ refresh_on m node fab' =
         (Done {| rr_added := []; rr_removed := []; rr_blocked_by_lease := [] |}, fab')
    /\ (forall g, g ∈ gpus_of m node -> exists r, resources fab' !! r_id g = Some r
          /\ r_node r = node_for_resources env
          /\ forall rq, rq_node rq = Some node -> matches rq r = true -> node_for_resources env = node).
Proof.
  intros Hp Hsub Hnd. set (rs := resources_of m node (node_for_resources env)).
  assert (r_id <$> rs = r_id <$> resources_of m node node) as Hids by apply resources_of_ids.
  exists rs, (with_resources (insert_all rs) fab).
  split; [|split].
  - unfold discover_on, discover_local. st_unfold. by rewrite register_all_eq.
  - set (fab' := with_resources (insert_all rs) fab).
    assert (dom (resources fab') = ids_of (resources_of m node node)) as Hdom.
    { apply set_eq. intros k. unfold ids_of. rewrite elem_of_dom, elem_of_list_to_set, <-Hids.
      destruct (insert_all_lookup rs (resources fab) k) as [H1 H2].
      change (resources fab') with (insert_all rs (resources fab)).
      destruct (decide (k ∈ r_id <$> rs)) as [Hk|Hk].
      - destruct (H2 Hk) as (r & Hr & _). rewrite Hr. by split.
      - rewrite (H1 Hk). split; [|done]. intros Hs%Hsub. by rewrite Hids in Hk. }
    unfold refresh_on. rewrite refresh_local_eq by done. rewrite Hdom, difference_diag_L.
    rewrite (bt_elements_empty ∅) by done. rewrite purge_nil. f_equal.
    rewrite filter_false by (intros r _ H; by apply elem_of_nil in H). by destruct fab'.
  - intros g Hg. destruct (insert_all_lookup rs (resources fab) (r_id g)) as [_ H2].
    assert (r_id g ∈ r_id <$> gpus_of m (node_for_resources env)) as Hgi.
    { rewrite (gpus_of_id m _ node). by apply list_elem_of_fmap_2. }
    apply list_elem_of_fmap in Hgi as (g' & Heq & Hg').
    destruct H2 as (r & Hr & Hin & Hid).
    { rewrite Heq. unfold rs. rewrite (ids_of_identity _ _ (resources_of_identity _ _ _)).
      apply list_elem_of_fmap_2. set_solver. }
    assert (r_node r = node_for_resources env) as Hn.
    { eapply (discovered_gpu_node m node); [by fold rs; rewrite Hids|done|exact Hg'|by rewrite Hid]. }
    exists r. split_and!; [done|done|].
    intros rq Hrq Hm%matches_satisfies. destruct Hm as (_ & _ & _ & Hnode & _).
    rewrite <-Hn. by apply Hnode.
Qed.

End machine.

(** ** A concrete machine *)

(** The GPUs of [GpuDiscover.demo_fs], on a machine whose environment names a
    node that is not the one the agent was given. *)
Definition demo_machine : Machine :=
  {| mc_fs := demo_fs; mc_is_dir := fun _ => false; mc_drust_home := false;
     mc_parallelism := Some 8; mc_total_memory := 2 ^ 34; mc_disks := []; mc_networks := [];
     mc_nvml := ∅; mc_rocm := ∅; mc_ip_output := None |}.
Definition demo_env (name : string) : option string :=
  if String.eqb name "HOSTNAME" then Some "host.lan" else None.

Lemma refresh_after_discovery_witness :
  (r_id <$> gpus_of demo_machine "n") = ["local.gpu.0000_02_00_0"; "local.gpu.0000_00_00_0"]
  /\ exists rs fab', discover_on (fun _ => None) demo_env demo_machine "n" (default tt) = (Done rs, fab')
    /\ (refresh_on (fun _ => None) demo_machine "n" fab').2 = fab'
    /\ (forall g, g ∈ gpus_of demo_machine "n" -> exists r, resources fab' !! r_id g = Some r
          /\ r_node r = "host.lan" /\ forall rq, rq_node rq = Some "n" -> matches rq r = false).
Proof.
  split; [vm_compute; reflexivity|].
  destruct (refresh_after_discovery (fun _ => None) demo_env demo_machine "n" (default tt))
    as (rs & fab' & Hd & Hr & Hg).
  - reflexivity.
  - intros k [r Hk]. vm_compute in Hk. discriminate.
  - apply (bool_decide_eq_true_1 (NoDup _)). vm_compute. reflexivity.
  - exists rs, fab'. split; [exact Hd|]. split; [by rewrite Hr|].
    intros g Hgin. destruct (Hg g Hgin) as (r & Hl & Hn & Hq). exists r. split; [exact Hl|].
    split; [exact Hn|]. intros rq Hrq. destruct (matches rq r) eqn:Hm; [|reflexivity].
    discriminate (Hq rq Hrq Hm).
Defined.
