(* ===== verification/Command.v ===== *)
(** * The command tree (nauti-fabric/src/bin/nauti.rs, [Cli], [main])

    The subcommands with their arguments, what the attributes of the source make
    of the options given - which are required, which have a default, how a
    number is read - and the dispatch to the handlers. clap's own work, from the
    words of the command line to the options given, is an argument. *)

From stdpp Require Import base tactics option list gmap strings.
From Stdlib Require Import Ascii String.
From S2P Require Import Prelude Str Json Resource Fabric F64 Plan PlanProps RpcAuth Rpc RpcProps Adapters Store VhostRng Entropy Hypervisor Wgpu WgpuKernel Cli Session Planes.

#[local] Open Scope Z_scope.

(** ** The subcommands *)

Inductive PlanAction : Type :=
  | PlanAsk (role : string) (head node : option string) (timeout_secs : Z) (json : bool)
  | PlanOffline (role view : string) (node : option string) (roles : string) (matrix : option string)
      (planner : string) (json : bool).

Inductive WgpuAction : Type :=
  | WgpuServe (bind : string)
  | WgpuRun (connect : string) (n : Z).

Inductive ResearchAction : Type :=
  | ResearchDiscover (json : bool).

Inductive VhostAction : Type :=
  | VhostServe (socket source : string) (period_ms max_bytes : Z)
  | VhostEntropyServe (listen : string)
  | VhostPump (connect out : string) (chunk : Z).

Inductive VmAction : Type :=
  | VmCapability
  | VmLaunch (args : VmLaunchArgs)
  | VmReconcile.

Inductive Command : Type :=
  | CmdTools (json : bool)
  | CmdAdapters (json : bool)
  | CmdInventory (json : bool) (node : string) (refresh : bool)
  | CmdDemo
  | CmdAgentServe (node : string)
  | CmdAgentConnect (addr : string)
  | CmdFabric (addr : string) (action : FabricAction)
  | CmdTopology (json : bool)
  | CmdGpus (json grouped : bool) (type_ : option string)
  | CmdVm (action : VmAction)
  | CmdVhost (action : VhostAction)
  | CmdWgpu (action : WgpuAction)
  | CmdResearch (action : ResearchAction)
  | CmdFleet (json : bool) (samples : Z) (paths : bool) (out : option string)
  | CmdPlan (action : PlanAction).

(** The features of the build that gate a subcommand. *)
Record Features : Type := mkFeatures { ft_numa : bool; ft_cloud_hypervisor : bool; ft_vhost_user : bool }.

(** ** From options to a subcommand *)

(** The values of each long option, the flags, and the positional words. *)
Record Given : Type := mkGiven {
  gv_values : string -> list string;
  gv_flag : string -> bool;
  gv_positional : list string;
}.

Section parse.
Context (g : Given).

(** An option that takes one value is refused when given twice. *)
Definition optional (name : string) : option (option string) :=
  match gv_values g name with [] => Some None | [v] => Some (Some v) | _ => None end.
Definition required (name : string) : option string := optional name ≫= id.
Definition or_else_text (name d : string) : option string := option.default d <$> optional name.

(** A path may not be empty. *)
Definition optional_path (name : string) : option (option string) :=
  v ← optional name;
  match v with Some s => if String.eqb s "" then None else Some (Some s) | None => Some None end.
Definition required_path (name : string) : option string := optional_path name ≫= id.
Definition or_else_path (name d : string) : option string := option.default d <$> optional_path name.

Definition optional_number (max : Z) (name : string) : option (option Z) :=
  v ← optional name;
  match v with None => Some None | Some s => Some <$> parse_unsigned dec_digit 10 max s end.
Definition or_else_number (max : Z) (name : string) (d : Z) : option Z := option.default d <$> optional_number max name.

Definition positional : option string := match gv_positional g with [v] => Some v | _ => None end.

Definition parse_fabric (verb : string) : option Command :=
  addr ← positional;
  action ← (if String.eqb verb "ping" then Some FPing
            else if String.eqb verb "inventory" then Some FInventory
            else if String.eqb verb "find" then
              kind ← optional "kind"; min_capacity ← optional_number u64_max "min-capacity"; node ← optional "node";
              Some (FFind kind min_capacity node (gv_values g "attr") (gv_flag g "exclusive"))
            else if String.eqb verb "lease" then
              resource_id ← required "resource-id"; owner ← or_else_text "owner" "mcp-tools";
              ttl_secs ← or_else_number u64_max "ttl-secs" 300;
              Some (FLease resource_id owner ttl_secs)
            else if String.eqb verb "attach" then
              adapter ← or_else_text "adapter" "fabric-store"; lease_json ← required "lease-json";
              Some (FAttach adapter lease_json)
            else if String.eqb verb "release" then
              lease_json ← required "lease-json"; Some (FRelease lease_json)
            else None);
  Some (CmdFabric addr action).

Definition parse_plan (verb : string) : option Command :=
  role ← required "role"; node ← optional "node";
  CmdPlan <$> (if String.eqb verb "ask" then
                 head ← optional "head"; timeout_secs ← or_else_number u64_max "timeout-secs" 10;
                 Some (PlanAsk role head node timeout_secs (gv_flag g "json"))
               else if String.eqb verb "offline" then
                 view ← required "view"; roles ← required "roles"; matrix ← optional "matrix";
                 planner ← or_else_text "planner" "monolithic";
                 Some (PlanOffline role view node roles matrix planner (gv_flag g "json"))
               else None).

Definition parse_wgpu (verb : string) : option Command :=
  CmdWgpu <$> (if String.eqb verb "serve" then WgpuServe <$> required "bind"
               else if String.eqb verb "run" then
                 connect ← required "connect"; n ← or_else_number u64_max "n" Wgpu.WORKLOAD_N;
                 Some (WgpuRun connect n)
               else None).

Definition parse_vhost (verb : string) : option Command :=
  CmdVhost <$> (if String.eqb verb "serve" then
                  socket ← required_path "socket"; source ← or_else_path "source" "/dev/urandom";
                  period_ms ← or_else_number (2 ^ 128 - 1) "period-ms" MAX_PERIOD_MS;
                  max_bytes ← or_else_number u64_max "max-bytes" u64_max;
                  Some (VhostServe socket source period_ms max_bytes)
                else if String.eqb verb "entropy-serve" then VhostEntropyServe <$> required "listen"
                else if String.eqb verb "pump" then
                  connect ← required "connect"; out ← required_path "out";
                  chunk ← or_else_number u32_max "chunk" DEFAULT_CHUNK;
                  Some (VhostPump connect out chunk)
                else None).

Definition parse_launch : option VmLaunchArgs :=
  resource_id ← required "resource-id"; binary ← required_path "binary"; api_socket ← required_path "api-socket";
  kernel ← required_path "kernel"; rootfs ← required_path "rootfs"; vm_name ← optional "vm-name";
  vcpus ← or_else_text "vcpus" "1"; memory_mib ← or_else_text "memory-mib" "512";
  virtio_blk ← optional_path "virtio-blk"; net ← optional "net"; user_device ← optional_path "user-device";
  fs ← optional "fs"; vsock ← optional "vsock"; cmdline ← optional "cmdline"; initramfs ← optional_path "initramfs";
  rng_src ← optional "rng-src"; ttl_secs ← or_else_number u64_max "ttl-secs" 30;
  Some {| va_resource_id := resource_id; va_binary := binary; va_api_socket := api_socket; va_kernel := kernel;
          va_rootfs := rootfs; va_vm_name := vm_name; va_vcpus := vcpus; va_memory_mib := memory_mib;
          va_virtio_blk := virtio_blk; va_net := net; va_user_device := user_device; va_fs := fs; va_vsock := vsock;
          va_watchdog := gv_flag g "watchdog"; va_cmdline := cmdline; va_initramfs := initramfs;
          va_rng_src := rng_src; va_shared := gv_flag g "shared"; va_ttl_secs := ttl_secs |}.

Definition parse_vm (verb : string) : option Command :=
  CmdVm <$> (if String.eqb verb "capability" then Some VmCapability
             else if String.eqb verb "launch" then VmLaunch <$> parse_launch
             else if String.eqb verb "reconcile" then Some VmReconcile
             else None).

(** A subcommand without subcommands of its own. *)
Definition parse_plain (ft : Features) (name : string) : option Command :=
  let json := gv_flag g "json" in
  if String.eqb name "tools" then Some (CmdTools json)
  else if String.eqb name "adapters" then Some (CmdAdapters json)
  else if String.eqb name "inventory" then
    node ← or_else_text "node" "local"; Some (CmdInventory json node (gv_flag g "refresh"))
  else if String.eqb name "demo" then Some CmdDemo
  else if String.eqb name "agent-serve" then CmdAgentServe <$> or_else_text "node" "local"
  else if String.eqb name "agent-connect" then CmdAgentConnect <$> positional
  else if String.eqb name "topology" then if ft_numa ft then Some (CmdTopology json) else None
  else if String.eqb name "gpus" then CmdGpus json (gv_flag g "grouped") <$> optional "type"
  else if String.eqb name "fleet" then
    samples ← or_else_number u32_max "samples" 10; out ← optional "out";
    Some (CmdFleet json samples (gv_flag g "paths") out)
  else None.

(** [Cli::parse]: the names of the subcommand and the options of the last. *)
Definition parse_command (ft : Features) (path : list string) : option Command :=
  match path with
  | [name] => parse_plain ft name
  | [name; verb] =>
      if String.eqb name "fabric" then parse_fabric verb
      else if String.eqb name "plan" then parse_plan verb
      else if String.eqb name "wgpu" then parse_wgpu verb
      else if String.eqb name "research" then
        if String.eqb verb "discover" then Some (CmdResearch (ResearchDiscover (gv_flag g "json"))) else None
      else if String.eqb name "vhost" then if ft_vhost_user ft then parse_vhost verb else None
      else if String.eqb name "vm" then if ft_cloud_hypervisor ft then parse_vm verb else None
      else None
  | _ => None
  end.
End parse.

(** ** The dispatch *)

(** The handlers of [main]. *)
Record Handlers (R : Type) : Type := mkHandlers {
  h_tools : bool -> R;
  h_adapters : bool -> R;
  h_inventory : string -> bool -> bool -> R;
  h_demo : R;
  h_fleet : bool -> Z -> bool -> option string -> R;
  h_plan_ask : string -> option string -> option string -> Z -> bool -> R;
  h_plan_offline : string -> string -> option string -> string -> option string -> string -> bool -> R;
  h_agent_serve : string -> R;
  h_agent_connect : string -> R;
  h_fabric_action : string -> FabricAction -> R;
  h_topology : bool -> R;
  h_gpus : bool -> bool -> option string -> R;
  h_vm_capability : R;
  h_vm_launch : VmLaunchArgs -> R;
  h_vm_reconcile : R;
  h_vhost_serve : string -> string -> Z -> Z -> R;
  h_vhost_entropy_serve : string -> R;
  h_vhost_pump : string -> string -> Z -> R;
  h_wgpu_serve : string -> R;
  h_wgpu_run : string -> Z -> R;
  h_research_discover : bool -> R;
}.
Arguments h_tools {R}. Arguments h_adapters {R}. Arguments h_inventory {R}. Arguments h_demo {R}.
Arguments h_fleet {R}. Arguments h_plan_ask {R}. Arguments h_plan_offline {R}. Arguments h_agent_serve {R}.
Arguments h_agent_connect {R}. Arguments h_fabric_action {R}. Arguments h_topology {R}. Arguments h_gpus {R}.
Arguments h_vm_capability {R}. Arguments h_vm_launch {R}. Arguments h_vm_reconcile {R}.
Arguments h_vhost_serve {R}. Arguments h_vhost_entropy_serve {R}. Arguments h_vhost_pump {R}.
Arguments h_wgpu_serve {R}. Arguments h_wgpu_run {R}. Arguments h_research_discover {R}.

Definition plan_action {R} (h : Handlers R) (action : PlanAction) : R :=
  match action with
  | PlanAsk role head node timeout_secs json => h_plan_ask h role head node timeout_secs json
  | PlanOffline role view node roles matrix planner json =>
      h_plan_offline h role view node roles matrix planner json
  end.

Definition main {R} (h : Handlers R) (command : Command) : R :=
  match command with
  | CmdTools json => h_tools h json
  | CmdAdapters json => h_adapters h json
  | CmdInventory json node refresh => h_inventory h node json refresh
  | CmdDemo => h_demo h
  | CmdFleet json samples paths out => h_fleet h json samples paths out
  | CmdPlan action => plan_action h action
  | CmdAgentServe node => h_agent_serve h node
  | CmdAgentConnect addr => h_agent_connect h addr
  | CmdFabric addr action => h_fabric_action h addr action
  | CmdTopology json => h_topology h json
  | CmdGpus json grouped type_ => h_gpus h json grouped type_
  | CmdVm VmCapability => h_vm_capability h
  | CmdVm (VmLaunch args) => h_vm_launch h args
  | CmdVm VmReconcile => h_vm_reconcile h
  | CmdVhost (VhostServe socket source period_ms max_bytes) => h_vhost_serve h socket source period_ms max_bytes
  | CmdVhost (VhostEntropyServe listen) => h_vhost_entropy_serve h listen
  | CmdVhost (VhostPump connect out chunk) => h_vhost_pump h connect out chunk
  | CmdWgpu (WgpuServe bind) => h_wgpu_serve h bind
  | CmdWgpu (WgpuRun connect n) => h_wgpu_run h connect n
  | CmdResearch (ResearchDiscover json) => h_research_discover h json
  end.

(** ** Handlers that only pass on or print *)

(** [vhost_serve]: the configuration it serves. *)
Definition vhost_config (socket source : string) (period_ms max_bytes : Z) : RngConfig :=
  {| rc_socket_path := socket; rc_source_path := source; rc_period_ms := period_ms; rc_max_bytes := max_bytes |}.
Definition vhost_serve (serve_rng : RngConfig -> result RngError ()) (socket source : string)
    (period_ms max_bytes : Z) : list Output * result RngError () :=
  ([Println ("serving virtio-rng backend on " +:+ socket);
    Println ("attach with: nauti vm launch --user-device " +:+ socket +:+ " ...")],
   serve_rng (vhost_config socket source period_ms max_bytes)).
Definition vhost_entropy_serve (entropy_serve : string -> result EntropyError ()) (listen : string) :
    list Output * result EntropyError () :=
  ([Println ("entropy server listening on " +:+ listen +:+ " (length-prefixed requests)")], entropy_serve listen).
Definition vhost_pump (pump : string -> string -> Z -> result EntropyError ()) (connect out : string) (chunk : Z) :
    list Output * result EntropyError () :=
  ([Println ("pumping entropy from " +:+ connect +:+ " into " +:+ out)], pump connect out chunk).

(** [vm_capability]: the binary of [CH_BINARY], of the path, or the default. *)
Definition ch_binary (env which : option string) : string :=
  match env with Some path => path | None => option.default "/usr/bin/cloud-hypervisor" which end.
Definition vm_capability (report_json : AdapterReport -> Json) (capability_report : string -> AdapterReport)
    (env which : option string) : list Output :=
  let report := capability_report (ch_binary env which) in
  app [PrintJson (report_json report)]
    (if ar_healthy report then []
     else [Eprintln ("warning: cloud-hypervisor adapter is unhealthy; `nauti vm launch` will fail until the binary is reachable")]).

Definition vm_reconcile : list Output :=
  [Eprintln ("nauti vm reconcile is a no-op across processes: run reconcile from the same process that launched the VM, or use `ch-remote --api-socket <sock> remove-vm <name>` directly.")].

(** ** The defaults *)

(** A subcommand of a feature the build has not is not there, and an option the
    source requires is. *)
Lemma gated_refused g ft name verb :
  (ft_vhost_user ft = false -> name = "vhost" -> parse_command g ft [name; verb] = None)
  /\ (ft_cloud_hypervisor ft = false -> name = "vm" -> parse_command g ft [name; verb] = None).
Proof. by split; intros Hft ->; simpl; rewrite Hft. Qed.

Lemma required_None g name : gv_values g name = [] -> required g name = None /\ required_path g name = None.
Proof. intros Hv. unfold required, required_path, optional_path, optional. by rewrite Hv. Qed.

Lemma launch_refused g name :
  name ∈ ["resource-id"; "binary"; "api-socket"; "kernel"; "rootfs"] -> gv_values g name = [] -> parse_launch g = None.
Proof.
  intros Hin Hv. apply required_None in Hv as [Hr Hp]. unfold parse_launch.
  repeat (apply elem_of_cons in Hin as [->|Hin];
    [rewrite ?Hr, ?Hp; simpl; by repeat (first [destruct (required g _)|destruct (required_path g _)]; simpl)|]).
  by apply not_elem_of_nil in Hin.
Qed.

Lemma default_number g max name d v :
  gv_values g name = [] -> or_else_number g max name d = Some v -> v = d.
Proof. intros Hv. unfold or_else_number, optional_number, optional. rewrite Hv. simpl. by intros [= <-]. Qed.

Lemma default_text g name d v : gv_values g name = [] -> or_else_text g name d = Some v -> v = d.
Proof. intros Hv. unfold or_else_text, optional. rewrite Hv. simpl. by intros [= <-]. Qed.

(** Every default is a value its consumer accepts: the period and the chunk pass
    their checks, the lifetime of a lease is within the default bounds of the
    time-to-live provider, the adapter is one an agent registers, the planner is
    known, the job is dispatched in 64 workgroups and the VM gets one processor
    and 512 MiB. *)
Theorem defaults_accepted g ft :
  (forall socket source period_ms max_bytes,
     parse_command g ft ["vhost"; "serve"] = Some (CmdVhost (VhostServe socket source period_ms max_bytes)) ->
     gv_values g "period-ms" = [] -> rng_validate (vhost_config socket source period_ms max_bytes) = Ok tt)
  /\ (forall connect out chunk,
     parse_command g ft ["vhost"; "pump"] = Some (CmdVhost (VhostPump connect out chunk)) ->
     gv_values g "chunk" = [] -> length_ok chunk = true)
  /\ (forall addr id owner ttl_secs show_duration ctx,
     parse_command g ft ["fabric"; "lease"] = Some (CmdFabric addr (FLease id owner ttl_secs)) ->
     gv_values g "ttl-secs" = [] ->
     authorize (default_ttl_bound show_duration) ctx (LeaseExclusive id owner ttl_secs) = Ok tt)
  /\ (forall addr adapter lease_json vfio,
     parse_command g ft ["fabric"; "attach"] = Some (CmdFabric addr (FAttach adapter lease_json)) ->
     gv_values g "adapter" = [] -> adapter ∈ plane_names vfio)
  /\ (forall role view node roles matrix planner json show_f64 show_f64_3 req snapshot catalogue,
     parse_command g ft ["plan"; "offline"]
       = Some (CmdPlan (PlanOffline role view node roles matrix planner json)) ->
     gv_values g "planner" = [] -> validate_ask req catalogue = Ok tt ->
     plan_by_kind show_f64 show_f64_3 planner req snapshot catalogue
       = head_plan show_f64 show_f64_3 req snapshot catalogue)
  /\ (forall connect n checks,
     parse_command g ft ["wgpu"; "run"] = Some (CmdWgpu (WgpuRun connect n)) ->
     gv_values g "n" = [] -> workgroups checks n = Done 64)
  /\ (forall args,
     parse_command g ft ["vm"; "launch"] = Some (CmdVm (VmLaunch args)) ->
     gv_values g "vcpus" = [] -> gv_values g "memory-mib" = [] ->
     va_vcpus args = "1" /\ va_memory_mib args = "512"
     /\ exists argv, build_argv (vm_resource args) = Ok argv).
Proof.
  split_and!; intros *; cbn [parse_command String.eqb Ascii.eqb Bool.eqb].
  - intros Hp Hv. destruct (ft_vhost_user ft); [|done]. unfold parse_vhost in Hp. simpl in Hp.
    simplify_option_eq. eapply default_number in Hv as ->; [|done]. done.
  - intros Hp Hv. destruct (ft_vhost_user ft); [|done]. unfold parse_vhost in Hp. simpl in Hp.
    simplify_option_eq. eapply default_number in Hv as ->; [|done]. done.
  - intros Hp Hv. assert (ttl_secs = 300) as ->; [|done]. unfold parse_fabric in Hp. simpl in Hp.
    clear show_duration ctx. simplify_option_eq; by eapply default_number.
  - intros Hp Hv. assert (adapter = "fabric-store") as ->; [|unfold plane_names; set_solver].
    unfold parse_fabric in Hp. simpl in Hp. simplify_option_eq; by eapply default_text.
  - intros Hp Hv Hask. assert (planner = "monolithic") as ->; [|unfold plan_by_kind; by rewrite Hask].
    clear Hask. unfold parse_plan in Hp. simpl in Hp. simplify_option_eq.
    match goal with H : PlanOffline _ _ _ _ _ _ _ = _ |- _ => injection H as -> -> -> -> -> -> _ end.
    by eapply default_text.
  - intros Hp Hv. assert (n = Wgpu.WORKLOAD_N) as ->; [|by destruct checks].
    unfold parse_wgpu in Hp. simpl in Hp. simplify_option_eq; by eapply default_number.
  - intros Hp H1 H2. destruct (ft_cloud_hypervisor ft); [|done]. unfold parse_vm, parse_launch in Hp. simpl in Hp.
    split_and!; [| |apply vm_resource_argv]; simplify_option_eq;
      [by eapply (default_text _ "vcpus")|by eapply (default_text _ "memory-mib")].
Qed.
