(* ===== verification/Testing.v ===== *)
(** * What the repository's tests use

    The [#[test]] functions of the crate are translated too, as boolean
    functions that are evaluated: they say on concrete inputs what the code is
    meant to do, and pass on the model as they pass on the code. Here are the
    assertions and unwraps ([assert!], [unwrap], [expect_err]: a panic is
    [false]), decimal [f64] literals, the two float formats the planner
    prints, and serde's reading of a field. *)

From stdpp Require Import base tactics option list gmap strings.
From Stdlib Require Import Ascii String SpecFloat.
From S2P Require Import Prelude Str F64 Json Sysfs.

#[local] Open Scope Z_scope.

(** ** Assertions *)

(** [r.unwrap()], [r.unwrap_err()] and [o.unwrap()] with what follows. *)
Definition unwrap {E A} (r : result E A) (k : A -> bool) : bool :=
  match r with Ok x => k x | Err _ => false end.
Definition unwrap_err {E A} (r : result E A) (k : E -> bool) : bool :=
  match r with Ok _ => false | Err e => k e end.
Definition unwrap_some {A} (o : option A) (k : A -> bool) : bool :=
  match o with Some x => k x | None => false end.

(** [assert_eq!]. *)
Definition assert_eq `{EqDecision A} (x y : A) : bool := bool_decide (x = y).

#[export] Instance Number_eq_dec : EqDecision Number.
Proof. solve_decision. Defined.

#[export] Instance Json_eq_dec : EqDecision Json.
Proof.
  refine (fix go x y {struct x} : Decision (x = y) :=
    let _ : EqDecision Json := @go in
    match x, y with
    | JNull, JNull => left _
    | JBool a, JBool b => cast_if (decide (a = b))
    | JNumber a, JNumber b => cast_if (decide (a = b))
    | JString a, JString b => cast_if (decide (a = b))
    | JArray a, JArray b => cast_if (decide (a = b))
    | JObject a, JObject b => cast_if (decide (a = b))
    | _, _ => right _
    end); abstract congruence.
Defined.

(** The names of the tests that do not pass. *)
Definition failing (tests : list (string * bool)) : list string :=
  (filter (fun t => t.2 = false) tests).*1.

Lemma failing_nil tests : failing tests = [] <-> Forall (fun t => t.2 = true) tests.
Proof.
  unfold failing. induction tests as [|[name b] tests IH].
  { split; constructor. }
  rewrite Forall_cons, filter_cons. simpl. destruct b; simpl; [|by split; [done|intros []]].
  rewrite IH. naive_solver.
Qed.

(** ** Float literals and formats *)

(** The literal [m / 10^digits]: the quotient of two exact values, rounded once. *)
Definition lit (m : Z) (digits : Z) : f64 := SFdiv prec emax (f64_of_Z m) (f64_of_Z (10 ^ digits)).

(** [p / q] rounded to an integer, ties to even, for [0 <= p], [0 < q]. *)
Definition round_half_even (p q : Z) : Z :=
  let n := p / q in
  match 2 * (p mod q) ?= q with
  | Lt => n
  | Gt => n + 1
  | Eq => if Z.even n then n else n + 1
  end.

Fixpoint zeros (n : nat) : string :=
  match n with O => EmptyString | S n => String "0"%char (zeros n) end.

(** [n / 10^digits] in decimal, with exactly that many digits after the point. *)
Definition show_fixed (n : Z) (digits : nat) : string :=
  match digits with
  | O => show n
  | _ =>
      let scale := 10 ^ Z.of_nat digits in
      let frac := show (n mod scale) in
      show (n / scale) +:+ "." +:+ zeros (digits - String.length frac) +:+ frac
  end.

(** The finite value as a sign and a quotient of naturals. *)
Definition as_quotient (f : f64) : option (bool * (Z * Z)) :=
  match f with
  | S754_zero s => Some (s, (0, 1))
  | S754_finite s m e =>
      Some (s, if bool_decide (0 <= e) then (Zpos m * 2 ^ e, 1) else (Zpos m, 2 ^ (- e)))
  | _ => None
  end.

Definition show_sign (s : bool) : string := if s then "-" else EmptyString.
Definition show_special (f : f64) : string :=
  match f with
  | S754_infinity s => show_sign s +:+ "inf"
  | _ => "NaN"
  end.

(** [{:.3}]. *)
Definition show_f64_3 (f : f64) : string :=
  match as_quotient f with
  | Some (s, (p, q)) => show_sign s +:+ show_fixed (round_half_even (p * 10 ^ 3) q) 3
  | None => show_special f
  end.

(** [{}]: the fewest digits after the point that read back as the value, for
    magnitudes below [2^53]. *)
Fixpoint show_shortest (fuel digits : nat) (f : f64) (p q : Z) : string :=
  let n := round_half_even (p * 10 ^ Z.of_nat digits) q in
  match fuel with
  | O => show_fixed n digits
  | S fuel =>
      if bool_decide (lit n (Z.of_nat digits) = SFabs f) then show_fixed n digits
      else show_shortest fuel (S digits) f p q
  end.

Definition show_f64 (f : f64) : string :=
  match as_quotient f with
  | Some (s, (p, q)) => show_sign s +:+ show_shortest 17 0 f p q
  | None => show_special f
  end.

(** The formats on the values the tests print. *)
Example show_f64_cases :
  show_f64 (lit 12000 0) = "12000" /\ show_f64 (lit 501 3) = "0.501"
  /\ show_f64 (S754_zero true) = "-0" /\ show_f64 (lit (-15) 1) = "-1.5"
  /\ show_f64_3 (lit 501 3) = "0.501" /\ show_f64_3 (lit 3 0) = "3.000"
  /\ show_f64_3 (lit 20004 4) = "2.000" /\ show_f64_3 (lit 625 4) = "0.062".
Proof. vm_compute. split_and!; reflexivity. Qed.

(** ** A field of a derived [Deserialize] *)

(** A field: [absent] is what a missing key gives, [None] for an error. *)
Definition field {A} (v : Json) (k : string) (decode : Json -> option A) (absent : option A) : option A :=
  m ← as_object v;
  match map_get k m with Some x => decode x | None => absent end.

(** [Option<T>] reads [null] as [None]. *)
Definition nullable {A} (decode : Json -> option A) (v : Json) : option (option A) :=
  match v with JNull => Some None | _ => Some <$> decode v end.

Definition list_of {A} (decode : Json -> option A) (v : Json) : option (list A) :=
  l ← as_array v; mapM decode l.

(** A [BTreeMap] with string keys: the last entry of a key stays. *)
Definition map_of {A} (decode : Json -> option A) (v : Json) : option (gmap string A) :=
  m ← as_object v;
  entries ← mapM (fun e : string * Json => x ← decode e.2; Some (e.1, x)) m;
  Some (foldl (fun acc e => <[e.1 := e.2]> acc) ∅ entries).

(** [serde_json::to_string]: no white space, keys in order, the two-character
    escapes of the quote and the backslash. *)
Fixpoint escape (s : string) : string :=
  match s with
  | EmptyString => EmptyString
  | String a s =>
      if Ascii.eqb a "034"%char || Ascii.eqb a "\"%char then String "\"%char (String a (escape s))
      else String a (escape s)
  end.
Definition to_str (s : string) : string := quote +:+ escape s +:+ quote.

Fixpoint to_text (v : Json) : string :=
  match v with
  | JNull => "null"
  | JBool b => show_bool b
  | JNumber (NInt z) => show z
  | JNumber (NFloat f) => show_f64 f
  | JString s => to_str s
  | JArray l => "[" +:+ join "," (map to_text l) +:+ "]"
  | JObject m => "{" +:+ join "," (map (fun e : string * Json => to_str e.1 +:+ ":" +:+ to_text e.2) m) +:+ "}"
  end.

(** A raw string of the tests, with ['] for the double quote. *)
Fixpoint raw_str (s : string) : string :=
  match s with
  | EmptyString => EmptyString
  | String a s => String (if Ascii.eqb a "'"%char then "034"%char else a) (raw_str s)
  end.

(** A parser of the texts a test holds: each text with the value it denotes. *)
Fixpoint parse_known (table : list (string * Json)) (s : string) : option Json :=
  match table with
  | [] => None
  | (text, v) :: table => if String.eqb s text then Some v else parse_known table s
  end.

(** ** Tests of stateful code *)

(** The assertion a computation ends with; a panic fails the test. *)
Definition test_ok {S} (test : ST S bool) (s : S) : bool :=
  match (test s).1 with Done b => b | Panicked => false end.

(** [unwrap] and [unwrap_err] in a computation. *)
Definition st_unwrap {S E A} (m : ST S (result E A)) (k : A -> ST S bool) : ST S bool :=
  r ← m; match r with Ok x => k x | Err _ => mret false end.
Definition st_unwrap_err {S E A} (m : ST S (result E A)) (k : E -> ST S bool) : ST S bool :=
  r ← m; match r with Ok _ => mret false | Err e => k e end.

Notation "'let!' x ':=' m 'in' k" := (st_unwrap m (fun x => k))
  (at level 200, x pattern, right associativity) : nauti_scope.
Notation "'let~' x ':=' m 'in' k" := (st_unwrap_err m (fun x => k))
  (at level 200, x pattern, right associativity) : nauti_scope.

(** An operation of an adapter as a computation over its world. *)
Definition st_call {W A} (f : W -> A * W) : ST W A := fun w => let '(a, w) := f w in (Done a, w).

(** ** File trees

    A directory a test builds: its files, empty directories and symbolic links,
    whose targets are absolute. *)
Record Tree : Type := mkTree {
  tr_files : list (string * string);
  tr_dirs : list string;
  tr_links : list (string * string);
}.

(** Replace the first link that the path is, or goes through. *)
Fixpoint through_link (links : list (string * string)) (p : string) : option string :=
  match links with
  | [] => None
  | (l, target) :: links =>
      if String.eqb p l then Some target
      else match strip_prefix (l +:+ "/") p with
           | Some rest => Some (target +:+ "/" +:+ rest)
           | None => through_link links p
           end
  end.

(** Links of links are followed up to the kernel's limit of forty. *)
Fixpoint follow_links (fuel : nat) (links : list (string * string)) (p : string) : string :=
  match fuel with
  | O => p
  | S fuel => match through_link links p with Some p => follow_links fuel links p | None => p end
  end.
Definition follow (t : Tree) (p : string) : string := follow_links 40 (tr_links t) p.

Fixpoint assoc (k : string) (l : list (string * string)) : option string :=
  match l with
  | [] => None
  | (k', v) :: l => if String.eqb k k' then Some v else assoc k l
  end.

(** Every path the tree has, and the names below a directory. *)
Definition tree_paths (t : Tree) : list string := app (tr_files t).*1 (app (tr_dirs t) (tr_links t).*1).
Definition children (t : Tree) (dir : string) : list string :=
  remove_dups (omap (fun p => strip_prefix (dir +:+ "/") p ≫= fun rest => head (split_on "/" rest)) (tree_paths t)).
Definition is_directory (t : Tree) (p : string) : bool :=
  bool_decide (p ∈ tr_dirs t) || bool_decide (children t p <> []).
Definition tree_exists (t : Tree) (p : string) : bool :=
  is_directory t p || bool_decide (is_Some (assoc p (tr_files t))).

Definition tree_fs (t : Tree) : Fs :=
  {| fs_read := fun p => assoc (follow t p) (tr_files t);
     fs_dir := fun p => let p := follow t p in if is_directory t p then Some (children t p) else None;
     fs_link := fun p =>
       match rsplit_once "/" p with
       | Some (dir, name) => assoc (follow t dir +:+ "/" +:+ name) (tr_links t)
       | None => None
       end;
     fs_exists := fun p => tree_exists t (follow t p);
     fs_canon := fun p => let p := follow t p in if tree_exists t p then Some p else None |}.

(** [fs::write]: the newest content of a path is found first. *)
Definition write_tree (path body : string) (t : Tree) : Tree :=
  mkTree ((follow t path, body) :: tr_files t) (tr_dirs t) (tr_links t).

(** [str::parse::<f64>] of digits with at most one point. *)
Definition parse_decimal (s : string) : option f64 :=
  match split_once "." s with
  | None => (fun n => lit n 0) <$> parse_u64 s
  | Some (whole, frac) =>
      n ← parse_u64 (whole +:+ frac); Some (lit n (Z.of_nat (String.length frac)))
  end.

Example tree_cases :
  let t := mkTree [("/a/b/f", "x")] ["/e"] [("/l", "/a/b"); ("/m", "/l")] in
  fs_read (tree_fs t) "/m/f" = Some "x" /\ fs_dir (tree_fs t) "/a" = Some ["b"]
  /\ fs_dir (tree_fs t) "/e" = Some [] /\ fs_dir (tree_fs t) "/l/f" = None
  /\ fs_link (tree_fs t) "/m" = Some "/l" /\ fs_canon (tree_fs t) "/m/f" = Some "/a/b/f"
  /\ fs_exists (tree_fs t) "/m/g" = false /\ fs_read (tree_fs (write_tree "/m/f" "y" t)) "/a/b/f" = Some "y".
Proof. vm_compute. split_and!; reflexivity. Qed.
