(* ===== verification/PlanTests.v ===== *)
(** * The planner's tests (plan.rs, [mod tests])

    The fixtures and the [#[test]] functions of plan.rs on the model. The
    decoders serde derives are given by the fields and defaults of the structs;
    a socket is the bytes the test's server answers with. *)

From stdpp Require Import base tactics option list gmap strings sorting.
From Stdlib Require Import Ascii String SpecFloat.
From S2P Require Import Prelude Str F64 Json Testing Plan PlanProps PlanView PlanHttp RpcAuth Cli AgentFiles Fleet FleetProps PlanCli.

#[local] Open Scope Z_scope.

#[local] Instance PlanFragment_eq_dec : EqDecision PlanFragment.
Proof. solve_decision. Defined.
#[local] Instance PlanRequest_eq_dec : EqDecision PlanRequest.
Proof. solve_decision. Defined.
#[local] Instance PlanReject_eq_dec : EqDecision PlanReject.
Proof. solve_decision. Defined.

(** ** The derived decoders *)

Definition slot_of_json (v : Json) : option SlotView :=
  sl ← field v "slot" as_str (Some EmptyString);
  m ← field v "model_id" as_str (Some EmptyString);
  roles ← field v "roles" (list_of as_str) (Some []);
  healthy ← field v "healthy" as_bool (Some true);
  free ← field v "free_mb" as_f64 (Some (lit 0 0));
  id ← field v "resource_id" (nullable as_str) (Some None);
  Some {| sv_slot := sl; sv_model_id := m; sv_roles := roles; sv_healthy := healthy;
          sv_free_mb := free; sv_resource_id := id |}.

Definition matrix_of_json (v : Json) : option LatencyMatrix :=
  m ← field v "rpc_median_ms" (map_of (map_of (nullable as_f64))) (Some ∅);
  Some (mkLatencyMatrix m).

Definition fragment_of_json (v : Json) : option PlanFragment :=
  node ← field v "node_id" as_str None;
  role ← field v "role" as_str None;
  key ← field v "host_key" as_str None;
  sl ← field v "slot" as_str None;
  m ← field v "model_id" as_str None;
  reason ← field v "reason" as_str None;
  id ← field v "resource_id" (nullable as_str) (Some None);
  rtt ← field v "rtt_ms" (nullable as_f64) (Some None);
  Some {| pf_node_id := node; pf_role := role; pf_host_key := key; pf_slot := sl; pf_model_id := m;
          pf_reason := reason; pf_resource_id := id; pf_rtt_ms := rtt |}.

(** A null snapshot is left out, and absent is read as null. *)
Definition request_value (r : PlanRequest) : Json :=
  json_obj (app [("node_id", JString (pr_node_id r)); ("role", JString (pr_role r))]
              (match pr_local_snapshot r with JNull => [] | s => [("local_snapshot", s)] end)).
Definition request_of_json (v : Json) : option PlanRequest :=
  node ← field v "node_id" as_str None;
  role ← field v "role" as_str None;
  snapshot ← field v "local_snapshot" Some (Some JNull);
  Some {| pr_node_id := node; pr_role := role; pr_local_snapshot := snapshot |}.

Definition fragment_value (f : PlanFragment) : Json := json_obj (fragment_fields f).

Notation head_plan' := (head_plan show_f64 show_f64_3).
Notation plan_by_kind' := (plan_by_kind show_f64 show_f64_3).
Notation get_planner' := (get_planner show_f64 show_f64_3).
Notation snapshot_view := (from_snapshot_json slot_of_json matrix_of_json).
Notation latency_of := (matrix_from_json matrix_of_json).

(** ** Fixtures *)

Definition slot (name model : string) (roles : list string) (healthy : bool) (free_mb : f64) : SlotView :=
  {| sv_slot := name; sv_model_id := model; sv_roles := roles; sv_healthy := healthy;
     sv_free_mb := free_mb; sv_resource_id := None |}.

Definition host (slots : list SlotView) : HostView := {| hv_slots := slots; hv_locked := false |}.
Definition locked (h : HostView) : HostView := {| hv_slots := hv_slots h; hv_locked := true |}.

Definition view_with (hosts : list (string * HostView)) : FleetView :=
  {| fv_hosts := list_to_map hosts; fv_latency := mkLatencyMatrix ∅ |}.

Definition catalogue : RoleCatalogue := ["coder"; "thinker"; "reviewer"].

Definition wire_keys (value : Json) : list string :=
  merge_sort String.le (option.default [] (as_object value)).*1.

Definition expected_fragment_keys : list string := merge_sort String.le FRAGMENT_FIELDS.

(** Free memory in whole MiB. *)
Definition mib (n : Z) : f64 := lit n 0.

(** The coder slot most tests place on c4, and the ask of most tests. *)
Definition c4_coder (free_mb : Z) : string * HostView :=
  ("cesarops4om", host [slot "coder-lane-c4" "KAT" ["coder"] true (mib free_mb)]).
Definition ask_coder : PlanRequest := new_request "t440cesarops" "coder".

(** The view with an asker that has nothing and the given hosts. *)
Definition empty_asker : string * HostView := ("t440cesarops", host []).
Definition holding_asker : string * HostView :=
  ("t440cesarops", host [slot "coder-lane-a" "Ornith-35B" ["coder"] true (mib 4000)]).

(** ** The wire contract *)

Definition fragment_serializes_to_exactly_the_python_field_names : bool :=
  let f := {| pf_node_id := "t440cesarops"; pf_role := "coder"; pf_host_key := "cesarops4om";
              pf_slot := "coder-lane-c4"; pf_model_id := "KAT-Coder-V2.5"; pf_reason := "fleet-wide";
              pf_resource_id := None; pf_rtt_ms := None |} in
  assert_eq (wire_keys (fragment_value f)) expected_fragment_keys.

Definition python_shaped_fragment_deserializes_without_the_extensions : bool :=
  let raw := JObject [("node_id", JString "t440cesarops"); ("role", JString "coder");
    ("host_key", JString "cesarops4om"); ("slot", JString "coder-lane-c4");
    ("model_id", JString "KAT-Coder-V2.5");
    ("reason", JString "no local slot for coder; remote host cesarops4om can take it")] in
  unwrap_some (fragment_of_json raw) (fun f =>
    assert_eq (pf_host_key f) "cesarops4om" && assert_eq (pf_resource_id f) None
    && assert_eq (pf_rtt_ms f) None).

Definition a_null_snapshot_is_omitted_not_sent_as_null : bool :=
  let value := request_value ask_coder in
  let snapshot := json_obj [("slots", JArray [json_obj [("slot", JString "coder-lane-a")]])] in
  let req := {| pr_node_id := "t440cesarops"; pr_role := "coder"; pr_local_snapshot := snapshot |} in
  json_is_str "t440cesarops" (index value "node_id") && json_is_str "coder" (index value "role")
  && unwrap_some (as_object value) (fun m => bool_decide (map_get "local_snapshot" m = None))
  && negb (contains "null" (to_text value))
  && bool_decide (is_Some (as_object (index (request_value req) "local_snapshot")))
  && bool_decide (request_of_json (request_value req) = Some req).

(** ** The decision order *)

Definition unknown_role_is_a_typed_404_not_a_shrug : bool :=
  unwrap_err (head_plan' (new_request "t440cesarops" "bard") (view_with [c4_coder 8000]) catalogue) (fun err =>
    assert_eq err (UnknownRole "bard") && assert_eq (reason_token err) "bad-enum"
    && assert_eq (http_status err) (Some 404)).

Definition empty_node_or_role_is_missing_field : bool :=
  let view := view_with [] in
  unwrap_err (head_plan' (new_request "" "coder") view catalogue) (fun err =>
    assert_eq err (MissingField "node_id") && assert_eq (http_status err) (Some 422))
  && unwrap_err (head_plan' (new_request "t440cesarops" " ") view catalogue) (fun err =>
       assert_eq err (MissingField "role")).

Definition local_plan_is_preferred_and_names_the_asking_node : bool :=
  unwrap (head_plan' ask_coder (view_with [holding_asker; c4_coder 12000]) catalogue) (fun f =>
    assert_eq (pf_host_key f) "t440cesarops" && assert_eq (pf_slot f) "coder-lane-a"
    && assert_eq (pf_reason f) "local plan satisfies this role").

Definition remote_fragment_names_a_different_host_and_never_the_asker : bool :=
  unwrap (head_plan' ask_coder (view_with [empty_asker; c4_coder 12000]) catalogue) (fun f =>
    assert_eq (pf_host_key f) "cesarops4om" && negb (assert_eq (pf_host_key f) (pf_node_id f))
    && contains "fleet-wide" (pf_reason f)).

Definition locked_host_is_never_offered : bool :=
  let locked := locked (host [slot "coder-lane-c4" "KAT" ["coder"] true (mib 12000)]) in
  let view := view_with [empty_asker; ("cesarops2", locked)] in
  unwrap_err (head_plan' ask_coder view catalogue) (fun err =>
    assert_eq (reason_token err) "escalate-nowhere" && assert_eq (http_status err) (Some 403)
    && match err with
       | EscalateNowhere (Some constraint) => contains "cesarops2" constraint && contains "locked" constraint
       | _ => false
       end).

Definition unhealthy_slot_is_never_offered : bool :=
  let view := view_with [empty_asker;
    ("cesarops4om", host [slot "coder-lane-c4" "KAT" ["coder"] false (mib 12000)])] in
  unwrap_err (head_plan' ask_coder view catalogue) (fun err =>
    assert_eq (reason_token err) "escalate-nowhere").

Definition unsatisfiable_role_is_403_never_an_empty_fragment : bool :=
  unwrap_err (head_plan' ask_coder (view_with []) catalogue) (fun err =>
    assert_eq err (EscalateNowhere None) && assert_eq (http_status err) (Some 403)
    && starts_with "escalate-nowhere" (reject_display err)).

Definition fragment_does_not_leak_the_rest_of_the_fleet : bool :=
  let view := view_with [empty_asker; c4_coder 12000;
    ("cesarops3", host [slot "reviewer-e4b" "E4B" ["reviewer"] true (mib 6000)]);
    ("cesarops2", host [slot "thinker-nim" "NIM" ["thinker"] true (mib 2000)])] in
  unwrap (head_plan' ask_coder view catalogue) (fun f =>
    let wire := to_text (fragment_value f) in
    forallb (fun other => negb (contains other wire))
      ["cesarops3"; "cesarops2"; "reviewer-e4b"; "thinker-nim"; "E4B"]
    && unwrap_some (as_object (fragment_value f)) (fun m => assert_eq (length m) (length FRAGMENT_FIELDS))).

(** ** The two planners *)

Definition planned (kind : string) (ask : PlanRequest) (view : FleetView) : option PlanFragment :=
  match get_planner' kind with Ok p => planner_plan p ask view | Err _ => None end.

Definition both_planners_satisfy_the_same_fragment_contract : bool :=
  let view := view_with [holding_asker; c4_coder 12000] in
  unwrap_some (planned "monolithic" ask_coder view) (fun m =>
  unwrap_some (planned "federated" ask_coder view) (fun f =>
    assert_eq (wire_keys (fragment_value m)) (wire_keys (fragment_value f))
    && assert_eq (wire_keys (fragment_value m)) expected_fragment_keys))
  && unwrap (get_planner' "monolithic") (fun p => assert_eq (planner_name p) "monolithic")
  && unwrap (get_planner' "federated") (fun p => assert_eq (planner_name p) "federated").

Definition federated_declines_when_only_a_remote_host_could_serve : bool :=
  let view := view_with [empty_asker; c4_coder 12000] in
  unwrap (get_planner' "federated") (fun p => assert_eq (planner_plan p ask_coder view) None)
  && unwrap (get_planner' "monolithic") (fun p => bool_decide (is_Some (planner_plan p ask_coder view))).

Definition monolithic_never_returns_the_asking_node : bool :=
  unwrap (get_planner' "monolithic") (fun p =>
    assert_eq (planner_plan p ask_coder (view_with [holding_asker])) None).

Definition get_planner_rejects_an_unknown_kind_rather_than_defaulting : bool :=
  unwrap_err (get_planner' "moe-magic") (fun err =>
    assert_eq err (UnknownPlanner "moe-magic") && assert_eq (reason_token err) "bad-enum")
  && assert_eq PLANNER_KINDS ["monolithic"; "federated"].

Definition serves_mirrors_the_python_rule : bool :=
  negb (serves (slot "s" "KAT" ["coder"] false (mib 9000)) "coder")
  && serves (slot "s" "KAT" [] true (mib 1)) "anything"
  && negb (serves (slot "s" "" [] true (mib 1)) "anything")
  && serves (slot "s" "KAT" ["coder"; "reviewer"] true (mib 1)) "reviewer"
  && negb (serves (slot "s" "KAT" ["coder"] true (mib 1)) "thinker").

(** ** The latency term *)

Definition matrix (rows : list (string * list (string * option f64))) : LatencyMatrix :=
  mkLatencyMatrix (list_to_map ((fun r => (r.1, list_to_map r.2)) <$> rows)).

(** The two remote coders of the scoring tests, and the measured row. *)
Definition two_coders (free3 free4 : Z) (rtt3 rtt4 : f64) : FleetView :=
  with_latency
    (view_with [empty_asker; ("cesarops3", host [slot "coder-lane-c3" "KAT" ["coder"] true (mib free3)]);
                c4_coder free4])
    (matrix [("t440cesarops", [("cesarops3", Some rtt3); ("cesarops4om", Some rtt4)])]).

Definition latency_term_breaks_a_headroom_tie : bool :=
  unwrap (head_plan' ask_coder (two_coders 8000 8000 (lit 3004 3) (lit 501 3)) catalogue) (fun f =>
    assert_eq (pf_host_key f) "cesarops4om" && assert_eq (pf_rtt_ms f) (Some (lit 501 3))
    && contains "rtt 0.501 ms" (pf_reason f)).

Definition a_far_host_still_wins_when_it_has_enough_more_headroom : bool :=
  unwrap (head_plan' ask_coder (two_coders 10000 8000 (lit 3 0) (lit 5 1)) catalogue) (fun f =>
    assert_eq (pf_host_key f) "cesarops3")
  && assert_eq (fleet_score (mib 10000) (Some (lit 3 0)))
       (f64_sub (mib 10000) (f64_mul (lit 3 0) LATENCY_MB_PER_MS))
  && assert_eq (fleet_score (mib 8000) None) (mib 8000).

Definition an_unmeasured_link_is_never_given_an_invented_rtt : bool :=
  let view := with_latency
    (view_with [empty_asker;
       ("cesarops2", host [slot "reviewer-c2" "Gemma-26B" ["reviewer"] true (mib 7000)])])
    (matrix [("t440cesarops", [("cesarops2", None); ("cesarops4om", Some (lit 5 1))])]) in
  assert_eq (rtt_ms (fv_latency view) "t440cesarops" "cesarops2") None
  && unwrap (head_plan' (new_request "t440cesarops" "reviewer") view catalogue) (fun f =>
       assert_eq (pf_host_key f) "cesarops2" && assert_eq (pf_rtt_ms f) None
       && contains "rtt not measured" (pf_reason f)).

(** ** Reading the matrix and the snapshot *)

(** The file of the test, as the value its text denotes. *)
Definition live_matrix : Json :=
  JObject [("kind", JString "nauti_fleet_matrix"); ("generated_at", JNumber (NFloat (lit 179178828098 2)));
    ("totals", JObject [("gpus", json_int 9); ("online", json_int 3)]);
    ("rpc_median_ms", JObject [("t440cesarops",
        JObject [("cesarops2", JNull); ("cesarops3", JNumber (NFloat (lit 3004 3)));
                 ("cesarops4om", JNumber (NFloat (lit 501 3))); ("t440cesarops", JNumber (NFloat (lit 203 3)))])]);
    ("icmp_avg_ms_by_path", JObject [("t440cesarops", JObject [("cesarops2", JObject [("lan-10.44", JNull)])])])].

Definition matrix_loader_reads_the_live_nauti_fleet_matrix_shape : bool :=
  let read (path : string) := Ok "the matrix file" in
  let parse raw := ok_or (parse_known [("the matrix file", live_matrix)] raw) "not JSON" in
  unwrap (load_matrix matrix_of_json read parse id "fleet-matrix.json") (fun m =>
    assert_eq (rtt_ms m "t440cesarops" "cesarops4om") (Some (lit 501 3))
    && assert_eq (rtt_ms m "t440cesarops" "cesarops3") (Some (lit 3004 3))
    && assert_eq (rtt_ms m "t440cesarops" "cesarops2") None
    && assert_eq (rtt_ms m "cesarops2" "t440cesarops") None).

Definition fleet_view_flattens_a_nauti_fleet_view_into_a_matrix_row : bool :=
  let value := json_obj [("kind", JString "nauti_fleet_view"); ("from", JString "t440cesarops");
    ("nodes", JArray
       [json_obj [("node", JString "cesarops4om"); ("online", JBool true);
                  ("rpc_rtt_ms", json_obj [("samples", json_int 10); ("min", json_f64 (lit 4 1));
                     ("median", json_f64 (lit 501 3)); ("p95", json_f64 (lit 7 1))])];
        json_obj [("node", JString "cesarops2"); ("online", JBool false);
                  ("rpc_rtt_ms", json_obj [("samples", json_int 0)])]])] in
  let m := latency_of value in
  assert_eq (rtt_ms m "t440cesarops" "cesarops4om") (Some (lit 501 3))
  && assert_eq (rtt_ms m "t440cesarops" "cesarops2") None.

Definition snapshot_normalisation_accepts_envelope_and_dict_slots : bool :=
  let value := json_obj [("nodes", json_obj
    [("cesarops4om", json_obj [("slots", json_obj [("coder-lane-c4",
        json_obj [("model_id", JString "KAT"); ("roles", JArray [JString "coder"]);
                  ("free_mb", json_f64 (mib 12000))])])]);
     ("cesarops3", json_obj [("slots", JArray
        [json_obj [("slot", JString "reviewer-e4b"); ("model_id", JString "E4B");
                   ("roles", JArray [JString "reviewer"]); ("healthy", JBool false);
                   ("free_mb", json_f64 (mib 6000))]])]);
     ("cesarops2", json_obj [("locked", JBool true); ("slots", JArray [])])])] in
  let view := snapshot_view value in
  let only_locked := view_with [("t440cesarops",
    locked (host [slot "coder-lane-a" "Ornith" ["coder"] true (mib 4000)]))] in
  assert_eq (size (fv_hosts view)) 3%nat
  && assert_eq (sv_slot <$> best_slot view "cesarops4om" "coder") (Some "coder-lane-c4")
  && assert_eq (best_slot view "cesarops3" "reviewer") None
  && unwrap_some (fv_hosts view !! "cesarops2") hv_locked
  && assert_eq (best_slot only_locked "t440cesarops" "coder") None.

Definition a_snapshot_without_slots_does_not_become_the_envelope : bool :=
  let value := json_obj [("nodes", json_obj
    [("t440cesarops", json_obj [("locked", JBool false)]);
     ("cesarops4om", json_obj [("slots", JArray
        [json_obj [("slot", JString "coder-lane-c4"); ("model_id", JString "KAT");
                   ("roles", JArray [JString "coder"]); ("free_mb", json_f64 (mib 1))]])])])] in
  let view := snapshot_view value in
  unwrap_some (fv_hosts view !! "t440cesarops") (fun h => assert_eq (hv_slots h) [])
  && unwrap_some (fv_hosts view !! "cesarops4om") (fun h => assert_eq (length (hv_slots h)) 1%nat).

(** ** The client against a server *)

(** The bytes the test's server answers with. *)
Definition serve_once (status : Z) (headers : list (string * string)) (body : string) : string :=
  crlf_line ("HTTP/1.1 " +:+ show status +:+ " OK")
  +:+ join EmptyString ((fun h : string * string => crlf_line (h.1 +:+ ": " +:+ h.2)) <$> headers)
  +:+ crlf_line ("Content-Length: " +:+ show (Z.of_nat (String.length body)))
  +:+ crlf_line "Content-Type: application/json" +:+ crlf_line "Connection: close" +:+ crlf_line EmptyString
  +:+ body.

(** [ask_head] with a server that answers [response] to a request it accepts,
    and the JSON texts the test knows. *)
Definition ask (accepts : string -> bool) (response : string) (texts : list (string * Json))
    (url : string) (req : PlanRequest) : result PlanReject PlanFragment :=
  ask_head (fun _ request => if accepts request then Ok response else Err (ReadFailed "refused"))
    (fun r => Ok (to_text (request_value r)))
    (fun s => ok_or (parse_known texts s ≫= fragment_of_json) "not a fragment")
    (parse_known texts) url req.

Definition any_request (_ : string) : bool := true.
Definition test_url : string := "http://127.0.0.1:49152".

Definition live_fragment : Json :=
  JObject [("node_id", JString "t440cesarops"); ("role", JString "coder"); ("host_key", JString "cesarops4om");
    ("slot", JString "coder-lane-c4"); ("model_id", JString "KAT-Coder-V2.5-Dev-Q8_0");
    ("reason", JString "no local slot for coder; remote host cesarops4om can take it")].

(** A member of a request as it is on the wire. *)
Definition member (k v : string) : string := to_str k +:+ ":" +:+ to_str v.

Definition ask_head_parses_a_live_fragment_and_posts_the_contract : bool :=
  let body := raw_str "{'node_id':'t440cesarops','role':'coder','host_key':'cesarops4om',
                       'slot':'coder-lane-c4','model_id':'KAT-Coder-V2.5-Dev-Q8_0',
                       'reason':'no local slot for coder; remote host cesarops4om can take it'}" in
  let asserts request :=
    starts_with (crlf_line "POST /v1/plan HTTP/1.1") request
    && contains "Content-Type: application/json" request && contains (member "node_id" "t440cesarops") request
    && contains (member "role" "coder") request && contains "Connection: close" request in
  unwrap (ask asserts (serve_once 200 [] body) [(body, live_fragment)] test_url ask_coder) (fun f =>
    assert_eq (pf_host_key f) "cesarops4om" && assert_eq (pf_slot f) "coder-lane-c4").

Definition escalate_detail : Json := JObject [("detail", JString "escalate-nowhere")].

Definition ask_head_maps_403_to_escalate_nowhere_with_the_constraint_header : bool :=
  let body := to_text escalate_detail in
  unwrap_err (ask any_request
      (serve_once 403 [("X-Escalate-Constraint", "no VRAM estimate for model X")] body)
      [(body, escalate_detail)] test_url (new_request "t440cesarops" "reviewer")) (fun err =>
    assert_eq err (EscalateNowhere (Some "no VRAM estimate for model X"))
    && assert_eq (reason_token err) "escalate-nowhere" && assert_eq (http_status err) (Some 403)).

Definition ask_head_falls_back_to_the_json_detail_when_the_header_is_absent : bool :=
  let body := to_text escalate_detail in
  unwrap_err (ask any_request (serve_once 403 [] body) [(body, escalate_detail)] test_url ask_coder) (fun err =>
    assert_eq err (EscalateNowhere (Some "escalate-nowhere"))).

Definition ask_head_maps_404_to_unknown_role : bool :=
  let detail := JObject [("detail", JString "unknown role 'bard'")] in
  let body := to_text detail in
  unwrap_err (ask any_request (serve_once 404 [] body) [(body, detail)] test_url
      (new_request "t440cesarops" "bard")) (fun err =>
    assert_eq err (UnknownRole "bard") && assert_eq (http_status err) (Some 404)).

Definition ask_head_reads_a_500_as_backend_down_and_a_200_junk_body_as_missing_field : bool :=
  let junk := JObject [("plan", JString "all of it")] in
  unwrap_err (ask any_request (serve_once 503 [] "head is booting") [] test_url ask_coder) (fun err =>
    assert_eq (reason_token err) "backend-down" && assert_eq (http_status err) (Some 503))
  && unwrap_err (ask any_request (serve_once 200 [] (to_text junk)) [(to_text junk, junk)] test_url ask_coder)
       (fun err => assert_eq (reason_token err) "missing-field").

(** The fragment in two chunks, cut after the third field. *)
Definition chunked_fragment : Json :=
  JObject [("node_id", JString "t440cesarops"); ("role", JString "coder"); ("host_key", JString "c4");
    ("slot", JString "coder-lane-c4"); ("model_id", JString "KAT"); ("reason", JString "fleet-wide")].

(** [{len:x}]. *)
Definition show_hex (n : nat) : string := hex_go 16 (Z.of_nat n) EmptyString.

Definition ask_head_reads_a_chunked_body : bool :=
  let body := to_text chunked_fragment in
  let cut := String.length ("{" +:+ member "node_id" "t440cesarops" +:+ "," +:+ member "role" "coder" +:+ ","
                              +:+ member "host_key" "c4" +:+ ",") in
  let part := String.substring 0 cut body in
  let rest := String.substring cut (String.length body - cut) body in
  let resp := crlf_line "HTTP/1.1 200 OK" +:+ crlf_line "Transfer-Encoding: chunked"
    +:+ crlf_line "Connection: close" +:+ crlf_line EmptyString
    +:+ crlf_line (show_hex (String.length part)) +:+ crlf_line part
    +:+ crlf_line (show_hex (String.length rest)) +:+ crlf_line rest
    +:+ crlf_line "0" +:+ crlf_line EmptyString in
  unwrap (ask any_request resp [(body, chunked_fragment)] test_url ask_coder) (fun f =>
    assert_eq (pf_host_key f) "c4" && assert_eq (pf_model_id f) "KAT").

(** A refused connection; how long the call takes is not part of the model. *)
Definition an_unreachable_head_is_backend_down_not_a_hang : bool :=
  let refused (_ _ : string) : result NetError string := Err (ConnectFailed "Connection refused (os error 111)") in
  unwrap_err (ask_head refused (fun r => Ok (to_text (request_value r))) (fun _ => Err "") (fun _ => None)
      "http://127.0.0.1:1" ask_coder) (fun err =>
    match err with HeadUnreachable _ => true | _ => false end
    && assert_eq (reason_token err) "backend-down" && assert_eq (http_status err) None).

(** Nothing is dialed: an accepted request would be answered with a fragment. *)
Definition a_non_http_head_url_is_refused_before_dialing : bool :=
  let body := to_text live_fragment in
  forallb (fun bad =>
    unwrap_err (ask any_request (serve_once 200 [] body) [(body, live_fragment)] bad ask_coder) (fun err =>
      match err with BadHeadUrl _ => true | _ => false end && assert_eq (reason_token err) "bad-enum"))
    ["https://head:8080"; "head:8080"; "http://"; "http://head:notaport"]
  && unwrap (parse_head_url "http://head") (fun r => assert_eq r ("head", DEFAULT_HEAD_PORT))
  && unwrap (parse_head_url "http://10.44.0.12:9106/") (fun r => assert_eq r.2 9106).

(** ** The committed fixtures *)

Definition role_catalogue_skips_underscore_comment_keys : bool :=
  let value := json_obj [("_provenance", JArray [JString "a note, not a role"]);
    ("coder", JArray [JString "coder-lane-a"; JString "injector"]);
    ("thinker", JArray [JString "thinker"; JString "thinker-nim"])] in
  let cat := catalogue_from_json value in
  let from_list := catalogue_from_json (JArray [JString "_comment"; JString "coder"]) in
  catalogue_contains cat "coder" && catalogue_contains cat "thinker"
  && negb (catalogue_contains cat "_provenance") && assert_eq (length cat) 2%nat
  && assert_eq from_list ["coder"].

(** fixtures/m11-fallback-chain.json, less the text of its note. *)
Definition m11_fallback_chain : Json :=
  JObject [("_provenance", JArray []);
    ("coder", JArray [JString "coder-lane-a"; JString "injector"]);
    ("reviewer", JArray [JString "reviewer-c2"; JString "reviewer"; JString "reviewer-e4b"; JString "coder-lane-a"]);
    ("thinker", JArray [JString "thinker"; JString "thinker-nim"]);
    ("translator+reviewer+judge", JArray [JString "coder-lane-c4"; JString "coder-lane-a"])].

Definition m11_slot (name model role : string) : Json :=
  JObject [("healthy", JBool true); ("model_id", JString model); ("roles", JArray [JString role]);
           ("slot", JString name)].

(** fixtures/m11-head-slots.json, less the text of its note. *)
Definition m11_head_slots : Json :=
  JObject [("_provenance", JArray []); ("nodes", JObject
    [("cesarops2", JObject [("locked", JBool true);
        ("slots", JArray [m11_slot "reviewer-c2" "Gemma-4-26B-MoE-IQ4_XS" "reviewer"])]);
     ("cesarops4om", JObject [("slots", JArray
        [m11_slot "thinker" "QwQ-32B-IQ2_XXS" "thinker"; m11_slot "reviewer" "Gemma-4-E4B-it-IQ4_XS" "reviewer";
         m11_slot "reviewer-e4b" "Gemma-4-E4B-it-IQ4_XS" "reviewer"])]);
     ("t440cesarops", JObject [("slots", JArray
        [m11_slot "coder-lane-a" "Ornith-1.0-35B-Q4_K_M" "coder"])])])].

Definition m11_view : FleetView := snapshot_view m11_head_slots.
Definition m11_roles : RoleCatalogue := catalogue_from_json m11_fallback_chain.

Definition committed_m11_fixtures_drive_a_real_fragment : bool :=
  let plan node role := head_plan' (new_request node role) m11_view m11_roles in
  catalogue_contains m11_roles "coder" && negb (catalogue_contains m11_roles "_provenance")
  && unwrap (plan "cesarops4om" "coder") (fun remote =>
       assert_eq (pf_host_key remote) "t440cesarops" && assert_eq (pf_slot remote) "coder-lane-a"
       && assert_eq (pf_model_id remote) "Ornith-1.0-35B-Q4_K_M")
  && unwrap (plan "t440cesarops" "coder") (fun local =>
       assert_eq (pf_host_key local) "t440cesarops"
       && assert_eq (pf_reason local) "local plan satisfies this role")
  && unwrap_err (plan "t440cesarops" "translator+reviewer+judge") (fun err =>
       assert_eq (reason_token err) "escalate-nowhere" && assert_eq (http_status err) (Some 403))
  && unwrap (plan "cesarops3" "reviewer") (fun reviewer =>
       negb (assert_eq (pf_host_key reviewer) "cesarops2") && assert_eq (pf_host_key reviewer) "cesarops4om")
  && unwrap_err (plan "cesarops4om" "bard") (fun err =>
       assert_eq (reason_token err) "bad-enum" && assert_eq (http_status err) (Some 404)).

Definition the_live_latency_matrix_shape_attaches_real_rtts_to_the_fixture : bool :=
  let view := with_latency m11_view
    (matrix [("cesarops4om", [("t440cesarops", Some (lit 501 3)); ("cesarops2", None)])]) in
  unwrap (head_plan' (new_request "cesarops4om" "coder") view m11_roles) (fun f =>
    assert_eq (pf_rtt_ms f) (Some (lit 501 3)) && contains "rtt 0.501 ms" (pf_reason f)).

(** ** [plan_by_kind] *)

Definition monolithic_kind_is_local_first_like_the_head : bool :=
  let view := view_with [holding_asker; c4_coder 12000] in
  unwrap_some (monolithic_plan show_f64 show_f64_3 ask_coder view) (fun direct =>
    assert_eq (pf_host_key direct) "cesarops4om")
  && unwrap (plan_by_kind' "monolithic" ask_coder view catalogue) (fun via_kind =>
       assert_eq (pf_host_key via_kind) "t440cesarops"
       && assert_eq (pf_reason via_kind) "local plan satisfies this role").

Definition federated_kind_has_no_remote_step : bool :=
  let view := view_with [empty_asker; c4_coder 12000] in
  unwrap_err (plan_by_kind' "federated" ask_coder view catalogue) (fun err =>
    assert_eq (reason_token err) "escalate-nowhere"
    && match err with EscalateNowhere (Some c) => starts_with "federated: " c | _ => false end)
  && unwrap (plan_by_kind' "monolithic" ask_coder view catalogue) (fun mono =>
       assert_eq (pf_host_key mono) "cesarops4om").

Definition plan_by_kind_validates_before_planning_and_rejects_unknown_kinds : bool :=
  let view := view_with [c4_coder 1] in
  unwrap_err (plan_by_kind' "federated" (new_request "cesarops4om" "bard") view catalogue) (fun err =>
    assert_eq (http_status err) (Some 404))
  && unwrap_err (plan_by_kind' "moe-magic" (new_request "cesarops4om" "coder") view catalogue) (fun err =>
       assert_eq err (UnknownPlanner "moe-magic"))
  && unwrap_err (plan_by_kind' "monolithic" (new_request "" "coder") view catalogue) (fun err =>
       assert_eq err (MissingField "node_id")).

(** ** The suite *)

Definition plan_tests : list (string * bool) :=
  [("fragment_serializes_to_exactly_the_python_field_names", fragment_serializes_to_exactly_the_python_field_names);
   ("python_shaped_fragment_deserializes_without_the_extensions", python_shaped_fragment_deserializes_without_the_extensions);
   ("a_null_snapshot_is_omitted_not_sent_as_null", a_null_snapshot_is_omitted_not_sent_as_null);
   ("unknown_role_is_a_typed_404_not_a_shrug", unknown_role_is_a_typed_404_not_a_shrug);
   ("empty_node_or_role_is_missing_field", empty_node_or_role_is_missing_field);
   ("local_plan_is_preferred_and_names_the_asking_node", local_plan_is_preferred_and_names_the_asking_node);
   ("remote_fragment_names_a_different_host_and_never_the_asker", remote_fragment_names_a_different_host_and_never_the_asker);
   ("locked_host_is_never_offered", locked_host_is_never_offered);
   ("unhealthy_slot_is_never_offered", unhealthy_slot_is_never_offered);
   ("unsatisfiable_role_is_403_never_an_empty_fragment", unsatisfiable_role_is_403_never_an_empty_fragment);
   ("fragment_does_not_leak_the_rest_of_the_fleet", fragment_does_not_leak_the_rest_of_the_fleet);
   ("both_planners_satisfy_the_same_fragment_contract", both_planners_satisfy_the_same_fragment_contract);
   ("federated_declines_when_only_a_remote_host_could_serve", federated_declines_when_only_a_remote_host_could_serve);
   ("monolithic_never_returns_the_asking_node", monolithic_never_returns_the_asking_node);
   ("get_planner_rejects_an_unknown_kind_rather_than_defaulting", get_planner_rejects_an_unknown_kind_rather_than_defaulting);
   ("serves_mirrors_the_python_rule", serves_mirrors_the_python_rule);
   ("latency_term_breaks_a_headroom_tie", latency_term_breaks_a_headroom_tie);
   ("a_far_host_still_wins_when_it_has_enough_more_headroom", a_far_host_still_wins_when_it_has_enough_more_headroom);
   ("an_unmeasured_link_is_never_given_an_invented_rtt", an_unmeasured_link_is_never_given_an_invented_rtt);
   ("matrix_loader_reads_the_live_nauti_fleet_matrix_shape", matrix_loader_reads_the_live_nauti_fleet_matrix_shape);
   ("fleet_view_flattens_a_nauti_fleet_view_into_a_matrix_row", fleet_view_flattens_a_nauti_fleet_view_into_a_matrix_row);
   ("snapshot_normalisation_accepts_envelope_and_dict_slots", snapshot_normalisation_accepts_envelope_and_dict_slots);
   ("a_snapshot_without_slots_does_not_become_the_envelope", a_snapshot_without_slots_does_not_become_the_envelope);
   ("ask_head_parses_a_live_fragment_and_posts_the_contract", ask_head_parses_a_live_fragment_and_posts_the_contract);
   ("ask_head_maps_403_to_escalate_nowhere_with_the_constraint_header", ask_head_maps_403_to_escalate_nowhere_with_the_constraint_header);
   ("ask_head_falls_back_to_the_json_detail_when_the_header_is_absent", ask_head_falls_back_to_the_json_detail_when_the_header_is_absent);
   ("ask_head_maps_404_to_unknown_role", ask_head_maps_404_to_unknown_role);
   ("ask_head_reads_a_500_as_backend_down_and_a_200_junk_body_as_missing_field", ask_head_reads_a_500_as_backend_down_and_a_200_junk_body_as_missing_field);
   ("ask_head_reads_a_chunked_body", ask_head_reads_a_chunked_body);
   ("an_unreachable_head_is_backend_down_not_a_hang", an_unreachable_head_is_backend_down_not_a_hang);
   ("a_non_http_head_url_is_refused_before_dialing", a_non_http_head_url_is_refused_before_dialing);
   ("role_catalogue_skips_underscore_comment_keys", role_catalogue_skips_underscore_comment_keys);
   ("committed_m11_fixtures_drive_a_real_fragment", committed_m11_fixtures_drive_a_real_fragment);
   ("the_live_latency_matrix_shape_attaches_real_rtts_to_the_fixture", the_live_latency_matrix_shape_attaches_real_rtts_to_the_fixture);
   ("monolithic_kind_is_local_first_like_the_head", monolithic_kind_is_local_first_like_the_head);
   ("federated_kind_has_no_remote_step", federated_kind_has_no_remote_step);
   ("plan_by_kind_validates_before_planning_and_rejects_unknown_kinds", plan_by_kind_validates_before_planning_and_rejects_unknown_kinds)].

Lemma plan_tests_pass : Forall (fun t => t.2 = true) plan_tests.
Proof. apply failing_nil. vm_compute. reflexivity. Qed.
