(* ===== verification/RegistryTests.v ===== *)
(** * The registry's tests (lib.rs, [mod tests])

    Each test is a computation over a registry that starts empty. A
    [thread::sleep] is the difference between the clock readings of the calls
    around it; the machine that is discovered is an argument. *)

From stdpp Require Import base tactics option list gmap strings fin_maps.
From Stdlib Require Import Ascii String.
From S2P Require Import Prelude Str F64 Json Testing Resource Fabric FabricInv FabricSync Sysfs Adapters Store GpuDiscover Hwinfo Inventory Listing Discovery.

#[local] Open Scope Z_scope.

#[local] Instance Attachment_eq_dec : EqDecision Attachment.
Proof. solve_decision. Defined.

(** ** Fixtures *)

(** The readings of a call [ms] milliseconds into the test. *)
Definition at_ms (ms : Z) : Clock := clock_at (from_millis ms).

Definition plain_resource (id : string) (kind : ResourceKind) (node : string) : Resource :=
  {| r_id := id; r_kind := kind; r_capacity := 1; r_unit := "device"; r_node := node;
     r_state := Available; r_exclusive := true; r_attributes := ∅ |}.

(** A registry whose adapters keep nothing outside it. *)
Abbreviation Run A := (ST (Fabric ()) A) (only parsing).

Definition register_gpu : Run () := register (plain_resource "gpu.local.0" Gpu "local").
Definition register_test_resource (id : string) : Run () := register (plain_resource id Device "test-node").

Definition from_empty (test : Run bool) : bool := test_ok test (Fabric.default tt).

(** A lease nobody else may take at the same time. *)
Definition take (ms : Z) (id owner : string) (ttl_ms : Z) : Run (result FabricError Lease) :=
  lease_exclusive (at_ms ms) id owner (from_millis ttl_ms).

(** ** Leases *)

Definition exclusive_resource_cannot_be_double_booked_and_can_be_released : bool :=
  from_empty (
    _ ← register_gpu;
    let! lease := take 0 "gpu.local.0" "mission-a" 30000 in
    refused ← take 1 "gpu.local.0" "mission-b" 30000;
    let! _ := release lease in
    again ← take 2 "gpu.local.0" "mission-b" 30000;
    mret (assert_eq refused (Err ResourceAlreadyLeased) && is_ok again)).

Definition local_cpu_discovery_registers_a_usable_resource (parallelism : option Z) : bool :=
  let resource := local_cpu "local" parallelism in
  assert_eq (r_kind resource) Cpu && bool_decide (1 <= r_capacity resource).

Definition adapter_attachment_carries_the_authorized_lease : bool :=
  let resource := plain_resource "storage.local.0" Storage "local" in
  let lease := {| l_id := 42; l_resource_id := r_id resource; l_owner := "mission-a" |} in
  unwrap (ad_attach LocalProofAdapter resource lease tt).1 (fun attachment =>
    assert_eq (at_lease_id attachment) (l_id lease) && assert_eq (at_adapter attachment) "local-proof"
    && assert_eq (at_details attachment) ∅).

Definition host_inventory_includes_cpu_and_memory_resources (m : Machine) : bool :=
  let resources := inventory_of m "test-host" in
  existsb (fun r => bool_decide (r_kind r = Cpu)) resources
  && existsb (fun r => bool_decide (r_kind r = Memory)) resources.

Definition host_inventory_includes_fabric_store (m : Machine) : bool :=
  let resources := inventory_of m "test-host" in
  unwrap_some (List.find (fun r => String.eqb (r_id r) "local.store.fabric") resources) (fun store =>
    assert_eq (r_kind store) Storage && assert_eq (r_exclusive store) true
    && assert_eq (r_attributes store !! "store.kind") (Some "bind")
    && assert_eq (r_attributes store !! "store.path") (Some "/var/lib/nauti/store")).

(** The adapter's table is the world, and every directory can be created. *)
Definition store_adapter : ResourceAdapter (gmap Z StoreResolution) :=
  FabricStoreAdapter (fun _ w => (Ok tt, w)) (fun _ => None).

Definition fabric_store_attach_then_release_detaches : bool :=
  let resource :=
    {| r_id := "store.0"; r_kind := Storage; r_capacity := 1; r_unit := "store"; r_node := "local";
       r_state := Available; r_exclusive := true;
       r_attributes := {[ "store.kind" := "bind"; "store.path" := "/tmp/nauti-fabric-store-1-0";
                          "store.tag" := "nauti" ]} |} in
  test_ok (
    _ ← register_adapter store_adapter;
    _ ← register resource;
    let! lease := lease_exclusive (at_ms 0) "store.0" "mission-store" (from_secs 30) in
    let! attachment := attach (at_ms 1) "fabric-store" lease in
    attached ← st_get;
    let! _ := release lease in
    released ← st_get;
    mret (assert_eq (at_adapter attachment) "fabric-store"
          && assert_eq (live_count (world attached)) 1%nat
          && assert_eq (live_count (world released)) 0%nat))
    (Fabric.default ∅).

Definition resources_are_returned_in_stable_order : bool :=
  from_empty (
    _ ← register (local_cpu "local" None);
    _ ← register (local_memory "local" 1024);
    fab ← st_get;
    mret (assert_eq (r_id <$> resources_sorted fab) ["local.cpu.logical"; "local.memory"])).

Definition scheduler_filters_on_resource_capabilities : bool :=
  from_empty (
    _ ← register {| r_id := "gpu.local.0"; r_kind := Gpu; r_capacity := 24; r_unit := "GiB"; r_node := "local";
                    r_state := Available; r_exclusive := true; r_attributes := {[ "vendor" := "nvidia" ]} |};
    matches ← find_available {| rq_kind := Some Gpu; rq_minimum_capacity := Some 16; rq_node := None;
                                rq_required_attributes := {[ "vendor" := "nvidia" ]}; rq_exclusive := true |};
    mret (assert_eq (length matches) 1%nat)).

Definition registered_adapter_requires_an_active_lease : bool :=
  from_empty (
    _ ← register (plain_resource "device.local.0" Device "local");
    _ ← register_adapter LocalProofAdapter;
    let! lease := take 0 "device.local.0" "mission-a" 30000 in
    let! attachment := attach (at_ms 1) "local-proof" lease in
    mret (assert_eq (at_lease_id attachment) (l_id lease))).

Definition expired_lease_is_pruned_and_resource_becomes_available_again : bool :=
  from_empty (
    _ ← register_gpu;
    let! _ := take 0 "gpu.local.0" "mission-a" 20 in
    again ← take 60 "gpu.local.0" "mission-b" 30000;
    mret (is_ok again)).

Definition attach_rejects_a_lease_that_has_already_expired : bool :=
  from_empty (
    _ ← register_gpu;
    _ ← register_adapter LocalProofAdapter;
    let! lease := take 0 "gpu.local.0" "mission-a" 20 in
    r ← attach (at_ms 60) "local-proof" lease;
    mret (assert_eq r (Err LeaseNotFound))).

Definition renewing_a_lease_extends_it_past_its_original_ttl : bool :=
  from_empty (
    _ ← register_gpu;
    _ ← register_adapter LocalProofAdapter;
    let! lease := take 0 "gpu.local.0" "mission-a" 40 in
    let! renewed := renew_lease (at_ms 20) lease (from_millis 200) in
    attached ← attach (at_ms 60) "local-proof" lease;
    refused ← take 60 "gpu.local.0" "mission-b" 30000;
    mret (assert_eq (l_id renewed) (l_id lease) && is_ok attached
          && assert_eq refused (Err ResourceAlreadyLeased))).

Definition renewing_an_expired_lease_fails : bool :=
  from_empty (
    _ ← register_gpu;
    let! lease := take 0 "gpu.local.0" "mission-a" 20 in
    r ← renew_lease (at_ms 60) lease (from_secs 30);
    mret (assert_eq r (Err LeaseNotFound))).

Definition renewing_an_unknown_lease_fails : bool :=
  from_empty (
    _ ← register_gpu;
    r ← renew_lease (at_ms 0) {| l_id := 999; l_resource_id := "gpu.local.0"; l_owner := "nobody" |} (from_secs 30);
    mret (assert_eq r (Err LeaseNotFound))).

(** ** Nodes *)

(** The first reading is far enough from the origin of the clock. *)
Definition heartbeat_keeps_a_node_fresh_and_eviction_reaps_only_the_stale : bool :=
  from_empty (
    _ ← heartbeat (at_ms 100000) "cesarops2";
    _ ← heartbeat (at_ms 100000) "cesarops4";
    first ← evict_stale_nodes (at_ms 100000) (from_secs 60);
    _ ← heartbeat (at_ms 100020) "cesarops4";
    second ← evict_stale_nodes (at_ms 100020) (from_millis 10);
    mret (assert_eq first [] && assert_eq second ["cesarops2"])).

Definition evicting_a_stale_node_unregisters_its_resources_but_never_orphans_a_lease : bool :=
  from_empty (
    _ ← heartbeat (at_ms 0) "ghost-node";
    _ ← register (plain_resource "gpu.ghost.0" Gpu "ghost-node");
    _ ← register (plain_resource "gpu.ghost.1" Gpu "ghost-node");
    let! _ := take 0 "gpu.ghost.0" "mission-a" 300000 in
    stale ← evict_stale_nodes (at_ms 15) (from_millis 10);
    fab ← st_get;
    let remaining := r_id <$> resources_sorted fab in
    mret (assert_eq stale ["ghost-node"]
          && bool_decide ("gpu.ghost.0" ∈ remaining) && bool_decide ("gpu.ghost.1" ∉ remaining))).

Definition adapter_reports_are_sorted_and_include_default_scope : bool :=
  from_empty (
    _ ← register_adapter LocalProofAdapter;
    _ ← register_adapter LocalResourceAdapter;
    _ ← register_adapter NetworkResourceAdapter;
    fab ← st_get;
    let reports := adapter_reports fab in
    mret (assert_eq (ar_name <$> reports) ["local-proof"; "local-resource"; "network-resource"]
          && forallb ar_healthy reports
          && unwrap_some (List.find (fun r => String.eqb (ar_name r) "local-proof") reports) (fun r =>
               assert_eq (ar_scope r) "unspecified"))).

(** ** [unregister] and [refresh_local] *)

Definition unregister_of_nonexistent_resource_returns_false : bool :=
  from_empty (let! removed := unregister "nope" in mret (assert_eq removed false)).

Definition unregister_removes_a_registered_resource : bool :=
  from_empty (
    _ ← register_test_resource "device.0";
    before ← st_get;
    let! removed := unregister "device.0" in
    after ← st_get;
    mret (bool_decide (is_Some (resource "device.0" before)) && assert_eq removed true
          && assert_eq (resource "device.0" after) None)).

Definition unregister_rejects_a_leased_resource : bool :=
  from_empty (
    _ ← register_test_resource "device.0";
    let! lease := take 0 "device.0" "mission-a" 30000 in
    let~ err := unregister "device.0" in
    refused ← st_get;
    let! _ := release lease in
    let! removed := unregister "device.0" in
    mret (assert_eq err ResourceAlreadyLeased && bool_decide (is_Some (resource "device.0" refused))
          && assert_eq removed true)).

Definition refresh_local_on_empty_fabric_reports_no_changes (m : Machine) : bool :=
  from_empty (
    report ← refresh_on (fun _ => None) m "test-node";
    fab ← st_get;
    mret (bool_decide ((list_to_set (r_id <$> resources_sorted fab) : gset string)
                       = list_to_set (rr_added report)))).

Definition refresh_local_is_idempotent_on_a_second_call (m : Machine) : bool :=
  from_empty (
    first ← refresh_on (fun _ => None) m "test-node";
    second ← refresh_on (fun _ => None) m "test-node";
    mret (assert_eq (rr_added second) [] && assert_eq (rr_removed second) []
          && assert_eq (rr_blocked_by_lease second) [] && negb (assert_eq (rr_added first) []))).

(** ** The suite *)

(** The tests of the machine run on [demo_machine]. *)
Definition registry_tests : list (string * bool) :=
  [("exclusive_resource_cannot_be_double_booked_and_can_be_released",
      exclusive_resource_cannot_be_double_booked_and_can_be_released);
   ("local_cpu_discovery_registers_a_usable_resource",
      local_cpu_discovery_registers_a_usable_resource (Some 8) && local_cpu_discovery_registers_a_usable_resource None);
   ("adapter_attachment_carries_the_authorized_lease", adapter_attachment_carries_the_authorized_lease);
   ("host_inventory_includes_cpu_and_memory_resources",
      host_inventory_includes_cpu_and_memory_resources demo_machine);
   ("host_inventory_includes_fabric_store", host_inventory_includes_fabric_store demo_machine);
   ("fabric_store_attach_then_release_detaches", fabric_store_attach_then_release_detaches);
   ("resources_are_returned_in_stable_order", resources_are_returned_in_stable_order);
   ("scheduler_filters_on_resource_capabilities", scheduler_filters_on_resource_capabilities);
   ("registered_adapter_requires_an_active_lease", registered_adapter_requires_an_active_lease);
   ("expired_lease_is_pruned_and_resource_becomes_available_again",
      expired_lease_is_pruned_and_resource_becomes_available_again);
   ("attach_rejects_a_lease_that_has_already_expired", attach_rejects_a_lease_that_has_already_expired);
   ("renewing_a_lease_extends_it_past_its_original_ttl", renewing_a_lease_extends_it_past_its_original_ttl);
   ("renewing_an_expired_lease_fails", renewing_an_expired_lease_fails);
   ("renewing_an_unknown_lease_fails", renewing_an_unknown_lease_fails);
   ("heartbeat_keeps_a_node_fresh_and_eviction_reaps_only_the_stale",
      heartbeat_keeps_a_node_fresh_and_eviction_reaps_only_the_stale);
   ("evicting_a_stale_node_unregisters_its_resources_but_never_orphans_a_lease",
      evicting_a_stale_node_unregisters_its_resources_but_never_orphans_a_lease);
   ("adapter_reports_are_sorted_and_include_default_scope", adapter_reports_are_sorted_and_include_default_scope);
   ("unregister_of_nonexistent_resource_returns_false", unregister_of_nonexistent_resource_returns_false);
   ("unregister_removes_a_registered_resource", unregister_removes_a_registered_resource);
   ("unregister_rejects_a_leased_resource", unregister_rejects_a_leased_resource);
   ("refresh_local_on_empty_fabric_reports_no_changes",
      refresh_local_on_empty_fabric_reports_no_changes demo_machine);
   ("refresh_local_is_idempotent_on_a_second_call", refresh_local_is_idempotent_on_a_second_call demo_machine)].

Lemma registry_tests_pass : Forall (fun t => t.2 = true) registry_tests.
Proof. apply failing_nil. vm_compute. reflexivity. Qed.
