(* ===== verification/AdapterTests.v ===== *)
(** * The adapters' tests (adapters.rs, store.rs, gpu/adapter.rs, memory.rs,
    peer.rs and tests/lemonade_detail.rs)

    An adapter without state runs over [()], one with a table over the table
    itself; a directory is always created, and a machine is an argument. *)

From stdpp Require Import base tactics option list gmap strings fin_maps.
From Stdlib Require Import Ascii String.
From S2P Require Import Prelude Str F64 Json Testing Resource Fabric Sysfs Adapters GpuLocal Store Inventory.

#[local] Open Scope Z_scope.

#[local] Instance StoreResolution_eq_dec : EqDecision StoreResolution.
Proof. solve_decision. Defined.
#[local] Instance PeerKind_eq_dec : EqDecision PeerKind.
Proof. solve_decision. Defined.

(** A value of a map, as [details["key"]] reads it: a missing key panics. *)
Definition at_key (m : gmap string string) (k : string) (p : string -> bool) : bool := unwrap_some (m !! k) p.
Definition contains_key (m : gmap string string) (k : string) : bool := bool_decide (is_Some (m !! k)).

(** ** adapters.rs, [mod tests] *)

Definition gpu_0 (node : string) (attributes : gmap string string) : Resource :=
  {| r_id := "gpu.0"; r_kind := Gpu; r_capacity := 1; r_unit := "device"; r_node := node;
     r_state := Available; r_exclusive := true; r_attributes := attributes |}.

Definition gpu_0_lease : Lease := {| l_id := 1; l_resource_id := "gpu.0"; l_owner := "test" |}.

Definition local_adapter_only_accepts_local_resources : bool :=
  is_ok (ad_attach LocalResourceAdapter (gpu_0 "local" ∅) gpu_0_lease tt).1
  && negb (is_ok (ad_attach LocalResourceAdapter (gpu_0 "node-b" ∅) gpu_0_lease tt).1).

Definition network_adapter_requires_a_remote_endpoint_and_protocol : bool :=
  let remote := gpu_0 "node-b"
    {[ "network.endpoint" := "node-b.example:4433"; "network.protocol" := "quic" ]} in
  unwrap (ad_attach NetworkResourceAdapter remote gpu_0_lease tt).1 (fun attachment =>
    at_key (at_details attachment) "attachment.scope" (String.eqb "network")
    && at_key (at_details attachment) "protocol" (String.eqb "quic")).

Definition local_adapter_reports_healthy_local_scope : bool :=
  let report := ad_capability_report LocalResourceAdapter tt in
  assert_eq (ar_name report) "local-resource" && assert_eq (ar_scope report) "local-host" && ar_healthy report.

Definition network_adapter_reports_healthy_remote_scope : bool :=
  let report := ad_capability_report NetworkResourceAdapter tt in
  assert_eq (ar_name report) "network-resource" && assert_eq (ar_scope report) "remote-descriptor"
  && ar_healthy report.

(** ** adapters.rs, [mod lemonade_tests] *)

Definition default_config_points_at_localhost_13305 : bool :=
  assert_eq (lc_host LemonadeConfig_default) "127.0.0.1" && assert_eq (lc_port LemonadeConfig_default) 13305.

(** [LemonadeReport::default()]. *)
Definition LemonadeReport_default : LemonadeReport :=
  {| lr_reachable := false; lr_version := None; lr_models := []; lr_amd_gpus := []; lr_loaded := [];
     lr_backends := [] |}.

Definition report_untouched_by_fixture : bool :=
  let report :=
    {| lr_reachable := true; lr_version := Some "11.9.0";
       lr_models := [{| lm_id := "Qwen3-0.6B-GGUF"; lm_backend := "llamacpp"; lm_downloaded := true;
                        lm_size_gb := Some (lit 36 2) |}];
       lr_amd_gpus := ["AMD GPU (0000:3b:00.0)"]; lr_loaded := []; lr_backends := [] |} in
  lr_reachable report && assert_eq (lr_version report) (Some "11.9.0")
  && assert_eq (length (lr_models report)) 1%nat && assert_eq (length (lr_amd_gpus report)) 1%nat.

(** Nothing listens on the port: no command of [lemonade] and no health request
    answers. *)
Definition attach_does_not_invent_health : bool :=
  let cfg := {| lc_host := "127.0.0.1"; lc_port := 1; lc_api_key := None |} in
  let resource := {| r_id := "lemonade.0"; r_kind := Device; r_capacity := 1; r_unit := "slot"; r_node := "local";
                     r_state := Available; r_exclusive := true; r_attributes := ∅ |} in
  let lease := {| l_id := 1; l_resource_id := "lemonade.0"; l_owner := "test" |} in
  let status_of (_ : ()) :=
    status to_ascii_lowercase (fun _ => None) (fun _ => None) [] (fun _ => None) None in
  unwrap (ad_attach (LemonadeAdapter status_of cfg) resource lease tt).1 (fun attachment =>
    at_key (at_details attachment) "lemonade.reachable" (String.eqb "false")).

Definition live_status : Json :=
  JObject [("models", JArray [JObject
     [("model_name", JString "Phi-3-mini-4k-instruct-Q4_K_M"); ("recipe", JString "llamacpp");
      ("device", JString "gpu"); ("status", JString "ready"); ("type", JString "llm");
      ("checkpoint", JString "bartowski/Phi-3-mini-4k-instruct-GGUF:Q4_K_M");
      ("backend_url", JString "http://127.0.0.1:8004/v1"); ("pid", json_int 3570209); ("pinned", JBool false)]]);
     ("port", json_int 13410); ("version", JString "11.9.0"); ("websocket_port", json_int 9001)].

Definition parse_status_json_live_sample : bool :=
  let json := to_text live_status in
  let '(version, loaded) := parse_status_json (parse_known [(json, live_status)]) json in
  assert_eq version (Some "11.9.0")
  && match loaded with
     | [m] => assert_eq (ll_id m) "Phi-3-mini-4k-instruct-Q4_K_M" && assert_eq (ll_recipe m) "llamacpp"
              && assert_eq (ll_device m) "gpu" && assert_eq (ll_status m) "ready"
     | _ => false
     end.

Definition parse_status_json_idle_server : bool :=
  let idle := JObject [("models", JArray []); ("version", JString "11.9.0")] in
  let '(version, loaded) := parse_status_json (parse_known [(to_text idle, idle)]) (to_text idle) in
  assert_eq version (Some "11.9.0") && match loaded with [] => true | _ => false end.

Definition parse_status_json_invalid : bool :=
  let '(version, loaded) := parse_status_json (parse_known []) "not json" in
  assert_eq version None && match loaded with [] => true | _ => false end.

Definition backend_from_launch_command_reads_the_real_backend : bool :=
  let entry := json_obj
    [("model_name", JString "Phi-3-mini-4k-instruct-Q4_K_M"); ("recipe", JString "llamacpp");
     ("device", JString "gpu");
     ("launch_command", JArray
        [JString "/home/cesarops/iced-lemcake/cache/bin/llamacpp/vulkan/llama-server";
         JString "-m"; JString "/m.gguf"; JString "--ctx-size"; JString "4096"])] in
  assert_eq (backend_from_launch_command to_ascii_lowercase entry) (Some "vulkan").

Definition backend_from_launch_command_handles_windows_separators : bool :=
  let entry := json_obj [("launch_command",
    JArray [JString "C:\Users\x\lemonade\bin\llamacpp\rocm\llama-server.exe"])] in
  assert_eq (backend_from_launch_command to_ascii_lowercase entry) (Some "rocm").

Definition backend_from_launch_command_without_launch_command_is_none : bool :=
  let entry := json_obj [("model_name", JString "Phi-3-mini-4k-instruct-Q4_K_M")] in
  assert_eq (backend_from_launch_command to_ascii_lowercase entry) None.

Definition backends_from_health_distinct_in_first_seen_order : bool :=
  let entry backend := json_obj [("launch_command",
    JArray [JString ("/bin/llamacpp/" +:+ backend +:+ "/llama-server")])] in
  let loaded entries := backends_from_health to_ascii_lowercase (json_obj [("all_models_loaded", JArray entries)]) in
  assert_eq (loaded [entry "vulkan"; entry "vulkan"]) ["vulkan"]
  && assert_eq (loaded [entry "vulkan"; entry "cpu"]) ["vulkan"; "cpu"]
  && assert_eq (loaded []) [].

(** ** tests/lemonade_detail.rs *)

Definition downloaded (id : string) (size : f64) : LemonadeModel :=
  {| lm_id := id; lm_backend := "llamacpp"; lm_downloaded := true; lm_size_gb := Some size |}.
Definition loaded (id : string) : LemonadeLoaded :=
  {| ll_id := id; ll_recipe := "llamacpp"; ll_device := "gpu"; ll_status := "ready" |}.

Definition live_report : LemonadeReport :=
  {| lr_reachable := true; lr_version := Some "2026.41.1";
     lr_models := [downloaded "Qwen3-0.6B-GGUF" (lit 36 2); downloaded "Qwen3-VL-4B-Instruct-GGUF" (lit 310 2);
                   downloaded "nomic-embed-text-v1-GGUF" (lit 7 2)];
     lr_amd_gpus := ["Radeon RX 7900 XTX (0000:03:00.0)"; "Radeon RX 7900 XTX (0000:83:00.0)"];
     lr_loaded := [loaded "Qwen3-VL-4B-Instruct-GGUF"; loaded "nomic-embed-text-v1-GGUF"];
     lr_backends := ["vulkan"] |}.

(** The report with other loaded models and backends. *)
Definition serving (loaded : list LemonadeLoaded) (backends : list string) : LemonadeReport :=
  {| lr_reachable := lr_reachable live_report; lr_version := lr_version live_report;
     lr_models := lr_models live_report; lr_amd_gpus := lr_amd_gpus live_report;
     lr_loaded := loaded; lr_backends := backends |}.

Definition lemonade_detail_live_report : bool :=
  let d := lemonade_detail live_report in
  at_key d "lemonade.reachable" (String.eqb "true") && at_key d "lemonade.version" (String.eqb "2026.41.1")
  && at_key d "lemonade.models" (String.eqb "Qwen3-VL-4B-Instruct-GGUF,nomic-embed-text-v1-GGUF")
  && at_key d "lemonade.downloaded"
       (String.eqb "Qwen3-0.6B-GGUF,Qwen3-VL-4B-Instruct-GGUF,nomic-embed-text-v1-GGUF")
  && at_key d "lemonade.backend" (String.eqb "vulkan")
  && at_key d "lemonade.amd_gpus"
       (String.eqb "Radeon RX 7900 XTX (0000:03:00.0); Radeon RX 7900 XTX (0000:83:00.0)").

Definition lemonade_detail_idle_server_is_none_loaded_and_has_no_recipe_backend : bool :=
  let d := lemonade_detail (serving [] []) in
  at_key d "lemonade.models" (String.eqb "none-loaded")
  && at_key d "lemonade.downloaded" (contains "Qwen3-0.6B-GGUF")
  && negb (contains_key d "lemonade.backend")
  && negb (existsb (fun kv => String.eqb kv.2 "llamacpp") (map_to_list d)).

Definition lemonade_detail_omits_empty_lists_and_unknown_version : bool :=
  let d := lemonade_detail LemonadeReport_default in
  at_key d "lemonade.reachable" (String.eqb "false") && at_key d "lemonade.models" (String.eqb "none-loaded")
  && forallb (fun k => negb (contains_key d k))
       ["lemonade.version"; "lemonade.downloaded"; "lemonade.backend"; "lemonade.amd_gpus"].

Definition lemonade_detail_backends_joined_in_order : bool :=
  at_key (lemonade_detail (serving (lr_loaded live_report) ["vulkan"; "cpu"])) "lemonade.backend"
    (String.eqb "vulkan,cpu").

(** ** store.rs, [mod tests] *)

Definition store_of (id node : string) (attributes : gmap string string) : Resource :=
  {| r_id := id; r_kind := Storage; r_capacity := 1; r_unit := "store"; r_node := node;
     r_state := Available; r_exclusive := true; r_attributes := attributes |}.

Definition store_resource (id kind path : string) : Resource :=
  let attributes := {[ "store.kind" := kind; "store.path" := path; "store.tag" := "nauti" ]} in
  let attributes := if String.eqb kind "virtio-fs" then <["store.socket" := path +:+ ".sock"]> attributes
                    else attributes in
  let attributes := if String.eqb kind "nfs" then <["store.nfs_export" := "t440:/var/lib/nauti/store"]> attributes
                    else attributes in
  store_of id "local" attributes.

Definition bind_and_virtiofs_resolve_the_same_job_path : bool :=
  let dir := "/tmp/nauti-store-same-1" in
  unwrap (from_resource (store_resource "store.0" "bind" dir)) (fun bind =>
  unwrap (from_resource (store_resource "store.0" "virtio-fs" dir)) (fun fs =>
    assert_eq (job_path bind) (job_path fs) && assert_eq (sr_resource_id bind) (sr_resource_id fs)
    && unwrap_some (virtio_fs_spec fs) (contains "tag=nauti") && assert_eq (virtio_fs_spec bind) None)).

Definition nfs_requires_an_export_and_uses_it_as_the_job_path : bool :=
  let missing := store_of "store.nfs" "c2" {[ "store.kind" := "nfs"; "store.path" := "/mnt/nauti" ]} in
  unwrap_err (from_resource missing) (fun err => assert_eq err (MissingResourceAttribute "store.nfs_export"))
  && unwrap (from_resource (store_resource "store.nfs" "nfs" "/mnt/nauti")) (fun ok =>
       assert_eq (job_path ok) "t440:/var/lib/nauti/store").

(** The world is the adapter's table and the directories that were made. *)
Definition StoreWorld : Type := gmap Z StoreResolution * gset string.
#[local] Instance StoreWorld_lens : Lens StoreWorld (gmap Z StoreResolution) :=
  {| lget := fst; lput live w := (live, w.2); lget_lput _ _ := eq_refl |}.
Definition make_dir (path : string) (w : StoreWorld) : result string () * StoreWorld :=
  (Ok tt, (w.1, w.2 ∪ {[ path ]})).

Definition attach_then_release_detaches_cleanly : bool :=
  let dir := "/tmp/nauti-store-lease-1" in
  let adapter := FabricStoreAdapter make_dir (fun _ => None) in
  let resource := store_resource "store.0" "bind" dir in
  let lease := {| l_id := 7; l_resource_id := "store.0"; l_owner := "test" |} in
  test_ok (
    let! attachment := st_call (ad_attach adapter resource lease) in
    attached ← st_get;
    let! _ := st_call (ad_detach adapter resource lease) in
    detached ← st_get;
    mret (assert_eq (at_adapter attachment) "fabric-store"
          && at_key (at_details attachment) "store.path" (String.eqb dir)
          && assert_eq (live_count attached) 1%nat && bool_decide (dir ∈ attached.2)
          && assert_eq (live_count detached) 0%nat)) (∅, ∅).

Definition virtio_fs_without_socket_is_a_typed_error : bool :=
  let resource := store_of "store.fs" "local"
    {[ "store.kind" := "virtio-fs"; "store.path" := "/var/lib/nauti/store" ]} in
  unwrap_err (from_resource resource) (fun err => assert_eq err (MissingResourceAttribute "store.socket")).

(** ** gpu/adapter.rs, [mod tests] *)

Definition gpu_attributes_full : gmap string string :=
  {[ "gpu.name" := "Test GPU"; "gpu.uuid" := "GPU-deadbeef-0000-0000-0000-000000000000";
     "gpu.pci_bus_id" := "0000:01:00.0"; "gpu.free_memory_bytes" := "16106127360" ]}.

Definition gpu_test_resource (id : string) (kind : ResourceKind) (attributes : gmap string string) : Resource :=
  {| r_id := id; r_kind := kind; r_capacity := 1; r_unit := "device"; r_node := "local";
     r_state := Available; r_exclusive := true; r_attributes := attributes |}.
Definition gpu_test_lease (id : Z) (resource_id : string) : Lease :=
  {| l_id := id; l_resource_id := resource_id; l_owner := "test" |}.

Definition gpu_local : ResourceAdapter (gmap string GpuReservation) := GpuLocalAdapter (fun _ => 0) (fun _ => 2).
Definition reservation_count (w : gmap string GpuReservation) : nat := size w.

(** An attach under test, from the reservations [w]. *)
Definition reserve (id : string) (kind : ResourceKind) (attributes : gmap string string) (lease : Z)
    (w : gmap string GpuReservation) : result FabricError Attachment * gmap string GpuReservation :=
  ad_attach gpu_local (gpu_test_resource id kind attributes) (gpu_test_lease lease id) w.

Definition attach_rejects_non_gpu_resource : bool :=
  unwrap_err (reserve "gpu.0" Storage gpu_attributes_full 1 ∅).1 (fun err =>
    assert_eq err (IncompatibleResourceKind GpuLocal.ADAPTER_NAME Gpu Storage)).

Definition attach_rejects_resource_without_uuid_or_bdf : bool :=
  unwrap_err (reserve "gpu.0" Gpu (delete "gpu.pci_bus_id" (delete "gpu.uuid" gpu_attributes_full)) 1 ∅).1
    (fun err => match err with MissingResourceAttribute _ => true | _ => false end).

Definition attach_accepts_resource_with_only_pci_bus_id : bool :=
  unwrap (reserve "gpu.0" Gpu (delete "gpu.uuid" gpu_attributes_full) 1 ∅).1 (fun attachment =>
    assert_eq (at_adapter attachment) GpuLocal.ADAPTER_NAME
    && at_key (at_details attachment) "gpu.id" (String.eqb "0000:01:00.0")).

Definition attach_is_idempotent_on_repeat_for_same_lease : bool :=
  test_ok (
    let! first := st_call (reserve "gpu.0" Gpu gpu_attributes_full 1) in
    let! second := st_call (reserve "gpu.0" Gpu gpu_attributes_full 1) in
    w ← st_get;
    mret (assert_eq (reservation_count w) 1%nat && negb (contains_key (at_details first) "gpu.reattach")
          && at_key (at_details second) "gpu.reattach" (String.eqb "true"))) ∅.

Definition attach_separate_resources_each_get_a_reservation : bool :=
  test_ok (
    let! _ := st_call (reserve "gpu.0" Gpu gpu_attributes_full 1) in
    let! _ := st_call (reserve "gpu.1" Gpu gpu_attributes_full 2) in
    w ← st_get;
    mret (assert_eq (reservation_count w) 2%nat)) ∅.

Definition capability_report_is_honest : bool :=
  let report := ad_capability_report gpu_local ∅ in
  assert_eq (ar_name report) GpuLocal.ADAPTER_NAME && assert_eq (ar_scope report) GpuLocal.SCOPE
  && ar_healthy report && at_key (ar_detail report) "gpu.attachment_mode" (contains "no hardware binding").

Definition capability_report_reflects_current_reservation_count : bool :=
  test_ok (
    let! _ := st_call (reserve "gpu.0" Gpu gpu_attributes_full 1) in
    w ← st_get;
    mret (at_key (ar_detail (ad_capability_report gpu_local w)) "reservations.current" (String.eqb "1"))) ∅.

(** ** memory.rs, [mod tests] *)

Definition discover_never_claims_live_ram (report : Memory.ResearchMemoryReport) : bool :=
  negb (Memory.rm_claimed_as_live_ram report)
  && assert_eq (r_state (Memory.as_resource report "t440")) Unavailable.

Definition attach_is_typed_refuse (report : Memory.ResearchMemoryReport) : bool :=
  let resource := Memory.as_resource report "t440" in
  let lease := {| l_id := 1; l_resource_id := r_id resource; l_owner := "test" |} in
  unwrap_err (ad_attach (Memory.ResearchMemoryAdapter (fun _ : () => report)) resource lease tt).1 (fun err =>
    match err with
    | AdapterBackendUnavailable adapter reason =>
        assert_eq adapter Memory.ADAPTER_NAME && contains "never claimed" reason
    | _ => false
    end).

(** What discovery reports, whatever the machine. *)
Definition no_files : Fs :=
  {| fs_read := fun _ => None; fs_dir := fun _ => None; fs_link := fun _ => None;
     fs_exists := fun _ => false; fs_canon := fun _ => None |}.
Definition cxl_files : Fs :=
  {| fs_read := fun _ => Some "none /mnt/famfs famfs rw 0 0"; fs_dir := fun _ => Some ["dax0.0"];
     fs_link := fun _ => None; fs_exists := fun _ => true; fs_canon := fun _ => None |}.
Definition bare_report : Memory.ResearchMemoryReport := Memory.discover no_files (fun _ => false) false.
Definition cxl_report : Memory.ResearchMemoryReport := Memory.discover cxl_files (fun _ => true) true.

(** ** peer.rs, [mod tests] *)

Definition domain (kind : PeerKind) (node : string) : PeerIdentity :=
  {| pi_node := node; pi_kind := kind;
     pi_endpoint := match kind with
                    | Bare => to_text (JObject [("nodeId", JString "bare")])
                    | Vm => "cid=3,socket=/tmp/nauti-vsock.sock"
                    end |}.

(** The names of the fields are those of the struct, whatever the values. *)
Definition bare_and_vm_result_envelopes_are_the_same_shape : bool :=
  let payload := json_obj [("store.input", JString "local.store.fabric")] in
  let job kind node := {| pj_job_id := "job-1"; pj_domain := domain kind node; pj_op := "echo";
                          pj_store_input := Some "local.store.fabric"; pj_payload := payload |} in
  let bare := run_peer_job (job Bare "t440") (json_obj [("n", json_int 1)]) in
  let vm := run_peer_job (job Vm "t440-vm0") (json_obj [("n", json_int 1)]) in
  assert_eq (pr_job_id bare) (pr_job_id vm) && assert_eq (pr_status bare) (pr_status vm)
  && assert_eq (pr_output bare) (pr_output vm)
  && negb (assert_eq (pi_kind (pr_domain bare)) (pi_kind (pr_domain vm))).

Definition killing_the_vm_does_not_change_the_bare_envelope : bool :=
  let bare := run_peer_job
    {| pj_job_id := "job-2"; pj_domain := domain Bare "t440"; pj_op := "ping"; pj_store_input := None;
       pj_payload := json_obj [] |} (json_obj [("alive", JBool true)]) in
  assert_eq (pr_status bare) "ok" && assert_eq (pi_kind (pr_domain bare)) Bare.

Definition default_vsock_spec_is_ch_v53_shape : bool :=
  assert_eq (default_vsock_spec "/tmp/nauti-vsock.sock") "cid=3,socket=/tmp/nauti-vsock.sock".

(** ** The suite *)

Definition adapter_tests : list (string * bool) :=
  [("local_adapter_only_accepts_local_resources", local_adapter_only_accepts_local_resources);
   ("network_adapter_requires_a_remote_endpoint_and_protocol", network_adapter_requires_a_remote_endpoint_and_protocol);
   ("local_adapter_reports_healthy_local_scope", local_adapter_reports_healthy_local_scope);
   ("network_adapter_reports_healthy_remote_scope", network_adapter_reports_healthy_remote_scope);
   ("default_config_points_at_localhost_13305", default_config_points_at_localhost_13305);
   ("report_untouched_by_fixture", report_untouched_by_fixture);
   ("attach_does_not_invent_health", attach_does_not_invent_health);
   ("parse_status_json_live_sample", parse_status_json_live_sample);
   ("parse_status_json_idle_server", parse_status_json_idle_server);
   ("parse_status_json_invalid", parse_status_json_invalid);
   ("backend_from_launch_command_reads_the_real_backend", backend_from_launch_command_reads_the_real_backend);
   ("backend_from_launch_command_handles_windows_separators", backend_from_launch_command_handles_windows_separators);
   ("backend_from_launch_command_without_launch_command_is_none", backend_from_launch_command_without_launch_command_is_none);
   ("backends_from_health_distinct_in_first_seen_order", backends_from_health_distinct_in_first_seen_order);
   ("lemonade_detail_live_report", lemonade_detail_live_report);
   ("lemonade_detail_idle_server_is_none_loaded_and_has_no_recipe_backend", lemonade_detail_idle_server_is_none_loaded_and_has_no_recipe_backend);
   ("lemonade_detail_omits_empty_lists_and_unknown_version", lemonade_detail_omits_empty_lists_and_unknown_version);
   ("lemonade_detail_backends_joined_in_order", lemonade_detail_backends_joined_in_order);
   ("bind_and_virtiofs_resolve_the_same_job_path", bind_and_virtiofs_resolve_the_same_job_path);
   ("nfs_requires_an_export_and_uses_it_as_the_job_path", nfs_requires_an_export_and_uses_it_as_the_job_path);
   ("attach_then_release_detaches_cleanly", attach_then_release_detaches_cleanly);
   ("virtio_fs_without_socket_is_a_typed_error", virtio_fs_without_socket_is_a_typed_error);
   ("attach_rejects_non_gpu_resource", attach_rejects_non_gpu_resource);
   ("attach_rejects_resource_without_uuid_or_bdf", attach_rejects_resource_without_uuid_or_bdf);
   ("attach_accepts_resource_with_only_pci_bus_id", attach_accepts_resource_with_only_pci_bus_id);
   ("attach_is_idempotent_on_repeat_for_same_lease", attach_is_idempotent_on_repeat_for_same_lease);
   ("attach_separate_resources_each_get_a_reservation", attach_separate_resources_each_get_a_reservation);
   ("capability_report_is_honest", capability_report_is_honest);
   ("capability_report_reflects_current_reservation_count", capability_report_reflects_current_reservation_count);
   ("discover_never_claims_live_ram",
      discover_never_claims_live_ram bare_report && discover_never_claims_live_ram cxl_report);
   ("attach_is_typed_refuse", attach_is_typed_refuse bare_report && attach_is_typed_refuse cxl_report);
   ("bare_and_vm_result_envelopes_are_the_same_shape", bare_and_vm_result_envelopes_are_the_same_shape);
   ("killing_the_vm_does_not_change_the_bare_envelope", killing_the_vm_does_not_change_the_bare_envelope);
   ("default_vsock_spec_is_ch_v53_shape", default_vsock_spec_is_ch_v53_shape)].

Lemma adapter_tests_pass : Forall (fun t => t.2 = true) adapter_tests.
Proof. apply failing_nil. vm_compute. reflexivity. Qed.
