(* ===== verification/VmmTests.v ===== *)
(** * The tests of the Cloud Hypervisor and VFIO adapters
    (vmm/cloud_hypervisor.rs and vmm/vfio.rs, [mod net_tests] and [mod tests])

    The mocks of the tests are a world that records the calls made to it. A
    directory the VFIO tests write is a file system with those files. *)

From stdpp Require Import base tactics option list gmap strings fin_maps.
From Stdlib Require Import Ascii String.
From S2P Require Import Prelude Str F64 Json Testing Resource Fabric Adapters Hypervisor Sysfs Vfio.

#[local] Open Scope Z_scope.

(** ** The mocks *)

(** [MockLauncher], [MockNet] and the adapter's own table. *)
Record MockVmm : Type := mkMockVmm {
  mk_managed : gmap string ManagedVm;
  mk_launches : list (string * list string);
  mk_removes : list (string * string);
  mk_running : gmap string bool;
  mk_net_calls : list string;
}.

#[local] Instance MockVmm_lens : Lens MockVmm (gmap string ManagedVm) :=
  {| lget := mk_managed;
     lput m w := mkMockVmm m (mk_launches w) (mk_removes w) (mk_running w) (mk_net_calls w);
     lget_lput _ _ := eq_refl |}.

Definition no_vms : MockVmm := mkMockVmm ∅ [] [] ∅ [].

Definition set_running (socket : string) (running : bool) (w : MockVmm) : MockVmm :=
  mkMockVmm (mk_managed w) (mk_launches w) (mk_removes w) (<[socket := running]> (mk_running w)) (mk_net_calls w).

(** The socket is looked for under [socket=]. *)
Definition mock_launch_vm (binary : string) (argv : list string) (w : MockVmm) : result string () * MockVmm :=
  let socket := head (omap (strip_prefix "socket=") argv) in
  let w := mkMockVmm (mk_managed w) (app (mk_launches w) [(binary, argv)]) (mk_removes w) (mk_running w)
             (mk_net_calls w) in
  (Ok tt, match socket with Some socket => set_running socket true w | None => w end).

Definition mock_remove_vm (api_socket vm_name : string) (w : MockVmm) : result string () * MockVmm :=
  let w := mkMockVmm (mk_managed w) (mk_launches w) (app (mk_removes w) [(api_socket, vm_name)]) (mk_running w)
             (mk_net_calls w) in
  (Ok tt, set_running api_socket false w).

Definition mock_launcher (binary_present : bool) : Launcher MockVmm :=
  {| la_type_name := "MockLauncher";
     locate_binary := fun _ _ => if binary_present then Some "/mock/cloud-hypervisor" else None;
     launch_vm := mock_launch_vm; remove_vm := mock_remove_vm;
     vm_is_running := fun api_socket w => (option.default false (mk_running w !! api_socket), w) |}.

Definition mock_net (fail : bool) : NetProvisioner MockVmm := fun attrs w =>
  (if fail then Err "tap0: bridge br-fabric missing" else Ok tt,
   mkMockVmm (mk_managed w) (mk_launches w) (mk_removes w) (mk_running w)
     (app (mk_net_calls w) [option.default EmptyString (attrs !! "vmm.net")])).

(** ** Fixtures *)

(** The device of the tests with the attributes [extra] inserted. *)
Definition device_resource (id : string) (extra : list (string * string)) : Resource :=
  {| r_id := id; r_kind := Device; r_capacity := 1; r_unit := "vm"; r_node := "local";
     r_state := Available; r_exclusive := true;
     r_attributes := foldl (fun m kv => <[kv.1 := kv.2]> m)
       {[ "vmm.binary" := "/does/not/exist/cloud-hypervisor";
          "vmm.api_socket" := "/tmp/nauti-test-" +:+ id +:+ ".sock";
          "vmm.kernel" := "/tmp/kernel"; "vmm.rootfs" := "/tmp/rootfs" ]} extra |}.

Definition test_vm_lease (resource_id : string) : Lease :=
  {| l_id := 1; l_resource_id := resource_id; l_owner := "test" |}.

Definition vm_adapter (binary_present net_fails : bool) : ResourceAdapter MockVmm :=
  CloudHypervisorAdapter "/mock/cloud-hypervisor" (mock_launcher binary_present) (mock_net net_fails).

(** Attaching with the launcher present, as a step of a test. *)
Definition attach_vm (r : Resource) : ST MockVmm (result FabricError Attachment) :=
  st_call (ad_attach (vm_adapter true false) r (test_vm_lease (r_id r))).

Definition managed_count (w : MockVmm) : nat := size (mk_managed w).
Definition launched_by_adapter (att : Attachment) (b : string) : bool :=
  assert_eq (at_details att !! "vmm.launched_by_adapter") (Some b).

(** What the joined argument vector contains and does not contain. *)
Definition joined_argv (r : Resource) (has : list string) (has_not : list string) : bool :=
  unwrap (build_argv r) (fun argv =>
    let joined := join " " argv in
    forallb (fun s => contains s joined) has && forallb (fun s => negb (contains s joined)) has_not).

(** ** cloud_hypervisor.rs, [mod net_tests] *)

Definition adapter_rejects_non_device_kind_resource : bool :=
  let r := device_resource "vm.0" [] in
  let r := {| r_id := r_id r; r_kind := Storage; r_capacity := r_capacity r; r_unit := r_unit r;
              r_node := r_node r; r_state := r_state r; r_exclusive := r_exclusive r;
              r_attributes := r_attributes r |} in
  test_ok (let~ error := attach_vm r in
           mret (assert_eq error (IncompatibleResourceKind "cloud-hypervisor" Device Storage))) no_vms.

Definition adapter_requires_vmm_attributes : bool :=
  let r := device_resource "vm.0" [] in
  let r := {| r_id := r_id r; r_kind := r_kind r; r_capacity := r_capacity r; r_unit := r_unit r;
              r_node := r_node r; r_state := r_state r; r_exclusive := r_exclusive r;
              r_attributes := delete "vmm.kernel" (r_attributes r) |} in
  test_ok (let~ error := attach_vm r in
           mret (assert_eq error (MissingResourceAttribute "vmm.kernel"))) no_vms.

Definition attach_rejects_when_binary_is_missing : bool :=
  unwrap_err (ad_attach (vm_adapter false false) (device_resource "vm.0" []) (test_vm_lease "vm.0") no_vms).1
    (fun error => match error with
                  | AdapterBackendUnavailable adapter _ => assert_eq adapter "cloud-hypervisor"
                  | _ => false
                  end).

Definition capability_report_is_unhealthy_when_binary_missing : bool :=
  let report := ad_capability_report (vm_adapter false false) no_vms in
  assert_eq (ar_name report) "cloud-hypervisor" && assert_eq (ar_scope report) "vmm-runtime"
  && negb (ar_healthy report) && bool_decide (is_Some (ar_detail report !! "vmm.binary")).

Definition capability_report_is_healthy_when_binary_present : bool :=
  ar_healthy (ad_capability_report (vm_adapter true false) no_vms).

Definition attach_launches_vm_on_first_call_and_no_ops_on_repeat : bool :=
  let r := device_resource "vm.0" [] in
  test_ok (
    let! first := attach_vm r in
    let! second := attach_vm r in
    w ← st_get;
    mret (assert_eq (length (mk_launches w)) 1%nat && assert_eq (managed_count w) 1%nat
          && assert_eq (at_adapter first) "cloud-hypervisor" && assert_eq (at_adapter second) "cloud-hypervisor"
          && launched_by_adapter first "true" && launched_by_adapter second "false")) no_vms.

Definition attach_no_ops_when_api_socket_already_reports_running : bool :=
  test_ok (
    let! attachment := attach_vm (device_resource "vm.0" []) in
    w ← st_get;
    mret (assert_eq (mk_launches w) [] && launched_by_adapter attachment "false"))
    (set_running "/tmp/nauti-test-vm.0.sock" true no_vms).

Definition reconcile_all : ST MockVmm (list (result string string)) :=
  st_call (reconcile (mock_launcher true) (fun m => (map_to_list m).*2)).

Definition reconcile_after_release_issues_exactly_one_remove_per_managed_vm : bool :=
  test_ok (
    let! _ := attach_vm (device_resource "vm.0" []) in
    let! _ := attach_vm (device_resource "vm.1" []) in
    attached ← st_get;
    outcomes ← reconcile_all;
    reconciled ← st_get;
    second ← reconcile_all;
    mret (assert_eq (managed_count attached) 2%nat && assert_eq (length (mk_launches attached)) 2%nat
          && assert_eq (length outcomes) 2%nat && forallb is_ok outcomes
          && assert_eq (length (mk_removes reconciled)) 2%nat && assert_eq (managed_count reconciled) 0%nat
          && assert_eq second [])) no_vms.

Definition build_argv_carries_required_flags_and_overrides : bool :=
  joined_argv (device_resource "vm.0" [("vmm.vcpus", "4"); ("vmm.memory_mib", "2048");
                                       ("vmm.virtio_blk", "/tmp/extra.raw")])
    ["--api-socket path=/tmp/nauti-test-vm.0.sock"; "--cpus boot=4"; "--memory size=2048M";
     "--kernel /tmp/kernel"; "--disk path=/tmp/rootfs"; "--disk path=/tmp/extra.raw"]
    ["--name"; "--boot"].

Definition attach_provisions_net_before_launch_and_argv_carries_it : bool :=
  test_ok (
    let! _ := attach_vm (device_resource "vm.net0" [("vmm.net", "tap=nauti0,mac=52:54:00:12:34:56")]) in
    w ← st_get;
    mret (assert_eq (mk_net_calls w) ["tap=nauti0,mac=52:54:00:12:34:56"]
          && unwrap_some (head (mk_launches w)) (fun launch =>
               contains "--net tap=nauti0,mac=52:54:00:12:34:56" (join " " launch.2)))) no_vms.

Definition attach_fails_synchronously_when_net_provisioning_fails : bool :=
  let r := device_resource "vm.net1" [("vmm.net", "tap=missing0")] in
  test_ok (
    let~ err := st_call (ad_attach (vm_adapter true true) r (test_vm_lease "vm.net1")) in
    w ← st_get;
    mret (match err with
          | AdapterBackendUnavailable adapter reason =>
              assert_eq adapter "cloud-hypervisor" && contains "br-fabric missing" reason
          | _ => false
          end && assert_eq (mk_launches w) [])) no_vms.

Definition build_argv_emits_one_device_flag_per_vfio_path : bool :=
  joined_argv (device_resource "vm.gpu0"
      [("vmm.device", "/sys/bus/pci/devices/0000:d8:00.0, /sys/bus/pci/devices/0000:d8:00.1")])
    ["--device path=/sys/bus/pci/devices/0000:d8:00.0"; "--device path=/sys/bus/pci/devices/0000:d8:00.1"] [].

Definition build_argv_emits_generic_vhost_user_for_vhost_user_socket : bool :=
  joined_argv (device_resource "vm.vhu0" [("vmm.user_device", "/tmp/nauti-vhu-rng.sock")])
    ["--generic-vhost-user"; "device_type=rng"; "socket=/tmp/nauti-vhu-rng.sock"; "queue_sizes=1024"] [].

Definition build_argv_emits_custom_vhost_user_params : bool :=
  joined_argv (device_resource "vm.vhu1"
      [("vmm.user_device", "/tmp/custom.sock"); ("vmm.user_device_type", "4");
       ("vmm.user_device_queue_sizes", "2048")])
    ["--generic-vhost-user"; "device_type=4"; "socket=/tmp/custom.sock"; "queue_sizes=2048"] [].

Definition build_argv_emits_fs_and_forces_shared_memory : bool :=
  joined_argv (device_resource "vm.fs0" [("vmm.fs", "tag=nauti,socket=/tmp/virtiofs.sock")])
    ["--fs tag=nauti,socket=/tmp/virtiofs.sock"; "--memory size=512M,shared=on";
     "--rng src=/dev/urandom,id=ch-builtin-rng"] [].

Definition build_argv_emits_vsock_and_forces_shared_memory : bool :=
  joined_argv (device_resource "vm.vs0" [("vmm.vsock", "cid=3,socket=/tmp/nauti-vsock.sock")])
    ["--vsock cid=3,socket=/tmp/nauti-vsock.sock"; "--memory size=512M,shared=on"] [].

Definition build_argv_watchdog_and_plain_memory_without_shared : bool :=
  joined_argv (device_resource "vm.wd0" [("vmm.watchdog", "on")])
    ["--watchdog"; "--memory size=512M"] ["shared=on"].

(** ** vmm/vfio.rs, [mod tests] *)

(** [MockVfioLauncher]: the opens made and the result of the next one. *)
Record MockVfio : Type := mkMockVfio {
  mf_opens : list (string * Z);
  mf_next_result : option (result string string);
}.
Definition mock_vfio : MockVfio := mkMockVfio [] None.
Definition will_return (r : result string string) (w : MockVfio) : MockVfio := mkMockVfio (mf_opens w) (Some r).

Definition mock_open (bdf : string) (iommu_group : Z) (w : MockVfio) : result string string * MockVfio :=
  (option.default (Ok ("/dev/vfio/" +:+ show iommu_group)) (mf_next_result w),
   mkMockVfio (app (mf_opens w) [(bdf, iommu_group)]) None).

(** The adapter on a host with the given files. *)
Definition vfio_adapter (t : Tree) : ResourceAdapter MockVfio := Vfio.VfioGpuAdapter (fun _ => tree_fs t) mock_open.

Definition vfio_gpu (bdf : string) (kind : ResourceKind) (attributes : gmap string string) : Resource :=
  {| r_id := "local.gpu." +:+ bdf; r_kind := kind; r_capacity := 1; r_unit := "device"; r_node := "test-node";
     r_state := Available; r_exclusive := true; r_attributes := attributes |}.
Definition vfio_attributes (bdf : string) : gmap string string :=
  {[ "gpu.name" := "Test GPU"; "gpu.uuid" := "GPU-test-uuid"; "gpu.pci_bus_id" := bdf ]}.
Definition vfio_lease (id : Z) : Lease := {| l_id := id; l_resource_id := "local.gpu.x"; l_owner := "test" |}.

(** A device directory with its class and vendor. *)
Definition fake_path (name : string) : string := "/tmp/nauti-vfio-1-" +:+ name.
Definition fake_device (name class vendor : string) : Tree :=
  mkTree [(fake_path name +:+ "/class", class +:+ str1 LF); (fake_path name +:+ "/vendor", vendor +:+ str1 LF)] [] [].

Definition is_gpu_reads_sysfs_hex_class : bool :=
  let gpu name class vendor := Vfio.is_gpu (tree_fs (fake_device name class vendor)) (fake_path name) in
  gpu "vga" "0x030000" "0x10de" && gpu "3d" "0x030200" "0x10de" && negb (gpu "nic" "0x020000" "0x8086").

Definition classify_reports_missing_iommu_before_binding : bool :=
  let classify name vendor bdf :=
    Vfio.classify_gpu (tree_fs (fake_device name "0x030000" vendor)) (fake_path name) bdf in
  match classify "noiommu" "0x10de" "0000:03:00.0" with Vfio.NoIommu _ => true | _ => false end
  && match classify "dead" "0xffff" "0000:04:00.0" with Vfio.NotPresent _ => true | _ => false end.

Definition normalize_bdf_accepts_nvml_and_short_forms : bool :=
  assert_eq (Vfio.normalize_bdf "00000000:03:00.0") "0000:03:00.0"
  && assert_eq (Vfio.normalize_bdf "0000:3B:00.0") "0000:3b:00.0"
  && assert_eq (Vfio.normalize_bdf "03:00.0") "0000:03:00.0".

(** A host whose only device is a GPU bound to vfio-pci, and one with a network
    controller. *)
Definition passthrough_host : Tree :=
  mkTree [("/sys/bus/pci/devices/0000:d8:00.0/class", "0x030000"); ("/sys/bus/pci/devices/0000:d8:00.0/vendor", "0x10de");
          ("/dev/vfio/12", "")] []
         [("/sys/bus/pci/devices/0000:d8:00.0/iommu_group", "/sys/kernel/iommu_groups/12");
          ("/sys/bus/pci/devices/0000:d8:00.0/driver", "/sys/bus/pci/drivers/vfio-pci")].
Definition nic_host : Tree :=
  mkTree [("/sys/bus/pci/devices/0000:01:00.0/class", "0x020000"); ("/sys/bus/pci/devices/0000:01:00.0/vendor", "0x8086")]
         [] [].

(** No host of the tests has a device at this address. *)
Definition absent_bdf : string := "ffff:ff:1f.7".

Definition attach_accepts_pci_bdf_attribute (host : Tree) : bool :=
  let r := vfio_gpu absent_bdf Gpu
    (<["gpu.pci_bdf" := absent_bdf]> (delete "gpu.pci_bus_id" (vfio_attributes absent_bdf))) in
  unwrap_err (ad_attach (vfio_adapter host) r (vfio_lease 1) mock_vfio).1 (fun err =>
    match err with AdapterBackendUnavailable _ _ => true | _ => false end).

Definition attach_rejects_non_gpu_resource (host : Tree) : bool :=
  let r := vfio_gpu "0000:01:00.0" Storage (vfio_attributes "0000:01:00.0") in
  unwrap_err (ad_attach (vfio_adapter host) r (vfio_lease 1) mock_vfio).1 (fun err =>
    assert_eq err (IncompatibleResourceKind Vfio.ADAPTER_NAME Gpu Storage)).

Definition attach_rejects_resource_without_pci_bus_id (host : Tree) : bool :=
  let r := vfio_gpu "0000:01:00.0" Gpu (delete "gpu.pci_bus_id" (vfio_attributes "0000:01:00.0")) in
  unwrap_err (ad_attach (vfio_adapter host) r (vfio_lease 1) mock_vfio).1 (fun err =>
    match err with MissingResourceAttribute _ => true | _ => false end).

Definition attach_returns_unavailable_when_device_not_present (host : Tree) : bool :=
  let r := vfio_gpu absent_bdf Gpu (vfio_attributes absent_bdf) in
  unwrap_err (ad_attach (vfio_adapter host) r (vfio_lease 1) mock_vfio).1 (fun err =>
    match err with
    | AdapterBackendUnavailable name reason =>
        assert_eq name "gpu-vfio" && (contains absent_bdf reason || contains "hot-removed" reason)
    | _ => false
    end).

Definition discover_on_this_host_runs_without_panic (host : Tree) : bool :=
  let discovery := Vfio.discover_vfio_state (tree_fs host) in
  let report := ad_capability_report (vfio_adapter host) mock_vfio in
  bool_decide (Z.of_nat (length (Vfio.vd_gpus discovery)) <= Vfio.vd_total_pci_devices discovery)
  && assert_eq (ar_name report) Vfio.ADAPTER_NAME && assert_eq (ar_scope report) Vfio.SCOPE
  && bool_decide (is_Some (ar_detail report !! "vfio.devices_available")).

(** On a host with no GPU for passthrough the test passes without an attach. *)
Definition launcher_open_failure_surfaces_as_backend_unavailable (host : Tree) : bool :=
  match List.find Vfio.is_available (Vfio.vd_gpus (Vfio.discover_vfio_state (tree_fs host))) with
  | None => true
  | Some state =>
      let r := vfio_gpu (Vfio.bdf_of state) Gpu (vfio_attributes (Vfio.bdf_of state)) in
      unwrap_err
        (ad_attach (vfio_adapter host) r (vfio_lease 1) (will_return (Err "permission denied") mock_vfio)).1
        (fun err => match err with
                    | AdapterBackendUnavailable _ reason => contains "permission denied" reason
                    | _ => false
                    end)
  end.

(** ** The suite *)

(** The hosts the VFIO tests run on. *)
Definition vfio_hosts : list Tree := [passthrough_host; nic_host; mkTree [] [] []].

Definition vmm_tests : list (string * bool) :=
  [("adapter_rejects_non_device_kind_resource", adapter_rejects_non_device_kind_resource);
   ("adapter_requires_vmm_attributes", adapter_requires_vmm_attributes);
   ("attach_rejects_when_binary_is_missing", attach_rejects_when_binary_is_missing);
   ("capability_report_is_unhealthy_when_binary_missing", capability_report_is_unhealthy_when_binary_missing);
   ("capability_report_is_healthy_when_binary_present", capability_report_is_healthy_when_binary_present);
   ("attach_launches_vm_on_first_call_and_no_ops_on_repeat", attach_launches_vm_on_first_call_and_no_ops_on_repeat);
   ("attach_no_ops_when_api_socket_already_reports_running", attach_no_ops_when_api_socket_already_reports_running);
   ("reconcile_after_release_issues_exactly_one_remove_per_managed_vm", reconcile_after_release_issues_exactly_one_remove_per_managed_vm);
   ("build_argv_carries_required_flags_and_overrides", build_argv_carries_required_flags_and_overrides);
   ("attach_provisions_net_before_launch_and_argv_carries_it", attach_provisions_net_before_launch_and_argv_carries_it);
   ("attach_fails_synchronously_when_net_provisioning_fails", attach_fails_synchronously_when_net_provisioning_fails);
   ("build_argv_emits_one_device_flag_per_vfio_path", build_argv_emits_one_device_flag_per_vfio_path);
   ("build_argv_emits_generic_vhost_user_for_vhost_user_socket", build_argv_emits_generic_vhost_user_for_vhost_user_socket);
   ("build_argv_emits_custom_vhost_user_params", build_argv_emits_custom_vhost_user_params);
   ("build_argv_emits_fs_and_forces_shared_memory", build_argv_emits_fs_and_forces_shared_memory);
   ("build_argv_emits_vsock_and_forces_shared_memory", build_argv_emits_vsock_and_forces_shared_memory);
   ("build_argv_watchdog_and_plain_memory_without_shared", build_argv_watchdog_and_plain_memory_without_shared);
   ("is_gpu_reads_sysfs_hex_class", is_gpu_reads_sysfs_hex_class);
   ("classify_reports_missing_iommu_before_binding", classify_reports_missing_iommu_before_binding);
   ("normalize_bdf_accepts_nvml_and_short_forms", normalize_bdf_accepts_nvml_and_short_forms);
   ("attach_accepts_pci_bdf_attribute", forallb attach_accepts_pci_bdf_attribute vfio_hosts);
   ("attach_rejects_non_gpu_resource", forallb attach_rejects_non_gpu_resource vfio_hosts);
   ("attach_rejects_resource_without_pci_bus_id", forallb attach_rejects_resource_without_pci_bus_id vfio_hosts);
   ("attach_returns_unavailable_when_device_not_present", forallb attach_returns_unavailable_when_device_not_present vfio_hosts);
   ("discover_on_this_host_runs_without_panic", forallb discover_on_this_host_runs_without_panic vfio_hosts);
   ("launcher_open_failure_surfaces_as_backend_unavailable", forallb launcher_open_failure_surfaces_as_backend_unavailable vfio_hosts)].

Lemma vmm_tests_pass : Forall (fun t => t.2 = true) vmm_tests.
Proof. apply failing_nil. vm_compute. reflexivity. Qed.
