(* ===== verification/HardwareTests.v ===== *)
(** * The tests of the hardware discovery (hwinfo.rs, gpu/discover.rs,
    gpu/rocm.rs, gpu/mod.rs, gpu/wgpu_remote.rs and topology.rs)

    A fake sysfs is a file tree. The tests that look at the machine they run on
    take what the machine reports as an argument. ([collect_is_infallible] says no
    more than that [Rocm.collect] returns, which is a total function.) *)

From stdpp Require Import base tactics option list gmap strings fin_maps.
From Stdlib Require Import Ascii String SpecFloat.
From S2P Require Import Prelude Str F64 Json Testing Resource Fabric Rpc Sysfs Adapters Wgpu GpuDiscover Topology Hwinfo Listing.

#[local] Open Scope Z_scope.

Definition attr_is (r : Resource) (k v : string) : bool := assert_eq (r_attributes r !! k) (Some v).

(** ** hwinfo.rs, [mod tests] *)

Definition sys_root : string := "/tmp/fake-sys".
Definition in_sys (p : string) : string := sys_root +:+ "/" +:+ p.
(** [write(&s.join(path), body)], with the line break at the end. *)
Definition sys_file (path body : string) : string * string := (in_sys path, body +:+ str1 LF).

Definition rdma_port_dir : string := "class/infiniband/rocep1s0f0/ports/1".

Definition fake_sys : Tree :=
  let pci := in_sys "devices/pci0000:00/0000:01:00.0" in
  {| tr_files :=
       [sys_file "devices/system/node/node0/cpulist" "0-23";
        sys_file "devices/system/node/node0/meminfo"
          ("Node 0 MemTotal:       1048576 kB" +:+ str1 LF +:+ "Node 0 MemFree:         524288 kB");
        sys_file "devices/system/node/node1/cpulist" "24-47";
        sys_file "devices/system/node/node1/meminfo" "Node 1 MemTotal:       2097152 kB";
        sys_file "devices/system/node/possible" "0-1";
        sys_file "devices/pci0000:00/0000:01:00.0/numa_node" "1";
        sys_file "class/net/enp1s0f0np0/operstate" "up";
        sys_file "class/net/enp1s0f0np0/speed" "25000";
        sys_file "class/net/enp1s0f0np0/mtu" "9000";
        sys_file "class/net/docker0/operstate" "down";
        sys_file "class/net/docker0/speed" "-1";
        sys_file (rdma_port_dir +:+ "/state") "4: ACTIVE";
        sys_file (rdma_port_dir +:+ "/rate") "25 Gb/sec (1X EDR)";
        sys_file (rdma_port_dir +:+ "/link_layer") "Ethernet";
        sys_file (rdma_port_dir +:+ "/gids/0") "fe80:0000:0000:0000:b026:28ff:fe3d:22d0"];
     tr_dirs := [in_sys "bus/pci/drivers/bnxt_en"; pci +:+ "/net/enp1s0f0np0"];
     tr_links :=
       [(pci +:+ "/driver", in_sys "bus/pci/drivers/bnxt_en");
        (in_sys "bus/pci/devices/0000:01:00.0", pci);
        (in_sys "class/net/enp1s0f0np0/device", pci);
        (in_sys "class/infiniband/rocep1s0f0/device", pci)] |}.

(** The tree after [write(&port.join(file), body)]. *)
Definition write_port (file body : string) (t : Tree) : Tree :=
  write_tree (in_sys (rdma_port_dir +:+ "/" +:+ file)) (body +:+ str1 LF) t.

Definition net_resource (iface : string) : Resource :=
  {| r_id := "local.network." +:+ iface; r_kind := Network; r_capacity := 0; r_unit := "unknown-bandwidth";
     r_node := "n"; r_state := Available; r_exclusive := false; r_attributes := {[ "interface" := iface ]} |}.

Definition ports_of (t : Tree) : list Resource := rdma_resources parse_decimal (tree_fs t) sys_root "n".

Definition numa_nodes_become_memory_resources : bool :=
  match Hwinfo.numa_resources (tree_fs fake_sys) sys_root "n" with
  | [n0; n1] =>
      assert_eq (r_id n0) "local.numa.0" && assert_eq (r_capacity n0) (1024 * 1024 * 1024)
      && attr_is n0 "numa.cpulist" "0-23" && attr_is n0 "numa.free_bytes" (show (512 * 1024 * 1024))
      && attr_is n1 "numa.node" "1"
  | _ => false
  end.

Definition network_gets_speed_pci_numa_and_rdma : bool :=
  let ips := {[ "enp1s0f0np0" := ["10.0.10.61/24"] ]} in
  match enrich_network (tree_fs fake_sys) sys_root [net_resource "enp1s0f0np0"; net_resource "docker0"] ips with
  | [a; v] =>
      assert_eq (r_capacity a) 25000000000 && assert_eq (r_unit a) "bits/s"
      && attr_is a "net.speed_mbps" "25000" && attr_is a "net.pci_bdf" "0000:01:00.0"
      && attr_is a "net.driver" "bnxt_en" && attr_is a "net.numa_node" "1"
      && attr_is a "net.ipv4" "10.0.10.61/24" && attr_is a "net.rdma_device" "rocep1s0f0"
      && assert_eq (r_capacity v) 0 && attr_is v "net.virtual" "true"
  | _ => false
  end.

Definition rdma_ports_are_typed_resources : bool :=
  match ports_of fake_sys with
  | [r] =>
      assert_eq (r_id r) "local.rdma.rocep1s0f0.1" && assert_eq (r_capacity r) 25000000000
      && assert_eq (r_state r) Available && r_exclusive r && attr_is r "rdma.state" "ACTIVE"
      && attr_is r "rdma.transport" "roce" && attr_is r "rdma.link_layer" "Ethernet"
      && attr_is r "rdma.netdev" "enp1s0f0np0" && attr_is r "rdma.numa_node" "1"
  | _ => false
  end.

Definition down_rdma_port_is_unavailable : bool :=
  unwrap_some (head (ports_of (write_port "rate" "2.5 Gb/sec (1X SDR)" (write_port "state" "1: DOWN" fake_sys))))
    (fun r => assert_eq (r_state r) Unavailable && assert_eq (r_capacity r) 2500000000
              && attr_is r "rdma.state" "DOWN").

Definition gpu_numa_from_pci_device : bool :=
  let gpu := {| r_id := "local.gpu.x"; r_kind := Gpu; r_capacity := 1; r_unit := "bytes"; r_node := "n";
                r_state := Available; r_exclusive := true; r_attributes := {[ "gpu.pci_bdf" := "0000:01:00.0" ]} |} in
  unwrap_some (head (enrich_gpu_numa (tree_fs fake_sys) sys_root [gpu])) (fun r => attr_is r "gpu.numa_node" "1").

Definition lease_for (id : string) : Lease := {| l_id := 7; l_resource_id := id; l_owner := "test" |}.

(** [RdmaAdapter::with_sys_root]: the world is the tree; [ip] cannot be run. *)
Definition rdma_adapter : ResourceAdapter Tree := RdmaAdapter parse_decimal sys_root tree_fs (fun _ => None).

Definition rdma_adapter_attaches_active_port_with_roce_v2_gid : bool :=
  let t := write_port "gids/3" "0000:0000:0000:0000:0000:ffff:0a00:0a3d"
    (write_port "gid_attrs/types/0" "IB/RoCE v1" (write_port "gid_attrs/types/3" "RoCE v2" fake_sys)) in
  unwrap_some (head (ports_of t)) (fun res =>
    unwrap (ad_attach rdma_adapter res (lease_for (r_id res)) t).1 (fun att =>
      assert_eq (at_adapter att) "rdma"
      && assert_eq (at_details att !! "rdma.roce_v2_gid_index") (Some "3")
      && assert_eq (at_details att !! "attachment.scope") (Some "rdma-port"))
    && ar_healthy (ad_capability_report rdma_adapter t)).

Definition rdma_adapter_refuses_port_that_went_down : bool :=
  let down := write_port "state" "1: DOWN" fake_sys in
  unwrap_some (head (ports_of fake_sys)) (fun res =>
    unwrap_err (ad_attach rdma_adapter res (lease_for (r_id res)) down).1 (fun err =>
      match err with AdapterBackendUnavailable _ _ => true | _ => false end)
    && negb (ar_healthy (ad_capability_report rdma_adapter down))).

Definition rdma_adapter_rejects_non_rdma_resource : bool :=
  let res := net_resource "enp1s0f0np0" in
  negb (is_ok (ad_attach rdma_adapter res (lease_for (r_id res)) fake_sys).1).

Definition transport_names : bool :=
  assert_eq (rdma_transport "rocep134s0f0") "roce" && assert_eq (rdma_transport "iwo1") "iwarp"
  && assert_eq (rdma_transport "mlx5_0") "roce" && assert_eq (rdma_transport "ibp1s0") "infiniband".

(** ** gpu/discover.rs, [mod tests] *)

(** What one machine answers the discovery with. *)
Record GpuHost : Type := mkGpuHost {
  gh_fs : Fs;
  gh_nvml : gmap string NvmlInfo;
  gh_rocm : gmap string Rocm.AmdTelemetry;
}.

Definition gpus_on (h : GpuHost) : result GpuDiscoveryError (list GpuDevice) :=
  GpuDiscover.discover (gh_fs h) (gh_nvml h) (gh_rocm h).

Definition discover_is_infallible (h : GpuHost) : bool := is_ok (gpus_on h).

(** Written for a machine whose NVML answers for its NVIDIA cards. *)
Definition discover_finds_nvidia_and_enriches_name (h : GpuHost) : bool :=
  unwrap (gpus_on h) (fun devices =>
    let nvidia := filter (fun d => gd_vendor d = Nvidia) devices in
    negb (bool_decide (length devices = 0%nat)) && negb (bool_decide (length nvidia = 0%nat))
    && forallb (fun g =>
         negb (String.eqb (gd_device_name g) EmptyString)
         && negb (starts_with "NVIDIA GPU (0000:00:00" (gd_device_name g))
         && bool_decide (is_Some (gd_uuid g)) && bool_decide (0 < gd_vram_total_bytes g)) nvidia).

Definition vendor_from_pci_id : bool :=
  assert_eq (from_pci_id 4318) Nvidia && assert_eq (from_pci_id 4098) Amd && assert_eq (from_pci_id 32902) Intel
  && match from_pci_id 4660 with Unknown _ => true | _ => false end.

Definition normalize_bdf_handles_nvml_padding : bool :=
  assert_eq (nvml_normalize_bdf "00000000:03:00.0") "0000:03:00.0"
  && assert_eq (nvml_normalize_bdf "0000:03:00.0") "0000:03:00.0"
  && assert_eq (nvml_normalize_bdf "") "".

Definition as_resources_skips_display_only : bool :=
  let rtx :=
    {| gd_stable_id := "0000:03:00.0"; gd_vendor := Nvidia; gd_device_name := "RTX 2060 SUPER";
       gd_vram_total_bytes := Z.shiftl 8 30; gd_vram_used_bytes := 0; gd_driver := "nvidia";
       gd_drm_card := Some 0; gd_pci_bdf := "0000:03:00.0"; gd_uuid := Some "GPU-abc"; gd_nvml_index := Some 0;
       gd_temperature_c := None; gd_utilization_pct := None; gd_display_only := false |} in
  let aspeed :=
    {| gd_stable_id := "0000:01:00.0"; gd_vendor := Unknown "0x1a03"; gd_device_name := "ASPEED BMC";
       gd_vram_total_bytes := 0; gd_vram_used_bytes := 0; gd_driver := "ast"; gd_drm_card := Some 1;
       gd_pci_bdf := "0000:01:00.0"; gd_uuid := None; gd_nvml_index := None; gd_temperature_c := None;
       gd_utilization_pct := None; gd_display_only := true |} in
  match as_resources "test-node" [rtx; aspeed] with
  | [r] => attr_is r "gpu.device_name" "RTX 2060 SUPER"
  | _ => false
  end.

(** ** gpu/rocm.rs, [mod tests] *)

Definition amd_tree (vendor : string) : Tree :=
  let dev p := "/tmp/rocm/devices/0000:03:00.0/" +:+ p in
  let line s := s +:+ str1 LF in
  {| tr_files := [(dev "vendor", vendor); (dev "product_name", line "Radeon Pro WX 5100");
                  (dev "unique_id", line "876543210987654"); (dev "mem_info_vram_total", line "8589934592");
                  (dev "mem_info_vram_used", line "640000000"); (dev "hwmon/hwmon0/temp1_input", line "45500")];
     tr_dirs := ["/tmp/rocm/class/drm/card1"];
     tr_links := [("/tmp/rocm/class/drm/card1/device", "/tmp/rocm/devices/0000:03:00.0")] |}.

Definition sysfs_enrichment_reads_amdgpu_tree : bool :=
  let map t := Rocm.sysfs_enrichment (tree_fs t) "/tmp/rocm/class/drm" in
  unwrap_some (map (amd_tree "0x1002") !! "0000:03:00.0") (fun t =>
    assert_eq (Rocm.at_product_name t) (Some "Radeon Pro WX 5100")
    && assert_eq (Rocm.at_unique_id t) (Some "876543210987654")
    && assert_eq (Rocm.at_vram_total_bytes t) (Some 8589934592)
    && assert_eq (Rocm.at_vram_used_bytes t) (Some 640000000)
    && assert_eq (Rocm.at_temperature_c t) (Some 45) && assert_eq (Rocm.at_source t) "rocm-sysfs")
  && bool_decide (~ is_Some (map (write_tree "/tmp/rocm/class/drm/card1/device/vendor" "0x10de" (amd_tree "0x1002"))
                               !! "0000:03:00.0")).

Definition human_bytes_parsing : bool :=
  assert_eq (Rocm.parse_human_bytes parse_decimal "16368.0 MB") (Some (16368 * 1024 * 1024))
  && assert_eq (Rocm.parse_human_bytes parse_decimal "8.0 GB") (Some (8 * 1024 * 1024 * 1024))
  && assert_eq (Rocm.parse_human_bytes parse_decimal "garbage") None.

Definition pct_parsing : bool :=
  assert_eq (Rocm.parse_pct parse_decimal "12") (Some 12) && assert_eq (Rocm.parse_pct parse_decimal "44.0") (Some 44)
  && assert_eq (Rocm.parse_pct parse_decimal "0%") (Some 0) && assert_eq (Rocm.parse_pct parse_decimal "") None.

(** ** gpu/mod.rs, [mod nvml_legacy::tests] *)

(** What NVML answers, device by device. *)
Definition nvml_listing (devices : list GpuDeviceReport) : result GpuError (list GpuDeviceReport) :=
  nvml_discover (fun i => ok_or (devices !! Z.to_nat i) "no such device")
    (fun d => Ok (nv_name d)) (fun d => Ok (nv_uuid d)) (fun d => Ok (nv_pci_bus_id d))
    (fun d => Ok (nv_total_memory_bytes d, nv_free_memory_bytes d)) (Ok tt) (Ok (Z.of_nat (length devices))).

Definition discover_finds_at_least_one_gpu_on_this_host (host : list GpuDeviceReport) : bool :=
  unwrap (nvml_listing host) (fun devices =>
    negb (bool_decide (length devices = 0%nat))
    && forallb (fun gpu => negb (String.eqb (nv_name gpu) EmptyString) && negb (String.eqb (nv_uuid gpu) EmptyString)
                           && bool_decide (0 < nv_total_memory_bytes gpu)) devices).

Definition as_resources_projects_one_gpu_resource_per_device (host : list GpuDeviceReport) : bool :=
  unwrap (nvml_listing host) (fun devices =>
    let resources := nvml_resources "test-node" devices in
    assert_eq (length resources) (length devices)
    && forallb (fun r => bool_decide (r_kind r = Gpu) && r_exclusive r
                         && bool_decide (is_Some (r_attributes r !! "gpu.uuid"))) resources).

(** ** gpu/wgpu_remote.rs, [mod tests] *)

Definition tailscale_v4 (a b c d : Z) : IpAddr := V4 (a, b, c, d).

Definition tailscale_cgnat_is_accepted_lan_is_not : bool :=
  Wgpu.is_tailscale_ip (tailscale_v4 100 109 55 22) && Wgpu.is_tailscale_ip (tailscale_v4 100 76 255 40)
  && negb (Wgpu.is_tailscale_ip (V4 (192, 168, 4, 38))) && negb (Wgpu.is_tailscale_ip (V4 (10, 0, 0, 1))).

Definition cpu_reference_meets_correctness_bar : bool :=
  let job := sample_job 64 in
  let out := Wgpu.cpu_add (Wgpu.wj_a job) (Wgpu.wj_b job) in
  Wgpu.correctness_ok job out && negb (Wgpu.correctness_ok job (repeat (f32_of_Z 0) 64)).

(** The text of an address plays no part. *)
Definition require_tailscale_rejects_lan_bind : bool :=
  let require ip := Wgpu.require_tailscale (fun _ => "addr") (Wgpu.mkSocketAddr ip 9110) "bind" in
  negb (is_ok (require (V4 (192, 168, 4, 38)))) && is_ok (require (V4 (100, 109, 55, 22))).

(** ** topology.rs, [mod tests] *)

(** A host: the objects hwloc reports, a nodeset being its first member. *)
Definition HwlocHost : Type := list (@PciObject Z) * list NumaObject.

Definition discover_does_not_error_on_this_host (host : HwlocHost) : bool :=
  unwrap (load_topology Some (Ok host)) (fun nodes =>
    let resources := Topology.numa_resources "local" nodes in
    assert_eq (length resources) (length nodes)
    && forallb (fun r => bool_decide (r_kind r = Memory) && String.eqb (r_node r) "local"
                         && bool_decide (is_Some (r_attributes r !! "numa.os_index"))) resources).

Definition pci_devices_are_distributed_across_numa_nodes_not_dropped (host : HwlocHost) : bool :=
  unwrap (load_topology Some (Ok host)) (fun nodes =>
    assert_eq (length (all_devices nodes)) (length host.1)).

(** ** The suite *)

(** The machines the tests run on: one with an NVIDIA card NVML knows, and
    topologies with two nodes, one node and none. *)
Definition nvidia_host : GpuHost :=
  mkGpuHost demo_fs {[ "0000:02:00.0" := mkNvmlInfo "Tesla P100" "GPU-1" 0 (2 ^ 34) 0 (Some 3) None ]} ∅.
Definition nvml_host : list GpuDeviceReport :=
  [mkGpuDeviceReport 0 "Tesla P100" "GPU-1" (2 ^ 34) (2 ^ 33) "0000:02:00.0";
   mkGpuDeviceReport 1 "RTX 2060 SUPER" "GPU-2" (2 ^ 33) (2 ^ 32) "0000:03:00.0"].
Definition hwloc_hosts : list HwlocHost :=
  let pci name sets := mkPciObject (Some name) None None sets in
  let devices := [pci "nic" [None; Some 1]; pci "gpu" [Some 0]; pci "bridge" []; pci "far" [Some 7]] in
  [(devices, [mkNumaObject (Some 0) (2 ^ 30) (Some (Some 24)); mkNumaObject (Some 1) (2 ^ 31) (Some (Some 24))]);
   (devices, [mkNumaObject (Some 0) (2 ^ 30) None]); (devices, []); ([], [])].

Definition hardware_tests : list (string * bool) :=
  [("numa_nodes_become_memory_resources", numa_nodes_become_memory_resources);
   ("network_gets_speed_pci_numa_and_rdma", network_gets_speed_pci_numa_and_rdma);
   ("rdma_ports_are_typed_resources", rdma_ports_are_typed_resources);
   ("down_rdma_port_is_unavailable", down_rdma_port_is_unavailable);
   ("gpu_numa_from_pci_device", gpu_numa_from_pci_device);
   ("rdma_adapter_attaches_active_port_with_roce_v2_gid", rdma_adapter_attaches_active_port_with_roce_v2_gid);
   ("rdma_adapter_refuses_port_that_went_down", rdma_adapter_refuses_port_that_went_down);
   ("rdma_adapter_rejects_non_rdma_resource", rdma_adapter_rejects_non_rdma_resource);
   ("transport_names", transport_names);
   ("discover_is_infallible", forallb discover_is_infallible [nvidia_host; mkGpuHost (tree_fs (amd_tree "0x1002")) ∅ ∅]);
   ("discover_finds_nvidia_and_enriches_name", discover_finds_nvidia_and_enriches_name nvidia_host);
   ("vendor_from_pci_id", vendor_from_pci_id);
   ("normalize_bdf_handles_nvml_padding", normalize_bdf_handles_nvml_padding);
   ("as_resources_skips_display_only", as_resources_skips_display_only);
   ("sysfs_enrichment_reads_amdgpu_tree", sysfs_enrichment_reads_amdgpu_tree);
   ("human_bytes_parsing", human_bytes_parsing);
   ("pct_parsing", pct_parsing);
   ("discover_finds_at_least_one_gpu_on_this_host", discover_finds_at_least_one_gpu_on_this_host nvml_host);
   ("as_resources_projects_one_gpu_resource_per_device", as_resources_projects_one_gpu_resource_per_device nvml_host);
   ("tailscale_cgnat_is_accepted_lan_is_not", tailscale_cgnat_is_accepted_lan_is_not);
   ("cpu_reference_meets_correctness_bar", cpu_reference_meets_correctness_bar);
   ("require_tailscale_rejects_lan_bind", require_tailscale_rejects_lan_bind);
   ("discover_does_not_error_on_this_host", forallb discover_does_not_error_on_this_host hwloc_hosts);
   ("pci_devices_are_distributed_across_numa_nodes_not_dropped", forallb pci_devices_are_distributed_across_numa_nodes_not_dropped hwloc_hosts)].

Lemma hardware_tests_pass : Forall (fun t => t.2 = true) hardware_tests.
Proof. apply failing_nil. vm_compute. reflexivity. Qed.
