(* ===== verification/DeviceTests.v ===== *)
(** * The tests of the virtio-rng backend and the entropy stub
    (vhost/rng.rs and vhost/entropy.rs, [mod tests])

    The mock source of the tests gives one byte to every read. Guest memory and
    the ring are libraries: a chain is its descriptors. A server of the entropy
    tests is a random source, and each connection to it a source of its own. *)

From stdpp Require Import base tactics option list gmap strings.
From Stdlib Require Import Ascii String.
From S2P Require Import Prelude Str Json Testing Resource RpcAuth Rpc VhostRng Entropy.

#[local] Open Scope Z_scope.

#[local] Instance RngError_eq_dec : EqDecision RngError.
Proof. solve_decision. Defined.

(** ** rng.rs, [mod tests] *)

Definition set_quota (quota : Z) (t : TimerConfig) : TimerConfig :=
  {| tm_period_ms := tm_period_ms t; tm_period_start := tm_period_start t; tm_max_bytes := tm_max_bytes t;
     tm_quota_remaining := quota |}.

(** [MockRng], read at the moment the timer starts. *)
Definition mock_rng (permission_denied : bool) : Env :=
  {| e_now := 0; e_woken := 0; e_locked := true;
     e_read := fun _ _ => if permission_denied then None else Some 1 |}.

Definition VRING_DESC_F_NEXT : Z := 1.
Definition VRING_DESC_F_WRITE : Z := 2.

Definition build_desc_chain (num : nat) (flags : Z) : Chain :=
  {| ch_head_index := 0;
     ch_descriptors := (fun i =>
       let f := if bool_decide (i < num - 1)%nat then Z.lor flags VRING_DESC_F_NEXT else flags in
       {| d_addr := 4096; d_len := 512; d_write_only := Z.testbit f 1 |}) <$> seq 0 num |}.

Definition config_validation : bool :=
  let config period := {| rc_socket_path := "/tmp/x.sock"; rc_source_path := "/dev/urandom";
                          rc_period_ms := period; rc_max_bytes := 512 |} in
  is_ok (rng_validate (config 1000)) && negb (is_ok (rng_validate (config 0)))
  && negb (is_ok (rng_validate (config (MAX_PERIOD_MS + 1)))).

Definition verify_process_requests : bool :=
  unwrap (rng_backend_new true 1000 512 0) (fun backend =>
    let request quota denied chain :=
      (process_requests (set_quota quota (rb_timer backend)) [(chain, mock_rng denied)]).1.1 in
    unwrap (process_requests (rb_timer backend) []).1.1 (fun ok => ok)
    && unwrap (request 256 false (build_desc_chain 1 VRING_DESC_F_WRITE)) (fun ok => ok)
    && unwrap_err (request 256 false (build_desc_chain 1 0)) (fun e => assert_eq e UnexpectedReadDescriptor)
    && unwrap_err (request 256 false (build_desc_chain 2 (Z.lor VRING_DESC_F_NEXT VRING_DESC_F_WRITE)))
         (fun e => assert_eq e (UnexpectedDescriptorCount 2))
    && unwrap_err (request 256 true (build_desc_chain 1 VRING_DESC_F_WRITE)) (fun e => assert_eq e SourceRead)).

(** What an event ends with; the queue of the test is empty. *)
Definition event_result (b : RngBackend) (device_event : Z) (evset_in : bool) : option (result RngError ()) :=
  match rng_handle_event b device_event evset_in [{| ps_queue := Some []; ps_signal_ok := true; ps_more := false |}] with
  | Some (Done r, _, _) => Some r
  | _ => None
  end.

(** Every error of the backend is an [io::Error] of kind [Other]. *)
Definition verify_handle_event : bool :=
  unwrap (rng_backend_new true 1000 512 0) (fun backend =>
    let backend := update_memory backend in
    unwrap_some (event_result backend 0 false) (fun r => negb (is_ok r))
    && unwrap_some (event_result backend 1 true) (fun r => negb (is_ok r))
    && unwrap_some (event_result backend 0 true) is_ok
    && unwrap_some (event_result (set_event_idx true backend) 0 true) is_ok).

(** The bit numbers of the virtio bindings; [queues_per_thread] and [get_config]
    are the library's defaults. *)
Definition verify_backend_contract : bool :=
  unwrap (rng_backend_new true 1000 512 0) (fun backend =>
    assert_eq num_queues NUM_QUEUES && assert_eq max_queue_size QUEUE_SIZE
    && assert_eq (rng_features 32 24 28 29 (2 ^ 30)) 6190792704
    && rb_event_idx (set_event_idx true (update_memory backend))).

(** A FIFO that blocks a reader until a writer comes: only read-write opens. *)
Definition fifo_source_opens_read_write : bool :=
  let open mode (_ : string) := match mode with ReadWrite => Ok tt | ReadOnly => Err "would block" end in
  unwrap (open_source (fun _ => true) open "/tmp/nauti-fifo-test-1/entropy.fifo") (fun mode =>
    match mode with ReadWrite => true | ReadOnly => false end).

Definition missing_source_is_typed_error : bool :=
  unwrap_err (open_source (fun _ => false) (fun _ _ => Err "No such file or directory") "/nonexistent/urandom")
    (fun err => match err with SourceOpen _ => true | _ => false end).

(** ** entropy.rs, [mod tests] *)

(** The source behind one connection: byte [c] at every position. *)
Definition source (c : nat) (_ : nat) (len : nat) : result string string := Ok (bytes (repeat c len)).

(** [spawn_server]: what a client gets from its connection. *)
Definition spawn_server (c : nat) (_ request : string) : result EntropyError Stream :=
  let '(_, sent) := serve_conn (source c) (Ok tt) (fun _ => Ok tt) {| st_bytes := request; st_finished := true |} in
  Ok {| st_bytes := sent; st_finished := true |}.

Definition roundtrip_returns_exact_length : bool :=
  unwrap (entropy_fetch (spawn_server 7) "127.0.0.1:4000" 64) (fun a =>
  unwrap (entropy_fetch (spawn_server 9) "127.0.0.1:4000" 64) (fun b =>
    assert_eq (String.length a) 64%nat && assert_eq (String.length b) 64%nat && negb (assert_eq a b))).

Definition rejects_bad_lengths : bool :=
  let protocol len := unwrap_err (entropy_fetch (spawn_server 7) "127.0.0.1:4000" len) (fun e =>
    match e with EntropyProtocol _ => true | _ => false end) in
  protocol 0 && protocol (MAX_REQUEST_BYTES + 1).

Definition dead_server_is_typed_connect_error : bool :=
  let refused addr (_ : string) := Err (EntropyConnect addr "Connection refused (os error 111)") in
  unwrap_err (entropy_fetch refused "127.0.0.1:4001" 16) (fun e =>
    match e with EntropyConnect _ _ => true | _ => false end).

(** The connection ends, and nothing was sent on it. *)
Definition server_closes_on_protocol_violation : bool :=
  let '(ended, sent) := serve_conn (source 7) (Ok tt) (fun _ => Ok tt)
    {| st_bytes := to_be_bytes 0; st_finished := false |} in
  match ended with ConnError _ | ConnClosed => true | ConnOutOfFuel => false end && assert_eq sent EmptyString.

(** The FIFO is made, and one fetch is written to it while the pump runs. *)
Definition pump_writes_fifo_from_server : bool :=
  let fetched := entropy_fetch (spawn_server 7) "127.0.0.1:4000" 256 in
  let '(ended, written) := entropy_pump false (Ok None) (Ok tt) "/tmp/nauti-pump-test-1/entropy.fifo" 256
    [(fetched, Ok tt)] in
  match ended with None => true | Some _ => false end
  && assert_eq (String.length written) 256%nat && negb (assert_eq written (bytes (repeat 0%nat 256))).

(** ** The suite *)

Definition device_tests : list (string * bool) :=
  [("config_validation", config_validation);
   ("verify_process_requests", verify_process_requests);
   ("verify_handle_event", verify_handle_event);
   ("verify_backend_contract", verify_backend_contract);
   ("fifo_source_opens_read_write", fifo_source_opens_read_write);
   ("missing_source_is_typed_error", missing_source_is_typed_error);
   ("roundtrip_returns_exact_length", roundtrip_returns_exact_length);
   ("rejects_bad_lengths", rejects_bad_lengths);
   ("dead_server_is_typed_connect_error", dead_server_is_typed_connect_error);
   ("server_closes_on_protocol_violation", server_closes_on_protocol_violation);
   ("pump_writes_fifo_from_server", pump_writes_fifo_from_server)].

Lemma device_tests_pass : Forall (fun t => t.2 = true) device_tests.
Proof. apply failing_nil. vm_compute. reflexivity. Qed.
