(* ===== verification/AgentTests.v ===== *)
(** * The tests of the agent and its command line
    (rpc_auth.rs, config.rs and bin/nauti.rs, [mod tests])

    Files are those of [AgentFiles]; a TOML text is known with the keys it
    holds, as the parser of the [toml] crate gives them. *)

From stdpp Require Import base tactics option list gmap strings fin_maps.
From Stdlib Require Import Ascii String.
From S2P Require Import Prelude Str F64 Json Testing Resource Fabric RpcAuth Config Cli AgentFiles Fleet.

#[local] Open Scope Z_scope.

(** ** rpc_auth.rs, [mod tests] *)

Definition ctx : RequestContext :=
  {| remote_endpoint_id := "remote-peer"; local_endpoint_id := "local-agent" |}.
Definition lease_request (ttl_secs : Z) : RpcRequest := LeaseExclusive "gpu.0" "test" ttl_secs.

(** [authorize(&ctx(), &request)]. *)
Definition allows (p : AuthProvider) (request : RpcRequest) : bool := is_ok (authorize p ctx request).
Definition rejects (p : AuthProvider) (request : RpcRequest) (why : AuthRejection -> bool) : bool :=
  unwrap_err (authorize p ctx request) why.

(** [{:?}] of a rejection and of the error that wraps it. *)
Definition rejection_debug (r : AuthRejection) : string :=
  match r with
  | PolicyViolation reason => "PolicyViolation { reason: " +:+ debug_str reason +:+ " }"
  | NotConfigured adapter hint =>
      "NotConfigured { adapter: " +:+ debug_str adapter +:+ ", hint: " +:+ debug_str hint +:+ " }"
  | InvalidCredential reason => "InvalidCredential { reason: " +:+ debug_str reason +:+ " }"
  end.
Definition auth_error_display (r : AuthRejection) : string := "auth rejected: " +:+ rejection_debug r.

(** No message of these tests depends on the text of a duration. *)
Definition any_duration (_ : duration) : string := "?".
Notation ttl_default := (default_ttl_bound any_duration).
Notation ttl_window := (TtlBound any_duration).

Definition no_auth_accepts_every_request : bool :=
  assert_eq (auth_name NoAuth) "none" && allows NoAuth Ping && allows NoAuth (lease_request 0)
  && allows NoAuth (lease_request u64_max).

Definition auth_error_displays_usefully : bool :=
  let err := PolicyViolation "ttl too long" in
  assert_eq (auth_error_display err)
    ("auth rejected: PolicyViolation { reason: " +:+ quote +:+ "ttl too long" +:+ quote +:+ " }")
  && contains "policy violation" (rejection_display err) && contains "ttl too long" (rejection_display err).

Definition auth_rejection_distinguishes_not_configured_from_invalid_credential : bool :=
  match NotConfigured "oauth2-bearer" "set jwks_url", InvalidCredential "expired" with
  | NotConfigured _ _, InvalidCredential _ => true
  | _, _ => false
  end.

Definition is_policy_violation (r : AuthRejection) : bool :=
  match r with PolicyViolation _ => true | _ => false end.

Definition ttl_bound_default_rejects_zero_and_huge : bool :=
  assert_eq (auth_name ttl_default) "ttl-bound"
  && rejects ttl_default (lease_request 0) is_policy_violation
  && rejects ttl_default (lease_request (24 * 60 * 60)) is_policy_violation.

Definition ttl_bound_default_accepts_a_normal_request : bool :=
  allows ttl_default (lease_request 60) && allows ttl_default (lease_request 1)
  && allows ttl_default (lease_request 3600).

Definition ttl_bound_ignores_non_lease_requests : bool :=
  let auth := ttl_window (from_secs 60) (from_secs 60) in
  allows auth Ping && allows auth Inventory
  && allows auth (Release {| l_id := 1; l_resource_id := "x"; l_owner := "y" |}).

Definition ttl_bound_configured_window_is_respected : bool :=
  let auth := ttl_window (from_secs 5) (from_secs 30) in
  negb (allows auth (lease_request 4)) && allows auth (lease_request 5) && allows auth (lease_request 30)
  && negb (allows auth (lease_request 31)).

(** The rejection is [NotConfigured] for the adapter, with a hint of this kind. *)
Definition not_configured (adapter : string) (hint_ok : string -> bool) (r : AuthRejection) : bool :=
  match r with NotConfigured a hint => assert_eq a adapter && hint_ok hint | _ => false end.

Definition oauth_stub_rejects_every_request_when_not_configured : bool :=
  let auth := OAuth2Bearer None None in
  assert_eq (auth_name auth) "oauth2-bearer"
  && rejects auth Ping (not_configured "oauth2-bearer" (contains "jwks_url")).

Definition oauth_stub_with_partial_config_still_rejects : bool :=
  rejects (OAuth2Bearer (Some "https://example.invalid/.well-known/jwks.json") None) Ping
    (not_configured "oauth2-bearer" (contains "audience")).

Definition shared_secret_stub_rejects_every_request_when_token_missing : bool :=
  assert_eq (auth_name (SharedSecret None)) "shared-secret"
  && rejects (SharedSecret None) Ping (not_configured "shared-secret" (contains "file")).

Definition shared_secret_stub_with_token_set_still_rejects_as_unimplemented : bool :=
  rejects (SharedSecret (Some "hunter2")) Ping
    (not_configured "shared-secret" (fun hint => contains "not yet implemented" hint || contains "RpcRequest" hint)).

(** ** config.rs, [mod tests] *)

(** A configuration file with this text, of which the parser gives this. *)
Definition config_of (text : string) (parsed : result string RawConfig) : result ConfigError AgentConfig :=
  from_file (fun path => String.eqb path "/tmp/agent.toml") (fun _ => Ok text)
    (fun t => if String.eqb t text then parsed else Err "unknown text") "/tmp/agent.toml".

Definition load_missing_file_returns_default : bool :=
  unwrap (from_file (fun _ => false) (fun _ => Err "absent") (fun _ => Err "absent") "/nonexistent/path.toml")
    (fun config => assert_eq (ac_method (cfg_auth config)) "none").

Definition load_valid_toml : bool :=
  let text := "node = " +:+ quote +:+ "test-node" +:+ quote +:+ str1 LF
    +:+ "fabric.auto-refresh-interval = 300" +:+ str1 LF +:+ str1 LF
    +:+ "auth.method = " +:+ quote +:+ "none" +:+ quote +:+ str1 LF in
  let parsed :=
    {| raw_node := Some "test-node"; raw_auto_refresh_interval := Some (Some 300);
       raw_auth := Some {| raw_method := Some "none"; raw_ttl := None; raw_oauth2 := None;
                           raw_shared_secret := None |};
       raw_vfio := None; raw_cloud_hypervisor := None |} in
  unwrap (config_of text (Ok parsed)) (fun config =>
    assert_eq (cfg_node config) "test-node" && assert_eq (auto_refresh_interval (cfg_fabric config)) 300
    && assert_eq (ac_method (cfg_auth config)) "none").

Definition invalid_toml_returns_error : bool :=
  unwrap_err (config_of "invalid toml [[[" (Err "expected an equals, found an identifier")) (fun err =>
    match err with InvalidToml _ => true | _ => false end).

(** With every feature compiled in, and with none. *)
Definition build_auth_provider_noauth_always_works : bool :=
  let works ft :=
    let provider := build_auth_provider (fun _ => Err "absent") any_duration ft AgentConfig_default in
    assert_eq (auth_name provider) "none"
    && is_ok (authorize provider {| remote_endpoint_id := "test"; local_endpoint_id := "local" |} Ping) in
  works (mkFeatures true true true true true) && works (mkFeatures false false false false false).

(** ** bin/nauti.rs, [mod tests] *)

#[local] Instance rtt_eq_dec : EqDecision (f64 * f64 * f64) := _.

Definition ping_rtt_parses_iputils_summary : bool :=
  let out := "5 packets transmitted, 5 received, 0% packet loss, time 804ms" +:+ str1 LF
    +:+ "rtt min/avg/max/mdev = 0.112/0.145/0.201/0.031 ms" +:+ str1 LF in
  assert_eq (parse_ping_rtt parse_decimal out) (Some (lit 112 3, lit 145 3, lit 201 3))
  && assert_eq (parse_ping_rtt parse_decimal "100% packet loss") None.

Definition path_labels_cover_fleet_prefixes : bool :=
  assert_eq (path_label "10.0.10.204") (Some "25g") && assert_eq (path_label "10.44.0.12") (Some "lan-10.44")
  && assert_eq (path_label "192.168.4.29") (Some "lan")
  && assert_eq (path_label "100.72.182.77") (Some "tailscale")
  && assert_eq (path_label "172.17.0.1") None && assert_eq (path_label "64.131.14.25") None.

Definition mk (id : string) (kind : ResourceKind) (cap : Z) (attrs : list (string * string)) : Resource :=
  {| r_id := id; r_kind := kind; r_capacity := cap; r_unit := "x"; r_node := "n"; r_state := Available;
     r_exclusive := false; r_attributes := list_to_map attrs |}.

Definition inventory_summary_counts_gpus_rdma_and_links : bool :=
  let s := summarize_inventory
    [mk "local.cpu.logical" Cpu 48 []; mk "local.memory" Memory 64 []; mk "local.numa.0" Memory 32 [];
     mk "local.numa.1" Memory 32 []; mk "local.gpu.0000_5e_00_0" Gpu 16 [("gpu.device_name", "P100")];
     mk "gpu.virtual.0" Gpu 1 []; mk "local.gpu.wgpu-remote" Gpu 1 [("gpu.transport", "tailscale")];
     mk "local.rdma.rocep1s0f0.1" Network 25 [("rdma.state", "ACTIVE")];
     mk "local.network.enp1s0f0np0" Network 25 [("interface", "enp1s0f0np0"); ("net.operstate", "up")];
     mk "local.network.docker0" Network 0 [("net.operstate", "up"); ("net.virtual", "true")]] in
  let count k := unwrap_some (as_array (index s k)) (fun l => assert_eq (length l) 1%nat) in
  assert_eq (index s "logical_cpus") (json_int 48) && assert_eq (index s "numa_nodes") (json_int 2)
  && count "gpus" && count "rdma_ports" && count "links_up".

Definition percentile_edges : bool :=
  let three := [lit 1 0; lit 2 0; lit 3 0] in
  assert_eq (percentile [] p50) (lit 0 0) && assert_eq (percentile three p50) (lit 2 0)
  && assert_eq (percentile three p95) (lit 3 0).

(** The key a path holds, generating [fresh] when there is none. *)
Definition load_key (fresh : bool) (path : string) :=
  load_or_create_key_at no_fault (fun s => s) demo_key_of demo_key_bytes fresh path.

Definition agent_key_is_created_once_and_reloaded : bool :=
  let path := "/tmp/nauti-key-test-1/n-secret.key" in
  test_ok (
    let! first := st_call (load_key true path) in
    let! second := st_call (load_key false path) in
    created ← st_get;
    let! _ := st_call (write_file no_fault (fun s => s) path "short") in
    third ← st_call (load_key false path);
    mret (assert_eq first second && unwrap_some (file_at path created) (fun e => assert_eq (e_mode e) 384)
          && negb (is_ok third))) ∅.

Definition persist_addr_json_writes_file_and_creates_parents : bool :=
  let path := "/tmp/nauti-addr-test-1/nested/test-node-addr.json" in
  let probe := to_text (JObject [("probe", JBool true)]) in
  test_ok (
    let! written := st_call (persist_addr_json_to no_fault (fun s => s) path probe) in
    t ← st_get;
    mret (unwrap (read_file no_fault written t) (fun read => assert_eq read probe))) ∅.

Definition addr_file_path_uses_node_name_in_default_dir : bool :=
  assert_eq (addr_file_path None "t440") "/var/lib/nauti/t440-addr.json"
  && assert_eq (addr_file_path None "cesarops2") "/var/lib/nauti/cesarops2-addr.json".

(** ** The suite *)

Definition agent_tests : list (string * bool) :=
  [("no_auth_accepts_every_request", no_auth_accepts_every_request);
   ("auth_error_displays_usefully", auth_error_displays_usefully);
   ("auth_rejection_distinguishes_not_configured_from_invalid_credential", auth_rejection_distinguishes_not_configured_from_invalid_credential);
   ("ttl_bound_default_rejects_zero_and_huge", ttl_bound_default_rejects_zero_and_huge);
   ("ttl_bound_default_accepts_a_normal_request", ttl_bound_default_accepts_a_normal_request);
   ("ttl_bound_ignores_non_lease_requests", ttl_bound_ignores_non_lease_requests);
   ("ttl_bound_configured_window_is_respected", ttl_bound_configured_window_is_respected);
   ("oauth_stub_rejects_every_request_when_not_configured", oauth_stub_rejects_every_request_when_not_configured);
   ("oauth_stub_with_partial_config_still_rejects", oauth_stub_with_partial_config_still_rejects);
   ("shared_secret_stub_rejects_every_request_when_token_missing", shared_secret_stub_rejects_every_request_when_token_missing);
   ("shared_secret_stub_with_token_set_still_rejects_as_unimplemented", shared_secret_stub_with_token_set_still_rejects_as_unimplemented);
   ("load_missing_file_returns_default", load_missing_file_returns_default);
   ("load_valid_toml", load_valid_toml);
   ("invalid_toml_returns_error", invalid_toml_returns_error);
   ("build_auth_provider_noauth_always_works", build_auth_provider_noauth_always_works);
   ("ping_rtt_parses_iputils_summary", ping_rtt_parses_iputils_summary);
   ("path_labels_cover_fleet_prefixes", path_labels_cover_fleet_prefixes);
   ("inventory_summary_counts_gpus_rdma_and_links", inventory_summary_counts_gpus_rdma_and_links);
   ("percentile_edges", percentile_edges);
   ("agent_key_is_created_once_and_reloaded", agent_key_is_created_once_and_reloaded);
   ("persist_addr_json_writes_file_and_creates_parents", persist_addr_json_writes_file_and_creates_parents);
   ("addr_file_path_uses_node_name_in_default_dir", addr_file_path_uses_node_name_in_default_dir)].

Lemma agent_tests_pass : Forall (fun t => t.2 = true) agent_tests.
Proof. apply failing_nil. vm_compute. reflexivity. Qed.
